(** * Token Reducer: summarization orchestration, chapter timeline,
      memory retrieval and token accounting

    A shallow embedding of [src/summarizer.js], [src/memory-manager.js] and
    [src/token-tracker.js].  JavaScript module state ([memoryCache],
    [timelineData], [lastGenTimestamp]), the host chat and the settings
    object are gathered in one record [World]; every [async] function
    becomes a computation in a state-and-exception monad over that record.
    The host application (SillyTavern) is reached through the operations of
    the class [HostAPI].

    Text is modelled by [string]; whitespace and letter case are those of
    ASCII (bytes above 127 are ordinary, caseless characters).  On ASCII
    text ([JS.isAscii]) the functions of module [JS] are those of
    JavaScript; the theorems on retrieval, which folds letter case and
    splits at whitespace, are stated for such text. *)

From Stdlib Require Import ZArith QArith Qround String Ascii List Bool Lia.
From Stdlib Require Import DecimalString Sorted Permutation Lqa.
From Stdlib Require Import Floats.SpecFloat.
From stdpp Require Import base list strings.

Open Scope string_scope.
Open Scope list_scope.
Open Scope Z_scope.

(* ================================================================= *)
(** ** JavaScript strings *)

Module JS.

(** [\s] of a regular expression and the characters [trim] strips,
    restricted to ASCII: TAB, LF, VT, FF, CR and SPACE. *)
Definition isSpace (c : ascii) : bool :=
  let n := nat_of_ascii c in
  ((9 <=? n)%nat && (n <=? 13)%nat) || (n =? 32)%nat.

Definition lowerChar (c : ascii) : ascii :=
  let n := nat_of_ascii c in
  if ((65 <=? n)%nat && (n <=? 90)%nat) then ascii_of_nat (n + 32) else c.


(** [s.toLowerCase()] on ASCII text: A-Z are folded.  JavaScript folds
    the capital letters beyond ASCII as well; what is proved through this
    function is stated for [isAscii] text. *)
Fixpoint toLowerCase (s : string) : string :=
  match s with
  | EmptyString => EmptyString
  | String c s' => String (lowerChar c) (toLowerCase s')
  end.

Fixpoint trimStart (s : string) : string :=
  match s with
  | EmptyString => EmptyString
  | String c s' => if isSpace c then trimStart s' else s
  end.

Fixpoint rev (s : string) (acc : string) : string :=
  match s with
  | EmptyString => acc
  | String c s' => rev s' (String c acc)
  end.

(** [s.trim()] *)
Definition trim (s : string) : string :=
  rev (trimStart (rev (trimStart s) "")) "".

(** A string in a boolean position: only [''] is falsy. *)
Definition truthy (s : string) : bool := negb (s =? "")%string.

(** [w.includes(word)] *)
Fixpoint includes (w word : string) : bool :=
  String.prefix word w ||
  match w with
  | EmptyString => false
  | String _ w' => includes w' word
  end.

(** [s.split(/\s+/)].  The scanner carries the field being read in [cur]
    (reversed) and [inSep] tells that the previous character belonged to a
    separator run, which has already closed a field.  As in JavaScript a
    leading or trailing run of whitespace yields an empty first or last
    field, and [''.split(/\s+/)] is [['']]. *)
Fixpoint splitWsAux (s : string) (cur : string) (inSep : bool) : list string :=
  match s with
  | EmptyString => [rev cur ""]
  | String c s' =>
      if isSpace c
      then (if inSep then splitWsAux s' "" true
            else rev cur "" :: splitWsAux s' "" true)
      else splitWsAux s' (String c cur) false
  end.

Definition splitWs (s : string) : list string := splitWsAux s "" false.

(** [s.split(',')] *)
Fixpoint splitCommaAux (s : string) (cur : string) : list string :=
  match s with
  | EmptyString => [rev cur ""]
  | String c s' =>
      if (c =? ",")%char then rev cur "" :: splitCommaAux s' ""
      else splitCommaAux s' (String c cur)
  end.

Definition splitComma (s : string) : list string := splitCommaAux s "".

(** [l.join(sep)] *)
Definition join (sep : string) (l : list string) : string := String.concat sep l.

(** [s.replace(pat, rep)] with a string pattern: the first occurrence only. *)
Fixpoint replaceFirst (pat rep s : string) : string :=
  if String.prefix pat s
  then rep +:+ String.substring (String.length pat) (String.length s - String.length pat) s
  else match s with
       | EmptyString => EmptyString
       | String c s' => String c (replaceFirst pat rep s')
       end.

(** [a.slice(0, n)] on an array. *)
Definition slice0 {A} (l : list A) (n : Z) : list A :=
  if n <? 0 then take (Z.to_nat (Z.max (Z.of_nat (length l) + n) 0)) l
  else take (Z.to_nat n) l.

(** [a.slice(-n)] for [n > 0]: the last [n] elements. *)
Definition sliceLast {A} (l : list A) (n : nat) : list A :=
  drop (length l - n)%nat l.

End JS.

(* ================================================================= *)
(** ** Data model *)

(** The metadata bag [message.extra], restricted to the fields of this
    extension.  An absent property is [None]. *)
Record Extra := mkExtra {
  tr_summary : option string;
  tr_summarized_at : option Z;
  tr_scene_end : option bool;
  tr_scene_summary : option string;
  tr_scene_start : option Z
}.

Definition emptyExtra : Extra := mkExtra None None None None None.

(** A record of the host chat ([context.chat[i]]). *)
Record Message := mkMessage {
  name : string;
  mes : string;
  is_system : bool;
  is_user : bool;
  extra : option Extra
}.

(** An entry of [memoryCache]. *)
Record Memory := mkMemory {
  mem_type : string;
  mem_mesId : option Z;
  mem_summary : string;
  mem_keywords : list string;
  mem_timestamp : Z
}.

(** An entry of [timelineData]. *)
Record Chapter := mkChapter {
  summary : string;
  startMsgId : Z;
  endMsgId : Z
}.

(** What [getChapter] returns: [{ ...chapter, number }]. *)
Record NumberedChapter := mkNumbered {
  nc_chapter : Chapter;
  number : Z
}.

(** A connection profile of [extension_settings.connectionManager.profiles]. *)
Record Profile := mkProfile {
  profile_id : string;
  profile_max_tokens : option Z
}.

(** The fields of [settings] read by the embedded functions. *)
Record Settings := mkSettings {
  summarization_profile : string;
  rate_limit : Z;
  show_notifications : string;
  summary_prompt : string;
  scene_summary_prompt : string;
  keywords_prompt : string;
  (** [settings.retrieval_query_prompt]: no default of [settings.js] sets
      it, so it is [undefined] ([None]) unless the stored settings hold it. *)
  retrieval_query_prompt : option string;
  replace_with_summary : bool;
  auto_hide_summarized : bool;
  keep_recent_count : Z;
  hide_summarized_scenes : bool;
  storage_mode : string;
  enable_llm_retrieval : bool;
  max_retrieved_memories : Z
}.

(** A call of [toastr] made through [notify]. *)
Record Toast := mkToast {
  toast_type : string;
  toast_message : string
}.

(** One role-tagged message of a generation request. *)
Record ChatMsg := mkChatMsg {
  role : string;
  content : string
}.

(** One call of [generateText]: its [content] argument and the text it
    returned, [None] when the call threw.  The trace is ghost state of the
    embedding; it stands for the calls an observer of the gateway sees. *)
Record GenCall := mkGenCall {
  gen_content : string;
  gen_result : option string
}.

(** A JavaScript value met where the code expects text: a string; any
    other truthy value (an object, an array, a number) with its property
    [content]; or a falsy value that is no string ([undefined], [null]). *)
Inductive Value :=
| Text (s : string)
| Object (content : Value)
| Undefined.

(** A value in a boolean position. *)
Definition truthyValue (v : Value) : bool :=
  match v with
  | Text s => JS.truthy s
  | Object _ => true
  | Undefined => false
  end.

(** [response?.content || response || '']: a string has no property
    [content]; an object whose [content] is empty or missing is kept
    itself. *)
Definition answerOf (response : Value) : Value :=
  match response with
  | Text s => Text s
  | Object content => if truthyValue content then content else response
  | Undefined => Text ""
  end.

(** JavaScript truthiness of optional properties. *)
Definition truthyStr (o : option string) : bool :=
  match o with Some s => JS.truthy s | None => false end.

Definition truthyNum (o : option Z) : bool :=
  match o with Some z => negb (z =? 0) | None => false end.

Definition truthyBool (o : option bool) : bool :=
  match o with Some b => b | None => false end.

(** [msg.extra?.tr_summary] and its siblings. *)
Definition extraOf (m : Message) : Extra :=
  match extra m with Some e => e | None => emptyExtra end.

Definition hasSummary (m : Message) : bool := truthyStr (tr_summary (extraOf m)).
Definition hasSceneSummary (m : Message) : bool := truthyStr (tr_scene_summary (extraOf m)).
Definition hasSceneEnd (m : Message) : bool := truthyBool (tr_scene_end (extraOf m)).

Definition nl : string := String (ascii_of_nat 10) EmptyString.

(** Decimal rendering of a number inside a template literal. *)
Definition showZ (z : Z) : string := NilZero.string_of_int (Z.to_int z).

(* ================================================================= *)
(** ** The host and the world *)

(** The operations of the host application used by the extension.  [H] is
    the state of the host that the extension cannot see (the model behind a
    connection profile, the lorebook files, the wall clock).  A result
    [None] stands for a rejected promise or a thrown exception. *)
Class HostAPI (H : Type) := {
  (** [context.getTokenCountAsync(text)] *)
  getTokenCountAsync : string -> Z;
  (** [context.parseReasoningFromString?.(result)]: the text [parsed.content]
      left once a tagged reasoning block is cut out, [None] when the host
      has no such function or returns nothing.  The host is handed whatever
      [result] holds. *)
  parseReasoningFromString : Value -> option string;
  (** [ConnectionManagerRequestService.sendRequest(profileId, messages,
      maxTokens, options)]: the value the promise resolves to. *)
  sendRequest : string -> list ChatMsg -> option Z -> H -> option Value * H;
  (** [context.saveChat()] *)
  saveChat : H -> option unit * H;
  (** [context.saveMetadata()], not awaited by its callers. *)
  saveMetadata : H -> H;
  (** [Date.now()] *)
  dateNow : H -> Z;
  (** [setTimeout] used as a sleep of the given number of milliseconds. *)
  sleep : Q -> H -> H;
  (** [getOrCreateLorebook()]: whether a lorebook can be written to. *)
  getOrCreateLorebook : H -> bool * H;
  (** Creation and saving of one lorebook entry (content, keys, title). *)
  saveLorebookEntry : string -> list string -> string -> H -> option unit * H
}.

Record World (H : Type) := mkWorld {
  chat : list Message;
  maxContext : Z;
  settings : Settings;
  profiles : list Profile;
  memoryCache : list Memory;
  timelineData : list Chapter;
  tr_timeline : option (list Chapter);
  lastGenTimestamp : Z;
  sendButtonsActive : bool;
  toasts : list Toast;
  genTrace : list GenCall;
  host : H
}.

Arguments mkWorld {H}.
Arguments chat {H}.
Arguments maxContext {H}.
Arguments settings {H}.
Arguments profiles {H}.
Arguments memoryCache {H}.
Arguments timelineData {H}.
Arguments tr_timeline {H}.
Arguments lastGenTimestamp {H}.
Arguments sendButtonsActive {H}.
Arguments toasts {H}.
Arguments genTrace {H}.
Arguments host {H}.

(** A thrown [new Error(message)]. *)
Inductive JsError := Error (message : string).

Inductive Res (A : Type) :=
| Ok (a : A)
| Throw (e : JsError).

Arguments Ok {A}.
Arguments Throw {A}.

(** Computations over the world that return or throw. *)
Definition M (H A : Type) : Type := World H -> Res A * World H.

Section Monad.
Context {H : Type}.

Definition ret {A} (a : A) : M H A := fun w => (Ok a, w).

Definition bind {A B} (m : M H A) (k : A -> M H B) : M H B :=
  fun w => match m w with
           | (Ok a, w') => k a w'
           | (Throw e, w') => (Throw e, w')
           end.

Definition throw {A} (e : JsError) : M H A := fun w => (Throw e, w).

(** [try { m } catch (err) { handler err }] *)
Definition tryCatch {A} (m : M H A) (handler : JsError -> M H A) : M H A :=
  fun w => match m w with
           | (Ok a, w') => (Ok a, w')
           | (Throw e, w') => handler e w'
           end.

(** [try { m } finally { fin }] where [fin] does not throw or return. *)
Definition tryFinally {A} (m : M H A) (fin : World H -> World H) : M H A :=
  fun w => let '(r, w') := m w in (r, fin w').

Definition get : M H (World H) := fun w => (Ok w, w).

Definition gets {A} (f : World H -> A) : M H A := fun w => (Ok (f w), w).

Definition modify (f : World H -> World H) : M H unit := fun w => (Ok tt, f w).

(** A host operation that cannot fail. *)
Definition hostDo (f : H -> H) : M H unit :=
  modify (fun w => mkWorld (chat w) (maxContext w) (settings w) (profiles w)
                     (memoryCache w) (timelineData w) (tr_timeline w)
                     (lastGenTimestamp w) (sendButtonsActive w) (toasts w)
                     (genTrace w) (f (host w))).

(** A host operation with a result. *)
Definition hostCall {A} (f : H -> A * H) : M H A :=
  fun w => let '(a, h) := f (host w) in
           (Ok a, mkWorld (chat w) (maxContext w) (settings w) (profiles w)
                    (memoryCache w) (timelineData w) (tr_timeline w)
                    (lastGenTimestamp w) (sendButtonsActive w) (toasts w)
                    (genTrace w) h).

(** A host operation that may reject; the rejection is thrown. *)
Definition hostTry {A} (what : string) (f : H -> option A * H) : M H A :=
  bind (hostCall f) (fun r => match r with
                              | Some a => ret a
                              | None => throw (Error what)
                              end).
End Monad.

Notation "x <- m ;; k" := (bind m (fun x => k))
  (at level 100, m at next level, right associativity).
Notation "m ;;; k" := (bind m (fun _ => k))
  (at level 100, right associativity).

Section Iteration.
Context {H : Type}.

(** [for (const x of l) { await body(x) }] *)
Fixpoint forEach {A} (l : list A) (body : A -> M H unit) : M H unit :=
  match l with
  | [] => ret tt
  | x :: l' => body x ;;; forEach l' body
  end.

(** A loop that threads an accumulator. *)
Fixpoint foldM {A B} (l : list A) (acc : B) (body : B -> A -> M H B) : M H B :=
  match l with
  | [] => ret acc
  | x :: l' => acc' <- body acc x ;; foldM l' acc' body
  end.
End Iteration.

(** Field updates of the world. *)
Section Updates.
Context {H : Type}.

Definition setChat (c : list Message) (w : World H) : World H :=
  mkWorld c (maxContext w) (settings w) (profiles w) (memoryCache w)
    (timelineData w) (tr_timeline w) (lastGenTimestamp w)
    (sendButtonsActive w) (toasts w) (genTrace w) (host w).

Definition setMemoryCache (c : list Memory) (w : World H) : World H :=
  mkWorld (chat w) (maxContext w) (settings w) (profiles w) c
    (timelineData w) (tr_timeline w) (lastGenTimestamp w)
    (sendButtonsActive w) (toasts w) (genTrace w) (host w).

Definition setTimelineData (t : list Chapter) (w : World H) : World H :=
  mkWorld (chat w) (maxContext w) (settings w) (profiles w) (memoryCache w)
    t (tr_timeline w) (lastGenTimestamp w)
    (sendButtonsActive w) (toasts w) (genTrace w) (host w).

Definition setTrTimeline (t : option (list Chapter)) (w : World H) : World H :=
  mkWorld (chat w) (maxContext w) (settings w) (profiles w) (memoryCache w)
    (timelineData w) t (lastGenTimestamp w)
    (sendButtonsActive w) (toasts w) (genTrace w) (host w).

Definition setLastGenTimestamp (t : Z) (w : World H) : World H :=
  mkWorld (chat w) (maxContext w) (settings w) (profiles w) (memoryCache w)
    (timelineData w) (tr_timeline w) t
    (sendButtonsActive w) (toasts w) (genTrace w) (host w).

Definition setSendButtons (b : bool) (w : World H) : World H :=
  mkWorld (chat w) (maxContext w) (settings w) (profiles w) (memoryCache w)
    (timelineData w) (tr_timeline w) (lastGenTimestamp w)
    b (toasts w) (genTrace w) (host w).

Definition pushToast (t : Toast) (w : World H) : World H :=
  mkWorld (chat w) (maxContext w) (settings w) (profiles w) (memoryCache w)
    (timelineData w) (tr_timeline w) (lastGenTimestamp w)
    (sendButtonsActive w) (toasts w ++ [t]) (genTrace w) (host w).

Definition pushGenCall (c : GenCall) (w : World H) : World H :=
  mkWorld (chat w) (maxContext w) (settings w) (profiles w) (memoryCache w)
    (timelineData w) (tr_timeline w) (lastGenTimestamp w)
    (sendButtonsActive w) (toasts w) (genTrace w ++ [c]) (host w).
End Updates.

(* ================================================================= *)
(** ** [settings.js]: notifications *)

Section Notify.
Context {H : Type}.

(** [notify(type, message)]: the toast is suppressed when notifications
    are off, and when only errors are shown and this is neither an error
    nor a warning. *)
Definition notify (type message : string) : M H unit :=
  w <- get ;;
  let mode := show_notifications (settings w) in
  if (mode =? "none")%string then ret tt
  else if (mode =? "errors")%string
            && negb (type =? "error")%string && negb (type =? "warning")%string
       then ret tt
       else modify (pushToast (mkToast type message)).
End Notify.

(* ================================================================= *)
(** ** [memory-manager.js]: the chapter timeline *)

Section Timeline.
Context {H : Type} `{HostAPI H}.

(** [saveTimelineData()] *)
Definition saveTimelineData : M H unit :=
  modify (fun w => setTrTimeline (Some (timelineData w)) w) ;;;
  hostDo saveMetadata.

(** [getChapterTimeline()] *)
Definition getChapterTimeline : M H (list Chapter) :=
  gets timelineData.

(** [getChapterCount()] *)
Definition getChapterCount : M H Z :=
  gets (fun w => Z.of_nat (length (timelineData w))).

(** [getChapter(chapterNumber)]; [None] is [null]. *)
Definition getChapter (chapterNumber : Z) : M H (option NumberedChapter) :=
  w <- get ;;
  if (chapterNumber <? 1) || (chapterNumber >? Z.of_nat (length (timelineData w)))
  then ret None
  else ret (match timelineData w !! Z.to_nat (chapterNumber - 1) with
            | Some c => Some (mkNumbered c chapterNumber)
            | None => None
            end).

(** [addChapter(summary, startMsgId, endMsgId)] *)
Definition addChapter (summary : string) (startMsgId endMsgId : Z) : M H Z :=
  let newChapter := mkChapter summary startMsgId endMsgId in
  modify (fun w => setTimelineData (timelineData w ++ [newChapter]) w) ;;;
  saveTimelineData ;;;
  gets (fun w => Z.of_nat (length (timelineData w))).

Definition setChapterSummary (newSummary : string) (c : Chapter) : Chapter :=
  mkChapter newSummary (startMsgId c) (endMsgId c).

(** [updateChapter(chapterNumber, newSummary)] *)
Definition updateChapter (chapterNumber : Z) (newSummary : string) : M H bool :=
  w <- get ;;
  if (chapterNumber <? 1) || (chapterNumber >? Z.of_nat (length (timelineData w)))
  then ret false
  else
    modify (fun w => setTimelineData
                       (alter (setChapterSummary newSummary)
                              (Z.to_nat (chapterNumber - 1)) (timelineData w)) w) ;;;
    saveTimelineData ;;;
    ret true.

(** [removeChapter(chapterNumber)]: [splice(chapterNumber - 1, 1)[0]];
    [None] is [null]. *)
Definition removeChapter (chapterNumber : Z) : M H (option Chapter) :=
  w <- get ;;
  if (chapterNumber <? 1) || (chapterNumber >? Z.of_nat (length (timelineData w)))
  then ret None
  else
    let removed := timelineData w !! Z.to_nat (chapterNumber - 1) in
    modify (fun w => setTimelineData
                       (delete (Z.to_nat (chapterNumber - 1)) (timelineData w)) w) ;;;
    saveTimelineData ;;;
    ret removed.
End Timeline.

(* ================================================================= *)
(** ** [summarizer.js]: the generation gateway *)

Section Gateway.
Context {H : Type} `{HostAPI H}.

(** [getDelayMs()]: [Math.max(500, 60000 / Number(settings.rate_limit || 60))] *)
Definition getDelayMs (s : Settings) : Q :=
  let rate := if rate_limit s =? 0 then 60 else rate_limit s in
  let d := (60000 / inject_Z rate)%Q in
  if Qle_bool 500 d then d else 500%Q.

(** [waitForRateLimit()] *)
Definition waitForRateLimit : M H unit :=
  w <- get ;;
  let delay := (getDelayMs (settings w)
                - inject_Z (dateNow (host w) - lastGenTimestamp w))%Q in
  (if Qle_bool delay 0 then ret tt else hostDo (sleep delay)) ;;;
  modify (fun w => setLastGenTimestamp (dateNow (host w)) w).

(** [getMaxTokensForProfile(profileId)] *)
Definition getMaxTokensForProfile (ps : list Profile) (profileId : string) : Z :=
  match List.find (fun p => (profile_id p =? profileId)%string) ps with
  | Some p => if truthyNum (profile_max_tokens p)
              then default 1024 (profile_max_tokens p)
              else 1024
  | None => 1024
  end.

(** The value of [result] once the answer [response] has been read and
    the reasoning parsed out of it (lines 106-111). *)
Definition resultOf (response : Value) : Value :=
  match parseReasoningFromString (answerOf response) with
  | Some parsed => Text parsed
  | None => answerOf response
  end.

(** The [TypeError] of calling a string method on a [result] that is no
    string, with its message as V8 words it. *)
Definition notAFunction (method : string) : JsError :=
  Error ("result." +:+ method +:+ " is not a function").

(** The [catch] clause of [generateText]. *)
Definition generationFailed (err : JsError) : M H unit :=
  notify "error" ("Generation failed: " +:+ match err with Error m => m end).

(** The [try]/[catch]/[finally] block of [generateText]: the value of
    [result] when the block is left.  An exception raised before the
    assignment of line 106 leaves [result] at ['']; the logging of line
    114 calls [result.substring], which throws into the same [catch] when
    [result] is no string, [result] keeping the value assigned. *)
Definition requestSummary (profileId content systemPrompt : string) : M H Value :=
  tryFinally
    (tryCatch
       (waitForRateLimit ;;;
        modify (setSendButtons false) ;;;
        let messages :=
          (if JS.truthy systemPrompt then [mkChatMsg "system" systemPrompt] else [])
          ++ [mkChatMsg "user" content] in
        maxTokens <- gets (fun w => getMaxTokensForProfile (profiles w) profileId) ;;
        response <- hostTry "sendRequest"
                      (sendRequest profileId messages (Some maxTokens)) ;;
        let result := resultOf response in
        tryCatch
          (match result with
           | Text _ => ret tt
           | _ => throw (notAFunction "substring")
           end)
          generationFailed ;;;
        ret result)
       (fun err => generationFailed err ;;; ret (Text "")))
    (setSendButtons true).

(** [generateText(content, systemPrompt)].  The final [result.trim()] is
    outside the [try]: it throws when [result] is no string.  Each call is
    appended to the ghost trace when it returns or throws. *)
Definition generateText (content systemPrompt : string) : M H string :=
  w <- get ;;
  tryCatch
    (result <-
       (if (length (chat w) =? 0)%nat then
          notify "warning" "Please open a chat first" ;;; ret ""
        else
          let profileId := summarization_profile (settings w) in
          if negb (JS.truthy profileId) then
            notify "error"
              "Please select a Summarization Profile in Token Reducer settings" ;;;
            ret ""
          else
            result <- requestSummary profileId content systemPrompt ;;
            match result with
            | Text s => ret (JS.trim s)
            | _ => throw (notAFunction "trim")
            end) ;;
     modify (pushGenCall (mkGenCall content (Some result))) ;;;
     ret result)
    (fun err =>
       modify (pushGenCall (mkGenCall content None)) ;;;
       throw err).

(** The system prompt of a template:
    [template.replace('{{content}}', '').trim()] *)
Definition systemPromptOf (template : string) : string :=
  JS.trim (JS.replaceFirst "{{content}}" "" template).

(** [generateKeywords(content)] *)
Definition generateKeywords (content : string) : M H (list string) :=
  w <- get ;;
  notify "info" "Generating keywords..." ;;;
  result <- generateText content (systemPromptOf (keywords_prompt (settings w))) ;;
  ret (take 5 (List.filter (fun k => (0 <? String.length k)%nat)
                 (List.map JS.trim (JS.splitComma result)))).
End Gateway.

(* ================================================================= *)
(** ** [memory-manager.js]: storing memories *)

Section Store.
Context {H : Type} `{HostAPI H}.

(** [storeToLorebook(summary, keywords, options)]: everything happens
    inside one [try] whose [catch] returns [null]; the world-info
    plumbing is the host's. *)
Definition storeToLorebook (summary : string) (keywords : list string)
    (title : string) : M H unit :=
  tryCatch
    (available <- hostCall getOrCreateLorebook ;;
     if negb available then ret tt
     else
       keys <- (if (length keywords =? 0)%nat then generateKeywords summary
                else ret keywords) ;;
       hostTry "saveWorldInfo" (saveLorebookEntry summary keys title))
    (fun _ => ret tt).

(** [storeMemory(summary, null, { type, mesId, title })] *)
Definition storeMemory (summary : string) (type : string) (mesId : Z)
    (title : string) : M H Memory :=
  w <- get ;;
  let memory := mkMemory (if JS.truthy type then type else "custom")
                  (Some mesId) summary [] (dateNow (host w)) in
  modify (fun w => setMemoryCache (memoryCache w ++ [memory]) w) ;;;
  (if (storage_mode (settings w) =? "lorebook")%string
      || (storage_mode (settings w) =? "both")%string
   then storeToLorebook summary [] title
   else ret tt) ;;;
  ret memory.
End Store.

(* ================================================================= *)
(** ** [summarizer.js]: summarizing messages and scenes *)

(** Indices (from [i] on) of the messages that satisfy [p]: the result of
    the scanning loops [for (let i = 0; i < chat.length; i++) if (p) push(i)]. *)
Fixpoint indicesFrom (i : Z) (p : Message -> bool) (c : list Message) : list Z :=
  match c with
  | [] => []
  | m :: c' => if p m then i :: indicesFrom (i + 1) p c' else indicesFrom (i + 1) p c'
  end.

Definition setSystem (m : Message) : Message :=
  mkMessage (name m) (mes m) true (is_user m) (extra m).

(** Marks the messages with index in [[lo, hi)] as system (hidden). *)
Definition hideRange (lo hi : Z) (c : list Message) : list Message :=
  imap (fun i m => if (lo <=? Z.of_nat i) && (Z.of_nat i <? hi) then setSystem m else m) c.

(** [if (!message.extra) message.extra = {}; message.extra.tr_summary = summary;
    message.extra.tr_summarized_at = Date.now()] *)
Definition setSummary (summary : string) (now : Z) (m : Message) : Message :=
  let e := extraOf m in
  mkMessage (name m) (mes m) (is_system m) (is_user m)
    (Some (mkExtra (Some summary) (Some now)
             (tr_scene_end e) (tr_scene_summary e) (tr_scene_start e))).

(** The four assignments that mark the end message of a scene. *)
Definition setSceneEnd (finalSummary : string) (startId now : Z) (m : Message) : Message :=
  let e := extraOf m in
  mkMessage (name m) (mes m) (is_system m) (is_user m)
    (Some (mkExtra (tr_summary e) (Some now)
             (Some true) (Some finalSummary) (Some startId))).

(** [`${msg.name}: ${msg.mes}`] *)
Definition formatMessage (m : Message) : string := name m +:+ ": " +:+ mes m.

(** State of the packing loop of [summarizeInChunks]. *)
Record ChunkState := mkChunkState {
  chunks : list string;
  currentChunk : list string;
  currentTokens : Z
}.

Section Summarizer.
Context {H : Type} `{HostAPI H}.

(** The host's [hideChatMessageRange(start, end, false)]: the messages
    [start..end] leave the context sent to the model. *)
Definition hideChatMessageRange (startId endId : Z) : M H unit :=
  modify (fun w => setChat (hideRange startId (endId + 1) (chat w)) w).

(** [autoHideSummarizedMessages(context)] *)
Definition autoHideSummarizedMessages : M H unit :=
  w <- get ;;
  let unhiddenCount := keep_recent_count (settings w) in
  let summarizedIndices :=
    indicesFrom 0 (fun m => hasSummary m && negb (is_system m)) (chat w) in
  if (length summarizedIndices =? 0)%nat then ret tt
  else
    let hideCount := Z.of_nat (length summarizedIndices) - unhiddenCount in
    if hideCount <=? 0 then ret tt
    else
      forEach (JS.slice0 summarizedIndices hideCount)
        (fun idx =>
           w' <- get ;;
           match chat w' !! Z.to_nat idx with
           | Some message =>
               if negb (is_system message) then hideChatMessageRange idx idx
               else ret tt
           | None => throw (Error "TypeError")
           end).

(** [summarizeMessage(mesId)] *)
Definition summarizeMessage (mesId : Z) : M H string :=
  w <- get ;;
  if (mesId <? 0) || (mesId >=? Z.of_nat (length (chat w)))
  then throw (Error "Invalid message ID")
  else
    match chat w !! Z.to_nat mesId with
    | None => throw (Error "TypeError")
    | Some message =>
        let content := formatMessage message in
        let systemPrompt := systemPromptOf (summary_prompt (settings w)) in
        notify "info" ("Summarizing message " +:+ showZ mesId +:+ "...") ;;;
        summary <- generateText content systemPrompt ;;
        (if JS.truthy summary then
           modify (fun w => setChat (alter (setSummary summary (dateNow (host w)))
                                       (Z.to_nat mesId) (chat w)) w) ;;;
           hostTry "saveChat" saveChat ;;;
           storeMemory summary "message" mesId
             ("Message " +:+ showZ mesId +:+ " Summary") ;;;
           w' <- get ;;
           (if auto_hide_summarized (settings w')
            then autoHideSummarizedMessages else ret tt) ;;;
           notify "success" ("Message " +:+ showZ mesId +:+ " summarized")
         else ret tt) ;;;
        ret summary
    end.

(** One turn of the packing loop of [summarizeInChunks]. *)
Definition chunkStep (maxTokens : Z) (st : ChunkState) (msg : string) : ChunkState :=
  let msgTokens := getTokenCountAsync msg in
  if (currentTokens st + msgTokens >? maxTokens)
     && (0 <? length (currentChunk st))%nat
  then mkChunkState (chunks st ++ [JS.join (nl +:+ nl) (currentChunk st)])
         [msg] msgTokens
  else mkChunkState (chunks st) (currentChunk st ++ [msg])
         (currentTokens st + msgTokens).

(** The array [chunks] once the loop is over and the last chunk pushed. *)
Definition splitIntoChunks (messages : list string) (maxTokens : Z) : list string :=
  let st := fold_left (chunkStep maxTokens) messages (mkChunkState [] [] 0) in
  if (0 <? length (currentChunk st))%nat
  then chunks st ++ [JS.join (nl +:+ nl) (currentChunk st)]
  else chunks st.

(** The loop [for (let i = 0; i < chunks.length; i++)] from index [i] on,
    [cs] being the chunks still to do: the non-empty summaries, in order. *)
Fixpoint summarizeChunksFrom (i total : Z) (cs : list string)
    (chunkSummaries : list string) : M H (list string) :=
  match cs with
  | [] => ret chunkSummaries
  | chunk :: cs' =>
      w <- get ;;
      notify "info" ("Summarizing chunk " +:+ showZ (i + 1) +:+ "/"
                     +:+ showZ total +:+ "...") ;;;
      summary <- generateText chunk
                   (systemPromptOf (scene_summary_prompt (settings w))) ;;
      summarizeChunksFrom (i + 1) total cs'
        (if JS.truthy summary then chunkSummaries ++ [summary]
         else chunkSummaries)
  end.

Definition summarizeChunks (cs : list string) : M H (list string) :=
  summarizeChunksFrom 0 (Z.of_nat (length cs)) cs [].

(** [summarizeInChunks(messages, maxTokens)] *)
Definition summarizeInChunks (messages : list string) (maxTokens : Z) : M H string :=
  chunkSummaries <- summarizeChunks (splitIntoChunks messages maxTokens) ;;
  if (1 <? length chunkSummaries)%nat then
    w <- get ;;
    notify "info" "Combining chunk summaries..." ;;;
    generateText
      (JS.join (nl +:+ nl +:+ "---" +:+ nl +:+ nl) chunkSummaries)
      (systemPromptOf (scene_summary_prompt (settings w)))
  else ret (default "" (head chunkSummaries)).

(** The visible messages of [startId..endId], formatted. *)
Definition sceneMessages (c : list Message) (startId endId : Z) : list string :=
  List.map formatMessage
    (List.filter (fun m => negb (is_system m))
       (take (Z.to_nat (endId - startId + 1)) (drop (Z.to_nat startId) c))).

(** [summarizeScene(startId, endId)] *)
Definition summarizeScene (startId endId : Z) : M H string :=
  w <- get ;;
  if (startId <? 0) || (endId >=? Z.of_nat (length (chat w))) || (startId >? endId)
  then throw (Error "Invalid message range")
  else
    let messages := sceneMessages (chat w) startId endId in
    if (length messages =? 0)%nat
    then throw (Error "No visible messages in range")
    else
      let content := JS.join (nl +:+ nl) messages in
      let maxTokens := maxContext w - 500 in
      let tokenCount := getTokenCountAsync content in
      finalSummary <-
        (if tokenCount >? maxTokens then
           notify "info" "Scene is large, summarizing in chunks..." ;;;
           summarizeInChunks messages maxTokens
         else
           notify "info" ("Summarizing scene ("
                          +:+ showZ (Z.of_nat (length messages)) +:+ " messages)...") ;;;
           generateText content (systemPromptOf (scene_summary_prompt (settings w)))) ;;
      (if JS.truthy finalSummary then
         modify (fun w => setChat (alter (setSceneEnd finalSummary startId (dateNow (host w)))
                                     (Z.to_nat endId) (chat w)) w) ;;;
         w' <- get ;;
         (if hide_summarized_scenes (settings w')
          then modify (fun w => setChat (hideRange startId endId (chat w)) w)
          else ret tt) ;;;
         hostTry "saveChat" saveChat ;;;
         storeMemory finalSummary "scene" endId
           ("Scene Summary (Messages " +:+ showZ startId +:+ "-" +:+ showZ endId +:+ ")") ;;;
         notify "success" ("Scene summarized ("
                           +:+ showZ (Z.of_nat (length messages)) +:+ " messages)")
       else ret tt) ;;;
      ret finalSummary.

(** [summarizeAllMessages()] *)
Definition summarizeAllMessages : M H Z :=
  w <- get ;;
  let toSummarize :=
    indicesFrom 0 (fun m => negb (is_system m) && negb (hasSummary m)) (chat w) in
  if (length toSummarize =? 0)%nat then
    notify "info" "All messages already summarized" ;;;
    ret 0
  else
    notify "info" ("Summarizing " +:+ showZ (Z.of_nat (length toSummarize))
                   +:+ " messages...") ;;;
    summarized <-
      foldM toSummarize 0
        (fun summarized mesId =>
           tryCatch (summarizeMessage mesId ;;; ret (summarized + 1))
                    (fun _ => ret summarized)) ;;
    notify "success" ("Summarized " +:+ showZ summarized +:+ " messages") ;;;
    ret summarized.
End Summarizer.

(** [clearAllSummaries()] on one message: the message afterwards and the
    number of times [cleared++] ran. *)
Definition clearExtraSummary (e : Extra) : Extra * Z :=
  if truthyStr (tr_summary e) then
    (mkExtra None
       (if truthyNum (tr_summarized_at e) then None else tr_summarized_at e)
       (tr_scene_end e) (tr_scene_summary e) (tr_scene_start e), 1)
  else (e, 0).

Definition clearExtraScene (e : Extra) : Extra * Z :=
  if truthyStr (tr_scene_summary e) then
    (mkExtra (tr_summary e)
       (if truthyNum (tr_summarized_at e) then None else tr_summarized_at e)
       None None None, 1)
  else (e, 0).

Definition clearMessage (m : Message) : Message * Z :=
  match extra m with
  | None => (m, 0)
  | Some e =>
      let '(e1, n1) := clearExtraSummary e in
      let '(e2, n2) := clearExtraScene e1 in
      (mkMessage (name m) (mes m) (is_system m) (is_user m) (Some e2), n1 + n2)
  end.

(** The first index [j] with [lo <= j <= hi] whose message is a scene end. *)
Definition findSceneEndIn (c : list Message) (lo hi : Z) : option Z :=
  head (List.filter (fun j => (lo <=? j) && (j <=? hi)) (indicesFrom 0 hasSceneEnd c)).

Section Batch.
Context {H : Type} `{HostAPI H}.

(** [clearAllSummaries()] *)
Definition clearAllSummaries : M H Z :=
  w <- get ;;
  let cleared := List.map clearMessage (chat w) in
  let count := fold_left Z.add (List.map snd cleared) 0 in
  modify (setChat (List.map fst cleared)) ;;;
  (if 0 <? count then
     hostTry "saveChat" saveChat ;;;
     notify "success" ("Cleared " +:+ showZ count +:+ " summaries")
   else notify "info" "No summaries to clear") ;;;
  ret count.

(** The [while (currentBlockStart < chat.length)] loop of
    [autoFillChapters].  Every turn moves [currentBlockStart] forward, so
    the loop is cut after [fuel] turns; [None] says the fuel ran out. *)
Fixpoint autoFillLoop (fuel : nat) (interval currentBlockStart created : Z)
    : M H (option Z) :=
  match fuel with
  | O => ret None
  | S fuel' =>
      w <- get ;;
      if currentBlockStart <? Z.of_nat (length (chat w)) then
        let potentialEnd := currentBlockStart + interval - 1 in
        if potentialEnd >=? Z.of_nat (length (chat w)) then ret (Some created)
        else
          match findSceneEndIn (chat w) currentBlockStart potentialEnd with
          | Some j => autoFillLoop fuel' interval (j + 1) created
          | None =>
              ok <- tryCatch (summarizeScene currentBlockStart potentialEnd ;;; ret true)
                             (fun _ => ret false) ;;
              if ok : bool
              then autoFillLoop fuel' interval (potentialEnd + 1) (created + 1)
              else autoFillLoop fuel' interval (currentBlockStart + 1) created
          end
      else ret (Some created)
  end.

(** [autoFillChapters(interval)]; the fuel covers one turn per message. *)
Definition autoFillChapters (interval : Z) : M H (option Z) :=
  if interval <? 5 then throw (Error "Interval must be at least 5 messages")
  else
    w <- get ;;
    notify "info" ("Auto-filling chapters (interval: " +:+ showZ interval +:+ ")...") ;;;
    let lastSceneEnd := List.last (indicesFrom 0 hasSceneEnd (chat w)) (-1) in
    let startScan := lastSceneEnd + 1 in
    r <- autoFillLoop (S (length (chat w))) interval startScan 0 ;;
    match r with
    | Some created =>
        (if 0 <? created
         then notify "success" ("Created " +:+ showZ created +:+ " missing chapters")
         else notify "info" "No missing chapters found to fill") ;;;
        ret (Some created)
    | None => ret None
    end.
End Batch.

(* ================================================================= *)
(** ** [memory-manager.js]: retrieval *)

(** A cache entry with its score.  Scores are JavaScript numbers; they are
    modelled by exact rationals, which is what the doubles of the source
    approximate (the count is a small integer and the age a number of
    milliseconds). *)
Record Scored := mkScored {
  scored_memory : Memory;
  score : Q
}.

(** The loop [for (const word of queryWords)]: the value of [score] before
    the age penalty. *)
Definition countMatches (queryWords summaryWords : list string) : Z :=
  fold_left
    (fun score word =>
       if (String.length word <? 3)%nat then score
       else if existsb (fun w => JS.includes w word) summaryWords then score + 1
            else score)
    queryWords 0.

(** The callback of [memoryCache.map]; [now] is [Date.now()]. *)
Definition scoreMemory (queryWords : list string) (now : Z) (memory : Memory) : Scored :=
  let summaryWords := JS.splitWs (JS.toLowerCase (mem_summary memory)) in
  let score := inject_Z (countMatches queryWords summaryWords) in
  let age := inject_Z (now - mem_timestamp memory) in
  let agePenalty := (age / inject_Z (1000 * 60 * 60 * 24))%Q in
  mkScored memory (score - agePenalty * (1 # 10))%Q.

(** [Array.prototype.sort] with a comparator is a stable sort: [x] stays in
    front of the later element [y] unless [compare(x, y) > 0]. *)
Fixpoint sortInsert {A} (compare : A -> A -> Q) (x : A) (l : list A) : list A :=
  match l with
  | [] => [x]
  | y :: l' => if Qle_bool (compare x y) 0 then x :: y :: l'
               else y :: sortInsert compare x l'
  end.

Fixpoint sortBy {A} (compare : A -> A -> Q) (l : list A) : list A :=
  match l with
  | [] => []
  | x :: l' => sortInsert compare x (sortBy compare l')
  end.

(** The backward scan for the last visible user message. *)
Definition lastUserMessage (c : list Message) : option string :=
  match List.find (fun m => is_user m && negb (is_system m)) (List.rev c) with
  | Some m => Some (mes m)
  | None => None
  end.

(** The pipeline that ends [retrieveRelevantMemories]. *)
Definition rankMemories (cache : list Memory) (queryText : string) (now limit : Z)
    : list Memory :=
  let queryWords := JS.splitWs (JS.toLowerCase queryText) in
  let scored := List.map (scoreMemory queryWords now) cache in
  List.map scored_memory
    (JS.slice0
       (sortBy (fun a b => (score b - score a)%Q)
          (List.filter (fun s => negb (Qle_bool (score s) 0)) scored))
       limit).

Section Retrieval.
Context {H : Type} `{HostAPI H}.

(** [generateRetrievalQuery(chatHistory)]; [None] is [null].
    [settings.retrieval_query_prompt.replace] stands before the [try] and
    throws when the setting is [undefined].  Inside the [try] the name
    [ConnectionManagerRequestService] is evaluated first: [memory-manager.js]
    does not import it, so this is a [ReferenceError], caught at once; no
    request is sent and the prompt is not used. *)
Definition generateRetrievalQuery (chatHistory : string) : M H (option string) :=
  w <- get ;;
  match retrieval_query_prompt (settings w) with
  | None =>
      throw (Error "Cannot read properties of undefined (reading 'replace')")
  | Some template =>
      tryCatch
        (throw (Error "ConnectionManagerRequestService is not defined"))
        (fun _ => ret None)
  end.

(** [retrieveRelevantMemories(queryText = null)] *)
Definition retrieveRelevantMemories (queryText : option string) : M H (list Memory) :=
  w <- get ;;
  queryText1 <-
    (if enable_llm_retrieval (settings w) && negb (truthyStr queryText) then
       let history := JS.join nl (List.map formatMessage (JS.sliceLast (chat w) 10)) in
       llmQuery <- generateRetrievalQuery history ;;
       ret (if truthyStr llmQuery then llmQuery else queryText)
     else ret queryText) ;;
  let queryText2 :=
    if truthyStr queryText1 then queryText1
    else match lastUserMessage (chat w) with
         | Some m => Some m
         | None => queryText1
         end in
  if negb (truthyStr queryText2) then ret []
  else
    w' <- get ;;
    ret (rankMemories (memoryCache w') (default "" queryText2)
           (dateNow (host w')) (max_retrieved_memories (settings w'))).
End Retrieval.

(* ================================================================= *)
(** ** [token-tracker.js]: token accounting *)

(** JavaScript numbers are IEEE 754 binary64 values.  The token totals are
    integers (exact below 2^53); the percentage is the one place where the
    source divides, so it is computed here on [spec_float], the executable
    specification of binary64 arithmetic of the standard library. *)
Module Number.
Definition prec : Z := 53.
Definition emax : Z := 1024.

(** The double nearest to an integer. *)
Definition ofZ (z : Z) : spec_float := binary_normalize prec emax z 0 false.

Definition sub := SFsub prec emax.
Definition mul := SFmul prec emax.
Definition div := SFdiv prec emax.
Definition leb := SFleb.

(** [Math.round(x)]: the nearest integer, ties towards +infinity, that is
    [floor(x + 1/2)] in exact arithmetic; infinities and NaN are returned
    as they are and a zero result keeps the sign of [x]. *)
Definition round (x : spec_float) : spec_float :=
  match x with
  | S754_finite s m e =>
      let n := if 0 <=? e then cond_Zopp s (Zpos m) * 2 ^ e
               else (2 * cond_Zopp s (Zpos m) + 2 ^ (- e)) / 2 ^ (- e + 1) in
      binary_normalize prec emax n 0 s
  | _ => x
  end.
End Number.

(** An item of the array built by [getTokenBreakdown]. *)
Record BreakdownItem := mkItem {
  item_mesId : Z;
  item_name : string;
  item_isUser : bool;
  item_tokens : Z;
  item_hasSummary : bool;
  item_summaryTokens : Z;
  item_savings : Z
}.

(** What [getTotalSavings] returns. *)
Record Savings := mkSavings {
  original : Z;
  current : Z;
  saved : Z;
  savedPercent : spec_float;
  summarizedCount : Z;
  potentialSaved : Z;
  totalSummaries : Z
}.

(** The three running totals of the loop of [getTotalSavings]. *)
Record Totals := mkTotals {
  totalOriginal : Z;
  totalWithSummaries : Z;
  totalSummarized : Z
}.

Section TokenTracker.
Context {H : Type} `{HostAPI H}.

(** The loop of [getTokenBreakdown] from index [i] on. *)
Fixpoint breakdownFrom (i : Z) (c : list Message) : list BreakdownItem :=
  match c with
  | [] => []
  | msg :: c' =>
      if is_system msg then breakdownFrom (i + 1) c'
      else
        let tokens := getTokenCountAsync (mes msg) in
        let hasSum := hasSummary msg in
        let summaryTokens :=
          if hasSum then getTokenCountAsync (default "" (tr_summary (extraOf msg)))
          else 0 in
        mkItem i (name msg) (is_user msg) tokens hasSum summaryTokens
          (if hasSum then tokens - summaryTokens else 0)
        :: breakdownFrom (i + 1) c'
  end.

(** [getTokenBreakdown()] *)
Definition getTokenBreakdown : M H (list BreakdownItem) :=
  gets (fun w => breakdownFrom 0 (chat w)).

(** The body of [for (const item of breakdown)]. *)
Definition addItem (replace : bool) (t : Totals) (item : BreakdownItem) : Totals :=
  if item_hasSummary item && replace
  then mkTotals (totalOriginal t + item_tokens item)
         (totalWithSummaries t + item_summaryTokens item)
         (totalSummarized t + 1)
  else mkTotals (totalOriginal t + item_tokens item)
         (totalWithSummaries t + item_tokens item)
         (totalSummarized t).

(** [Math.round((1 - totalWithSummaries / totalOriginal) * 100)] *)
Definition percentSaved (totalOriginal totalWithSummaries : Z) : spec_float :=
  if 0 <? totalOriginal
  then Number.round
         (Number.mul
            (Number.sub (Number.ofZ 1)
               (Number.div (Number.ofZ totalWithSummaries) (Number.ofZ totalOriginal)))
            (Number.ofZ 100))
  else Number.ofZ 0.

Definition totalSavings (replace : bool) (breakdown : list BreakdownItem) : Savings :=
  let t := fold_left (addItem replace) breakdown (mkTotals 0 0 0) in
  mkSavings (totalOriginal t) (totalWithSummaries t)
    (totalOriginal t - totalWithSummaries t)
    (percentSaved (totalOriginal t) (totalWithSummaries t))
    (totalSummarized t)
    (fold_left (fun acc item => acc + item_savings item) breakdown 0)
    (Z.of_nat (length (List.filter item_hasSummary breakdown))).

(** [getTotalSavings()] *)
Definition getTotalSavings : M H Savings :=
  breakdown <- getTokenBreakdown ;;
  w <- get ;;
  ret (totalSavings (replace_with_summary (settings w)) breakdown).
End TokenTracker.

(* ================================================================= *)
(** ** Two hosts to run the functions on *)

(** A host whose model answers from a script: each request takes the next
    entry, [None] being a request that throws; an exhausted script throws.
    Tokens are counted as characters, the clock advances by one millisecond
    per request and the chat can always be saved. *)
Record Scripted := mkScripted {
  script : list (option Value);
  scripted_clock : Z
}.

#[export] Instance scriptedHost : HostAPI Scripted := {
  getTokenCountAsync s := Z.of_nat (String.length s);
  parseReasoningFromString _ := None;
  sendRequest _ _ _ h :=
    match script h with
    | [] => (None, h)
    | answer :: rest => (answer, mkScripted rest (scripted_clock h + 1))
    end;
  saveChat h := (Some tt, h);
  saveMetadata h := h;
  dateNow h := scripted_clock h;
  sleep _ h := h;
  getOrCreateLorebook h := (false, h);
  saveLorebookEntry _ _ _ h := (Some tt, h)
}.

(** A host whose model always answers with the same summary. *)
Record Reliable := mkReliable {
  reliable_clock : Z
}.

#[export] Instance reliableHost : HostAPI Reliable := {
  getTokenCountAsync s := Z.of_nat (String.length s);
  parseReasoningFromString _ := None;
  sendRequest _ _ _ h :=
    (Some (Text " A short summary. "), mkReliable (reliable_clock h + 1));
  saveChat h := (Some tt, h);
  saveMetadata h := h;
  dateNow h := reliable_clock h;
  sleep _ h := h;
  getOrCreateLorebook h := (false, h);
  saveLorebookEntry _ _ _ h := (Some tt, h)
}.

(** The default settings of [settings.js], with a profile selected or not. *)
Definition defaultSettings (profile : string) : Settings :=
  mkSettings profile 60 "all"
    "Summarize the following message briefly: {{content}} Summary:"
    "Summarize the following scene/chapter in a concise paragraph: {{content}} Summary:"
    "Extract 3-5 important keywords from this text: {{content}} Keywords:"
    None
    false false 5 false "metadata" false 5.

Definition world {H} (h : H) (profile : string) (c : list Message)
    (cache : list Memory) (timeline : list Chapter) : World H :=
  mkWorld c 4096 (defaultSettings profile) [mkProfile profile None]
    cache timeline None 0 true [] [] h.

(** A visible message without metadata. *)
Definition plain (author text : string) (user : bool) : Message :=
  mkMessage author text false user None.

(* ================================================================= *)
(** ** Notions used to state the properties *)

(** Some metadata field of this extension that [m] holds is gone in [m']. *)
Definition fieldRemoved (m m' : Message) : bool :=
  let e := extraOf m in
  let e' := extraOf m' in
  (bool_decide (is_Some (tr_summary e)) && bool_decide (tr_summary e' = None))
  || (bool_decide (is_Some (tr_summarized_at e)) && bool_decide (tr_summarized_at e' = None))
  || (bool_decide (is_Some (tr_scene_end e)) && bool_decide (tr_scene_end e' = None))
  || (bool_decide (is_Some (tr_scene_summary e)) && bool_decide (tr_scene_summary e' = None))
  || (bool_decide (is_Some (tr_scene_start e)) && bool_decide (tr_scene_start e' = None)).

(** The number of messages that lost at least one field between two states
    of the chat. *)
Definition messagesCleared (before after : list Message) : Z :=
  Z.of_nat (length (List.filter (fun p => fieldRemoved (fst p) (snd p))
                      (List.combine before after))).

(** No summary-related field is left on [m]. *)
Definition noSummaryFields (m : Message) : Prop :=
  let e := extraOf m in
  tr_summary e = None /\ tr_summarized_at e = None /\ tr_scene_end e = None
  /\ tr_scene_summary e = None /\ tr_scene_start e = None.

(** The number of summaries held by a chat: message summaries plus scene
    summaries. *)
Definition summariesHeld (c : list Message) : Z :=
  Z.of_nat (length (List.filter hasSummary c))
  + Z.of_nat (length (List.filter hasSceneSummary c)).


(** [w'] differs from [w] at most in what the gateway touches: the host,
    the toasts, the trace, the rate-limit stamp and the send buttons. *)
Definition gatewayFrame {H} (w w' : World H) : Prop :=
  chat w' = chat w /\ settings w' = settings w /\ profiles w' = profiles w
  /\ maxContext w' = maxContext w /\ memoryCache w' = memoryCache w
  /\ timelineData w' = timelineData w /\ tr_timeline w' = tr_timeline w.

(** The text [generateText] returns for an answer [response] of the model;
    [None] when what is left in [result] is no string, so that
    [result.trim()] throws. *)
Definition cleaned {H} `{HostAPI H} (response : Value) : option string :=
  match resultOf response with
  | Text s => Some (JS.trim s)
  | _ => None
  end.

Section GenerationOutcomes.
Context {H : Type} `{HostAPI H}.

(** The request [generateText(content, systemPrompt)] sends in [w] once
    the rate limit has been waited for, with the answer of the host. *)
Definition requestOf (w : World H) (content systemPrompt : string)
    : option Value * H :=
  sendRequest (summarization_profile (settings w))
    ((if JS.truthy systemPrompt then [mkChatMsg "system" systemPrompt] else [])
     ++ [mkChatMsg "user" content])
    (Some (getMaxTokensForProfile (profiles w) (summarization_profile (settings w))))
    (host (snd (waitForRateLimit w))).

(** The three ways in which generation fails: no active chat, no
    summarization profile, a request that throws. *)
Definition generationFails (w : World H) (content systemPrompt : string) : Prop :=
  chat w = []
  \/ summarization_profile (settings w) = ""
  \/ fst (requestOf w content systemPrompt) = None.

(** The model answers with text, but nothing is left of it once the
    reasoning block and the surrounding whitespace are cut. *)
Definition generationEmpty (w : World H) (content systemPrompt : string) : Prop :=
  exists response,
    fst (requestOf w content systemPrompt) = Some response
    /\ cleaned response = Some "".

(** What [generateText(content, systemPrompt)] comes to in [w]: [''] when
    generation fails, the cleaned answer of the model when it is text, the
    [TypeError] of [result.trim()] when it is not. *)
Definition generated (w : World H) (content systemPrompt : string) : Res string :=
  if (length (chat w) =? 0)%nat then Ok ""
  else if negb (JS.truthy (summarization_profile (settings w))) then Ok ""
  else match fst (requestOf w content systemPrompt) with
       | None => Ok ""
       | Some response =>
           match cleaned response with
           | Some s => Ok s
           | None => Throw (notAFunction "trim")
           end
       end.

(** The text a call returned, for the trace. *)
Definition returned {A} (r : Res A) : option A :=
  match r with Ok a => Some a | Throw _ => None end.

(** A chat is open, a profile is selected and the model answers, but what
    is left in [result] is no string: an answer object whose [content] is
    empty or missing, which the host's parser did not turn into text. *)
Definition generationNotText (w : World H) (content systemPrompt : string) : Prop :=
  chat w <> []
  /\ summarization_profile (settings w) <> ""
  /\ exists response,
       fst (requestOf w content systemPrompt) = Some response
       /\ cleaned response = None.
End GenerationOutcomes.

(** The packing loop of [summarizeInChunks] with the groups kept as lists
    of units instead of being joined into one text each. *)
Record GroupState := mkGroupState {
  groups : list (list string);
  currentGroup : list string;
  groupTokens : Z
}.

Section Groups.
Context {H : Type} `{HostAPI H}.

Definition groupStep (maxTokens : Z) (st : GroupState) (msg : string) : GroupState :=
  let msgTokens := getTokenCountAsync msg in
  if (groupTokens st + msgTokens >? maxTokens) && (0 <? length (currentGroup st))%nat
  then mkGroupState (groups st ++ [currentGroup st]) [msg] msgTokens
  else mkGroupState (groups st) (currentGroup st ++ [msg]) (groupTokens st + msgTokens).

Definition splitIntoGroups (messages : list string) (maxTokens : Z) : list (list string) :=
  let st := fold_left (groupStep maxTokens) messages (mkGroupState [] [] 0) in
  if (0 <? length (currentGroup st))%nat then groups st ++ [currentGroup st]
  else groups st.

(** The cumulative token count of a group: the sum of the counts of its
    units. *)
Definition tokensOf (g : list string) : Z :=
  fold_right (fun u acc => getTokenCountAsync u + acc) 0 g.

(** A group that the chunking may hand to the summarizer: it is not empty
    and it stays within the budget, unless it is one unit that alone
    exceeds the budget. *)
Definition withinBudget (maxTokens : Z) (g : list string) : Prop :=
  g <> []
  /\ (tokensOf g <= maxTokens
      \/ exists u, g = [u] /\ maxTokens < getTokenCountAsync u).
(** The invariant of the packing loop: the groups closed so far and the
    open group hold the units read so far, in order; the running count is
    that of the open group; every group is within the budget. *)
Definition packed (maxTokens : Z) (done : list string) (st : GroupState) : Prop :=
  concat (groups st) ++ currentGroup st = done
  /\ groupTokens st = tokensOf (currentGroup st)
  /\ Forall (withinBudget maxTokens) (groups st)
  /\ (currentGroup st = [] \/ withinBudget maxTokens (currentGroup st)).

End Groups.

Section Assumptions.
Context {H : Type} `{HostAPI H}.

(** [w'] differs from [w] at most in the memory cache and in what the
    gateway touches. *)
Definition storeFrame (w w' : World H) : Prop :=
  chat w' = chat w /\ settings w' = settings w /\ profiles w' = profiles w
  /\ maxContext w' = maxContext w /\ timelineData w' = timelineData w
  /\ tr_timeline w' = tr_timeline w.

(** The model behind the profile answers every request with text, and
    something is left of each answer once it is cleaned. *)
Definition modelAnswers : Prop :=
  forall (profileId : string) (messages : list ChatMsg) (maxTokens : option Z) (h : H),
    exists response h',
      sendRequest profileId messages maxTokens h = (Some response, h')
      /\ truthyStr (cleaned response) = true.

(** Saving the chat never fails. *)
Definition chatSaves : Prop :=
  forall h : H, fst (saveChat h) = Some tt.
End Assumptions.

(** The chat once the scene [startId..endId] has been summarized as
    [finalSummary] at time [now]: the end message is marked and, when
    summarized scenes are hidden, the messages before it become system
    messages. *)
Definition sceneMarked (hide : bool) (finalSummary : string) (startId endId now : Z)
    (c : list Message) : list Message :=
  let c1 := alter (setSceneEnd finalSummary startId now) (Z.to_nat endId) c in
  if hide then hideRange startId endId c1 else c1.

(** *** Retrieval *)





(** The query that retrieval uses when the query is not generated by the
    model: the one supplied, or else the body of the last visible user
    message. *)
Definition effectiveQuery (queryText : option string) (c : list Message) : option string :=
  if truthyStr queryText then queryText else lastUserMessage c.



(** [a] may stand in front of [b] in a ranking by [f]: its score is not
    smaller. *)
Definition before {A} (f : A -> Q) (a b : A) : Prop := (f b <= f a)%Q.

(** *** Token accounting *)

Section Accounting.
Context {H : Type} `{HostAPI H}.

(** The messages the accounting looks at. *)
Definition counted (c : list Message) : list Message :=
  List.filter (fun m => negb (is_system m)) c.

(** The sum of the token counts of the bodies. *)
Definition originalTotal (c : list Message) : Z :=
  fold_right Z.add 0 (List.map (fun m => getTokenCountAsync (mes m)) (counted c)).

(** What a message costs: its summary where it has one and summaries
    replace bodies, its body otherwise. *)
Definition effectiveTokens (replace : bool) (m : Message) : Z :=
  if hasSummary m && replace
  then getTokenCountAsync (default "" (tr_summary (extraOf m)))
  else getTokenCountAsync (mes m).

Definition effectiveTotal (replace : bool) (c : list Message) : Z :=
  fold_right Z.add 0 (List.map (effectiveTokens replace) (counted c)).
End Accounting.

(** [round(100 × saved / originalTotal)] in exact arithmetic, a half
    rounded up as [Math.round] does. *)
Definition roundedPercent (saved originalTotal : Z) : Z :=
  (200 * saved + originalTotal) / (2 * originalTotal).

(** *** Reading doubles *)

(** The sign bit of a number that is not NaN. *)
Definition hasSign (sx : bool) (x : spec_float) : Prop :=
  match x with
  | S754_nan => False
  | S754_zero s | S754_infinity s | S754_finite s _ _ => s = sx
  end.

(** [m * 2^e <= K], without fractions. *)
Definition valLe (m e K : Z) : Prop := m * 2 ^ Z.max e 0 <= K * 2 ^ Z.max (- e) 0.

(** The double [x] is a number (not NaN) and is at most the integer
    [K >= 0]. *)
Definition atMost (K : Z) (x : spec_float) : Prop :=
  match x with
  | S754_nan => False
  | S754_infinity s => s = true
  | S754_zero _ => True
  | S754_finite true _ _ => True
  | S754_finite false m e => valLe (Zpos m) e K
  end.

(* ================================================================= *)
(** ** Example states *)

(** A timeline of three chapters. *)
Definition threeChapters : World Scripted :=
  world (mkScripted [] 0) "p" []
    [] [mkChapter "Arrival" 0 19; mkChapter "The feast" 20 39; mkChapter "Departure" 40 59].


(** A chat of three messages: the first ends a scene and has a summary of
    its own, the second has no metadata, the third had its summary edited
    to the empty text (as [editSummary] of [messages.js] allows). *)
Definition clearedChat : list Message :=
  [ mkMessage "Ann" "We reached the gate." false true
      (Some (mkExtra (Some "Gate reached.") (Some 1700) (Some true)
               (Some "The party travels to the gate.") (Some 0)));
    plain "Bob" "Who goes there?" false;
    mkMessage "Ann" "Friends." false true
      (Some (mkExtra (Some "") (Some 1800) None None None)) ].

Definition clearedWorld : World Scripted :=
  world (mkScripted [] 0) "p" clearedChat [] [].


(** Three states in which generation fails: no profile is selected, no chat
    is open, the request throws. *)
Definition greeting : list Message :=
  [plain "Ann" "Hello there, traveller." true; plain "Bob" "Well met." false].

Definition noProfileWorld : World Scripted :=
  world (mkScripted [Some (Text "A greeting.")] 0) "" greeting [] [].


Definition throwingWorld : World Scripted :=
  world (mkScripted [None] 0) "profile-1" greeting [] [].

(** A state in which the model answers with an object whose [content] is
    the empty text, as a connection does that got nothing from its model. *)
Definition emptyContentWorld : World Scripted :=
  world (mkScripted [Some (Object (Text ""))] 0) "profile-1" greeting [] [].

(** A state in which the model answers with whitespace only. *)
Definition blankAnswerWorld : World Scripted :=
  world (mkScripted [Some (Text "   ")] 0) "profile-1" greeting [] [].

(** Four units of 4, 2, 10 and 1 tokens (characters) for a budget of 6. *)
Definition fourUnits : list string := ["aaaa"; "bb"; "cccccccccc"; "d"].

(** Three units of 12 tokens each for a budget of 20. *)
Definition threeUnits : list string := ["aaaaaaaaaaaa"; "bbbbbbbbbbbb"; "cccccccccccc"].

(** A chat of 45 visible messages without metadata, on a host whose model
    always answers. *)
Definition chat45 : list Message := replicate 45 (plain "Ann" "And then we walked on." true).

Definition world45 : World Reliable :=
  world (mkReliable 1000) "profile-1" chat45 [] [].

(** The same chat where no profile is selected, as in the default
    settings. *)
Definition world45NoProfile : World Reliable :=
  world (mkReliable 1000) "" chat45 [] [].

(** A chat of 45 messages without metadata whose first 20 are hidden. *)
Definition chat45Hidden : list Message :=
  replicate 20 (mkMessage "Ann" "And then we walked on." true true None)
  ++ replicate 25 (plain "Ann" "And then we walked on." true).

Definition world45Hidden : World Reliable :=
  world (mkReliable 1000) "profile-1" chat45Hidden [] [].

(** A cache of two fresh entries and a query that repeats a word. *)
Definition dragonMemory : Memory :=
  mkMemory "scene" (Some 19) "The dragon sleeps." [] 5000.

Definition villageMemory : Memory :=
  mkMemory "scene" (Some 39) "A village near the castle." [] 5000.


(** The default settings with summaries replacing bodies. *)
Definition replacingSettings : Settings :=
  mkSettings "profile-1" 60 "all"
    "Summarize the following message briefly: {{content}} Summary:"
    "Summarize the following scene/chapter in a concise paragraph: {{content}} Summary:"
    "Extract 3-5 important keywords from this text: {{content}} Keywords:"
    None
    true false 5 false "metadata" false 5.

Definition replacingWorld (c : list Message) : World Scripted :=
  mkWorld c 4096 replacingSettings [mkProfile "profile-1" None]
    [] [] None 0 true [] [] (mkScripted [] 0).

(** A message [body] summarized as [text]. *)
Definition summarized (body text : string) : Message :=
  mkMessage "Ann" body false true (Some (mkExtra (Some text) (Some 1700) None None None)).

(** One message of 40 tokens with a summary of 17. *)
Definition chat40_17 : list Message :=
  [summarized "We walked for days until we saw the sea." "They reach a sea."].

(** One message of 40 tokens with a summary of 39. *)
Definition chat40_39 : list Message :=
  [summarized "We walked for days until we saw the sea."
     "They walked for days, then saw the sea."].

(** A hidden message, a summarized one and a plain one. *)
Definition mixedChat : list Message :=
  [ mkMessage "System" "Chat started." true false None;
    summarized "We walked for days until we saw the sea." "They reach a sea.";
    plain "Bob" "Well met." false ].

(* ================================================================= *)
(** ** [summarizer.js]: reading the summaries of a message *)

(** [a[i]] for an integer [i]: [undefined] outside the array. *)
Definition elementAt {A} (l : list A) (i : Z) : option A :=
  if i <? 0 then None else l !! Z.to_nat i.

(** The loop [for (let i = n - 1; i >= 0; i--)] of [findLastSceneEnd]:
    the first index met, going down, whose message ends a scene, or [-1]. *)
Fixpoint lastSceneEndBelow (c : list Message) (n : nat) : Z :=
  match n with
  | O => -1
  | S i =>
      match c !! i with
      | Some m => if hasSceneEnd m then Z.of_nat i else lastSceneEndBelow c i
      | None => lastSceneEndBelow c i
      end
  end.

Section Accessors.
Context {H : Type}.

(** [getMessageSummary(mesId)]; [None] is [null]. *)
Definition getMessageSummary (mesId : Z) : M H (option string) :=
  gets (fun w => match elementAt (chat w) mesId with
                 | Some message =>
                     if hasSummary message then tr_summary (extraOf message) else None
                 | None => None
                 end).

(** [getSceneSummary(mesId)]; [None] is [null]. *)
Definition getSceneSummary (mesId : Z) : M H (option string) :=
  gets (fun w => match elementAt (chat w) mesId with
                 | Some message =>
                     if hasSceneSummary message then tr_scene_summary (extraOf message)
                     else None
                 | None => None
                 end).

(** [isMessageSummarized(mesId)] *)
Definition isMessageSummarized (mesId : Z) : M H bool :=
  gets (fun w => match elementAt (chat w) mesId with
                 | Some message => hasSummary message
                 | None => false
                 end).

(** [isSceneEnd(mesId)] *)
Definition isSceneEnd (mesId : Z) : M H bool :=
  gets (fun w => match elementAt (chat w) mesId with
                 | Some message => hasSceneEnd message
                 | None => false
                 end).

(** [findLastSceneEnd(beforeMesId)] *)
Definition findLastSceneEnd (beforeMesId : Z) : M H Z :=
  gets (fun w => lastSceneEndBelow (chat w) (Z.to_nat beforeMesId)).
End Accessors.

(* ================================================================= *)
(** ** [memory-manager.js]: the timeline as text, replacements *)

(** [`Chapter ${index + 1} (Messages ${chapter.startMsgId}-${chapter.endMsgId}):
    ${chapter.summary}`] *)
Definition chapterLine (index : nat) (chapter : Chapter) : string :=
  "Chapter " +:+ showZ (Z.of_nat index + 1) +:+ " (Messages "
  +:+ showZ (startMsgId chapter) +:+ "-" +:+ showZ (endMsgId chapter) +:+ "): "
  +:+ summary chapter.

(** An element of the array [getMessagesForReplacement] returns. *)
Record Replacement := mkReplacement {
  rep_mesId : Z;
  rep_originalLength : Z;
  rep_summaryLength : Z;
  rep_summary : string
}.

(** The loop of [getMessagesForReplacement] from index [i] on. *)
Fixpoint replacementsFrom (i : Z) (c : list Message) : list Replacement :=
  match c with
  | [] => []
  | msg :: c' =>
      if hasSummary msg && negb (is_system msg)
      then mkReplacement i (Z.of_nat (String.length (mes msg)))
             (Z.of_nat (String.length (default "" (tr_summary (extraOf msg)))))
             (default "" (tr_summary (extraOf msg)))
           :: replacementsFrom (i + 1) c'
      else replacementsFrom (i + 1) c'
  end.

(** The comparator [(a, b) => a.mesId - b.mesId] of [getTimeline]; the
    difference is [NaN] when an entry has no [mesId], which [sort] takes
    for 0. *)
Definition byMesId (a b : Memory) : Q :=
  match mem_mesId a, mem_mesId b with
  | Some x, Some y => inject_Z (x - y)
  | _, _ => 0%Q
  end.

Section TimelineText.
Context {H : Type} `{HostAPI H}.

(** [loadTimelineData()]: an array, even an empty one, is truthy. *)
Definition loadTimelineData : M H (list Chapter) :=
  modify (fun w => setTimelineData (match tr_timeline w with
                                    | Some saved => saved
                                    | None => []
                                    end) w) ;;;
  gets timelineData.

(** [getTimelineForInjection()] *)
Definition getTimelineForInjection : M H string :=
  gets (fun w => if (length (timelineData w) =? 0)%nat then ""
                 else JS.join (nl +:+ nl) (imap chapterLine (timelineData w))).

(** [getTimeline()] *)
Definition getTimeline : M H (list string) :=
  gets (fun w => List.map mem_summary
                   (sortBy byMesId
                      (List.filter (fun m => (mem_type m =? "scene")%string)
                         (memoryCache w)))).

(** [getMessagesForReplacement()] *)
Definition getMessagesForReplacement : M H (list Replacement) :=
  gets (fun w => if negb (replace_with_summary (settings w)) then []
                 else replacementsFrom 0 (chat w)).
End TimelineText.

(* ================================================================= *)
(** ** [token-tracker.js]: the estimate for one message *)

(** The object [estimateSavings] returns. *)
Record Estimate := mkEstimate {
  est_original : Z;
  est_estimated : Z;
  est_savings : Z
}.

Section Estimates.
Context {H : Type} `{HostAPI H}.

(** [estimateSavings(mesId)]; [None] is the number [0] returned for a
    missing or hidden message.  [0.25] is a quarter exactly. *)
Definition estimateSavings (mesId : Z) : M H (option Estimate) :=
  gets (fun w => match elementAt (chat w) mesId with
                 | None => None
                 | Some message =>
                     if is_system message then None
                     else
                       let originalTokens := getTokenCountAsync (mes message) in
                       let estimatedSummaryTokens :=
                         Qceiling (inject_Z originalTokens * (1 # 4)) in
                       Some (mkEstimate originalTokens estimatedSummaryTokens
                               (originalTokens - estimatedSummaryTokens))
                 end).
End Estimates.

(* ================================================================= *)
(** ** [messages.js]: editing a summary by hand *)

Section Editing.
Context {H : Type} `{HostAPI H}.

(** [editSummary(mesId, currentSummary)] from the answer [result] of the
    input popup on ([None] is [null], the popup was cancelled).  The
    redrawing of the message is left out. *)
Definition editSummary (mesId : Z) (result : option string) : M H unit :=
  match result with
  | None => ret tt
  | Some result =>
      w <- get ;;
      match elementAt (chat w) mesId with
      | None => throw (Error "TypeError")
      | Some _ =>
          modify (fun w => setChat (alter (setSummary result (dateNow (host w)))
                                      (Z.to_nat mesId) (chat w)) w) ;;;
          hostTry "saveChat" saveChat ;;;
          notify "success" "Summary updated"
      end
  end.
End Editing.

(* ================================================================= *)
(** ** The slash commands *)

Section Commands.
Context {H : Type} `{HostAPI H}.

(** The callback of [/tr-summarize] from the parsed id on: [mesId] is
    [parseInt(value || args.id)], [None] being [NaN].  The refresh of the
    token display, which only draws, is left out here and below. *)
Definition trSummarize (mesId : option Z) : M H string :=
  match mesId with
  | None => ret "Error: Please provide a valid message ID"
  | Some mesId =>
      tryCatch
        (summary <- summarizeMessage mesId ;;
         ret (if JS.truthy summary then summary else "Failed to generate summary"))
        (fun err => ret ("Error: " +:+ match err with Error m => m end))
  end.

(** The callback of [/tr-scene-end] from the parsed id on. *)
Definition trSceneEnd (mesId : option Z) : M H string :=
  match mesId with
  | None => ret "Error: Please provide a valid message ID"
  | Some mesId =>
      tryCatch
        (lastEnd <- findLastSceneEnd mesId ;;
         let startId := lastEnd + 1 in
         summary <- summarizeScene startId mesId ;;
         ret (if JS.truthy summary then summary else "Failed to generate scene summary"))
        (fun err => ret ("Error: " +:+ match err with Error m => m end))
  end.

(** The callback of [/tr-autofill] from the parsed interval on; the outer
    [None] says that the loop of [autoFillChapters] ran out of fuel. *)
Definition trAutofill (interval : option Z) : M H (option string) :=
  match interval with
  | None =>
      ret (Some "Error: Please provide a valid interval (minimum 5 messages). Example: /tr-autofill 20")
  | Some interval =>
      if interval <? 5 then
        ret (Some "Error: Please provide a valid interval (minimum 5 messages). Example: /tr-autofill 20")
      else
        tryCatch
          (count <- autoFillChapters interval ;;
           ret (match count with
                | Some count =>
                    Some ("Auto-fill complete: Created " +:+ showZ count +:+ " chapters.")
                | None => None
                end))
          (fun err => ret (Some ("Error: " +:+ match err with Error m => m end)))
  end.
End Commands.

(* ================================================================= *)
(** ** More notions used to state properties *)

(** What the loop of [summarizeAllMessages] keeps of a message and what
    it adds, for the indices [L] it goes through. *)
Definition summarizedOver (L : list Z) (c c' : list Message) : Prop :=
  length c' = length c
  /\ forall i m, c !! i = Some m ->
       exists m', c' !! i = Some m'
         /\ name m' = name m /\ mes m' = mes m /\ is_user m' = is_user m
         /\ (is_system m = true -> is_system m' = true)
         /\ (hasSummary m = true -> hasSummary m' = true)
         /\ (In (Z.of_nat i) L -> hasSummary m' = true)
         /\ (~ In (Z.of_nat i) L -> extra m' = extra m).


Section MoreAssumptions.
Context {H : Type} `{HostAPI H}.

(** The model behind the profile rejects every request. *)
Definition modelThrows : Prop :=
  forall (profileId : string) (messages : list ChatMsg) (maxTokens : option Z) (h : H),
    fst (sendRequest profileId messages maxTokens h) = None.

(** Generation cannot succeed in [w]: no profile is selected, or the
    model rejects every request. *)
Definition cannotGenerate (w : World H) : Prop :=
  summarization_profile (settings w) = "" \/ modelThrows.
End MoreAssumptions.

(** What summarizing a scene keeps of a message [m] at index [i], [m']
    being the message afterwards and [endId] the end of the scene. *)
Definition sceneKept (endId : Z) (i : nat) (m m' : Message) : Prop :=
  name m' = name m /\ mes m' = mes m /\ is_user m' = is_user m
  /\ (is_system m = true -> is_system m' = true)
  /\ tr_summary (extraOf m') = tr_summary (extraOf m)
  /\ (hasSceneEnd m = true -> hasSceneEnd m' = true)
  /\ (Z.of_nat i <> endId -> extra m' = extra m).

(** What the summarizing of scenes keeps of a message: its text and
    author and its own summary; it may be hidden and may become a scene
    end, never the reverse. *)
Definition fillKept (m m' : Message) : Prop :=
  name m' = name m /\ mes m' = mes m /\ is_user m' = is_user m
  /\ (is_system m = true -> is_system m' = true)
  /\ tr_summary (extraOf m') = tr_summary (extraOf m)
  /\ (hasSceneEnd m = true -> hasSceneEnd m' = true).

(** The state [w] with query generation by the model switched off. *)
Definition withoutLlmRetrieval {H} (w : World H) : World H :=
  let s := settings w in
  mkWorld (chat w) (maxContext w)
    (mkSettings (summarization_profile s) (rate_limit s) (show_notifications s)
       (summary_prompt s) (scene_summary_prompt s) (keywords_prompt s)
       (retrieval_query_prompt s) (replace_with_summary s) (auto_hide_summarized s)
       (keep_recent_count s) (hide_summarized_scenes s) (storage_mode s)
       false (max_retrieved_memories s))
    (profiles w) (memoryCache w) (timelineData w) (tr_timeline w)
    (lastGenTimestamp w) (sendButtonsActive w) (toasts w) (genTrace w) (host w).

(** ** More example states *)

(** A state set up for the model to write the retrieval query: query
    generation is on, the template of the request is [prompt] and the
    model would answer "  dragon ". *)
Definition llmWorld (prompt : option string) : World Scripted :=
  mkWorld [plain "Ann" "Tell me of the village" true] 4096
    (mkSettings "profile-1" 60 "all" "" "" "" prompt
       false false 5 false "metadata" true 5)
    [mkProfile "profile-1" None] [dragonMemory; villageMemory] [] None 0 true [] []
    (mkScripted [Some (Text "  dragon ")] 5000).

(* ================================================================= *)
(** * Properties *)

(** ** The chapter timeline *)

Section TimelineFacts.
Context {H : Type} `{HostAPI H}.
Implicit Types (w : World H) (c : Chapter) (n : Z).

Lemma saveTimelineData_spec w :
  exists w', saveTimelineData w = (Ok tt, w')
             /\ timelineData w' = timelineData w
             /\ chat w' = chat w.
Proof. eexists. split; [reflexivity|]. split; reflexivity. Qed.

Lemma inRange_false n (l : list Chapter) :
  1 <= n <= Z.of_nat (length l) ->
  (n <? 1) || (n >? Z.of_nat (length l)) = false.
Proof. intros. apply orb_false_iff. split; lia. Qed.

Lemma outOfRange_true n (l : list Chapter) :
  ~ (1 <= n <= Z.of_nat (length l)) ->
  (n <? 1) || (n >? Z.of_nat (length l)) = true.
Proof. intros. apply orb_true_iff. lia. Qed.

(** C10.  [addChapter] appends one chapter and returns the new count [n];
    afterwards [getChapterCount] is the old count plus one and
    [getChapter n] holds exactly the given summary and message range. *)
Theorem addChapter_getChapter_roundtrip w (s : string) (a b : Z) :
  let n := Z.of_nat (length (timelineData w)) + 1 in
  exists w',
    addChapter s a b w = (Ok n, w')
    /\ timelineData w' = timelineData w ++ [mkChapter s a b]
    /\ getChapterCount w' = (Ok n, w')
    /\ getChapter n w' = (Ok (Some (mkNumbered (mkChapter s a b) n)), w')
    /\ summary (mkChapter s a b) = s
    /\ startMsgId (mkChapter s a b) = a
    /\ endMsgId (mkChapter s a b) = b.
Proof.
  intros n. eexists. split.
  - unfold addChapter, saveTimelineData, bind, modify, gets, hostDo. simpl.
    rewrite length_app. simpl. f_equal. f_equal. subst n. lia.
  - simpl. split; [reflexivity|].
    split.
    + unfold getChapterCount, gets. simpl. rewrite length_app. simpl.
      f_equal. f_equal. subst n. lia.
    + split; [|auto].
      unfold getChapter, bind, get, ret. simpl.
      rewrite inRange_false by (rewrite length_app; simpl; lia).
      replace (Z.to_nat (n - 1)) with (length (timelineData w) + 0)%nat by lia.
      rewrite lookup_app_r by lia.
      replace (length (timelineData w) + 0 - length (timelineData w))%nat with 0%nat by lia.
      reflexivity.
Qed.

(** C9.  Editing chapter [n] with [1 <= n <= count] replaces the summary
    text of that chapter only and leaves every stored message range as it
    was; outside that range the call changes nothing and reports failure.
    Deleting chapter [n] removes the entry at that position only: the
    chapters before it keep their position, those after it move one
    position down, all with their stored ranges; deleting chapter 2 of 3
    leaves the former chapters 1 and 3 as chapters 1 and 2. *)
Theorem chapter_edit_delete_frame w n (s : string) :
  let tl := timelineData w in
  let count := Z.of_nat (length tl) in
  (1 <= n <= count ->
     exists w',
       updateChapter n s w = (Ok true, w')
       /\ length (timelineData w') = length tl
       /\ (forall c, tl !! Z.to_nat (n - 1) = Some c ->
             timelineData w' !! Z.to_nat (n - 1)
             = Some (mkChapter s (startMsgId c) (endMsgId c)))
       /\ (forall k, k <> Z.to_nat (n - 1) -> timelineData w' !! k = tl !! k))
  /\ (~ (1 <= n <= count) -> updateChapter n s w = (Ok false, w))
  /\ (1 <= n <= count ->
        exists w' c,
          removeChapter n w = (Ok (Some c), w')
          /\ tl !! Z.to_nat (n - 1) = Some c
          /\ S (length (timelineData w')) = length tl
          /\ (forall k, (k < Z.to_nat (n - 1))%nat -> timelineData w' !! k = tl !! k)
          /\ (forall k, (Z.to_nat (n - 1) <= k)%nat ->
                timelineData w' !! k = tl !! S k))
  /\ (~ (1 <= n <= count) -> removeChapter n w = (Ok None, w))
  /\ (forall c1 c2 c3, tl = [c1; c2; c3] ->
        exists w',
          removeChapter 2 w = (Ok (Some c2), w')
          /\ getChapterCount w' = (Ok 2, w')
          /\ getChapter 1 w' = (Ok (Some (mkNumbered c1 1)), w')
          /\ getChapter 2 w' = (Ok (Some (mkNumbered c3 2)), w')).
Proof.
  intros tl count. repeat split.
  - intros Hn. eexists. split.
    + unfold updateChapter, bind, get. fold tl.
      rewrite (inRange_false n tl Hn). reflexivity.
    + simpl. fold tl. split; [apply length_alter|]. split.
      * intros c Hc. rewrite list_lookup_alter. rewrite decide_True by reflexivity.
        rewrite Hc. reflexivity.
      * intros k Hk. apply list_lookup_alter_ne. congruence.
  - intros Hn. unfold updateChapter, bind, get. fold tl.
    rewrite (outOfRange_true n tl Hn). reflexivity.
  - intros Hn.
    destruct (lookup_lt_is_Some_2 tl (Z.to_nat (n - 1))) as [c Hc]; [subst count; lia|].
    eexists. exists c. split.
    + unfold removeChapter, bind, get. fold tl.
      rewrite (inRange_false n tl Hn). simpl. fold tl. rewrite Hc. reflexivity.
    + simpl. fold tl. split; [exact Hc|]. split.
      * rewrite length_delete by eauto. apply lookup_lt_Some in Hc. lia.
      * split; intros k Hk.
        -- apply list_lookup_delete_lt. exact Hk.
        -- apply list_lookup_delete_ge. exact Hk.
  - intros Hn. unfold removeChapter, bind, get. fold tl.
    rewrite (outOfRange_true n tl Hn). reflexivity.
  - intros c1 c2 c3 Htl. eexists. split.
    + unfold removeChapter, bind, get. fold tl. rewrite Htl. reflexivity.
    + simpl. fold tl. rewrite Htl. simpl. repeat split.
Qed.
End TimelineFacts.

(** [chapter_edit_delete_frame] on [threeChapters]: chapter 2 is edited and
    deleted, chapter 7 does not exist. *)
Lemma chapter_edit_delete_frame_witness :
  (exists w',
     updateChapter 2 "A long feast" threeChapters = (Ok true, w')
     /\ timelineData w' !! 1%nat = Some (mkChapter "A long feast" 20 39)
     /\ timelineData w' !! 0%nat = Some (mkChapter "Arrival" 0 19)
     /\ timelineData w' !! 2%nat = Some (mkChapter "Departure" 40 59))
  /\ updateChapter 7 "x" threeChapters = (Ok false, threeChapters)
  /\ (exists w',
        removeChapter 2 threeChapters = (Ok (Some (mkChapter "The feast" 20 39)), w')
        /\ getChapter 2 w' = (Ok (Some (mkNumbered (mkChapter "Departure" 40 59) 2)), w'))
  /\ removeChapter 7 threeChapters = (Ok None, threeChapters).
Proof.
  split; [|split; [|split]].
  - destruct (chapter_edit_delete_frame threeChapters 2 "A long feast")
      as [Hupd _].
    destruct Hupd as (w' & Hrun & _ & Hsame & Hother); [simpl; lia|].
    exists w'. split; [exact Hrun|]. split.
    + apply (Hsame (mkChapter "The feast" 20 39)). reflexivity.
    + split; [rewrite (Hother 0%nat) | rewrite (Hother 2%nat)];
        first [reflexivity | (simpl; lia)].
  - destruct (chapter_edit_delete_frame threeChapters 7 "x") as (_ & Hout & _).
    apply Hout. simpl. lia.
  - destruct (chapter_edit_delete_frame threeChapters 2 "") as (_ & _ & _ & _ & Hscen).
    destruct (Hscen _ _ _ eq_refl) as (w' & Hrun & _ & _ & Hget).
    exists w'. split; assumption.
  - destruct (chapter_edit_delete_frame threeChapters 7 "") as (_ & _ & _ & Hout & _).
    apply Hout. simpl. lia.
Defined.
(** ** The generation gateway *)

(** Unfolds the operations of the monad. *)
Ltac monad :=
  cbv beta iota delta
    [bind ret throw tryCatch tryFinally get gets modify hostDo hostCall hostTry].

Section MonadFacts.
Context {H : Type}.

Lemma bind_Ok {A B} (m : M H A) (k : A -> M H B) w a w' :
  m w = (Ok a, w') -> bind m k w = k a w'.
Proof. intros E. unfold bind. rewrite E. reflexivity. Qed.

Lemma bind_Throw {A B} (m : M H A) (k : A -> M H B) w e w' :
  m w = (Throw e, w') -> bind m k w = (Throw e, w').
Proof. intros E. unfold bind. rewrite E. reflexivity. Qed.

Lemma bind_assoc {A B C} (m : M H A) (k : A -> M H B) (k' : B -> M H C) w :
  bind (bind m k) k' w = bind m (fun a => bind (k a) k') w.
Proof. unfold bind. destruct (m w) as [[a|e] w']; reflexivity. Qed.

Lemma bind_get {B} (k : World H -> M H B) w : bind get k w = k w w.
Proof. reflexivity. Qed.

Lemma tryCatch_Ok {A} (m : M H A) (h : JsError -> M H A) w a w' :
  m w = (Ok a, w') -> tryCatch m h w = (Ok a, w').
Proof. intros E. unfold tryCatch. rewrite E. reflexivity. Qed.

Lemma tryCatch_Throw {A} (m : M H A) (h : JsError -> M H A) w e w' :
  m w = (Throw e, w') -> tryCatch m h w = h e w'.
Proof. intros E. unfold tryCatch. rewrite E. reflexivity. Qed.
End MonadFacts.

Section GatewayFacts.
Context {H : Type} `{HostAPI H}.
Implicit Types (w : World H).

Lemma gatewayFrame_refl w : gatewayFrame w w.
Proof. repeat split. Qed.

Lemma gatewayFrame_trans w1 w2 w3 :
  gatewayFrame w1 w2 -> gatewayFrame w2 w3 -> gatewayFrame w1 w3.
Proof.
  unfold gatewayFrame. intros (?&?&?&?&?&?&?) (?&?&?&?&?&?&?).
  repeat split; congruence.
Qed.

(** [notify] returns, adds at most a toast and touches nothing else. *)
Lemma notify_spec (type message : string) w :
  exists w', notify type message w = (Ok tt, w')
             /\ gatewayFrame w w' /\ genTrace w' = genTrace w
             /\ host w' = host w /\ lastGenTimestamp w' = lastGenTimestamp w
             /\ sendButtonsActive w' = sendButtonsActive w.
Proof.
  unfold notify. monad.
  destruct (show_notifications (settings w) =? "none")%string.
  - exists w. repeat split.
  - destruct ((show_notifications (settings w) =? "errors")%string
              && negb (type =? "error")%string && negb (type =? "warning")%string).
    + exists w. repeat split.
    + eexists. split; [reflexivity|]. repeat split.
Qed.

(** [waitForRateLimit] returns and only moves the host and the stamp. *)
Lemma waitForRateLimit_spec w :
  exists w', waitForRateLimit w = (Ok tt, w')
             /\ gatewayFrame w w' /\ genTrace w' = genTrace w
             /\ toasts w' = toasts w.
Proof.
  unfold waitForRateLimit. monad.
  destruct (Qle_bool _ 0); simpl; eexists; (split; [reflexivity|]); repeat split.
Qed.

(** The logging of line 114 inside its [catch]: it returns whatever
    [result] holds and adds at most a toast. *)
Lemma logging_spec (result : Value) w :
  exists w',
    tryCatch (match result with
              | Text _ => ret tt
              | _ => throw (notAFunction "substring")
              end) generationFailed w = (Ok tt, w')
    /\ gatewayFrame w w' /\ genTrace w' = genTrace w
    /\ host w' = host w /\ lastGenTimestamp w' = lastGenTimestamp w
    /\ sendButtonsActive w' = sendButtonsActive w
    /\ (forall s, result = Text s -> w' = w).
Proof.
  destruct result as [s|c|].
  - exists w. split; [reflexivity|]. repeat split.
  - unfold tryCatch, throw, generationFailed.
    match goal with
    | |- context [notify ?t ?m ?w0] =>
        destruct (notify_spec t m w0) as (w2 & Hn & Hf & Ht & Hh & Hl & Hb)
    end.
    exists w2. split; [exact Hn|]. repeat split; try apply Hf; try assumption.
    intros s Hs. discriminate.
  - unfold tryCatch, throw, generationFailed.
    match goal with
    | |- context [notify ?t ?m ?w0] =>
        destruct (notify_spec t m w0) as (w2 & Hn & Hf & Ht & Hh & Hl & Hb)
    end.
    exists w2. split; [exact Hn|]. repeat split; try apply Hf; try assumption.
    intros s Hs. discriminate.
Qed.

(** What the [try] block of [generateText] leaves in [result]: what the
    answer of the model comes to, or [''] when the request throws. *)
Lemma requestSummary_spec (profileId content systemPrompt : string) w :
  exists w1,
    waitForRateLimit w = (Ok tt, w1)
    /\ let messages :=
         (if JS.truthy systemPrompt then [mkChatMsg "system" systemPrompt] else [])
         ++ [mkChatMsg "user" content] in
       let maxTokens := getMaxTokensForProfile (profiles w) profileId in
       exists w',
         requestSummary profileId content systemPrompt w
         = (Ok (match fst (sendRequest profileId messages (Some maxTokens) (host w1)) with
                | Some response => resultOf response
                | None => Text ""
                end), w')
         /\ gatewayFrame w w' /\ genTrace w' = genTrace w
         /\ sendButtonsActive w' = true.
Proof.
  destruct (waitForRateLimit_spec w) as (w1 & Hwait & Hf1 & Ht1 & _).
  exists w1. split; [exact Hwait|]. intros messages maxTokens.
  unfold requestSummary. unfold tryFinally.
  match goal with
  | |- context [tryCatch ?m ?h w] =>
      assert (Hbody : exists w2,
                 tryCatch m h w
                 = (Ok (match fst (sendRequest profileId messages (Some maxTokens)
                                     (host w1)) with
                        | Some response => resultOf response
                        | None => Text ""
                        end), w2)
                 /\ gatewayFrame w w2 /\ genTrace w2 = genTrace w)
  end.
  { unfold tryCatch at 1.
    rewrite (bind_Ok _ _ _ _ _ Hwait).
    unfold modify at 1. unfold bind at 1. unfold gets at 1. unfold bind at 1.
    cbn [profiles setSendButtons].
    destruct Hf1 as (Hc & Hs & Hp & Hm & Hmc & Htl & Htr).
    rewrite Hp. fold messages. fold maxTokens.
    unfold hostTry, hostCall. unfold bind at 1. unfold bind at 1.
    cbn [host setSendButtons].
    destruct (sendRequest profileId messages (Some maxTokens) (host w1))
      as [[response|] h'] eqn:Hreq; cbn [fst].
    - unfold ret at 1.
      match goal with
      | |- context [bind (tryCatch ?m0 ?h0) ?k ?w0] =>
          destruct (logging_spec (resultOf response) w0)
            as (w3 & Hlog & Hf3 & Ht3 & _)
      end.
      rewrite (bind_Ok _ _ _ _ _ Hlog). unfold ret.
      exists w3. split; [reflexivity|].
      destruct Hf3 as (Hc3 & Hs3 & Hp3 & Hm3 & Hmc3 & Htl3 & Htr3).
      cbn in Hc3, Hs3, Hp3, Hm3, Hmc3, Htl3, Htr3, Ht3.
      unfold gatewayFrame. repeat split; congruence.
    - unfold throw at 1. unfold generationFailed.
      match goal with
      | |- context [bind (notify ?t ?m0) _ ?w0] =>
          destruct (notify_spec t m0 w0) as (w2 & Hn & Hf2 & Ht2 & _)
      end.
      rewrite (bind_Ok _ _ _ _ _ Hn). unfold ret.
      exists w2. split; [reflexivity|].
      destruct Hf2 as (Hc2 & Hs2 & Hp2 & Hm2 & Hmc2 & Htl2 & Htr2).
      cbn in Hc2, Hs2, Hp2, Hm2, Hmc2, Htl2, Htr2, Ht2.
      unfold gatewayFrame. repeat split; congruence. }
  destruct Hbody as (w2 & Hrun & Hf2 & Ht2).
  rewrite Hrun. eexists. split; [reflexivity|].
  destruct Hf2 as (Hc2 & Hs2 & Hp2 & Hm2 & Hmc2 & Htl2 & Htr2).
  unfold gatewayFrame. cbn. repeat split; assumption.
Qed.

Lemma requestSummary_result (content systemPrompt : string) w :
  exists w',
    requestSummary (summarization_profile (settings w)) content systemPrompt w
    = (Ok (match fst (requestOf w content systemPrompt) with
           | Some response => resultOf response
           | None => Text ""
           end), w')
    /\ gatewayFrame w w' /\ genTrace w' = genTrace w
    /\ sendButtonsActive w' = true.
Proof.
  destruct (requestSummary_spec (summarization_profile (settings w))
              content systemPrompt w) as (w1 & Hw & w2 & Hr & Hf & Ht & Hb).
  exists w2. unfold requestOf. rewrite Hw. simpl. auto.
Qed.

(** [generateText] comes to [generated]: it returns or throws as that says,
    touches nothing but the gateway's own state and logs exactly one
    call. *)
Lemma generateText_spec (content systemPrompt : string) w :
  exists w',
    generateText content systemPrompt w = (generated w content systemPrompt, w')
    /\ gatewayFrame w w'
    /\ genTrace w' = genTrace w
                     ++ [mkGenCall content (returned (generated w content systemPrompt))].
Proof.
  unfold generateText, generated. rewrite bind_get.
  destruct (length (chat w) =? 0)%nat.
  - destruct (notify_spec "warning" "Please open a chat first" w)
      as (w1 & Hn & Hf & Ht & _).
    monad. rewrite Hn. simpl. eexists. split; [reflexivity|].
    unfold gatewayFrame in *. simpl. rewrite Ht. intuition.
  - destruct (negb (JS.truthy (summarization_profile (settings w)))).
    + match goal with
      | |- context [notify ?t ?m] =>
          destruct (notify_spec t m w) as (w1 & Hn & Hf & Ht & _)
      end.
      monad. rewrite Hn. simpl. eexists. split; [reflexivity|].
      unfold gatewayFrame in *. simpl. rewrite Ht. intuition.
    + destruct (requestSummary_result content systemPrompt w)
        as (w2 & Hr & Hf & Ht & _).
      unfold tryCatch. rewrite ?bind_assoc, (bind_Ok _ _ _ _ _ Hr).
      unfold cleaned.
      destruct (fst (requestOf w content systemPrompt)) as [response|].
      * destruct (resultOf response) as [s|c|]; monad; simpl;
          (eexists; split; [reflexivity|]);
          unfold gatewayFrame in *; simpl; rewrite Ht; intuition.
      * monad; simpl. eexists. split; [reflexivity|].
        unfold gatewayFrame in *. simpl. rewrite Ht. intuition.
Qed.

(** The only exception of [generateText] is the [TypeError] of
    [result.trim()], raised when the answer of the model left no text. *)
Lemma generated_Throw (content systemPrompt : string) w e :
  generated w content systemPrompt = Throw e ->
  e = notAFunction "trim" /\ generationNotText w content systemPrompt.
Proof.
  unfold generated, generationNotText.
  destruct (length (chat w) =? 0)%nat eqn:Hlen; [discriminate|].
  destruct (JS.truthy (summarization_profile (settings w))) eqn:Hprof;
    [|discriminate]. cbn [negb].
  destruct (fst (requestOf w content systemPrompt)) as [response|] eqn:Hreq;
    [|discriminate].
  destruct (cleaned response) as [s|] eqn:Hclean; [discriminate|].
  intros Hthrow. injection Hthrow as <-. split; [reflexivity|].
  split; [intros Hchat; rewrite Hchat in Hlen; discriminate|].
  split; [intros Hp; rewrite Hp in Hprof; discriminate|].
  exists response. auto.
Qed.


Lemma generated_empty (content systemPrompt : string) w :
  generationFails w content systemPrompt
  \/ generationEmpty w content systemPrompt ->
  generated w content systemPrompt = Ok "".
Proof.
  intros Hfail. unfold generated.
  destruct (length (chat w) =? 0)%nat eqn:Hlen; [reflexivity|].
  destruct (JS.truthy (summarization_profile (settings w))) eqn:Hprof;
    [|reflexivity]. cbn [negb].
  destruct Hfail as [[Hchat|[Hp|Hthrow]]|(response & Hresp & Hclean)].
  - rewrite Hchat in Hlen. discriminate.
  - rewrite Hp in Hprof. discriminate.
  - rewrite Hthrow. reflexivity.
  - rewrite Hresp, Hclean. reflexivity.
Qed.

(** A failed or empty generation makes [generateText] return [''], with
    nothing but the gateway's own state touched. *)
Lemma generateText_empty (content systemPrompt : string) w :
  generationFails w content systemPrompt
  \/ generationEmpty w content systemPrompt ->
  exists w', generateText content systemPrompt w = (Ok "", w')
             /\ gatewayFrame w w'.
Proof.
  intros Hfail.
  destruct (generateText_spec content systemPrompt w) as (w' & Hrun & Hf & _).
  rewrite (generated_empty _ _ _ Hfail) in Hrun. exists w'. auto.
Qed.



End GatewayFacts.



(** The exception of [generateText]: for an answer object whose [content]
    is the empty text the call throws after the error toast of the failed
    logging, the send buttons being active again. *)
Example generateText_empty_content_throws :
  exists w',
    generateText "Ann: Hello there, traveller." "Summarize." emptyContentWorld
    = (Throw (Error "result.trim is not a function"), w')
    /\ toasts w' = [mkToast "error" "Generation failed: result.substring is not a function"]
    /\ sendButtonsActive w' = true.
Proof. eexists. vm_compute. repeat split. Qed.

(** ** Clearing summaries *)

Lemma clearMessage_count m :
  snd (clearMessage m)
  = (if hasSummary m then 1 else 0) + (if hasSceneSummary m then 1 else 0).
Proof.
  unfold clearMessage, hasSummary, hasSceneSummary, extraOf.
  destruct (extra m) as [e|]; [|reflexivity].
  unfold clearExtraSummary, clearExtraScene.
  destruct (truthyStr (tr_summary e)); simpl;
    destruct (truthyStr (tr_scene_summary e)); reflexivity.
Qed.

Lemma fold_add_shift (l : list Z) (a : Z) :
  fold_left Z.add l a = a + fold_left Z.add l 0.
Proof.
  revert a. induction l as [|x l IH]; intros a; cbn [fold_left]; [lia|].
  rewrite (IH (a + x)), (IH (0 + x)). lia.
Qed.

Lemma cleared_total (c : list Message) :
  fold_left Z.add (List.map snd (List.map clearMessage c)) 0 = summariesHeld c.
Proof.
  unfold summariesHeld. induction c as [|m c IH]; [reflexivity|].
  simpl. rewrite fold_add_shift, IH, clearMessage_count.
  destruct (hasSummary m), (hasSceneSummary m); simpl length; lia.
Qed.

(** What [clearAllSummaries] does to one message. *)
Lemma clearMessage_effect m :
  let m' := fst (clearMessage m) in
  name m' = name m /\ mes m' = mes m
  /\ is_system m' = is_system m /\ is_user m' = is_user m
  /\ hasSummary m' = false /\ hasSceneSummary m' = false
  /\ (hasSummary m = true -> tr_summary (extraOf m') = None)
  /\ (hasSceneSummary m = true ->
        tr_scene_end (extraOf m') = None
        /\ tr_scene_summary (extraOf m') = None
        /\ tr_scene_start (extraOf m') = None)
  /\ (hasSummary m = true \/ hasSceneSummary m = true ->
        truthyNum (tr_summarized_at (extraOf m')) = false)
  /\ (hasSummary m = false -> hasSceneSummary m = false -> m' = m)
  /\ (hasSummary m = false -> tr_summary (extraOf m') = tr_summary (extraOf m))
  /\ (hasSceneSummary m = false ->
        tr_scene_end (extraOf m') = tr_scene_end (extraOf m)
        /\ tr_scene_summary (extraOf m') = tr_scene_summary (extraOf m)
        /\ tr_scene_start (extraOf m') = tr_scene_start (extraOf m))
  /\ tr_summarized_at (extraOf m')
     = (if (hasSummary m || hasSceneSummary m)
           && truthyNum (tr_summarized_at (extraOf m))
        then None else tr_summarized_at (extraOf m))
  /\ (extra m' = None <-> extra m = None).
Proof.
  destruct m as [nm ms sys usr [e|]]; simpl.
  2:{ unfold hasSummary, hasSceneSummary. simpl. intuition congruence. }
  destruct e as [s at_ se ss st].
  unfold clearMessage, clearExtraSummary, clearExtraScene, hasSummary,
    hasSceneSummary, extraOf; simpl.
  destruct (truthyStr s) eqn:Hs; simpl;
    destruct (truthyStr ss) eqn:Hss; simpl;
    destruct (truthyNum at_) eqn:Hat; simpl; rewrite ?Hs, ?Hss, ?Hat; simpl;
    intuition (try congruence).
Qed.

Section ClearFacts.
Context {H : Type} `{HostAPI H}.

(** C7, as the code has it.  [clearAllSummaries] removes the summary of
    every message that holds a non-empty one and the scene fields
    ([scene_end], [scene_summary], [scene_start]) of every message that
    holds a non-empty scene summary, with their [summarized_at] unless
    that is 0; no message is left with a non-empty summary or scene
    summary.  Everything else of a message is as it was: its name, body
    and flags, its summary if that is empty or absent, its scene fields if
    it holds no scene summary, its [summarized_at] if it holds neither,
    and whether it has a metadata object at all.  Unless saving the chat
    fails it returns the number of summaries removed, message summaries
    plus scene summaries, so that a message holding both counts twice. *)
Theorem clearAllSummaries_effect (w : World H) :
  exists r w',
    clearAllSummaries w = (r, w')
    /\ length (chat w') = length (chat w)
    /\ (forall i m, chat w !! i = Some m ->
          exists m', chat w' !! i = Some m'
            /\ name m' = name m /\ mes m' = mes m
            /\ is_system m' = is_system m /\ is_user m' = is_user m
            /\ hasSummary m' = false /\ hasSceneSummary m' = false
            /\ (hasSummary m = true -> tr_summary (extraOf m') = None)
            /\ (hasSceneSummary m = true ->
                  tr_scene_end (extraOf m') = None
                  /\ tr_scene_summary (extraOf m') = None
                  /\ tr_scene_start (extraOf m') = None)
            /\ (hasSummary m = true \/ hasSceneSummary m = true ->
                  truthyNum (tr_summarized_at (extraOf m')) = false)
            /\ (hasSummary m = false -> hasSceneSummary m = false -> m' = m)
            /\ (hasSummary m = false ->
                  tr_summary (extraOf m') = tr_summary (extraOf m))
            /\ (hasSceneSummary m = false ->
                  tr_scene_end (extraOf m') = tr_scene_end (extraOf m)
                  /\ tr_scene_summary (extraOf m') = tr_scene_summary (extraOf m)
                  /\ tr_scene_start (extraOf m') = tr_scene_start (extraOf m))
            /\ tr_summarized_at (extraOf m')
               = (if (hasSummary m || hasSceneSummary m)
                     && truthyNum (tr_summarized_at (extraOf m))
                  then None else tr_summarized_at (extraOf m))
            /\ (extra m' = None <-> extra m = None))
    /\ (fst (saveChat (host w)) = Some tt \/ summariesHeld (chat w) = 0 ->
          r = Ok (summariesHeld (chat w))).
Proof.
  unfold clearAllSummaries, bind, get, modify. simpl.
  rewrite cleared_total.
  destruct (0 <? summariesHeld (chat w)) eqn:Hpos.
  - unfold hostTry, hostCall, bind. simpl.
    destruct (saveChat (host w)) as [[[]|] h'] eqn:Hsave; simpl.
    + unfold notify, bind, get, modify, ret. simpl.
      match goal with
      | |- context [if ?b then _ else _] => destruct b
      end;
        [|match goal with
          | |- context [if ?b then _ else _] => destruct b
          end];
        (eexists; eexists; split; [reflexivity|]; simpl;
         split; [rewrite !length_map; reflexivity|];
         split; [|intros _; reflexivity];
         intros i m Hm; exists (fst (clearMessage m));
         split; [rewrite !list_lookup_fmap, Hm; reflexivity
                | apply clearMessage_effect]).
    + eexists; eexists; split; [reflexivity|]; simpl.
      split; [rewrite !length_map; reflexivity|].
      split.
      * intros i m Hm; exists (fst (clearMessage m)).
        split; [rewrite !list_lookup_fmap, Hm; reflexivity
               | apply clearMessage_effect].
      * intros [Hs|Hz]; [discriminate|]. apply Z.ltb_lt in Hpos. lia.
  - unfold notify, bind, get, modify, ret. simpl.
    match goal with
    | |- context [if ?b then _ else _] => destruct b
    end;
      [|match goal with
        | |- context [if ?b then _ else _] => destruct b
        end];
      (eexists; eexists; split; [reflexivity|]; simpl;
       split; [rewrite !length_map; reflexivity|];
       split; [|intros _; reflexivity];
       intros i m Hm; exists (fst (clearMessage m));
       split; [rewrite !list_lookup_fmap, Hm; reflexivity
              | apply clearMessage_effect]).
Qed.
End ClearFacts.

(** [clearAllSummaries_effect] on [clearedWorld]: two summaries are removed
    from the first message, the other two messages are untouched. *)
Lemma clearAllSummaries_effect_witness :
  exists w',
    clearAllSummaries clearedWorld = (Ok 2, w')
    /\ (exists m', chat w' !! 0%nat = Some m'
          /\ tr_summary (extraOf m') = None
          /\ tr_scene_summary (extraOf m') = None)
    /\ chat w' !! 1%nat = Some (plain "Bob" "Who goes there?" false).
Proof.
  destruct (clearAllSummaries_effect clearedWorld)
    as (r & w' & Hrun & _ & Hmsgs & Hret).
  exists w'. split.
  - rewrite Hrun. f_equal. apply Hret. left. reflexivity.
  - split.
    + destruct (Hmsgs 0%nat _ eq_refl)
        as (m' & Hm' & _ & _ & _ & _ & _ & _ & Hsum & Hscene & _).
      exists m'. split; [exact Hm'|]. split.
      * apply Hsum. reflexivity.
      * apply Hscene. reflexivity.
    + destruct (Hmsgs 1%nat _ eq_refl)
        as (m' & Hm' & _ & _ & _ & _ & _ & _ & _ & _ & _ & Hsame & _).
      rewrite Hm'. f_equal. apply Hsame; reflexivity.
Defined.

(** C7 as stated fails on [clearedWorld]: one message loses fields but the
    call returns 2, and the third message keeps its (empty) [summary] and its
    [summarized_at]. *)
Lemma clearAllSummaries_not_message_count :
  exists w',
    clearAllSummaries clearedWorld = (Ok 2, w')
    /\ messagesCleared (chat clearedWorld) (chat w') = 1
    /\ exists m', chat w' !! 2%nat = Some m' /\ ~ noSummaryFields m'.
Proof.
  eexists. split; [vm_compute; reflexivity|]. split; [reflexivity|].
  eexists. split; [reflexivity|].
  unfold noSummaryFields. simpl. intros [Hs _]. discriminate.
Qed.

(** ** Summarizing one message *)

Section SummarizeMessageFacts.
Context {H : Type} `{HostAPI H}.
Implicit Types (w : World H).

(** The request sent depends on the settings, the profiles, the host and
    the rate-limit stamp only. *)
Lemma requestOf_ext w w1 (content systemPrompt : string) :
  settings w1 = settings w -> profiles w1 = profiles w ->
  host w1 = host w -> lastGenTimestamp w1 = lastGenTimestamp w ->
  requestOf w1 content systemPrompt = requestOf w content systemPrompt.
Proof.
  intros Hs Hp Hh Ht. unfold requestOf. rewrite Hs, Hp. f_equal.
  unfold waitForRateLimit. monad. rewrite Hs, Hh, Ht.
  destruct (Qle_bool _ 0); simpl; rewrite ?Hh; reflexivity.
Qed.

(** A failed or empty generation leaves [summarizeMessage] with [''] and
    with nothing but the gateway's own state touched. *)
Lemma summarizeMessage_empty_frame w (mesId : Z) (message : Message) :
  0 <= mesId ->
  chat w !! Z.to_nat mesId = Some message ->
  generationFails w (formatMessage message) (systemPromptOf (summary_prompt (settings w)))
  \/ generationEmpty w (formatMessage message)
       (systemPromptOf (summary_prompt (settings w))) ->
  exists w', summarizeMessage mesId w = (Ok "", w') /\ gatewayFrame w w'.
Proof.
  intros Hpos Hmsg Hgen.
  assert (Hlt : mesId < Z.of_nat (length (chat w))).
  { apply lookup_lt_Some in Hmsg. lia. }
  unfold summarizeMessage. rewrite bind_get.
  replace ((mesId <? 0) || (mesId >=? Z.of_nat (length (chat w)))) with false
    by (symmetry; apply orb_false_iff; split; lia).
  rewrite Hmsg.
  match goal with
  | |- context [notify ?t ?m] =>
      destruct (notify_spec t m w) as (w1 & Hn & Hf1 & _ & Hh1 & Hl1 & _)
  end.
  rewrite (bind_Ok _ _ _ _ _ Hn).
  destruct (generateText_empty (formatMessage message)
              (systemPromptOf (summary_prompt (settings w))) w1)
    as (w2 & Hg & Hf2).
  { destruct Hf1 as (Hc1 & Hs1 & Hp1 & _).
    unfold generationFails, generationEmpty in *.
    rewrite (requestOf_ext w w1) by assumption.
    rewrite Hc1, Hs1. exact Hgen. }
  rewrite (bind_Ok _ _ _ _ _ Hg). simpl. monad.
  exists w2. split; [reflexivity|].
  exact (gatewayFrame_trans _ _ _ Hf1 Hf2).
Qed.


End SummarizeMessageFacts.



(** The same where the model answers with blanks only. *)
Example summarizeMessage_blank_answer :
  exists w', summarizeMessage 1 blankAnswerWorld = (Ok "", w') /\ chat w' = greeting.
Proof.
  destruct (summarizeMessage_empty_frame blankAnswerWorld 1
              (plain "Bob" "Well met." false))
    as (w' & Hrun & Hchat & _).
  - lia.
  - reflexivity.
  - right. exists (Text "   "). split; reflexivity.
  - exists w'. split; [exact Hrun | exact Hchat].
Qed.

(** On success the summary is written and returned. *)
Example summarizeMessage_success :
  exists w',
    summarizeMessage 0 (world (mkReliable 7) "profile-1" greeting [] [])
    = (Ok "A short summary.", w')
    /\ (hasSummary <$> chat w') = [true; false]
    /\ List.map mem_summary (memoryCache w') = ["A short summary."].
Proof. eexists. split; [vm_compute; reflexivity|]. split; reflexivity. Qed.

(** ** Summarizing every message *)

Lemma indicesFrom_bounds (p : Message -> bool) (c : list Message) (i j : Z) :
  In j (indicesFrom i p c) -> i <= j < i + Z.of_nat (length c).
Proof.
  revert i. induction c as [|m c IH]; intros i Hin; simpl in *; [contradiction|].
  destruct (p m).
  - destruct Hin as [<-|Hin]; [lia|]. apply IH in Hin. lia.
  - apply IH in Hin. lia.
Qed.

Lemma indicesFrom_length (p : Message -> bool) (c : list Message) (i : Z) :
  length (indicesFrom i p c) = length (List.filter p c).
Proof.
  revert i. induction c as [|m c IH]; intros i; simpl; [reflexivity|].
  destruct (p m); simpl; rewrite IH; reflexivity.
Qed.

Section SummarizeAllFacts.
Context {H : Type} `{HostAPI H}.
Implicit Types (w : World H).

(** Without a summarization profile every turn of the loop of
    [summarizeAllMessages] adds one to the counter and writes nothing. *)
Lemma summarizeAll_loop_without_profile (l : list Z) (n : Z) w :
  summarization_profile (settings w) = "" ->
  (forall j, In j l -> 0 <= j < Z.of_nat (length (chat w))) ->
  exists w',
    foldM l n
      (fun summarized mesId =>
         tryCatch (summarizeMessage mesId ;;; ret (summarized + 1))
                  (fun _ => ret summarized)) w
    = (Ok (n + Z.of_nat (length l)), w')
    /\ gatewayFrame w w'.
Proof.
  revert n w. induction l as [|i l IH]; intros n w Hprof Hrange.
  - exists w. simpl. unfold ret. rewrite Z.add_0_r. split; [reflexivity|].
    apply gatewayFrame_refl.
  - destruct (lookup_lt_is_Some_2 (chat w) (Z.to_nat i)) as [m Hm].
    { specialize (Hrange i (or_introl eq_refl)). lia. }
    destruct (summarizeMessage_empty_frame w i m) as (w1 & Hrun & Hf1).
    { specialize (Hrange i (or_introl eq_refl)). lia. }
    { exact Hm. }
    { left. right. left. exact Hprof. }
    destruct (IH (n + 1) w1) as (w2 & Hloop & Hf2).
    { destruct Hf1 as (_ & Hs & _). rewrite Hs. exact Hprof. }
    { intros j Hj. destruct Hf1 as (Hc & _). rewrite Hc.
      apply Hrange. right. exact Hj. }
    exists w2. split; [|exact (gatewayFrame_trans _ _ _ Hf1 Hf2)].
    cbn [foldM].
    erewrite bind_Ok.
    2:{ apply tryCatch_Ok. erewrite bind_Ok by exact Hrun. reflexivity. }
    rewrite Hloop. f_equal. f_equal. cbn [length]. lia.
Qed.

(** Without a summarization profile [summarizeAllMessages] summarizes
    nothing, and yet returns the number of visible messages that lack a
    summary. *)
Lemma summarizeAllMessages_without_profile w :
  summarization_profile (settings w) = "" ->
  exists w',
    summarizeAllMessages w
    = (Ok (Z.of_nat (length (List.filter
                               (fun m => negb (is_system m) && negb (hasSummary m))
                               (chat w)))), w')
    /\ chat w' = chat w.
Proof.
  intros Hprof. unfold summarizeAllMessages. rewrite bind_get.
  set (p := fun m => negb (is_system m) && negb (hasSummary m)).
  destruct (length (indicesFrom 0 p (chat w)) =? 0)%nat eqn:Hempty.
  - destruct (notify_spec "info" "All messages already summarized" w)
      as (w1 & Hn & Hf & _).
    rewrite (bind_Ok _ _ _ _ _ Hn). exists w1.
    apply Nat.eqb_eq in Hempty. rewrite indicesFrom_length in Hempty.
    rewrite Hempty. split; [reflexivity | apply Hf].
  - match goal with
    | |- context [notify ?t ?m] =>
        destruct (notify_spec t m w) as (w1 & Hn & Hf1 & _)
    end.
    rewrite (bind_Ok _ _ _ _ _ Hn).
    destruct (summarizeAll_loop_without_profile (indicesFrom 0 p (chat w)) 0 w1)
      as (w2 & Hloop & Hf2).
    { destruct Hf1 as (_ & Hs & _). rewrite Hs. exact Hprof. }
    { intros j Hj. apply indicesFrom_bounds in Hj.
      destruct Hf1 as (Hc & _). rewrite Hc. lia. }
    rewrite (bind_Ok _ _ _ _ _ Hloop).
    match goal with
    | |- context [notify ?t ?m] =>
        destruct (notify_spec t m w2) as (w3 & Hn3 & Hf3 & _)
    end.
    rewrite (bind_Ok _ _ _ _ _ Hn3). exists w3.
    rewrite indicesFrom_length. split; [reflexivity|].
    destruct Hf1 as (Hc1 & _), Hf2 as (Hc2 & _), Hf3 as (Hc3 & _). congruence.
Qed.
End SummarizeAllFacts.

(** C8 at a failing input.  No profile is selected, so neither message of
    the chat is summarized; [summarizeAllMessages] nevertheless returns 2
    and announces "Summarized 2 messages". *)
Theorem summarizeAllMessages_counts_failed_attempts :
  exists w',
    summarizeAllMessages noProfileWorld = (Ok 2, w')
    /\ chat w' = greeting
    /\ Forall (fun m => hasSummary m = false) (chat w')
    /\ List.last (toasts w') (mkToast "" "") = mkToast "success" "Summarized 2 messages".
Proof.
  eexists. split; [vm_compute; reflexivity|].
  split; [reflexivity|]. split; [|reflexivity].
  repeat constructor.
Qed.

(** ** Chunking *)

Section ChunkFacts.
Context {H : Type} `{HostAPI H}.
Implicit Types (w : World H).

Lemma tokensOf_app (g1 g2 : list string) :
  tokensOf (g1 ++ g2) = tokensOf g1 + tokensOf g2.
Proof.
  induction g1 as [|u g1 IH]; simpl; [lia|]. rewrite IH. lia.
Qed.

Lemma withinBudget_single (maxTokens : Z) (u : string) :
  withinBudget maxTokens [u].
Proof.
  split; [discriminate|].
  destruct (Z_le_gt_dec (getTokenCountAsync u) maxTokens) as [Hle|Hgt].
  - left. simpl. lia.
  - right. exists u. split; [reflexivity | lia].
Qed.

Lemma groupStep_packed (maxTokens : Z) (done : list string) (st : GroupState)
    (msg : string) :
  packed maxTokens done st ->
  packed maxTokens (done ++ [msg]) (groupStep maxTokens st msg).
Proof.
  intros (Hcat & Htok & Hclosed & Hopen). unfold groupStep.
  destruct ((groupTokens st + getTokenCountAsync msg >? maxTokens)
            && (0 <? length (currentGroup st))%nat) eqn:Hcut.
  - apply andb_true_iff in Hcut. destruct Hcut as [_ Hne].
    apply Nat.ltb_lt in Hne.
    unfold packed; simpl. repeat split.
    + rewrite concat_app. simpl. rewrite app_nil_r, <- Hcat. reflexivity.
    + lia.
    + apply Forall_app. split; [exact Hclosed|].
      constructor; [|constructor].
      destruct Hopen as [Hnil|Hok]; [|exact Hok].
      rewrite Hnil in Hne. simpl in Hne. lia.
    + right. apply withinBudget_single.
  - unfold packed; simpl. repeat split.
    + rewrite app_assoc, Hcat. reflexivity.
    + rewrite tokensOf_app, Htok. simpl. lia.
    + exact Hclosed.
    + right. apply andb_false_iff in Hcut.
      destruct (currentGroup st) as [|u g] eqn:Hcur.
      * apply withinBudget_single.
      * destruct Hcut as [Hfit|Hemp]; [|simpl in Hemp; discriminate].
        split; [discriminate|]. left.
        rewrite tokensOf_app, <- Htok. simpl. lia.
Qed.

Lemma fold_groupStep_packed (maxTokens : Z) (messages done : list string)
    (st : GroupState) :
  packed maxTokens done st ->
  packed maxTokens (done ++ messages) (fold_left (groupStep maxTokens) messages st).
Proof.
  revert done st. induction messages as [|msg messages IH]; intros done st Hst.
  - rewrite app_nil_r. exact Hst.
  - simpl. replace (done ++ msg :: messages) with ((done ++ [msg]) ++ messages)
      by (rewrite <- app_assoc; reflexivity).
    apply IH. apply groupStep_packed. exact Hst.
Qed.

(** The groups are the units in order, and each is within the budget. *)
Lemma splitIntoGroups_spec (messages : list string) (maxTokens : Z) :
  concat (splitIntoGroups messages maxTokens) = messages
  /\ Forall (withinBudget maxTokens) (splitIntoGroups messages maxTokens).
Proof.
  unfold splitIntoGroups.
  destruct (fold_groupStep_packed maxTokens messages [] (mkGroupState [] [] 0))
    as (Hcat & _ & Hclosed & Hopen).
  { repeat split; [constructor | left; reflexivity]. }
  simpl in Hcat.
  set (st := fold_left (groupStep maxTokens) messages (mkGroupState [] [] 0)) in *.
  destruct (0 <? length (currentGroup st))%nat eqn:Hne.
  - split.
    + rewrite concat_app. simpl. rewrite app_nil_r. exact Hcat.
    + apply Forall_app. split; [exact Hclosed|].
      constructor; [|constructor].
      destruct Hopen as [Hnil|Hok]; [|exact Hok].
      rewrite Hnil in Hne. discriminate.
  - apply Nat.ltb_ge in Hne.
    destruct (currentGroup st); [|simpl in Hne; lia].
    rewrite app_nil_r in Hcat. split; assumption.
Qed.

(** The texts in [chunks] are the groups, each joined by a blank line. *)
Lemma fold_chunkStep_groups (maxTokens : Z) (messages : list string)
    (cst : ChunkState) (gst : GroupState) :
  chunks cst = List.map (JS.join (nl +:+ nl)) (groups gst) ->
  currentChunk cst = currentGroup gst ->
  currentTokens cst = groupTokens gst ->
  let cst' := fold_left (chunkStep maxTokens) messages cst in
  let gst' := fold_left (groupStep maxTokens) messages gst in
  chunks cst' = List.map (JS.join (nl +:+ nl)) (groups gst')
  /\ currentChunk cst' = currentGroup gst'.
Proof.
  revert cst gst. induction messages as [|msg messages IH]; intros cst gst Hc Hcur Ht.
  - simpl. split; assumption.
  - simpl. apply IH; unfold chunkStep, groupStep; rewrite Hcur, Ht;
      destruct ((groupTokens gst + getTokenCountAsync msg >? maxTokens)
                && (0 <? length (currentGroup gst))%nat); simpl;
      rewrite ?Hc, ?List.map_app; reflexivity.
Qed.

Lemma splitIntoChunks_groups (messages : list string) (maxTokens : Z) :
  splitIntoChunks messages maxTokens
  = List.map (JS.join (nl +:+ nl)) (splitIntoGroups messages maxTokens).
Proof.
  unfold splitIntoChunks, splitIntoGroups.
  destruct (fold_chunkStep_groups maxTokens messages
              (mkChunkState [] [] 0) (mkGroupState [] [] 0))
    as [Hc Hcur]; try reflexivity.
  rewrite Hc, Hcur.
  destruct (0 <? length _)%nat; [|reflexivity].
  rewrite List.map_app. reflexivity.
Qed.

(** The loop over the chunks calls the gateway once per chunk, in order,
    and keeps the non-empty answers; it stops at the first call that
    throws. *)
Lemma summarizeChunksFrom_trace (cs : list string) (i total : Z)
    (chunkSummaries : list string) w :
  exists (results : list (option string)) r w',
    summarizeChunksFrom i total cs chunkSummaries w = (r, w')
    /\ gatewayFrame w w'
    /\ genTrace w' = genTrace w ++ zip_with mkGenCall cs results
    /\ ((exists texts,
           results = List.map Some texts /\ length texts = length cs
           /\ r = Ok (chunkSummaries ++ List.filter JS.truthy texts))
        \/ (exists texts,
              results = List.map Some texts ++ [None]
              /\ (length texts < length cs)%nat
              /\ r = Throw (notAFunction "trim"))).
Proof.
  revert i chunkSummaries w.
  induction cs as [|chunk cs IH]; intros i chunkSummaries w.
  - exists [], (Ok chunkSummaries), w. simpl. unfold ret. rewrite !app_nil_r.
    repeat split. left. exists []. rewrite app_nil_r. repeat split.
  - cbn [summarizeChunksFrom]. rewrite bind_get.
    match goal with
    | |- context [notify ?t ?m] =>
        destruct (notify_spec t m w) as (w1 & Hn & Hf1 & Ht1 & _)
    end.
    destruct (generateText_spec chunk
                (systemPromptOf (scene_summary_prompt (settings w))) w1)
      as (w2 & Hg & Hf2 & Ht2).
    rewrite (bind_Ok _ _ _ _ _ Hn).
    destruct (generated w1 chunk _) as [r|e] eqn:Hgen.
    + destruct (IH (i + 1)
                  (if JS.truthy r then chunkSummaries ++ [r] else chunkSummaries) w2)
        as (results & r' & w3 & Hloop & Hf3 & Ht3 & Hcases).
      exists (Some r :: results), r', w3.
      rewrite (bind_Ok _ _ _ _ _ Hg), Hloop.
      split; [reflexivity|].
      split; [exact (gatewayFrame_trans _ _ _ (gatewayFrame_trans _ _ _ Hf1 Hf2) Hf3)|].
      split; [rewrite Ht3, Ht2, Ht1, <- app_assoc; reflexivity|].
      destruct Hcases as [(texts & -> & Hlen & ->)|(texts & -> & Hlen & ->)].
      * left. exists (r :: texts). split; [reflexivity|].
        split; [simpl; congruence|]. f_equal. simpl.
        destruct (JS.truthy r); [|reflexivity].
        rewrite <- app_assoc. reflexivity.
      * right. exists (r :: texts). split; [reflexivity|].
        split; [simpl; lia | reflexivity].
    + destruct (generated_Throw _ _ _ _ Hgen) as [-> _].
      exists [None], (Throw (notAFunction "trim")), w2.
      rewrite (bind_Throw _ _ _ _ _ Hg).
      split; [reflexivity|].
      split; [exact (gatewayFrame_trans _ _ _ Hf1 Hf2)|].
      split; [rewrite Ht2, Ht1; destruct cs; reflexivity|].
      right. exists []. split; [reflexivity|]. split; [simpl; lia | reflexivity].
Qed.

(** C1, as the code has it.  [summarizeInChunks] packs the units, in
    order, into groups; no group has a cumulative token count above the
    budget, unless it is a single unit whose own count exceeds the budget.
    It calls the summarizer on each group in turn (joined by blank lines),
    up to the first call that throws, if any.  When two or more groups
    produced text it calls the summarizer once more, on those texts joined
    by a rule: this call is not packed, whatever the token count of the
    joined texts.  When no group produced any text the result is the
    empty text. *)
Theorem summarizeInChunks_respects_budget (messages : list string) (maxTokens : Z) w :
  let gs := splitIntoGroups messages maxTokens in
  concat gs = messages
  /\ Forall (fun g => g <> []
                      /\ (tokensOf g <= maxTokens
                          \/ exists u, g = [u] /\ maxTokens < getTokenCountAsync u)) gs
  /\ exists (results : list (option string)) combine r w',
       summarizeInChunks messages maxTokens w = (r, w')
       /\ genTrace w' = genTrace w
                        ++ zip_with mkGenCall (List.map (JS.join (nl +:+ nl)) gs) results
                        ++ combine
       /\ ((exists texts,
              results = List.map Some texts /\ length texts = length gs
              /\ let summaries := List.filter JS.truthy texts in
                 if (1 <? length summaries)%nat
                 then combine
                      = [mkGenCall (JS.join (nl +:+ nl +:+ "---" +:+ nl +:+ nl) summaries)
                           (returned r)]
                 else combine = [] /\ r = Ok (default "" (head summaries)))
           \/ (exists texts,
                 results = List.map Some texts ++ [None]
                 /\ (length texts < length gs)%nat
                 /\ combine = [] /\ r = Throw (notAFunction "trim")))
       /\ (Forall (fun x => x = Some "") results -> length results = length gs ->
           r = Ok "" /\ combine = []).
Proof.
  intros gs. destruct (splitIntoGroups_spec messages maxTokens) as [Hcat Hok].
  split; [exact Hcat|]. split; [exact Hok|].
  unfold summarizeInChunks, summarizeChunks.
  rewrite splitIntoChunks_groups. fold gs.
  destruct (summarizeChunksFrom_trace (List.map (JS.join (nl +:+ nl)) gs) 0
              (Z.of_nat (length (List.map (JS.join (nl +:+ nl)) gs))) [] w)
    as (results & r1 & w1 & Hloop & Hf1 & Ht1 & Hcases).
  rewrite length_map in Hcases.
  assert (Hnone : forall texts, Forall (fun x => x = Some "") (List.map Some texts) ->
                  List.filter JS.truthy texts = []).
  { clear. induction texts as [|x texts IH]; intros Hall; [reflexivity|].
    inversion Hall as [|? ? Hx Hrest]; subst. injection Hx as ->. simpl.
    apply IH. assumption. }
  destruct Hcases as [(texts & -> & Hlen & ->)|(texts & -> & Hlen & ->)].
  - rewrite (bind_Ok _ _ _ _ _ Hloop). cbv beta. rewrite !app_nil_l.
    destruct (1 <? length (List.filter JS.truthy texts))%nat eqn:Hmany; cbv iota.
    + rewrite bind_get.
      match goal with
      | |- context [notify ?t ?m] =>
          destruct (notify_spec t m w1) as (w2 & Hn & Hf2 & Ht2 & _)
      end.
      rewrite (bind_Ok _ _ _ _ _ Hn).
      match goal with
      | |- context [generateText ?c ?p] =>
          destruct (generateText_spec c p w2) as (w3 & Hg & Hf3 & Ht3)
      end.
      eexists (List.map Some texts), _, _, w3.
      split; [exact Hg|].
      split; [rewrite Ht3, Ht2, Ht1, <- app_assoc; reflexivity|].
      split.
      * left. exists texts. split; [reflexivity|]. split; [exact Hlen|].
        cbv zeta. rewrite Hmany. reflexivity.
      * intros Hall _. rewrite (Hnone _ Hall) in Hmany. discriminate.
    + exists (List.map Some texts), [],
        (Ok (default "" (head (List.filter JS.truthy texts)))), w1.
      split; [reflexivity|].
      split; [rewrite app_nil_r; exact Ht1|].
      split.
      * left. exists texts. split; [reflexivity|]. split; [exact Hlen|].
        cbv zeta. rewrite Hmany. split; reflexivity.
      * intros Hall _. rewrite (Hnone _ Hall). split; reflexivity.
  - rewrite (bind_Throw _ _ _ _ _ Hloop).
    exists (List.map Some texts ++ [None]), [], (Throw (notAFunction "trim")), w1.
    split; [reflexivity|].
    split; [rewrite app_nil_r; exact Ht1|].
    split.
    + right. exists texts. repeat split. exact Hlen.
    + intros Hall _. apply Forall_app in Hall. destruct Hall as [_ Hlast].
      inversion Hlast as [|? ? Hx _]. discriminate.
Qed.
End ChunkFacts.

(** The groups of [fourUnits] for a budget of 6 tokens: the third unit
    exceeds the budget and stands alone. *)
Example splitIntoGroups_fourUnits :
  splitIntoGroups (H:=Scripted) fourUnits 6 = [["aaaa"; "bb"]; ["cccccccccc"]; ["d"]].
Proof. reflexivity. Qed.

(** With a model that answers, the three groups are summarized and the
    three summaries are summarized once more. *)
Example summarizeInChunks_fourUnits :
  exists w',
    summarizeInChunks fourUnits 6 (world (mkReliable 0) "profile-1" greeting [] [])
    = (Ok "A short summary.", w')
    /\ List.map gen_content (genTrace w')
       = [ "aaaa" +:+ nl +:+ nl +:+ "bb"; "cccccccccc"; "d";
           "A short summary." +:+ nl +:+ nl +:+ "---" +:+ nl +:+ nl
           +:+ "A short summary." +:+ nl +:+ nl +:+ "---" +:+ nl +:+ nl
           +:+ "A short summary." ].
Proof. eexists. split; [vm_compute; reflexivity | reflexivity]. Qed.

(** [summarizeInChunks_respects_budget] on [fourUnits] where no profile is
    selected: three calls, none of which produces text, and the result is
    the empty text. *)
Lemma summarizeInChunks_respects_budget_witness :
  Forall (fun g => g <> []
                   /\ (tokensOf (H:=Scripted) g <= 6
                       \/ exists u, g = [u] /\ 6 < Z.of_nat (String.length u)))
    [["aaaa"; "bb"]; ["cccccccccc"]; ["d"]]
  /\ exists w', summarizeInChunks fourUnits 6 noProfileWorld = (Ok "", w').
Proof.
  destruct (summarizeInChunks_respects_budget fourUnits 6 noProfileWorld)
    as (_ & Hgroups & results & combine & r & w' & Hrun & _).
  split; [exact Hgroups|].
  exists w'. rewrite Hrun. f_equal.
  vm_compute in Hrun. injection Hrun as <- _. reflexivity.
Defined.

(** C1 as stated fails on three units of 12 tokens and a budget of 20:
    each unit is a group of its own and each summary has 16 tokens, but
    the last call of the summarizer is made on the three summaries joined
    together, 62 tokens, none of the three exceeding the budget alone. *)
Lemma summarizeInChunks_combines_beyond_budget :
  exists w' first second third combined,
    summarizeInChunks threeUnits 20 (world (mkReliable 0) "profile-1" greeting [] [])
    = (Ok "A short summary.", w')
    /\ splitIntoGroups (H:=Reliable) threeUnits 20
       = [["aaaaaaaaaaaa"]; ["bbbbbbbbbbbb"]; ["cccccccccccc"]]
    /\ genTrace w' = [first; second; third; combined]
    /\ gen_content combined
       = JS.join (nl +:+ nl +:+ "---" +:+ nl +:+ nl)
           ["A short summary."; "A short summary."; "A short summary."]
    /\ getTokenCountAsync (H:=Reliable) "A short summary." = 16
    /\ tokensOf (H:=Reliable)
         ["A short summary."; "A short summary."; "A short summary."] = 48
    /\ getTokenCountAsync (H:=Reliable) (gen_content combined) = 62.
Proof.
  do 5 eexists. split; [vm_compute; reflexivity|].
  repeat split.
Qed.

(** ** Summarizing a scene *)

Section SceneFacts.
Context {H : Type} `{HostAPI H}.
Implicit Types (w : World H).

Lemma gatewayFrame_storeFrame w w' : gatewayFrame w w' -> storeFrame w w'.
Proof. unfold gatewayFrame, storeFrame. intuition. Qed.

Lemma storeFrame_refl w : storeFrame w w.
Proof. repeat split. Qed.

Lemma storeFrame_trans w1 w2 w3 :
  storeFrame w1 w2 -> storeFrame w2 w3 -> storeFrame w1 w3.
Proof.
  unfold storeFrame. intros (?&?&?&?&?&?) (?&?&?&?&?&?).
  repeat split; congruence.
Qed.

Lemma generated_success (content systemPrompt : string) w :
  chat w <> [] ->
  JS.truthy (summarization_profile (settings w)) = true ->
  modelAnswers ->
  exists r, generated w content systemPrompt = Ok r /\ JS.truthy r = true.
Proof.
  intros Hchat Hprof Hmodel. unfold generated.
  destruct (length (chat w) =? 0)%nat eqn:Hlen.
  { apply Nat.eqb_eq in Hlen. destruct (chat w); [congruence | discriminate]. }
  rewrite Hprof. cbn [negb]. unfold requestOf.
  match goal with
  | |- context [sendRequest ?p ?ms ?mt ?h] =>
      destruct (Hmodel p ms mt h) as (response & h' & Hsend & Hclean)
  end.
  rewrite Hsend. cbn [fst].
  destruct (cleaned response) as [r|]; [|discriminate].
  exists r. split; [reflexivity | exact Hclean].
Qed.

(** With a chat open, a profile selected and a model that answers,
    [generateText] returns a non-empty text. *)
Lemma generateText_success (content systemPrompt : string) w :
  chat w <> [] ->
  JS.truthy (summarization_profile (settings w)) = true ->
  modelAnswers ->
  exists r w',
    generateText content systemPrompt w = (Ok r, w')
    /\ JS.truthy r = true
    /\ gatewayFrame w w'.
Proof.
  intros Hchat Hprof Hmodel.
  destruct (generateText_spec content systemPrompt w) as (w' & Hrun & Hf & _).
  destruct (generated_success content systemPrompt w Hchat Hprof Hmodel)
    as (r & Hgen & Hr).
  rewrite Hgen in Hrun. exists r, w'. auto.
Qed.

(** [generateKeywords] returns, or throws as [generateText] does; it
    touches nothing but the gateway's own state. *)
Lemma generateKeywords_spec (content : string) w :
  exists r w', generateKeywords content w = (r, w') /\ gatewayFrame w w'
               /\ (forall e, r = Throw e -> e = notAFunction "trim").
Proof.
  unfold generateKeywords. rewrite bind_get.
  destruct (notify_spec "info" "Generating keywords..." w) as (w1 & Hn & Hf1 & _).
  rewrite (bind_Ok _ _ _ _ _ Hn).
  destruct (generateText_spec content (systemPromptOf (keywords_prompt (settings w))) w1)
    as (w2 & Hg & Hf2 & _).
  destruct (generated w1 content _) as [r|e] eqn:Hgen.
  - rewrite (bind_Ok _ _ _ _ _ Hg).
    eexists. exists w2. split; [reflexivity|].
    split; [exact (gatewayFrame_trans _ _ _ Hf1 Hf2)|]. discriminate.
  - rewrite (bind_Throw _ _ _ _ _ Hg).
    eexists. exists w2. split; [reflexivity|].
    split; [exact (gatewayFrame_trans _ _ _ Hf1 Hf2)|].
    intros e' He'. injection He' as <-.
    apply (generated_Throw _ _ _ _ Hgen).
Qed.

(** [storeToLorebook] always returns: its [catch] swallows every failure. *)
Lemma storeToLorebook_spec (summary : string) (keywords : list string)
    (title : string) w :
  exists w', storeToLorebook summary keywords title w = (Ok tt, w')
             /\ gatewayFrame w w'.
Proof.
  unfold storeToLorebook, tryCatch.
  unfold bind at 1. unfold hostCall at 1.
  destruct (getOrCreateLorebook (host w)) as [available h1] eqn:Hbook.
  set (w1 := mkWorld (chat w) (maxContext w) (settings w) (profiles w)
               (memoryCache w) (timelineData w) (tr_timeline w)
               (lastGenTimestamp w) (sendButtonsActive w) (toasts w)
               (genTrace w) h1).
  assert (Hf1 : gatewayFrame w w1) by (repeat split).
  destruct available; cbn [negb].
  2:{ exists w1. split; [reflexivity | exact Hf1]. }
  assert (Hkeys : exists ks w2,
             (if (length keywords =? 0)%nat then generateKeywords summary
              else ret keywords) w1 = (ks, w2) /\ gatewayFrame w1 w2).
  { destruct (length keywords =? 0)%nat.
    - destruct (generateKeywords_spec summary w1) as (r & w2 & Hk & Hf2 & _).
      exists r, w2. auto.
    - exists (Ok keywords), w1. split; [reflexivity | apply gatewayFrame_refl]. }
  destruct Hkeys as ([ks|e] & w2 & Hk & Hf2).
  - rewrite (bind_Ok _ _ _ _ _ Hk).
    unfold hostTry, hostCall. monad.
    destruct (saveLorebookEntry summary ks title (host w2)) as [[[]|] h3];
      (eexists; split; [reflexivity|]);
      apply (gatewayFrame_trans _ _ _ Hf1);
      apply (gatewayFrame_trans _ _ _ Hf2); repeat split.
  - rewrite (bind_Throw _ _ _ _ _ Hk). unfold ret.
    exists w2. split; [reflexivity|].
    exact (gatewayFrame_trans _ _ _ Hf1 Hf2).
Qed.

(** [storeMemory] always returns; it appends one entry to the cache. *)
Lemma storeMemory_spec (summary type : string) (mesId : Z) (title : string) w :
  exists m w',
    storeMemory summary type mesId title w = (Ok m, w')
    /\ storeFrame w w'
    /\ memoryCache w' = memoryCache w ++ [m]
    /\ mem_summary m = summary.
Proof.
  unfold storeMemory. rewrite bind_get.
  set (m := mkMemory _ _ _ _ _).
  set (w1 := setMemoryCache (memoryCache w ++ [m]) w).
  assert (Hstore : exists w2,
             (if (storage_mode (settings w) =? "lorebook")%string
                 || (storage_mode (settings w) =? "both")%string
              then storeToLorebook summary [] title else ret tt) w1 = (Ok tt, w2)
             /\ gatewayFrame w1 w2).
  { destruct ((storage_mode (settings w) =? "lorebook")%string
              || (storage_mode (settings w) =? "both")%string).
    - apply storeToLorebook_spec.
    - exists w1. split; [reflexivity | apply gatewayFrame_refl]. }
  destruct Hstore as (w2 & Hs & Hf).
  exists m, w2. split.
  - erewrite bind_Ok by reflexivity. fold m. fold w1.
    rewrite (bind_Ok _ _ _ _ _ Hs). reflexivity.
  - destruct Hf as (Hc & Hse & Hp & Hm & Hmc & Htl & Htr).
    split; [repeat split; assumption|]. split; [exact Hmc | reflexivity].
Qed.

Lemma saveChat_ok w :
  chatSaves ->
  exists w', hostTry "saveChat" saveChat w = (Ok tt, w')
             /\ gatewayFrame w w' /\ toasts w' = toasts w.
Proof.
  intros Hsave. unfold hostTry, hostCall. monad.
  specialize (Hsave (host w)).
  destruct (saveChat (host w)) as [[[]|] h]; simpl in Hsave; [|discriminate].
  eexists. split; [reflexivity|]. repeat split.
Qed.

(** With a model that answers, every chunk yields a non-empty summary. *)
Lemma summarizeChunksFrom_success (cs : list string) (i total : Z)
    (chunkSummaries : list string) w :
  chat w <> [] ->
  JS.truthy (summarization_profile (settings w)) = true ->
  modelAnswers ->
  exists results w',
    summarizeChunksFrom i total cs chunkSummaries w
    = (Ok (chunkSummaries ++ results), w')
    /\ length results = length cs
    /\ Forall (fun r => JS.truthy r = true) results
    /\ gatewayFrame w w'.
Proof.
  intros Hchat Hprof Hmodel. revert i chunkSummaries w Hchat Hprof.
  induction cs as [|chunk cs IH]; intros i chunkSummaries w Hchat Hprof.
  - exists [], w. simpl. unfold ret. rewrite app_nil_r.
    repeat split. constructor.
  - cbn [summarizeChunksFrom]. rewrite bind_get.
    match goal with
    | |- context [notify ?t ?m] =>
        destruct (notify_spec t m w) as (w1 & Hn & Hf1 & _)
    end.
    destruct (generateText_success chunk
                (systemPromptOf (scene_summary_prompt (settings w))) w1)
      as (r & w2 & Hg & Hr & Hf2).
    { destruct Hf1 as (Hc & _). rewrite Hc. exact Hchat. }
    { destruct Hf1 as (_ & Hs & _). rewrite Hs. exact Hprof. }
    { exact Hmodel. }
    pose proof (gatewayFrame_trans _ _ _ Hf1 Hf2) as Hf12.
    destruct (IH (i + 1) (chunkSummaries ++ [r]) w2)
      as (results & w3 & Hloop & Hlen & Hall & Hf3).
    { destruct Hf12 as (Hc & _). rewrite Hc. exact Hchat. }
    { destruct Hf12 as (_ & Hs & _). rewrite Hs. exact Hprof. }
    exists (r :: results), w3.
    rewrite (bind_Ok _ _ _ _ _ Hn), (bind_Ok _ _ _ _ _ Hg), Hr, Hloop.
    split; [rewrite <- app_assoc; reflexivity|].
    split; [simpl; congruence|].
    split; [constructor; assumption|].
    exact (gatewayFrame_trans _ _ _ Hf12 Hf3).
Qed.

(** With a model that answers, [summarizeInChunks] returns a non-empty
    text for a non-empty list of units. *)
Lemma summarizeInChunks_success (messages : list string) (maxTokens : Z) w :
  messages <> [] ->
  chat w <> [] ->
  JS.truthy (summarization_profile (settings w)) = true ->
  modelAnswers ->
  exists r w',
    summarizeInChunks messages maxTokens w = (Ok r, w')
    /\ JS.truthy r = true
    /\ gatewayFrame w w'.
Proof.
  intros Hne Hchat Hprof Hmodel.
  unfold summarizeInChunks, summarizeChunks.
  destruct (summarizeChunksFrom_success (splitIntoChunks messages maxTokens) 0
              (Z.of_nat (length (splitIntoChunks messages maxTokens))) [] w
              Hchat Hprof Hmodel)
    as (results & w1 & Hloop & Hlen & Hall & Hf1).
  rewrite (bind_Ok _ _ _ _ _ Hloop). cbv beta. rewrite !app_nil_l.
  assert (Hsome : results <> []).
  { intros ->. simpl in Hlen. symmetry in Hlen. apply length_zero_iff_nil in Hlen.
    rewrite splitIntoChunks_groups in Hlen.
    destruct (splitIntoGroups_spec messages maxTokens) as [Hcat _].
    destruct (splitIntoGroups messages maxTokens); [|discriminate].
    simpl in Hcat. congruence. }
  destruct (1 <? length results)%nat eqn:Hmany; cbv iota.
  - rewrite bind_get.
    match goal with
    | |- context [notify ?t ?m] =>
        destruct (notify_spec t m w1) as (w2 & Hn & Hf2 & _)
    end.
    rewrite (bind_Ok _ _ _ _ _ Hn).
    pose proof (gatewayFrame_trans _ _ _ Hf1 Hf2) as Hf12.
    match goal with
    | |- context [generateText ?c ?p] =>
        destruct (generateText_success c p w2) as (r & w3 & Hg & Hr & Hf3)
    end.
    { destruct Hf12 as (Hc & _). rewrite Hc. exact Hchat. }
    { destruct Hf12 as (_ & Hs & _). rewrite Hs. exact Hprof. }
    { exact Hmodel. }
    exists r, w3. split; [exact Hg|]. split; [exact Hr|].
    exact (gatewayFrame_trans _ _ _ Hf12 Hf3).
  - destruct results as [|r results]; [congruence|].
    exists r, w1. split; [reflexivity|].
    split; [inversion Hall; assumption | exact Hf1].
Qed.

(** With a model that answers and a chat that can be saved,
    [summarizeScene] on a valid range with a visible message marks the
    scene and records its summary. *)
Lemma summarizeScene_success (startId endId : Z) w :
  0 <= startId <= endId ->
  endId < Z.of_nat (length (chat w)) ->
  sceneMessages (chat w) startId endId <> [] ->
  JS.truthy (summarization_profile (settings w)) = true ->
  modelAnswers ->
  chatSaves ->
  exists s now m w',
    summarizeScene startId endId w = (Ok s, w')
    /\ JS.truthy s = true
    /\ chat w' = sceneMarked (hide_summarized_scenes (settings w)) s startId endId now
                   (chat w)
    /\ settings w' = settings w /\ profiles w' = profiles w
    /\ maxContext w' = maxContext w
    /\ memoryCache w' = memoryCache w ++ [m]
    /\ mem_summary m = s /\ mem_type m = "scene" /\ mem_mesId m = Some endId.
Proof.
  intros Hrange Hend Hvisible Hprof Hmodel Hsave.
  assert (Hchat : chat w <> []).
  { intros Hnil. rewrite Hnil in Hend. simpl in Hend. lia. }
  unfold summarizeScene. rewrite bind_get.
  replace ((startId <? 0) || (endId >=? Z.of_nat (length (chat w)))
           || (startId >? endId)) with false
    by (symmetry; rewrite !orb_false_iff; repeat split; lia).
  destruct (length (sceneMessages (chat w) startId endId) =? 0)%nat eqn:Hlen.
  { apply Nat.eqb_eq, length_zero_iff_nil in Hlen. contradiction. }
  cbv zeta.
  assert (Hfinal : exists s w2,
             (if getTokenCountAsync
                   (JS.join (nl +:+ nl) (sceneMessages (chat w) startId endId))
                 >? maxContext w - 500
              then notify "info" "Scene is large, summarizing in chunks..." ;;;
                   summarizeInChunks (sceneMessages (chat w) startId endId)
                     (maxContext w - 500)
              else notify "info"
                     ("Summarizing scene ("
                      +:+ showZ (Z.of_nat (length (sceneMessages (chat w) startId endId)))
                      +:+ " messages)...") ;;;
                   generateText
                     (JS.join (nl +:+ nl) (sceneMessages (chat w) startId endId))
                     (systemPromptOf (scene_summary_prompt (settings w)))) w
             = (Ok s, w2)
             /\ JS.truthy s = true /\ gatewayFrame w w2).
  { destruct (_ >? _).
    - destruct (notify_spec "info" "Scene is large, summarizing in chunks..." w)
        as (w1 & Hn & Hf1 & _).
      destruct (summarizeInChunks_success (sceneMessages (chat w) startId endId)
                  (maxContext w - 500) w1) as (s & w2 & Hrun & Hs & Hf2);
        try assumption.
      { destruct Hf1 as (Hc & _). rewrite Hc. exact Hchat. }
      { destruct Hf1 as (_ & Hse & _). rewrite Hse. exact Hprof. }
      exists s, w2. rewrite (bind_Ok _ _ _ _ _ Hn).
      split; [exact Hrun|]. split; [exact Hs|].
      exact (gatewayFrame_trans _ _ _ Hf1 Hf2).
    - match goal with
      | |- context [notify ?t ?m] =>
          destruct (notify_spec t m w) as (w1 & Hn & Hf1 & _)
      end.
      match goal with
      | |- context [generateText ?c ?p] =>
          destruct (generateText_success c p w1) as (s & w2 & Hrun & Hs & Hf2);
            try assumption
      end.
      { destruct Hf1 as (Hc & _). rewrite Hc. exact Hchat. }
      { destruct Hf1 as (_ & Hse & _). rewrite Hse. exact Hprof. }
      exists s, w2. rewrite (bind_Ok _ _ _ _ _ Hn).
      split; [exact Hrun|]. split; [exact Hs|].
      exact (gatewayFrame_trans _ _ _ Hf1 Hf2). }
  destruct Hfinal as (s & w2 & Hrun & Hs & Hf2).
  rewrite (bind_Ok _ _ _ _ _ Hrun). rewrite Hs.
  destruct Hf2 as (Hc2 & Hse2 & Hp2 & Hm2 & Hmc2 & _).
  rewrite !bind_assoc. erewrite bind_Ok by reflexivity.
  rewrite !bind_assoc, bind_get.
  set (w3 := setChat _ w2).
  set (w4 := if hide_summarized_scenes (settings w3)
             then setChat (hideRange startId endId (chat w3)) w3 else w3).
  assert (Hhide : (if hide_summarized_scenes (settings w3)
                   then modify (fun w0 => setChat (hideRange startId endId (chat w0)) w0)
                   else ret tt) w3 = (Ok tt, w4)).
  { unfold w4. destruct (hide_summarized_scenes (settings w3)); reflexivity. }
  rewrite !bind_assoc, (bind_Ok _ _ _ _ _ Hhide).
  destruct (saveChat_ok w4 Hsave) as (w5 & Hsv & Hf5 & _).
  rewrite !bind_assoc, (bind_Ok _ _ _ _ _ Hsv).
  match goal with
  | |- context [storeMemory ?a ?b ?c ?d] =>
      destruct (storeMemory_spec a b c d w5) as (m & w6 & Hst & Hf6 & Hcache & Hsum)
  end.
  rewrite !bind_assoc, (bind_Ok _ _ _ _ _ Hst).
  match goal with
  | |- context [notify ?t ?msg] =>
      destruct (notify_spec t msg w6) as (w7 & Hn7 & Hf7 & _)
  end.
  rewrite (bind_Ok _ _ _ _ _ Hn7).
  exists s, (dateNow (host w2)), m, w7. split; [reflexivity|].
  split; [exact Hs|].
  destruct Hf5 as (Hc5 & Hse5 & Hp5 & Hm5 & Hmc5 & _).
  destruct Hf6 as (Hc6 & Hse6 & Hp6 & Hm6 & _).
  destruct Hf7 as (Hc7 & Hse7 & Hp7 & Hm7 & Hmc7 & _).
  assert (Hse3 : settings w3 = settings w) by (unfold w3; simpl; exact Hse2).
  assert (Hw4 : chat w4 = sceneMarked (hide_summarized_scenes (settings w)) s
                  startId endId (dateNow (host w2)) (chat w)
                /\ settings w4 = settings w /\ profiles w4 = profiles w
                /\ maxContext w4 = maxContext w /\ memoryCache w4 = memoryCache w).
  { unfold w4, sceneMarked. rewrite Hse3.
    destruct (hide_summarized_scenes (settings w)); unfold w3; simpl;
      rewrite Hc2; repeat split; assumption. }
  destruct Hw4 as (Hc4 & Hse4 & Hp4 & Hm4 & Hmc4).
  assert (Hm : mem_type m = "scene" /\ mem_mesId m = Some endId).
  { unfold storeMemory in Hst. revert Hst. rewrite bind_get. monad.
    destruct (_ || _).
    - destruct (storeToLorebook _ _ _ _) as [[[]|e] wx]; intros Hst;
        inversion Hst; split; reflexivity.
    - intros Hst. inversion Hst. split; reflexivity. }
  destruct Hm as [Hty Hid].
  split; [congruence|]. split; [congruence|]. split; [congruence|].
  split; [congruence|]. split; [congruence|]. split; [exact Hsum|].
  split; [exact Hty | exact Hid].
Qed.
End SceneFacts.

(** ** Auto-filling chapters *)

Lemma indicesFrom_In (p : Message -> bool) (c : list Message) (i j : Z) :
  In j (indicesFrom i p c) ->
  i <= j /\ exists m, c !! Z.to_nat (j - i) = Some m /\ p m = true.
Proof.
  revert i. induction c as [|m c IH]; intros i Hin; simpl in Hin; [contradiction|].
  assert (Hrec : In j (indicesFrom (i + 1) p c) ->
                 i <= j /\ exists m', (m :: c) !! Z.to_nat (j - i) = Some m' /\ p m' = true).
  { intros Hin'. apply IH in Hin'. destruct Hin' as (Hle & m' & Hm' & Hp).
    split; [lia|]. exists m'. split; [|exact Hp].
    replace (Z.to_nat (j - i)) with (S (Z.to_nat (j - (i + 1)))) by lia.
    exact Hm'. }
  destruct (p m) eqn:Hpm; [|auto].
  destruct Hin as [<-|Hin]; [|auto].
  split; [lia|]. exists m. rewrite Z.sub_diag. split; [reflexivity | exact Hpm].
Qed.

Lemma indicesFrom_none (p : Message -> bool) (c : list Message) (i : Z) :
  Forall (fun m => p m = false) c -> indicesFrom i p c = [].
Proof.
  intros Hall. revert i. induction Hall as [|m c Hm Hall IH]; intros i; simpl.
  - reflexivity.
  - rewrite Hm. apply IH.
Qed.

(** No scene end inside the block: the defensive scan finds nothing. *)
Lemma findSceneEndIn_none (c : list Message) (lo hi : Z) :
  (forall i m, c !! i = Some m -> lo <= Z.of_nat i <= hi -> hasSceneEnd m = false) ->
  findSceneEndIn c lo hi = None.
Proof.
  intros Hnone. unfold findSceneEndIn.
  assert (Hempty : List.filter (fun j => (lo <=? j) && (j <=? hi))
                     (indicesFrom 0 hasSceneEnd c) = []).
  { remember (indicesFrom 0 hasSceneEnd c) as l eqn:Hl.
    assert (Hin : forall j, In j l -> In j (indicesFrom 0 hasSceneEnd c))
      by (subst l; auto).
    clear Hl. induction l as [|j l IH]; [reflexivity|].
    simpl. destruct ((lo <=? j) && (j <=? hi)) eqn:Hj.
    - exfalso. destruct (indicesFrom_In _ _ _ _ (Hin j (or_introl eq_refl)))
        as (Hle & m & Hm & Hend).
      rewrite Z.sub_0_r in Hm.
      rewrite (Hnone _ _ Hm) in Hend; [discriminate|].
      apply andb_true_iff in Hj. lia.
    - apply IH. intros j' Hj'. apply Hin. right. exact Hj'. }
  rewrite Hempty. reflexivity.
Qed.

(** A message of the chat once a scene has been marked. *)
Lemma sceneMarked_lookup (hide : bool) (s : string) (a b now : Z)
    (c : list Message) (i : nat) :
  sceneMarked hide s a b now c !! i
  = (fun m =>
       let m1 := if decide (Z.to_nat b = i) then setSceneEnd s a now m else m in
       if hide && (a <=? Z.of_nat i) && (Z.of_nat i <? b) then setSystem m1 else m1)
    <$> c !! i.
Proof.
  unfold sceneMarked. destruct hide; simpl.
  - unfold hideRange. rewrite list_lookup_imap, list_lookup_alter.
    destruct (decide (Z.to_nat b = i)) as [->|Hne];
      destruct (c !! _) as [m|]; simpl; try reflexivity;
      destruct ((a <=? _) && (_ <? b)); reflexivity.
  - rewrite list_lookup_alter.
    destruct (decide (Z.to_nat b = i)) as [->|Hne];
      destruct (c !! _) as [m|]; reflexivity.
Qed.

Lemma sceneMarked_length (hide : bool) (s : string) (a b now : Z) (c : list Message) :
  length (sceneMarked hide s a b now c) = length c.
Proof.
  unfold sceneMarked, hideRange.
  destruct hide; rewrite ?length_imap, length_alter; reflexivity.
Qed.

(** Marking a scene does not change the messages after its end. *)
Lemma sceneMarked_after (hide : bool) (s : string) (a b now : Z)
    (c : list Message) (i : nat) :
  0 <= b < Z.of_nat i ->
  sceneMarked hide s a b now c !! i = c !! i.
Proof.
  intros Hi. rewrite sceneMarked_lookup.
  destruct (c !! i) as [m|]; [|reflexivity]. simpl.
  destruct (decide (Z.to_nat b = i)); [lia|].
  replace (Z.of_nat i <? b) with false by (symmetry; apply Z.ltb_ge; lia).
  rewrite andb_false_r. reflexivity.
Qed.

Lemma sceneMessages_after (hide : bool) (s : string) (a b now : Z)
    (c : list Message) (a' b' : Z) :
  0 <= b < a' ->
  sceneMessages (sceneMarked hide s a b now c) a' b' = sceneMessages c a' b'.
Proof.
  intros Hb. unfold sceneMessages. f_equal. f_equal.
  apply list_eq. intros i.
  rewrite !lookup_take. destruct (decide (i < Z.to_nat (b' - a' + 1))%nat);
    [|reflexivity].
  rewrite !lookup_drop. apply sceneMarked_after. lia.
Qed.

Section AutoFillFacts.
Context {H : Type} `{HostAPI H}.
Implicit Types (w : World H).

(** One turn of the loop on a clean block: the block is summarized as a
    scene and the loop goes on behind it with one more chapter. *)
Lemma autoFillLoop_block (fuel : nat) (interval currentBlockStart created : Z) w :
  0 <= currentBlockStart ->
  1 <= interval ->
  currentBlockStart + interval - 1 < Z.of_nat (length (chat w)) ->
  (forall i m, chat w !! i = Some m ->
     currentBlockStart <= Z.of_nat i <= currentBlockStart + interval - 1 ->
     hasSceneEnd m = false) ->
  sceneMessages (chat w) currentBlockStart (currentBlockStart + interval - 1) <> [] ->
  JS.truthy (summarization_profile (settings w)) = true ->
  modelAnswers ->
  chatSaves ->
  exists s now m w',
    autoFillLoop (S fuel) interval currentBlockStart created w
    = autoFillLoop fuel interval (currentBlockStart + interval) (created + 1) w'
    /\ JS.truthy s = true
    /\ chat w' = sceneMarked (hide_summarized_scenes (settings w)) s currentBlockStart
                   (currentBlockStart + interval - 1) now (chat w)
    /\ settings w' = settings w
    /\ memoryCache w' = memoryCache w ++ [m]
    /\ mem_summary m = s.
Proof.
  intros Hstart Hint Hend Hclean Hvisible Hprof Hmodel Hsave.
  destruct (summarizeScene_success currentBlockStart
              (currentBlockStart + interval - 1) w)
    as (s & now & m & w' & Hrun & Hs & Hchat & Hset & _ & _ & Hcache & Hsum & _);
    try assumption; [lia|].
  exists s, now, m, w'.
  split; [|repeat split; assumption].
  cbn [autoFillLoop]. rewrite bind_get.
  replace (currentBlockStart <? Z.of_nat (length (chat w))) with true
    by (symmetry; apply Z.ltb_lt; lia).
  replace (currentBlockStart + interval - 1 >=? Z.of_nat (length (chat w))) with false
    by lia.
  rewrite (findSceneEndIn_none _ _ _ Hclean).
  erewrite bind_Ok.
  2:{ apply tryCatch_Ok. erewrite bind_Ok by exact Hrun. reflexivity. }
  cbv iota.
  replace (currentBlockStart + interval - 1 + 1) with (currentBlockStart + interval)
    by lia.
  reflexivity.
Qed.

(** The loop stops where fewer than [interval] messages remain. *)
Lemma autoFillLoop_stop (fuel : nat) (interval currentBlockStart created : Z) w :
  Z.of_nat (length (chat w)) <= currentBlockStart + interval - 1 ->
  autoFillLoop (S fuel) interval currentBlockStart created w = (Ok (Some created), w).
Proof.
  intros Hshort. cbn [autoFillLoop]. rewrite bind_get.
  destruct (currentBlockStart <? Z.of_nat (length (chat w))); [|reflexivity].
  replace (currentBlockStart + interval - 1 >=? Z.of_nat (length (chat w))) with true
    by lia.
  reflexivity.
Qed.

(** C3.  [autoFillChapters] throws for every interval below 5.  On a chat
    of 45 messages none of which ends a scene, with a visible message in
    each of the blocks 0-19 and 20-39, a selected profile, a model that
    answers and a chat that can be saved, [autoFillChapters 20] creates
    exactly two scene summaries: message 19 ends the scene that starts at 0,
    message 39 the scene that starts at 20, no other message ends a scene
    and the messages 40-44 are as before. *)
Theorem autoFillChapters_interval_and_blocks w (interval : Z) :
  (interval < 5 ->
   autoFillChapters interval w
   = (Throw (Error "Interval must be at least 5 messages"), w))
  /\ (length (chat w) = 45%nat ->
      Forall (fun m => hasSceneEnd m = false) (chat w) ->
      sceneMessages (chat w) 0 19 <> [] ->
      sceneMessages (chat w) 20 39 <> [] ->
      JS.truthy (summarization_profile (settings w)) = true ->
      modelAnswers ->
      chatSaves ->
      exists s1 s2 w',
        autoFillChapters 20 w = (Ok (Some 2), w')
        /\ JS.truthy s1 = true /\ JS.truthy s2 = true
        /\ List.map mem_summary (memoryCache w')
           = List.map mem_summary (memoryCache w) ++ [s1; s2]
        /\ length (chat w') = 45%nat
        /\ (forall i m', chat w' !! i = Some m' ->
              (hasSceneEnd m' = true <-> i = 19%nat \/ i = 39%nat))
        /\ (exists m19, chat w' !! 19%nat = Some m19
              /\ tr_scene_summary (extraOf m19) = Some s1
              /\ tr_scene_start (extraOf m19) = Some 0)
        /\ (exists m39, chat w' !! 39%nat = Some m39
              /\ tr_scene_summary (extraOf m39) = Some s2
              /\ tr_scene_start (extraOf m39) = Some 20)
        /\ (forall i, (40 <= i)%nat -> chat w' !! i = chat w !! i)).
Proof.
  split.
  { intros Hsmall. unfold autoFillChapters.
    replace (interval <? 5) with true by (symmetry; apply Z.ltb_lt; exact Hsmall).
    reflexivity. }
  intros Hlen Hnone Hvis1 Hvis2 Hprof Hmodel Hsave.
  assert (Hclean : forall i m, chat w !! i = Some m -> hasSceneEnd m = false).
  { intros i m Hm. pose proof (proj1 (Forall_forall _ _) Hnone) as Hall.
    apply Hall. eapply list_elem_of_lookup_2. exact Hm. }
  unfold autoFillChapters. change (20 <? 5) with false. cbv iota.
  rewrite bind_get.
  match goal with
  | |- context [notify ?t ?m] =>
      destruct (notify_spec t m w) as (w0 & Hn & (Hc0 & Hs0 & _ & _ & Hmc0 & _) & _)
  end.
  rewrite (bind_Ok _ _ _ _ _ Hn).
  rewrite (indicesFrom_none _ _ _ Hnone). cbn [List.last]. rewrite Hlen.
  change (-1 + 1) with 0.
  (* first block *)
  destruct (autoFillLoop_block 45 20 0 0 w0)
    as (s1 & t1 & m1 & w1 & Hstep1 & Hs1 & Hc1 & Hset1 & Hmc1 & Hsum1);
    try assumption; try lia.
  { rewrite Hc0, Hlen. lia. }
  { rewrite Hc0. intros i m Hm _. exact (Hclean i m Hm). }
  { rewrite Hc0. exact Hvis1. }
  { rewrite Hs0. exact Hprof. }
  change (0 + 20 - 1) with 19 in Hc1. change (0 + 20) with 20 in Hstep1.
  change (0 + 1) with 1 in Hstep1.
  rewrite Hs0, Hc0 in Hc1.
  (* second block *)
  destruct (autoFillLoop_block 44 20 20 1 w1)
    as (s2 & t2 & m2 & w2 & Hstep2 & Hs2 & Hc2 & Hset2 & Hmc2 & Hsum2);
    try assumption; try lia.
  { rewrite Hc1, sceneMarked_length, Hlen. lia. }
  { rewrite Hc1. intros i m Hm Hi. rewrite sceneMarked_after in Hm by lia.
    exact (Hclean i m Hm). }
  { rewrite Hc1. change (20 + 20 - 1) with 39.
    rewrite sceneMessages_after by lia. exact Hvis2. }
  { rewrite Hset1, Hs0. exact Hprof. }
  change (20 + 20 - 1) with 39 in Hc2. change (20 + 20) with 40 in Hstep2.
  change (1 + 1) with 2 in Hstep2.
  rewrite Hset1, Hs0, Hc1 in Hc2.
  (* the remainder is too short *)
  assert (Hstop : autoFillLoop 44 20 40 2 w2 = (Ok (Some 2), w2)).
  { apply (autoFillLoop_stop 43). rewrite Hc2, !sceneMarked_length, Hlen. lia. }
  assert (Hloop : autoFillLoop 46 20 0 0 w0 = (Ok (Some 2), w2)).
  { rewrite Hstep1. change 45%nat with (S 44). rewrite Hstep2. exact Hstop. }
  rewrite (bind_Ok _ _ _ _ _ Hloop). cbv iota. change (0 <? 2) with true. cbv iota.
  match goal with
  | |- context [notify ?t ?m] =>
      destruct (notify_spec t m w2) as (w3 & Hn3 & (Hc3 & _ & _ & _ & Hmc3 & _) & _)
  end.
  rewrite (bind_Ok _ _ _ _ _ Hn3).
  exists s1, s2, w3. split; [reflexivity|].
  split; [exact Hs1|]. split; [exact Hs2|].
  split.
  { rewrite Hmc3, Hmc2, Hmc1, Hmc0, !List.map_app, <- app_assoc. simpl.
    rewrite Hsum1, Hsum2. reflexivity. }
  rewrite Hc3, Hc2.
  set (hide := hide_summarized_scenes (settings w)).
  split; [rewrite !sceneMarked_length; exact Hlen|].
  split.
  { intros i m' Hm'. rewrite !sceneMarked_lookup in Hm'.
    destruct (chat w !! i) as [m|] eqn:Hm; [|discriminate].
    pose proof (Hclean i m Hm) as Hend.
    simpl in Hm'. injection Hm' as <-.
    unfold hasSceneEnd, extraOf in *.
    destruct (decide (Z.to_nat 19 = i)) as [Hi19|Hi19];
      destruct (decide (Z.to_nat 39 = i)) as [Hi39|Hi39];
      destruct (hide && (0 <=? Z.of_nat i) && (Z.of_nat i <? 19));
      destruct (hide && (20 <=? Z.of_nat i) && (Z.of_nat i <? 39));
      simpl; try rewrite Hend; split; intros Hx; try reflexivity;
      try discriminate; try lia;
      destruct Hx; lia. }
  split.
  { destruct (lookup_lt_is_Some_2 (chat w) 19) as [m Hm]; [lia|].
    eexists. split.
    - rewrite !sceneMarked_lookup, Hm. simpl. reflexivity.
    - destruct (decide (Z.to_nat 19 = 19%nat)); [|lia].
      destruct (decide (Z.to_nat 39 = 19%nat)); [lia|].
      simpl. rewrite !andb_false_r. simpl. split; reflexivity. }
  split.
  { destruct (lookup_lt_is_Some_2 (chat w) 39) as [m Hm]; [lia|].
    eexists. split.
    - rewrite !sceneMarked_lookup, Hm. simpl. reflexivity.
    - destruct (decide (Z.to_nat 39 = 39%nat)); [|lia].
      simpl. rewrite !andb_false_r. simpl. split; reflexivity. }
  intros i Hi. rewrite !sceneMarked_after by lia. reflexivity.
Qed.
End AutoFillFacts.

Lemma reliable_modelAnswers : modelAnswers (H:=Reliable).
Proof.
  intros profileId messages maxTokens h. eexists. eexists.
  split; reflexivity.
Qed.

Lemma reliable_chatSaves : chatSaves (H:=Reliable).
Proof. intros h. reflexivity. Qed.

(** [autoFillChapters_interval_and_blocks] on [world45]. *)
Lemma autoFillChapters_interval_and_blocks_witness :
  autoFillChapters 4 world45
  = (Throw (Error "Interval must be at least 5 messages"), world45)
  /\ exists w',
       autoFillChapters 20 world45 = (Ok (Some 2), w')
       /\ (forall i m', chat w' !! i = Some m' ->
             (hasSceneEnd m' = true <-> i = 19%nat \/ i = 39%nat))
       /\ (forall i, (40 <= i)%nat -> chat w' !! i = chat45 !! i).
Proof.
  split.
  - apply (autoFillChapters_interval_and_blocks world45 4). lia.
  - destruct (autoFillChapters_interval_and_blocks world45 20) as [_ Hblocks].
    destruct Hblocks as (s1 & s2 & w' & Hrun & _ & _ & _ & _ & Hends & _ & _ & Hrest).
    + reflexivity.
    + repeat constructor.
    + discriminate.
    + discriminate.
    + reflexivity.
    + exact reliable_modelAnswers.
    + exact reliable_chatSaves.
    + exists w'. split; [exact Hrun|]. split; [exact Hends | exact Hrest].
Defined.

(** The run on [world45] itself: two scenes, ended by messages 19 and 39. *)
Example autoFillChapters_world45 :
  exists w',
    autoFillChapters 20 world45 = (Ok (Some 2), w')
    /\ indicesFrom 0 hasSceneEnd (chat w') = [19; 39]
    /\ List.map (fun m => tr_scene_start (extraOf m))
         (List.filter hasSceneEnd (chat w')) = [Some 0; Some 20]
    /\ List.map mem_type (memoryCache w') = ["scene"; "scene"].
Proof. eexists. split; [vm_compute; reflexivity|]. repeat split. Qed.

(** C3 as stated fails on chats of 45 messages without scene ends.  With
    no profile selected [autoFillChapters 20] returns 2 although no scene
    summary exists afterwards: the chat and the cache are untouched.  With
    the first 20 messages hidden the block 0-19 has nothing to summarize
    and the two scenes are 1-20 and 21-40. *)
Lemma autoFillChapters_blocks_depend_on_state :
  length chat45 = 45%nat /\ length chat45Hidden = 45%nat
  /\ indicesFrom 0 hasSceneEnd chat45 = []
  /\ indicesFrom 0 hasSceneEnd chat45Hidden = []
  /\ (exists w',
        autoFillChapters 20 world45NoProfile = (Ok (Some 2), w')
        /\ chat w' = chat45 /\ memoryCache w' = [])
  /\ (exists w',
        autoFillChapters 20 world45Hidden = (Ok (Some 2), w')
        /\ indicesFrom 0 hasSceneEnd (chat w') = [20; 40]
        /\ List.map (fun m => tr_scene_start (extraOf m))
             (List.filter hasSceneEnd (chat w')) = [Some 1; Some 21]).
Proof.
  split; [reflexivity|]. split; [reflexivity|].
  split; [reflexivity|]. split; [reflexivity|]. split.
  - eexists. split; [vm_compute; reflexivity|]. split; reflexivity.
  - eexists. split; [vm_compute; reflexivity|]. split; reflexivity.
Qed.

(** ** Retrieval *)



Section Sorting.
Context {A : Type} (f : A -> Q).

Lemma sortInsert_perm (x : A) (l : list A) :
  Permutation (sortInsert (fun a b => (f b - f a)%Q) x l) (x :: l).
Proof.
  induction l as [|y l IH]; simpl; [reflexivity|].
  destruct (Qle_bool (f y - f x) 0); [reflexivity|].
  rewrite IH. apply perm_swap.
Qed.

Lemma sortBy_perm (l : list A) :
  Permutation (sortBy (fun a b => (f b - f a)%Q) l) l.
Proof.
  induction l as [|x l IH]; simpl; [reflexivity|].
  rewrite sortInsert_perm, IH. reflexivity.
Qed.

Lemma sortInsert_sorted (x : A) (l : list A) :
  StronglySorted (before f) l ->
  StronglySorted (before f) (sortInsert (fun a b => (f b - f a)%Q) x l).
Proof.
  intros Hsorted. induction Hsorted as [|y l Hl IH Hy]; simpl.
  - repeat constructor.
  - destruct (Qle_bool (f y - f x) 0) eqn:Hcmp.
    + apply Qle_bool_iff in Hcmp.
      assert (Hxy : before f x y) by (unfold before; lra).
      constructor; [constructor; assumption|].
      constructor; [exact Hxy|].
      apply List.Forall_forall. intros z Hz.
      pose proof (proj1 (List.Forall_forall _ _) Hy z Hz) as Hyz.
      unfold before in *. lra.
    + assert (Hyx : before f y x).
      { unfold before. destruct (Qlt_le_dec 0 (f y - f x)) as [Hlt|Hle].
        - lra.
        - apply Qle_bool_iff in Hle. congruence. }
      constructor; [exact IH|].
      apply List.Forall_forall. intros z Hz.
      apply (Permutation_in _ (sortInsert_perm x l)) in Hz.
      destruct Hz as [<-|Hz]; [exact Hyx|].
      exact (proj1 (List.Forall_forall _ _) Hy z Hz).
Qed.

Lemma sortBy_sorted (l : list A) :
  StronglySorted (before f) (sortBy (fun a b => (f b - f a)%Q) l).
Proof.
  induction l as [|x l IH]; simpl; [constructor|].
  apply sortInsert_sorted. exact IH.
Qed.
End Sorting.






Section RetrievalFacts.
Context {H : Type} `{HostAPI H}.
Implicit Types (w : World H).

End RetrievalFacts.


(** ** Binary64 arithmetic: rounding stays below a representable bound *)

Lemma digits2_pos_bounds (p : positive) :
  2 ^ (Zpos (digits2_pos p) - 1) <= Zpos p < 2 ^ Zpos (digits2_pos p).
Proof.
  induction p as [p IH|p IH|]; cbn [digits2_pos].
  - rewrite Pos2Z.inj_succ.
    replace (Z.succ (Zpos (digits2_pos p)) - 1) with (Z.succ (Zpos (digits2_pos p) - 1))
      by lia.
    rewrite !Z.pow_succ_r by lia. change (Zpos p~1) with (2 * Zpos p + 1).
    generalize dependent (2 ^ (Zpos (digits2_pos p) - 1)).
    generalize dependent (2 ^ Zpos (digits2_pos p)). intros. lia.
  - rewrite Pos2Z.inj_succ.
    replace (Z.succ (Zpos (digits2_pos p)) - 1) with (Z.succ (Zpos (digits2_pos p) - 1))
      by lia.
    rewrite !Z.pow_succ_r by lia. change (Zpos p~0) with (2 * Zpos p).
    generalize dependent (2 ^ (Zpos (digits2_pos p) - 1)).
    generalize dependent (2 ^ Zpos (digits2_pos p)). intros. lia.
  - simpl. lia.
Qed.

Lemma iter_pos_nat {A} (f : A -> A) (p : positive) (x : A) :
  SpecFloat.iter_pos f p x = Nat.iter (Pos.to_nat p) f x.
Proof.
  revert x. induction p as [p IH|p IH|]; intros x; cbn [SpecFloat.iter_pos].
  - rewrite !IH, Pos2Nat.inj_xI.
    replace (S (2 * Pos.to_nat p)) with (Pos.to_nat p + (Pos.to_nat p + 1))%nat by lia.
    rewrite !Nat.iter_add. reflexivity.
  - rewrite !IH, Pos2Nat.inj_xO.
    replace (2 * Pos.to_nat p)%nat with (Pos.to_nat p + Pos.to_nat p)%nat by lia.
    rewrite Nat.iter_add. reflexivity.
  - reflexivity.
Qed.

(** One shift to the right halves a non-negative mantissa; the round bit is
    the bit shifted out and the sticky bit remembers the earlier ones. *)
Lemma shr_1_nonneg (mrs : shr_record) :
  0 <= shr_m mrs ->
  shr_m (shr_1 mrs) = shr_m mrs / 2
  /\ shr_r (shr_1 mrs) = Z.odd (shr_m mrs)
  /\ shr_s (shr_1 mrs) = shr_r mrs || shr_s mrs.
Proof.
  destruct mrs as [m r s]. simpl. intros Hm.
  destruct m as [|[p|p|]|p]; simpl; try lia.
  - repeat split.
  - repeat split. change (Zpos p~1) with (2 * Zpos p + 1).
    apply Z.div_unique with (r := 1); lia.
  - repeat split. change (Zpos p~0) with (2 * Zpos p).
    apply Z.div_unique with (r := 0); lia.
  - repeat split.
Qed.

(** [k] shifts divide by [2^k]; when nothing is lost, and nothing had been
    lost before, the position is exact. *)
Lemma shr_iter (k : nat) (mrs : shr_record) :
  0 <= shr_m mrs ->
  shr_m (Nat.iter k shr_1 mrs) = shr_m mrs / 2 ^ Z.of_nat k
  /\ (shr_r mrs = false -> shr_s mrs = false -> shr_m mrs mod 2 ^ Z.of_nat k = 0 ->
      shr_r (Nat.iter k shr_1 mrs) = false /\ shr_s (Nat.iter k shr_1 mrs) = false).
Proof.
  intros Hm. induction k as [|k IH].
  - simpl. rewrite Z.div_1_r. auto.
  - rewrite !Nat.iter_succ. destruct IH as [IHm IHflags].
    set (mrs1 := Nat.iter k shr_1 mrs) in *.
    assert (Hpow : 0 < 2 ^ Z.of_nat k) by (apply Z.pow_pos_nonneg; lia).
    assert (Hm1 : 0 <= shr_m mrs1).
    { rewrite IHm. apply Z.div_pos; [exact Hm | exact Hpow]. }
    destruct (shr_1_nonneg mrs1 Hm1) as (Hm' & Hr' & Hs').
    rewrite Nat2Z.inj_succ, Z.pow_succ_r by lia.
    split.
    + rewrite Hm', IHm, Z.div_div by lia.
      f_equal. lia.
    + intros Hr Hs Hmod.
      apply Z.mod_divide in Hmod; [|lia]. destruct Hmod as [q Hq].
      assert (Hmodk : shr_m mrs mod 2 ^ Z.of_nat k = 0).
      { apply Z.mod_divide; [lia|]. exists (q * 2). lia. }
      destruct (IHflags Hr Hs Hmodk) as [Hr1 Hs1].
      rewrite Hr', Hs', Hr1, Hs1, IHm. split; [|reflexivity].
      rewrite Hq.
      replace (q * (2 * 2 ^ Z.of_nat k)) with ((q * 2) * 2 ^ Z.of_nat k) by lia.
      rewrite Z.div_mul by lia. rewrite Z.odd_mul. simpl. apply andb_false_r.
Qed.

Lemma shr_record_of_loc_m (m : Z) (l : location) : shr_m (shr_record_of_loc m l) = m.
Proof. destruct l as [|[]]; reflexivity. Qed.

(** [shr mrs e n] shifts by [max n 0] positions. *)
Lemma shr_spec (mrs : shr_record) (e n : Z) :
  0 <= shr_m mrs ->
  snd (shr mrs e n) = e + Z.max n 0
  /\ shr_m (fst (shr mrs e n)) = shr_m mrs / 2 ^ Z.max n 0
  /\ (shr_r mrs = false -> shr_s mrs = false -> shr_m mrs mod 2 ^ Z.max n 0 = 0 ->
      shr_r (fst (shr mrs e n)) = false /\ shr_s (fst (shr mrs e n)) = false).
Proof.
  intros Hm. destruct n as [|p|p]; simpl.
  - rewrite Z.add_0_r, Z.div_1_r. auto.
  - rewrite iter_pos_nat.
    destruct (shr_iter (Pos.to_nat p) mrs Hm) as [Hdiv Hflags].
    rewrite positive_nat_Z in Hdiv, Hflags.
    replace (Z.max (Zpos p) 0) with (Zpos p) by lia. auto.
  - rewrite Z.add_0_r, Z.div_1_r. auto.
Qed.

Lemma round_nearest_even_bounds (m : Z) (l : location) :
  m <= round_nearest_even m l <= m + 1.
Proof.
  destruct l as [|[]]; simpl; try lia. destruct (Z.even m); lia.
Qed.

Lemma shr_nonneg (mrs : shr_record) (e n : Z) :
  0 <= shr_m mrs -> 0 <= shr_m (fst (shr mrs e n)).
Proof.
  intros Hm. destruct (shr_spec mrs e n Hm) as (_ & -> & _).
  apply Z.div_pos; [exact Hm|]. apply Z.pow_pos_nonneg; lia.
Qed.

(** Rounding a non-negative mantissa never yields NaN and keeps the sign. *)
Lemma binary_round_aux_sign (sx : bool) (mx ex : Z) (lx : location) :
  0 <= mx ->
  hasSign sx (binary_round_aux Number.prec Number.emax sx mx ex lx).
Proof.
  intros Hmx. unfold binary_round_aux, shr_fexp.
  destruct (shr (shr_record_of_loc mx lx) ex _) as [mrs1 e1] eqn:Hshr1.
  assert (Hm1 : 0 <= shr_m mrs1).
  { change mrs1 with (fst (mrs1, e1)). rewrite <- Hshr1. apply shr_nonneg.
    rewrite shr_record_of_loc_m. exact Hmx. }
  set (m2 := round_nearest_even (shr_m mrs1) (loc_of_shr_record mrs1)).
  assert (Hm2 : 0 <= m2).
  { pose proof (round_nearest_even_bounds (shr_m mrs1) (loc_of_shr_record mrs1)).
    unfold m2. lia. }
  destruct (shr (shr_record_of_loc m2 loc_Exact) e1 _) as [mrs3 e3] eqn:Hshr3.
  assert (Hm3 : 0 <= shr_m mrs3).
  { change mrs3 with (fst (mrs3, e3)). rewrite <- Hshr3. apply shr_nonneg.
    simpl. exact Hm2. }
  destruct (shr_m mrs3) as [|m|m]; simpl; [reflexivity| |lia].
  destruct (e3 <=? _); reflexivity.
Qed.

Lemma binary_round_sign (sx : bool) (mx : positive) (ex : Z) :
  hasSign sx (binary_round Number.prec Number.emax sx mx ex).
Proof.
  unfold binary_round. destruct (shl_align mx ex _) as [mz ez].
  apply binary_round_aux_sign. lia.
Qed.

Lemma ofZ_sign (z : Z) : 0 <= z -> hasSign false (Number.ofZ z).
Proof.
  intros Hz. unfold Number.ofZ, binary_normalize.
  destruct z as [|p|p]; [reflexivity | apply binary_round_sign | lia].
Qed.

Lemma fexp_binary64 (x : Z) :
  fexp Number.prec Number.emax x = Z.max (x - 53) (-1074).
Proof. reflexivity. Qed.

Lemma valLe_nonneg_exp (m e K : Z) : 0 <= e -> (valLe m e K <-> m * 2 ^ e <= K).
Proof.
  intros He. unfold valLe. rewrite Z.max_l, Z.max_r by lia.
  rewrite Z.pow_0_r, Z.mul_1_r. reflexivity.
Qed.

Lemma valLe_neg_exp (m e K : Z) : e <= 0 -> (valLe m e K <-> m <= K * 2 ^ (- e)).
Proof.
  intros He. unfold valLe. rewrite Z.max_r, Z.max_l by lia.
  rewrite Z.pow_0_r, Z.mul_1_r. reflexivity.
Qed.

(** A positive mantissa within a bound below [2^7] cannot have its leading
    digit at [2^7] or above. *)
Lemma digits_exp_bound (K m e : Z) :
  1 <= m -> K < 128 -> valLe m e K -> Zdigits2 m + e <= 7.
Proof.
  intros Hm HK Hval. destruct m as [|p|p]; try lia. simpl Zdigits2.
  destruct (digits2_pos_bounds p) as [Hlo _].
  set (d := Zpos (digits2_pos p)) in *.
  assert (Hd : 1 <= d) by (unfold d; lia).
  destruct (Z_le_gt_dec (d + e) 7) as [Hok|Hbig]; [exact Hok|exfalso].
  destruct (Z_le_gt_dec 0 e) as [He|He].
  - apply (proj1 (valLe_nonneg_exp _ _ _ He)) in Hval.
    assert (Hpow : 2 ^ 7 <= 2 ^ (d - 1 + e)) by (apply Z.pow_le_mono_r; lia).
    rewrite Z.pow_add_r in Hpow by lia.
    assert (H2e : 0 < 2 ^ e) by (apply Z.pow_pos_nonneg; lia).
    assert (Hmul : 2 ^ (d - 1) * 2 ^ e <= Zpos p * 2 ^ e)
      by (apply Z.mul_le_mono_nonneg_r; lia).
    change (2 ^ 7) with 128 in Hpow.
    apply (Z.lt_irrefl 128). eapply Z.le_lt_trans; [|exact HK].
    eapply Z.le_trans; [exact Hpow|]. eapply Z.le_trans; [exact Hmul | exact Hval].
  - assert (He' : e <= 0) by lia.
    apply (proj1 (valLe_neg_exp _ _ _ He')) in Hval.
    assert (Hpow : 2 ^ (7 + - e) <= 2 ^ (d - 1)) by (apply Z.pow_le_mono_r; lia).
    rewrite Z.pow_add_r in Hpow by lia.
    assert (H2e : 0 < 2 ^ (- e)) by (apply Z.pow_pos_nonneg; lia).
    assert (Hmul : K * 2 ^ (- e) < 128 * 2 ^ (- e))
      by (apply Z.mul_lt_mono_pos_r; lia).
    change (2 ^ 7) with 128 in Hpow.
    apply (Z.lt_irrefl (128 * 2 ^ (- e))). eapply Z.le_lt_trans; [|exact Hmul].
    eapply Z.le_trans; [exact Hpow|]. eapply Z.le_trans; [exact Hlo | exact Hval].
Qed.

(** One normalizing shift of an exactly known mantissa within the bound
    [K]: the truncated mantissa and the mantissa rounded to nearest are
    both within [K]. *)
Lemma shr_fexp_within (K m e : Z) :
  0 <= K < 128 -> 0 <= m -> valLe m e K ->
  let mrs := fst (shr_fexp Number.prec Number.emax m e loc_Exact) in
  let e' := snd (shr_fexp Number.prec Number.emax m e loc_Exact) in
  0 <= shr_m mrs
  /\ valLe (shr_m mrs) e' K
  /\ valLe (round_nearest_even (shr_m mrs) (loc_of_shr_record mrs)) e' K.
Proof.
  intros HK Hm Hval. unfold shr_fexp. cbv zeta.
  set (n := fexp Number.prec Number.emax (Zdigits2 m + e) - e).
  set (start := shr_record_of_loc m loc_Exact).
  assert (Hstart : 0 <= shr_m start) by exact Hm.
  destruct (shr_spec start e n Hstart) as (He' & Hm' & Hflags).
  rewrite He', Hm'. simpl shr_m.
  pose proof (round_nearest_even_bounds (shr_m (fst (shr start e n)))
                (loc_of_shr_record (fst (shr start e n)))) as Hrne.
  rewrite Hm' in Hrne. simpl shr_m in Hrne.
  set (k := Z.max n 0) in *.
  assert (H2k : 0 < 2 ^ k) by (apply Z.pow_pos_nonneg; lia).
  split; [apply Z.div_pos; lia|].
  destruct (Z_le_gt_dec n 0) as [Hn|Hn].
  { (* no shift *)
    assert (Hk : k = 0) by (unfold k; lia).
    destruct (Hflags eq_refl eq_refl) as [Hr Hs].
    { rewrite Hk. apply Z.mod_1_r. }
    assert (Hloc : loc_of_shr_record (fst (shr start e n)) = loc_Exact).
    { destruct (fst (shr start e n)) as [m0 r0 s0]. simpl in Hr, Hs. subst.
      reflexivity. }
    rewrite Hloc. simpl. rewrite Hk, Z.div_1_r, Z.add_0_r.
    split; exact Hval. }
  (* a shift by [k = n > 0] positions *)
  assert (Hk : k = n) by (unfold k; lia).
  destruct (Z.eq_dec m 0) as [->|Hm0].
  { rewrite Z.div_0_l in * by lia.
    destruct (Hflags eq_refl eq_refl) as [Hr Hs]; [apply Z.mod_0_l; lia|].
    assert (Hloc : loc_of_shr_record (fst (shr start e n)) = loc_Exact).
    { destruct (fst (shr start e n)) as [m0 r0 s0]. simpl in Hr, Hs. subst.
      reflexivity. }
    rewrite Hloc. simpl. unfold valLe. split.
    - assert (0 <= 2 ^ Z.max (- (e + k)) 0) by (apply Z.pow_nonneg; lia). nia.
    - assert (0 <= 2 ^ Z.max (- (e + k)) 0) by (apply Z.pow_nonneg; lia). nia. }
  assert (Hdig : Zdigits2 m + e <= 7) by (apply (digits_exp_bound K); [lia | lia | exact Hval]).
  assert (HE : e + k <= -46).
  { rewrite Hk. unfold n. rewrite fexp_binary64. lia. }
  assert (He : e <= 0) by lia.
  assert (Hek : e + k <= 0) by lia.
  apply (proj1 (valLe_neg_exp _ _ _ He)) in Hval.
  set (A := K * 2 ^ (- (e + k))).
  assert (HA : K * 2 ^ (- e) = A * 2 ^ k).
  { unfold A. rewrite <- Z.mul_assoc, <- Z.pow_add_r by lia. f_equal. f_equal. lia. }
  rewrite HA in Hval.
  assert (Hdiv : m / 2 ^ k <= A).
  { apply Z.div_le_upper_bound; [exact H2k | lia]. }
  split.
  - apply (proj2 (valLe_neg_exp _ _ _ Hek)). exact Hdiv.
  - apply (proj2 (valLe_neg_exp _ _ _ Hek)). fold A.
    destruct (Z.eq_dec (m mod 2 ^ k) 0) as [Hexact|Hinexact].
    + destruct (Hflags eq_refl eq_refl Hexact) as [Hr Hs].
      assert (Hloc : loc_of_shr_record (fst (shr start e n)) = loc_Exact).
      { destruct (fst (shr start e n)) as [m0 r0 s0]. simpl in Hr, Hs. subst.
        reflexivity. }
      rewrite Hloc. simpl. exact Hdiv.
    + pose proof (Z.div_mod m (2 ^ k) ltac:(lia)) as Hdm.
      pose proof (Z.mod_pos_bound m (2 ^ k) H2k) as Hmod.
      assert (Hlt : m / 2 ^ k < A) by nia.
      lia.
Qed.

(** Rounding to nearest keeps an exactly known value within the bound:
    the bound is itself a double. *)
Lemma binary_round_aux_atMost (K m e : Z) :
  0 <= K < 128 -> 0 <= m -> valLe m e K ->
  atMost K (binary_round_aux Number.prec Number.emax false m e loc_Exact).
Proof.
  intros HK Hm Hval. unfold binary_round_aux.
  pose proof (shr_fexp_within K m e HK Hm Hval) as Hfirst. cbv zeta in Hfirst.
  destruct (shr_fexp Number.prec Number.emax m e loc_Exact) as [mrs1 e1].
  simpl fst in Hfirst. simpl snd in Hfirst.
  destruct Hfirst as (Hm1 & _ & Hval2).
  set (m2 := round_nearest_even (shr_m mrs1) (loc_of_shr_record mrs1)) in *.
  assert (Hm2 : 0 <= m2).
  { pose proof (round_nearest_even_bounds (shr_m mrs1) (loc_of_shr_record mrs1)).
    unfold m2. lia. }
  pose proof (shr_fexp_within K m2 e1 HK Hm2 Hval2) as Hsecond. cbv zeta in Hsecond.
  destruct (shr_fexp Number.prec Number.emax m2 e1 loc_Exact) as [mrs3 e3].
  simpl fst in Hsecond. simpl snd in Hsecond.
  destruct Hsecond as (Hm3 & Hval3 & _).
  destruct (shr_m mrs3) as [|p|p]; [exact I| |lia].
  assert (He3 : e3 <= 6).
  { pose proof (digits_exp_bound K (Zpos p) e3 ltac:(lia) ltac:(lia) Hval3) as Hd.
    simpl Zdigits2 in Hd. lia. }
  replace (e3 <=? Number.emax - Number.prec) with true
    by (symmetry; apply Z.leb_le; unfold Number.emax, Number.prec; lia).
  exact Hval3.
Qed.

Lemma iter_xO (m d : positive) :
  Zpos (Pos.iter xO m d) = Zpos m * 2 ^ Zpos d.
Proof.
  induction d as [|d IH] using Pos.peano_ind.
  - simpl. lia.
  - rewrite Pos.iter_succ, Pos2Z.inj_succ, Z.pow_succ_r by lia.
    change (Zpos (Pos.iter xO m d)~0) with (2 * Zpos (Pos.iter xO m d)).
    rewrite IH. lia.
Qed.

(** Aligning a mantissa to a smaller exponent keeps its value. *)
Lemma shl_align_spec (mx : positive) (ex ex' : Z) :
  snd (shl_align mx ex ex') = Z.min ex ex'
  /\ Zpos (fst (shl_align mx ex ex')) = Zpos mx * 2 ^ (ex - Z.min ex ex').
Proof.
  unfold shl_align. destruct (ex' - ex) as [|d|d] eqn:Hd; simpl.
  - replace (Z.min ex ex') with ex by lia. rewrite Z.sub_diag. simpl. lia.
  - replace (Z.min ex ex') with ex by lia. rewrite Z.sub_diag. simpl. lia.
  - replace (Z.min ex ex') with ex' by lia.
    rewrite iter_xO. replace (ex - ex') with (Zpos d) by lia. lia.
Qed.

Lemma valLe_shift (m e K j : Z) :
  0 <= m -> 0 <= K -> 0 <= j -> valLe m e K -> valLe (m * 2 ^ j) (e - j) K.
Proof.
  intros Hm HK Hj Hval.
  assert (H2j : 0 < 2 ^ j) by (apply Z.pow_pos_nonneg; lia).
  destruct (Z_le_gt_dec j e) as [Hje|Hje].
  - assert (He : 0 <= e) by lia. assert (Hej : 0 <= e - j) by lia.
    apply (proj1 (valLe_nonneg_exp m e K He)) in Hval.
    apply (proj2 (valLe_nonneg_exp (m * 2 ^ j) (e - j) K Hej)).
    rewrite <- Z.mul_assoc, <- Z.pow_add_r by lia.
    replace (j + (e - j)) with e by lia. exact Hval.
  - assert (Hej : e - j <= 0) by lia.
    apply (proj2 (valLe_neg_exp (m * 2 ^ j) (e - j) K Hej)).
    destruct (Z_le_gt_dec 0 e) as [He|He].
    + apply (proj1 (valLe_nonneg_exp m e K He)) in Hval.
      replace j with (e + (j - e)) at 1 by lia.
      rewrite Z.pow_add_r, Z.mul_assoc by lia.
      replace (- (e - j)) with (j - e) by lia.
      apply Z.mul_le_mono_nonneg_r; [apply Z.pow_nonneg; lia | exact Hval].
    + assert (He' : e <= 0) by lia.
      apply (proj1 (valLe_neg_exp m e K He')) in Hval.
      replace (- (e - j)) with (- e + j) by lia.
      rewrite Z.pow_add_r, Z.mul_assoc by lia.
      apply Z.mul_le_mono_nonneg_r; [lia | exact Hval].
Qed.

Lemma binary_round_atMost (K : Z) (m : positive) (e : Z) :
  0 <= K < 128 -> valLe (Zpos m) e K ->
  atMost K (binary_round Number.prec Number.emax false m e).
Proof.
  intros HK Hval. unfold binary_round.
  destruct (shl_align_spec m e
              (fexp Number.prec Number.emax (Zpos (digits2_pos m) + e)))
    as [Hle Hmz].
  destruct (shl_align m e _) as [mz ez]. simpl in Hle, Hmz.
  apply binary_round_aux_atMost; [exact HK | lia |].
  rewrite Hmz, Hle.
  set (ez' := Z.min e (fexp Number.prec Number.emax (Zpos (digits2_pos m) + e))).
  replace ez' with (e - (e - ez')) at 2 by lia.
  apply valLe_shift; [lia | lia | lia | exact Hval].
Qed.

(** The double nearest to an integer at most [K] is at most [K]. *)
Lemma binary_normalize_atMost (K z e : Z) (s : bool) :
  0 <= K < 128 -> (0 < z -> valLe z e K) ->
  atMost K (binary_normalize Number.prec Number.emax z e s).
Proof.
  intros HK Hval. unfold binary_normalize. destruct z as [|p|p].
  - exact I.
  - apply binary_round_atMost; [exact HK | apply Hval; lia].
  - pose proof (binary_round_sign true p e) as Hsign.
    destruct (binary_round _ _ true p e) as [s0|s0| |s0 m0 e0]; simpl in *;
      subst; try exact I; try reflexivity; contradiction.
Qed.

Lemma one_binary64 : Number.ofZ 1 = S754_finite false 4503599627370496 (-52).
Proof. reflexivity. Qed.

Lemma hundred_binary64 : Number.ofZ 100 = S754_finite false 7036874417766400 (-46).
Proof. reflexivity. Qed.

(** [1 - q <= 1] for a non-negative [q]. *)
Lemma sub_one_atMost (q : spec_float) :
  hasSign false q -> atMost 1 (Number.sub (Number.ofZ 1) q).
Proof.
  intros Hq. rewrite one_binary64. unfold Number.sub.
  destruct q as [s|s| |s m e]; simpl in Hq; subst; try contradiction.
  - vm_compute. discriminate.
  - reflexivity.
  - cbn [SFsub cond_Zopp].
    set (ez := Z.min (-52) e).
    destruct (shl_align_spec 4503599627370496 (-52) ez) as [_ HA].
    replace (Z.min (-52) ez) with ez in HA by (unfold ez; lia).
    set (A := Zpos (fst (shl_align 4503599627370496 (-52) ez))) in *.
    set (B := Zpos (fst (shl_align m e ez))).
    assert (HB : 0 < B) by (unfold B; lia).
    apply binary_normalize_atMost; [lia|]. intros Hpos.
    assert (Hez : ez <= 0) by (unfold ez; lia).
    apply (proj2 (valLe_neg_exp (A - B) ez 1 Hez)).
    assert (HA' : A = 2 ^ (- ez)).
    { rewrite HA. change 4503599627370496 with (2 ^ 52).
      rewrite <- Z.pow_add_r by (unfold ez; lia). f_equal. lia. }
    lia.
Qed.

Lemma valLe_times_hundred (m e : Z) :
  0 <= m -> valLe m e 1 -> valLe (m * 7036874417766400) (e + -46) 100.
Proof.
  intros Hm Hval.
  assert (Hhundred : valLe (m * 100) e 100).
  { unfold valLe in *. nia. }
  replace (m * 7036874417766400) with (m * 100 * 2 ^ 46) by (change (2 ^ 46) with 70368744177664; lia).
  replace (e + -46) with (e - 46) by lia.
  apply valLe_shift; [lia | lia | lia | exact Hhundred].
Qed.

(** [d * 100 <= 100] for [d <= 1]. *)
Lemma mul_hundred_atMost (d : spec_float) :
  atMost 1 d -> atMost 100 (Number.mul d (Number.ofZ 100)).
Proof.
  intros Hd. rewrite hundred_binary64. unfold Number.mul.
  destruct d as [s|s| |s m e]; simpl in Hd; subst; try contradiction.
  - exact I.
  - reflexivity.
  - destruct s.
    + cbn [SFmul xorb].
      pose proof (binary_round_aux_sign true (Zpos (m * 7036874417766400)) (e + -46)
                    loc_Exact ltac:(lia)) as Hsign.
      destruct (binary_round_aux _ _ true _ _ _) as [s0|s0| |s0 m0 e0]; simpl in *;
        subst; try exact I; try reflexivity; contradiction.
    + cbn [SFmul xorb].
      apply binary_round_aux_atMost; [lia | lia |].
      rewrite Pos2Z.inj_mul. apply valLe_times_hundred; [lia | exact Hd].
Qed.

(** The quotient of two non-negative numbers is non-negative (or an
    infinity of positive sign). *)
Lemma div_sign (x : spec_float) (my : positive) (ey : Z) :
  hasSign false x -> hasSign false (Number.div x (S754_finite false my ey)).
Proof.
  intros Hx. unfold Number.div.
  destruct x as [s|s| |s mx ex]; simpl in Hx; subst; try contradiction.
  - reflexivity.
  - reflexivity.
  - cbn [SFdiv xorb]. unfold SFdiv_core_binary.
    set (sh := _ - _ - _).
    set (m' := match sh with Zpos _ => Z.shiftl (Zpos mx) sh | Z0 => Zpos mx | Zneg _ => Z0 end).
    assert (Hm' : 0 <= m').
    { unfold m'. destruct sh; try lia. apply Z.shiftl_nonneg. lia. }
    pose proof (Z.div_pos m' (Zpos my) Hm' ltac:(lia)) as Hq.
    unfold Z.div in Hq.
    destruct (Z.div_eucl m' (Zpos my)) as [q r]. simpl in Hq.
    apply binary_round_aux_sign. exact Hq.
Qed.

Lemma digits2_pos_iter_xO (p k : positive) :
  digits2_pos (Pos.iter xO p k) = (digits2_pos p + k)%positive.
Proof.
  induction k as [|k IH] using Pos.peano_ind.
  - simpl. lia.
  - rewrite Pos.iter_succ. simpl. rewrite IH. lia.
Qed.

Lemma binary_round_aux_exact (sx : bool) (p : positive) (e : Z) :
  fexp Number.prec Number.emax (Zpos (digits2_pos p) + e) <= e ->
  e <= 971 ->
  binary_round_aux Number.prec Number.emax sx (Zpos p) e loc_Exact = S754_finite sx p e.
Proof.
  intros Hn He. unfold binary_round_aux, shr_fexp. cbn [Zdigits2].
  set (n := fexp _ _ _ - e) in *.
  assert (Hshr : forall mrs, shr mrs e n = (mrs, e)).
  { intros mrs. unfold shr. destruct n eqn:Hd; try reflexivity. lia. }
  rewrite Hshr. cbn [shr_record_of_loc shr_m round_nearest_even loc_of_shr_record
                       shr_r shr_s Zdigits2].
  fold n. rewrite Hshr.
  cbn [shr_record_of_loc shr_m].
  unfold Number.emax, Number.prec.
  replace (e <=? 1024 - 53) with true by (symmetry; apply Z.leb_le; lia).
  reflexivity.
Qed.

(** A positive integer below [2^53] is a finite double of positive
    sign. *)
Lemma ofZ_finite (z : Z) :
  0 < z < 2 ^ 53 -> exists m e, Number.ofZ z = S754_finite false m e.
Proof.
  intros Hz. destruct z as [|p|p]; try lia.
  unfold Number.ofZ, binary_normalize, binary_round.
  destruct (digits2_pos_bounds p) as [Hlo Hhi].
  assert (Hd : Zpos (digits2_pos p) <= 53).
  { destruct (Z_le_gt_dec (Zpos (digits2_pos p)) 53) as [|Hgt]; [assumption|].
    exfalso.
    assert (2 ^ 53 <= 2 ^ (Zpos (digits2_pos p) - 1)) by (apply Z.pow_le_mono_r; lia).
    lia. }
  assert (Hfexp : fexp Number.prec Number.emax (Zpos (digits2_pos p) + 0)
                  = Zpos (digits2_pos p) - 53).
  { rewrite fexp_binary64. lia. }
  rewrite Hfexp. unfold shl_align.
  destruct (Zpos (digits2_pos p) - 53 - 0) as [|k|k] eqn:Hk; try lia.
  - exists p, 0. apply binary_round_aux_exact; [|lia]. rewrite Hfexp. lia.
  - exists (Pos.iter xO p k), (Zpos (digits2_pos p) - 53).
    apply binary_round_aux_exact; [|lia].
    rewrite digits2_pos_iter_xO, fexp_binary64. lia.
Qed.

Lemma small_integers_leb :
  forallb (fun k => Number.leb (Number.ofZ (Z.of_nat k)) (Number.ofZ 100)) (seq 0 101) = true.
Proof. vm_compute. reflexivity. Qed.

Lemma ofZ_leb_hundred (n : Z) :
  0 <= n <= 100 -> Number.leb (Number.ofZ n) (Number.ofZ 100) = true.
Proof.
  intros Hn.
  pose proof (proj1 (forallb_forall _ _) small_integers_leb (Z.to_nat n)) as H.
  cbv beta in H. rewrite Z2Nat.id in H by lia.
  apply H. apply in_seq. lia.
Qed.

Lemma leb_of_sign (x : spec_float) :
  hasSign true x -> Number.leb x (Number.ofZ 100) = true.
Proof.
  intros Hx. rewrite hundred_binary64.
  destruct x as [s|s| |s m e]; simpl in Hx; subst; try contradiction; reflexivity.
Qed.

(** [Math.round] of a number that is at most 100 is at most 100. *)
Lemma round_atMost (p : spec_float) :
  atMost 100 p -> Number.leb (Number.round p) (Number.ofZ 100) = true.
Proof.
  intros Hp.
  destruct p as [s|s| |s m e]; simpl in Hp; subst; try contradiction.
  - destruct s; reflexivity.
  - reflexivity.
  - unfold Number.round.
    set (n := if 0 <=? e then _ else _).
    destruct s.
    + assert (Hn : n <= 0).
      { unfold n. cbn [cond_Zopp]. destruct (Z.leb_spec 0 e) as [He|He].
        - assert (0 <= 2 ^ e) by (apply Z.pow_nonneg; lia).
          change (- Zpos m) with (Zneg m). nia.
        - assert (0 < 2 ^ (- e)) by (apply Z.pow_pos_nonneg; lia).
          assert (Hpow : 2 ^ (- e + 1) = 2 * 2 ^ (- e)) by (rewrite Z.pow_add_r by lia; lia).
          assert (forall a b, 0 < b -> a < b -> a / b <= 0) as Hdiv.
          { intros a b Hb Hab.
            assert (a / b < 1) by (apply Z.div_lt_upper_bound; lia). lia. }
          apply Hdiv; [lia|]. change (- Zpos m) with (Zneg m). lia. }
      apply leb_of_sign.
      destruct (Z.eq_dec n 0) as [->|Hne]; [reflexivity|].
      unfold binary_normalize. destruct n as [|q|q]; try lia.
      apply binary_round_sign.
    + assert (Hn : 0 <= n <= 100).
      { unfold n. cbn [cond_Zopp]. destruct (Z.leb_spec 0 e) as [He|He].
        - pose proof (proj1 (valLe_nonneg_exp (Zpos m) e 100 He) Hp).
          assert (0 <= 2 ^ e) by (apply Z.pow_nonneg; lia). nia.
        - pose proof (proj1 (valLe_neg_exp (Zpos m) e 100 ltac:(lia)) Hp) as Hm.
          assert (0 < 2 ^ (- e)) by (apply Z.pow_pos_nonneg; lia).
          assert (Hpow : 2 ^ (- e + 1) = 2 * 2 ^ (- e)) by (rewrite Z.pow_add_r by lia; lia).
          split.
          + apply Z.div_pos; lia.
          + assert ((2 * Zpos m + 2 ^ (- e)) / 2 ^ (- e + 1) < 101)
              by (apply Z.div_lt_upper_bound; lia).
            lia. }
      assert (Heq : binary_normalize Number.prec Number.emax n 0 false = Number.ofZ n)
        by reflexivity.
      rewrite Heq. apply ofZ_leb_hundred. exact Hn.
Qed.

(** ** Token accounting *)

(** The percentage is at most 100 whenever the totals are those of token
    counts that are not negative and the original total is an integer a
    double holds exactly. *)
Lemma percentSaved_atMost (totalOriginal totalWithSummaries : Z) :
  0 <= totalWithSummaries -> totalOriginal < 2 ^ 53 ->
  Number.leb (percentSaved totalOriginal totalWithSummaries) (Number.ofZ 100) = true.
Proof.
  intros Hcur Horig. unfold percentSaved.
  destruct (Z.ltb_spec 0 totalOriginal) as [Hpos|Hnpos]; [|reflexivity].
  destruct (ofZ_finite totalOriginal ltac:(lia)) as (m & e & ->).
  apply round_atMost, mul_hundred_atMost, sub_one_atMost, div_sign, ofZ_sign.
  exact Hcur.
Qed.

Section TokenTrackerFacts.
Context {H : Type} `{HostAPI H}.
Implicit Types (w : World H).

(** The loop of [getTotalSavings] adds the two sums to its totals. *)
Lemma fold_addItem (replace : bool) (c : list Message) (i : Z) (t : Totals) :
  totalOriginal (fold_left (addItem replace) (breakdownFrom i c) t)
  = totalOriginal t + originalTotal (H:=H) c
  /\ totalWithSummaries (fold_left (addItem replace) (breakdownFrom i c) t)
     = totalWithSummaries t + effectiveTotal (H:=H) replace c.
Proof.
  revert i t. induction c as [|msg c IH]; intros i t.
  - unfold originalTotal, effectiveTotal. simpl. lia.
  - unfold originalTotal, effectiveTotal, counted in *.
    cbn [breakdownFrom List.filter].
    destruct (is_system msg); cbn [negb].
    + apply IH.
    + cbn [fold_left List.map fold_right].
      match goal with
      | |- context [fold_left _ (breakdownFrom (i + 1) c) ?t'] =>
          destruct (IH (i + 1) t') as [IHo IHe]
      end.
      rewrite IHo, IHe. unfold addItem, effectiveTokens. cbn [item_hasSummary].
      destruct (hasSummary msg && replace) eqn:Hrep; cbn [totalOriginal totalWithSummaries
        item_tokens item_summaryTokens].
      * apply andb_true_iff in Hrep as [-> _]. lia.
      * lia.
Qed.

Lemma originalTotal_nonneg (c : list Message) :
  (forall s : string, 0 <= getTokenCountAsync (H:=H) s) -> 0 <= originalTotal (H:=H) c.
Proof.
  intros Hcount. unfold originalTotal.
  induction (counted c) as [|m l IH]; simpl; [lia|].
  specialize (Hcount (mes m)). lia.
Qed.

Lemma effectiveTotal_nonneg (replace : bool) (c : list Message) :
  (forall s : string, 0 <= getTokenCountAsync (H:=H) s) ->
  0 <= effectiveTotal (H:=H) replace c.
Proof.
  intros Hcount. unfold effectiveTotal.
  induction (counted c) as [|m l IH]; simpl; [lia|].
  assert (0 <= effectiveTokens (H:=H) replace m)
    by (unfold effectiveTokens; destruct (_ && _); apply Hcount).
  lia.
Qed.

(** C2.  For token counts that are not negative, [getTotalSavings]
    returns without touching anything, with [original] the sum of the
    body counts of the visible messages, [current] the sum of what they
    cost under the replacement policy, [saved] their difference, so that
    [current = original - saved] exactly; [savedPercent] is 0 when
    [original] is 0 and otherwise the double
    [Math.round((1 - current / original) * 100)], computed in binary64,
    which is not always the rounding of the exact ratio; as long as
    [original] is below [2^53] it is a number that does not exceed 100. *)
Theorem getTotalSavings_accounting w :
  (forall s : string, 0 <= getTokenCountAsync (H:=H) s) ->
  exists sv,
    getTotalSavings w = (Ok sv, w)
    /\ original sv = originalTotal (H:=H) (chat w)
    /\ current sv = effectiveTotal (H:=H) (replace_with_summary (settings w)) (chat w)
    /\ saved sv = original sv - current sv
    /\ current sv = original sv - saved sv
    /\ 0 <= original sv
    /\ (original sv = 0 -> savedPercent sv = Number.ofZ 0)
    /\ (0 < original sv ->
        savedPercent sv
        = Number.round
            (Number.mul
               (Number.sub (Number.ofZ 1)
                  (Number.div (Number.ofZ (current sv)) (Number.ofZ (original sv))))
               (Number.ofZ 100)))
    /\ (original sv < 2 ^ 53 ->
        Number.leb (savedPercent sv) (Number.ofZ 100) = true).
Proof.
  intros Hcount.
  exists (totalSavings (replace_with_summary (settings w)) (breakdownFrom 0 (chat w))).
  split; [reflexivity|].
  destruct (fold_addItem (replace_with_summary (settings w)) (chat w) 0 (mkTotals 0 0 0))
    as [Ho He].
  cbn [totalOriginal totalWithSummaries] in Ho, He.
  rewrite Z.add_0_l in Ho, He.
  pose proof (originalTotal_nonneg (chat w) Hcount) as Hon.
  pose proof (effectiveTotal_nonneg (replace_with_summary (settings w)) (chat w) Hcount)
    as Hen.
  unfold totalSavings. cbn [original current saved savedPercent].
  rewrite Ho, He.
  repeat split; try lia.
  - intros Hzero. unfold percentSaved. rewrite Hzero. reflexivity.
  - intros Hpos. unfold percentSaved.
    rewrite (proj2 (Z.ltb_lt _ _) Hpos). reflexivity.
  - intros Hsmall. apply percentSaved_atMost; assumption.
Qed.
End TokenTrackerFacts.

(** [getTotalSavings_accounting] on [mixedChat]: 49 tokens, of which 23
    are saved, and 47 per cent. *)
Lemma getTotalSavings_accounting_witness :
  (forall s : string, 0 <= getTokenCountAsync (H:=Scripted) s)
  /\ exists sv,
       getTotalSavings (replacingWorld mixedChat) = (Ok sv, replacingWorld mixedChat)
       /\ original sv = 49 /\ current sv = 26 /\ saved sv = 23
       /\ current sv = original sv - saved sv
       /\ savedPercent sv = Number.ofZ 47
       /\ Number.leb (savedPercent sv) (Number.ofZ 100) = true.
Proof.
  assert (Hcount : forall s : string, 0 <= getTokenCountAsync (H:=Scripted) s)
    by (intros s; simpl; lia).
  split; [exact Hcount|].
  destruct (getTotalSavings_accounting (replacingWorld mixedChat) Hcount)
    as (sv & Hrun & Ho & Hc & Hs & Hdiff & _ & _ & Hpct & Hle).
  exists sv. split; [exact Hrun|].
  assert (Ho' : original sv = 49) by (rewrite Ho; reflexivity).
  assert (Hc' : current sv = 26) by (rewrite Hc; reflexivity).
  split; [exact Ho'|]. split; [exact Hc'|].
  split; [rewrite Hs, Ho', Hc'; reflexivity|].
  split; [exact Hdiff|].
  split.
  - rewrite Hpct by (rewrite Ho'; lia). rewrite Ho', Hc'. vm_compute. reflexivity.
  - apply Hle. rewrite Ho'. reflexivity.
Defined.

(** One message of 40 tokens replaced by a summary of 17: 23 of 40 tokens
    are saved, 57.5 per cent, which rounds to 58; the function returns 57,
    because [1 - 17/40] is a double just below 0.575. *)
Lemma savedPercent_not_rounded_ratio :
  exists sv,
    getTotalSavings (replacingWorld chat40_17) = (Ok sv, replacingWorld chat40_17)
    /\ original sv = 40 /\ saved sv = 23
    /\ roundedPercent (saved sv) (original sv) = 58
    /\ savedPercent sv = Number.ofZ 57
    /\ savedPercent sv <> Number.ofZ (roundedPercent (saved sv) (original sv)).
Proof.
  eexists. split; [reflexivity|].
  split; [reflexivity|]. split; [reflexivity|]. split; [reflexivity|].
  split; [vm_compute; reflexivity|].
  vm_compute. discriminate.
Qed.

(** Nor is it the ratio with halves rounded down: with a summary of 39
    tokens 2.5 per cent are saved and the function returns 3. *)
Example savedPercent_half_up :
  exists sv,
    getTotalSavings (replacingWorld chat40_39) = (Ok sv, replacingWorld chat40_39)
    /\ original sv = 40 /\ saved sv = 1
    /\ savedPercent sv = Number.ofZ 3.
Proof.
  eexists. split; [reflexivity|].
  split; [reflexivity|]. split; [reflexivity|]. vm_compute. reflexivity.
Qed.

(** With summaries longer than the bodies the percentage is negative. *)
Example savedPercent_negative :
  exists sv,
    getTotalSavings
      (replacingWorld [summarized "Hi." "Ann greets the others."])
    = (Ok sv, replacingWorld [summarized "Hi." "Ann greets the others."])
    /\ saved sv = -19
    /\ savedPercent sv = Number.ofZ (-633).
Proof.
  eexists. split; [reflexivity|]. split; [reflexivity|]. vm_compute. reflexivity.
Qed.

(** ** Reading summaries and scene ends *)

Lemma lastSceneEndBelow_spec (c : list Message) (n : nat) :
  let r := lastSceneEndBelow c n in
  (r = -1 \/ (0 <= r < Z.of_nat n
              /\ exists m, c !! Z.to_nat r = Some m /\ hasSceneEnd m = true))
  /\ forall i m, r < Z.of_nat i -> (i < n)%nat -> c !! i = Some m -> hasSceneEnd m = false.
Proof.
  induction n as [|n IH]; cbn [lastSceneEndBelow].
  - split; [left; reflexivity | intros; lia].
  - destruct IH as [IHr IHabove].
    destruct (c !! n) as [m|] eqn:Hm.
    + destruct (hasSceneEnd m) eqn:Hend.
      * split.
        -- right. split; [lia|]. exists m. rewrite Nat2Z.id. auto.
        -- intros i m' Hlt Hi. lia.
      * split.
        -- destruct IHr as [->|(Hr & Hex)]; [left; reflexivity | right].
           split; [lia | exact Hex].
        -- intros i m' Hlt Hi Hm'.
           destruct (Nat.eq_dec i n) as [->|Hne].
           ++ congruence.
           ++ apply (IHabove i m' Hlt); [lia | exact Hm'].
    + split.
      * destruct IHr as [->|(Hr & Hex)]; [left; reflexivity | right].
        split; [lia | exact Hex].
      * intros i m' Hlt Hi Hm'.
        destruct (Nat.eq_dec i n) as [->|Hne].
        -- congruence.
        -- apply (IHabove i m' Hlt); [lia | exact Hm'].
Qed.

Section ReadingFacts.
Context {H : Type} `{HostAPI H}.
Implicit Types (w : World H).

(** X1.  [findLastSceneEnd(n)] changes nothing and returns either [-1] or
    the index below [n] of a message that ends a scene; in both cases no
    message strictly between the result and [n] ends a scene. *)
Theorem findLastSceneEnd_spec w (beforeMesId : Z) :
  exists r,
    findLastSceneEnd beforeMesId w = (Ok r, w)
    /\ (r = -1 \/ (0 <= r < beforeMesId /\ isSceneEnd r w = (Ok true, w)))
    /\ (forall j, r < j < beforeMesId -> isSceneEnd j w = (Ok false, w)).
Proof.
  exists (lastSceneEndBelow (chat w) (Z.to_nat beforeMesId)).
  split; [reflexivity|].
  destruct (lastSceneEndBelow_spec (chat w) (Z.to_nat beforeMesId)) as [Hr Habove].
  cbv zeta in Hr, Habove.
  set (r := lastSceneEndBelow (chat w) (Z.to_nat beforeMesId)) in *.
  split.
  - destruct Hr as [Hr|(Hr & m & Hm & Hend)]; [left; exact Hr | right].
    split; [lia|].
    unfold isSceneEnd, gets, elementAt.
    replace (r <? 0) with false by (symmetry; apply Z.ltb_ge; lia).
    rewrite Hm, Hend. reflexivity.
  - intros j Hj.
    assert (Hj0 : 0 <= j) by (destruct Hr as [Hr|(Hr & _)]; lia).
    unfold isSceneEnd, gets, elementAt.
    replace (j <? 0) with false by (symmetry; apply Z.ltb_ge; lia).
    destruct (chat w !! Z.to_nat j) as [m|] eqn:Hm; [|reflexivity].
    rewrite (Habove (Z.to_nat j) m); [reflexivity | lia | lia | exact Hm].
Qed.
End ReadingFacts.

(** ** The gateway: pacing, send buttons, keywords *)



Section GatewayMore.
Context {H : Type} `{HostAPI H}.
Implicit Types (w : World H).

(** [generateText] leaves the send buttons active whenever it reached
    the request, and as they were otherwise; this does not depend on
    whether it returns or throws. *)
Lemma generateText_buttons (content systemPrompt : string) w :
  exists r w',
    generateText content systemPrompt w = (r, w')
    /\ gatewayFrame w w'
    /\ (sendButtonsActive w = true -> sendButtonsActive w' = true)
    /\ (chat w <> [] -> summarization_profile (settings w) <> "" ->
        sendButtonsActive w' = true)
    /\ (forall e, r = Throw e ->
          e = notAFunction "trim" /\ sendButtonsActive w' = true).
Proof.
  unfold generateText. rewrite bind_get.
  destruct (length (chat w) =? 0)%nat eqn:Hlen.
  - destruct (notify_spec "warning" "Please open a chat first" w)
      as (w1 & Hn & Hf & Ht & _ & _ & Hb).
    monad. rewrite Hn. simpl. eexists. eexists. split; [reflexivity|].
    split; [unfold gatewayFrame in *; simpl; intuition|].
    simpl. split; [congruence|]. split; [|discriminate].
    intros Hchat. apply Nat.eqb_eq in Hlen. destruct (chat w); [congruence | discriminate].
  - destruct (negb (JS.truthy (summarization_profile (settings w)))) eqn:Hprof.
    + match goal with
      | |- context [notify ?t ?m] =>
          destruct (notify_spec t m w) as (w1 & Hn & Hf & Ht & _ & _ & Hb)
      end.
      monad. rewrite Hn. simpl. eexists. eexists. split; [reflexivity|].
      split; [unfold gatewayFrame in *; simpl; intuition|].
      simpl. split; [congruence|]. split; [|discriminate].
      intros _ Hp. exfalso. apply Hp.
      apply negb_true_iff in Hprof. unfold JS.truthy in Hprof.
      apply negb_false_iff in Hprof. apply String.eqb_eq in Hprof. exact Hprof.
    + destruct (requestSummary_result content systemPrompt w)
        as (w2 & Hr & Hf & Ht & Hb).
      unfold tryCatch. rewrite ?bind_assoc, (bind_Ok _ _ _ _ _ Hr).
      destruct (match fst (requestOf w content systemPrompt) with
                | Some response => resultOf response
                | None => Text ""
                end) as [s|c|]; monad; simpl;
        (eexists; eexists; split; [reflexivity|]);
        (split; [unfold gatewayFrame in *; simpl; intuition|]);
        simpl; (split; [auto|]); (split; [auto|]);
        intros e He; try discriminate; injection He as <-; auto.
Qed.

(** X3.  Whether [generateText] returns or throws, and whatever happens
    to the request, the send buttons are active afterwards if they were
    active before, and they are always active once a chat is open and a
    profile selected: also when the request throws, and also when
    [generateText] itself throws, which it does with the [TypeError] of
    [result.trim()] only.  The chat, the settings, the memory cache and
    the timeline are not touched. *)
Theorem generateText_reactivates_send_buttons (content systemPrompt : string) w :
  exists r w',
    generateText content systemPrompt w = (r, w')
    /\ chat w' = chat w /\ settings w' = settings w
    /\ memoryCache w' = memoryCache w /\ timelineData w' = timelineData w
    /\ (sendButtonsActive w = true -> sendButtonsActive w' = true)
    /\ (chat w <> [] -> summarization_profile (settings w) <> "" ->
        sendButtonsActive w' = true)
    /\ (forall e, r = Throw e ->
          e = notAFunction "trim" /\ sendButtonsActive w' = true).
Proof.
  destruct (generateText_buttons content systemPrompt w)
    as (r & w' & Hrun & (Hc & Hs & _ & _ & Hm & Ht & _) & Hkeep & Hact & Hthrow).
  exists r, w'. auto 10.
Qed.
End GatewayMore.

(** [generateText_reactivates_send_buttons] where the buttons were off:
    on a request that throws, [generateText] returns; on an answer object
    with an empty [content] it throws; the buttons are active after
    both. *)
Lemma generateText_reactivates_send_buttons_witness :
  (exists r w',
     generateText "Ann: Hello there, traveller." "Summarize."
       (setSendButtons false throwingWorld) = (Ok r, w')
     /\ sendButtonsActive w' = true)
  /\ (exists e w',
        generateText "Ann: Hello there, traveller." "Summarize."
          (setSendButtons false emptyContentWorld) = (Throw e, w')
        /\ sendButtonsActive w' = true).
Proof.
  split.
  - destruct (generateText_reactivates_send_buttons "Ann: Hello there, traveller."
                "Summarize." (setSendButtons false throwingWorld))
      as (r & w' & Hrun & _ & _ & _ & _ & _ & Hact & _).
    destruct r as [r|e]; [|vm_compute in Hrun; discriminate].
    exists r, w'. split; [exact Hrun|].
    apply Hact; simpl; discriminate.
  - destruct (generateText_reactivates_send_buttons "Ann: Hello there, traveller."
                "Summarize." (setSendButtons false emptyContentWorld))
      as (r & w' & Hrun & _ & _ & _ & _ & _ & Hact & _).
    destruct r as [r|e]; [vm_compute in Hrun; discriminate|].
    exists e, w'. split; [exact Hrun|].
    apply Hact; simpl; discriminate.
Defined.

(** ** Keywords *)

Lemma append_cons (c : ascii) (a b : string) : String c a +:+ b = String c (a +:+ b).
Proof. reflexivity. Qed.

Lemma append_nil (b : string) : "" +:+ b = b.
Proof. reflexivity. Qed.

Lemma append_assoc (a b c : string) : (a +:+ b) +:+ c = a +:+ (b +:+ c).
Proof.
  induction a as [|x a IH]; [reflexivity|].
  rewrite !append_cons, IH. reflexivity.
Qed.

Lemma rev_acc (s acc : string) : JS.rev s acc = JS.rev s "" +:+ acc.
Proof.
  revert acc. induction s as [|c s IH]; intros acc; cbn [JS.rev].
  - reflexivity.
  - rewrite (IH (String c acc)), (IH (String c "")).
    rewrite append_assoc, append_cons, append_nil. reflexivity.
Qed.

Lemma rev_app (a b : string) : JS.rev (a +:+ b) "" = JS.rev b "" +:+ JS.rev a "".
Proof.
  assert (Hgen : forall acc, JS.rev (a +:+ b) acc = JS.rev b (JS.rev a acc)).
  { induction a as [|c a IH]; intros acc; [reflexivity|].
    rewrite append_cons. cbn [JS.rev]. apply IH. }
  rewrite Hgen. apply rev_acc.
Qed.

Lemma rev_involutive (s : string) : JS.rev (JS.rev s "") "" = s.
Proof.
  induction s as [|c s IH]; [reflexivity|].
  cbn [JS.rev]. rewrite (rev_acc s (String c "")), rev_app, IH. reflexivity.
Qed.

Lemma trimStart_head (s : string) :
  match JS.trimStart s with
  | String c _ => JS.isSpace c = false
  | EmptyString => True
  end.
Proof.
  induction s as [|c s IH]; cbn [JS.trimStart]; [exact I|].
  destruct (JS.isSpace c) eqn:Hc; [exact IH | exact Hc].
Qed.

Lemma trimStart_fixed (s : string) :
  match s with String c _ => JS.isSpace c = false | EmptyString => True end ->
  JS.trimStart s = s.
Proof.
  destruct s as [|c s]; [reflexivity|]. cbn [JS.trimStart]. intros ->. reflexivity.
Qed.

Lemma trimStart_last (x : string) (c : ascii) :
  JS.isSpace c = false ->
  exists y, JS.trimStart (x +:+ String c "") = y +:+ String c "".
Proof.
  intros Hc. induction x as [|d x IH].
  - rewrite append_nil. cbn [JS.trimStart]. rewrite Hc. exists "". reflexivity.
  - rewrite append_cons. cbn [JS.trimStart].
    destruct (JS.isSpace d); [exact IH|]. exists (String d x). reflexivity.
Qed.

(** What [trim] returns neither starts nor ends with whitespace: trimming
    it again changes nothing. *)
Lemma trim_idempotent (s : string) : JS.trim (JS.trim s) = JS.trim s.
Proof.
  unfold JS.trim.
  set (t := JS.trimStart s).
  assert (Ht : match t with String c _ => JS.isSpace c = false | EmptyString => True end)
    by apply trimStart_head.
  set (u := JS.rev (JS.trimStart (JS.rev t "")) "").
  assert (Hu : JS.trimStart u = u).
  { apply trimStart_fixed. unfold u.
    destruct t as [|c t']; [exact I|].
    cbn [JS.rev]. rewrite (rev_acc t' (String c "")).
    destruct (trimStart_last (JS.rev t' "") c Ht) as [y ->].
    rewrite rev_app. cbn [JS.rev]. rewrite append_cons. exact Ht. }
  rewrite Hu. unfold u at 1. rewrite rev_involutive.
  rewrite (trimStart_fixed (JS.trimStart (JS.rev t ""))) by apply trimStart_head.
  reflexivity.
Qed.

Section KeywordFacts.
Context {H : Type} `{HostAPI H}.
Implicit Types (w : World H).

(** X4.  When [generateKeywords] returns, it returns at most five
    keywords, none of them empty and each without whitespace around it,
    and none at all when generation failed or left an empty text.  It
    throws only as [generateText] does, the [TypeError] of
    [result.trim()], when the answer of the model left no text.  Either
    way the chat, the settings and the memory cache are as before. *)
Theorem generateKeywords_at_most_five_trimmed (content : string) w :
  let systemPrompt := systemPromptOf (keywords_prompt (settings w)) in
  exists r w',
    generateKeywords content w = (r, w')
    /\ chat w' = chat w /\ settings w' = settings w
    /\ memoryCache w' = memoryCache w
    /\ match r with
       | Ok ks =>
           (length ks <= 5)%nat
           /\ Forall (fun k => k <> "" /\ JS.trim k = k) ks
       | Throw e =>
           e = notAFunction "trim"
           /\ generationNotText w content systemPrompt
       end
    /\ (generationFails w content systemPrompt
        \/ generationEmpty w content systemPrompt -> r = Ok []).
Proof.
  intros systemPrompt.
  unfold generateKeywords. rewrite bind_get. fold systemPrompt.
  destruct (notify_spec "info" "Generating keywords..." w)
    as (w1 & Hn & Hf1 & _ & Hh1 & Hl1 & _).
  rewrite (bind_Ok _ _ _ _ _ Hn).
  destruct (generateText_spec content systemPrompt w1) as (w2 & Hg & Hf2 & _).
  assert (Hreq : requestOf w1 content systemPrompt = requestOf w content systemPrompt).
  { destruct Hf1 as (_ & Hs1 & Hp1 & _). apply requestOf_ext; assumption. }
  assert (Hframe : chat w2 = chat w /\ settings w2 = settings w
                   /\ memoryCache w2 = memoryCache w).
  { destruct (gatewayFrame_trans _ _ _ Hf1 Hf2) as (Hc & Hs & _ & _ & Hm & _).
    auto. }
  destruct Hframe as (Hc & Hs & Hm).
  destruct (generated w1 content systemPrompt) as [r|e] eqn:Hgen.
  - rewrite (bind_Ok _ _ _ _ _ Hg).
    eexists. exists w2. split; [reflexivity|].
    split; [exact Hc|]. split; [exact Hs|]. split; [exact Hm|]. split.
    + split; [rewrite length_take; lia|].
      apply Forall_take. apply List.Forall_forall. intros k Hk.
      apply filter_In in Hk as [Hk Hne].
      apply in_map_iff in Hk as (field & <- & _).
      split.
      * intros Hempty. rewrite Hempty in Hne. discriminate.
      * apply trim_idempotent.
    + intros Hfail.
      assert (Hempty : generated w1 content systemPrompt = Ok "").
      { apply generated_empty.
        destruct Hf1 as (Hc1 & Hs1 & _).
        unfold generationFails, generationEmpty in *.
        rewrite Hreq, Hc1, Hs1. exact Hfail. }
      rewrite Hempty in Hgen. injection Hgen as <-. reflexivity.
  - rewrite (bind_Throw _ _ _ _ _ Hg).
    eexists. exists w2. split; [reflexivity|].
    split; [exact Hc|]. split; [exact Hs|]. split; [exact Hm|].
    destruct (generated_Throw _ _ _ _ Hgen) as [-> Hnot]. split.
    + split; [reflexivity|].
      destruct Hf1 as (Hc1 & Hs1 & _).
      unfold generationNotText in *.
      rewrite Hreq, Hc1, Hs1 in Hnot. exact Hnot.
    + intros Hfail.
      assert (Hempty : generated w1 content systemPrompt = Ok "").
      { apply generated_empty.
        destruct Hf1 as (Hc1 & Hs1 & _).
        unfold generationFails, generationEmpty in *.
        rewrite Hreq, Hc1, Hs1. exact Hfail. }
      rewrite Hempty in Hgen. discriminate.
Qed.
End KeywordFacts.

(** What the model's answer ["  dragon , , castle,Sea ,a,b,c "] yields, and
    what an answer object with an empty [content] does. *)
Example generateKeywords_answer :
  (exists w',
     generateKeywords "The dragon sleeps."
       (world (mkScripted [Some (Text "  dragon , , castle,Sea ,a,b,c ")] 0)
          "profile-1" greeting [] [])
     = (Ok ["dragon"; "castle"; "Sea"; "a"; "b"], w'))
  /\ (exists w',
        generateKeywords "The dragon sleeps." emptyContentWorld
        = (Throw (Error "result.trim is not a function"), w')).
Proof. split; eexists; vm_compute; reflexivity. Qed.

(** ** Hiding summarized messages *)

Lemma setSystem_system (m : Message) : is_system m = true -> setSystem m = m.
Proof. destruct m as [n b s u e]. simpl. intros ->. reflexivity. Qed.

Lemma setSystem_idempotent (m : Message) : setSystem (setSystem m) = setSystem m.
Proof. reflexivity. Qed.

Lemma indicesFrom_NoDup (p : Message -> bool) (c : list Message) (i : Z) :
  List.NoDup (indicesFrom i p c).
Proof.
  revert i. induction c as [|m c IH]; intros i; cbn [indicesFrom].
  - constructor.
  - destruct (p m); [|apply IH]. constructor; [|apply IH].
    intros Hin. apply indicesFrom_bounds in Hin. lia.
Qed.

(** The chat once the messages whose index is in [L] have been hidden. *)
Lemma hideRange_one_lookup (idx : Z) (c : list Message) (i : nat) :
  hideRange idx (idx + 1) c !! i
  = (fun m => if bool_decide (idx = Z.of_nat i) then setSystem m else m) <$> c !! i.
Proof.
  unfold hideRange. rewrite list_lookup_imap.
  destruct (c !! i) as [m|]; [|reflexivity]. simpl. f_equal.
  destruct (bool_decide_reflect (idx = Z.of_nat i)) as [->|Hne].
  - replace ((Z.of_nat i <=? Z.of_nat i) && (Z.of_nat i <? Z.of_nat i + 1)) with true
      by (symmetry; apply andb_true_iff; split; lia).
    reflexivity.
  - replace ((idx <=? Z.of_nat i) && (Z.of_nat i <? idx + 1)) with false
      by (symmetry; apply andb_false_iff; lia).
    reflexivity.
Qed.

Section AutoHideFacts.
Context {H : Type} `{HostAPI H}.
Implicit Types (w : World H).

Lemma setChat_same w : setChat (chat w) w = w.
Proof. destruct w. reflexivity. Qed.

(** The loop of [autoHideSummarizedMessages] over valid indices: exactly
    the messages listed become system messages. *)
Lemma hideEach_spec (L : list Z) w :
  (forall j, In j L -> 0 <= j < Z.of_nat (length (chat w))) ->
  exists c',
    forEach L
      (fun idx =>
         w' <- get ;;
         match chat w' !! Z.to_nat idx with
         | Some message =>
             if negb (is_system message) then hideChatMessageRange idx idx
             else ret tt
         | None => throw (Error "TypeError")
         end) w
    = (Ok tt, setChat c' w)
    /\ length c' = length (chat w)
    /\ forall i, c' !! i
                 = (fun m => if bool_decide (elem_of (Z.of_nat i) L) then setSystem m else m)
                   <$> chat w !! i.
Proof.
  revert w. induction L as [|idx L IH]; intros w Hvalid.
  - exists (chat w). cbn [forEach]. rewrite setChat_same.
    split; [reflexivity|]. split; [reflexivity|].
    intros i. destruct (chat w !! i); reflexivity.
  - cbn [forEach].
    assert (Hidx : 0 <= idx < Z.of_nat (length (chat w))) by (apply Hvalid; left; reflexivity).
    destruct (lookup_lt_is_Some_2 (chat w) (Z.to_nat idx) ltac:(lia)) as [message Hm].
    set (c1 := hideRange idx (idx + 1) (chat w)).
    assert (Hstep : (w' <- get ;;
                     match chat w' !! Z.to_nat idx with
                     | Some message =>
                         if negb (is_system message) then hideChatMessageRange idx idx
                         else ret tt
                     | None => throw (Error "TypeError")
                     end) w = (Ok tt, setChat c1 w)).
    { rewrite bind_get, Hm. destruct (is_system message) eqn:Hsys; cbn [negb].
      - assert (Hc1 : c1 = chat w).
        { apply list_eq. intros i. unfold c1. rewrite hideRange_one_lookup.
          destruct (chat w !! i) as [m|] eqn:Hi; [|reflexivity]. simpl. f_equal.
          destruct (bool_decide_reflect (idx = Z.of_nat i)) as [->|]; [|reflexivity].
          rewrite Nat2Z.id in Hm. assert (m = message) by congruence. subst m.
          apply setSystem_system. exact Hsys. }
        rewrite Hc1, setChat_same. reflexivity.
      - reflexivity. }
    rewrite (bind_Ok _ _ _ _ _ Hstep).
    assert (Hlen1 : length c1 = length (chat w)).
    { unfold c1, hideRange. apply length_imap. }
    destruct (IH (setChat c1 w)) as (c' & Hrun & Hlen & Hlook).
    { intros j Hj. cbn [chat setChat]. rewrite Hlen1. apply Hvalid. right. exact Hj. }
    exists c'. split; [rewrite Hrun; destruct w; reflexivity|].
    cbn [chat setChat] in Hlen, Hlook.
    split; [lia|].
    intros i. rewrite Hlook. unfold c1. rewrite hideRange_one_lookup.
    destruct (chat w !! i) as [m|]; [|reflexivity]. simpl. f_equal.
    destruct (bool_decide_reflect (idx = Z.of_nat i)) as [Heq|Hne].
    + rewrite (bool_decide_eq_true_2 (elem_of (Z.of_nat i) (idx :: L)))
        by (rewrite Heq; apply list_elem_of_here).
      destruct (bool_decide _); reflexivity.
    + destruct (bool_decide_reflect (elem_of (Z.of_nat i) L)) as [Hin|Hnin].
      * rewrite bool_decide_eq_true_2 by (apply list_elem_of_further; exact Hin).
        reflexivity.
      * rewrite bool_decide_eq_false_2; [reflexivity|].
        intros Hin. apply elem_of_cons in Hin as [Heq|Hin]; [congruence | contradiction].
Qed.

(** [autoHideSummarizedMessages] never throws; it hides the oldest
    visible summarized messages and keeps the last [keep_recent_count] of
    them visible. *)
Lemma autoHideSummarizedMessages_chat w :
  let shown := indicesFrom 0 (fun m => hasSummary m && negb (is_system m)) (chat w) in
  let hidden := take (Z.to_nat (Z.of_nat (length shown) - keep_recent_count (settings w)))
                  shown in
  exists c',
    autoHideSummarizedMessages w = (Ok tt, setChat c' w)
    /\ length c' = length (chat w)
    /\ forall i, c' !! i
                 = (fun m => if bool_decide (elem_of (Z.of_nat i) hidden) then setSystem m else m)
                   <$> chat w !! i.
Proof.
  intros shown hidden.
  assert (Hnone : forall c', c' = chat w ->
            hidden = [] ->
            (Ok tt, w) = (Ok tt, setChat c' w)
            /\ length c' = length (chat w)
            /\ forall i, c' !! i
                 = (fun m => if bool_decide (elem_of (Z.of_nat i) hidden) then setSystem m else m)
                   <$> chat w !! i).
  { intros c' -> ->. rewrite setChat_same. split; [reflexivity|].
    split; [reflexivity|]. intros i. destruct (chat w !! i); reflexivity. }
  unfold autoHideSummarizedMessages. rewrite bind_get. fold shown.
  destruct (length shown =? 0)%nat eqn:Hzero.
  { exists (chat w). apply Hnone; [reflexivity|].
    apply Nat.eqb_eq in Hzero. unfold hidden. rewrite Hzero. 
    destruct shown; [apply take_nil | discriminate]. }
  destruct (Z.leb_spec (Z.of_nat (length shown) - keep_recent_count (settings w)) 0)
    as [Hle|Hgt].
  { exists (chat w). apply Hnone; [reflexivity|].
    unfold hidden. replace (Z.to_nat _) with 0%nat by lia. reflexivity. }
  assert (Hslice : JS.slice0 shown (Z.of_nat (length shown) - keep_recent_count (settings w))
                   = hidden).
  { unfold JS.slice0, hidden.
    replace (_ <? 0) with false by (symmetry; apply Z.ltb_ge; lia). reflexivity. }
  rewrite Hslice.
  apply hideEach_spec. intros j Hj.
  assert (Hin : In j shown).
  { unfold hidden in Hj. apply list_elem_of_In in Hj.
    apply elem_of_take in Hj as (k & Hk & _).
    apply list_elem_of_In. eapply list_elem_of_lookup_2. exact Hk. }
  apply indicesFrom_bounds in Hin. lia.
Qed.
End AutoHideFacts.

Lemma indicesFrom_hidden (hidden : list Z) (c c' : list Message) (i : Z) :
  length c' = length c ->
  (forall k, c' !! k
             = (fun m => if bool_decide (elem_of (i + Z.of_nat k) hidden)
                         then setSystem m else m) <$> c !! k) ->
  indicesFrom i (fun m => hasSummary m && negb (is_system m)) c'
  = List.filter (fun j => negb (bool_decide (elem_of j hidden)))
      (indicesFrom i (fun m => hasSummary m && negb (is_system m)) c).
Proof.
  revert c' i. induction c as [|m c IH]; intros c' i Hlen Hlook.
  - destruct c'; [reflexivity | discriminate].
  - destruct c' as [|m' c']; [discriminate|].
    assert (Hm' : m' = if bool_decide (elem_of i hidden) then setSystem m else m).
    { specialize (Hlook 0%nat). simpl in Hlook. rewrite Z.add_0_r in Hlook.
      congruence. }
    assert (Htail : indicesFrom (i + 1) (fun m => hasSummary m && negb (is_system m)) c'
                    = List.filter (fun j => negb (bool_decide (elem_of j hidden)))
                        (indicesFrom (i + 1)
                           (fun m => hasSummary m && negb (is_system m)) c)).
    { apply IH; [simpl in Hlen; lia|].
      intros k. specialize (Hlook (S k)). simpl in Hlook. rewrite Hlook.
      replace (i + Z.of_nat (S k)) with (i + 1 + Z.of_nat k) by lia. reflexivity. }
    cbn [indicesFrom]. rewrite Htail, Hm'.
    destruct (bool_decide (elem_of i hidden)) eqn:Hin.
    + cbn [setSystem is_system negb]. rewrite andb_false_r.
      destruct (hasSummary m && negb (is_system m)); [|reflexivity].
      cbn [List.filter]. rewrite Hin. reflexivity.
    + destruct (hasSummary m && negb (is_system m)); [|reflexivity].
      cbn [List.filter]. rewrite Hin. reflexivity.
Qed.

Lemma filter_not_in_take (l : list Z) (n : nat) :
  List.NoDup l ->
  List.filter (fun j => negb (bool_decide (elem_of j (take n l)))) l = drop n l.
Proof.
  revert n. induction l as [|x l IH]; intros n Hnd.
  - destruct n; reflexivity.
  - destruct n as [|n].
    + cbn [take drop]. apply forallb_filter_id.
      apply forallb_forall. intros y _.
      rewrite bool_decide_eq_false_2; [reflexivity | apply not_elem_of_nil].
    + cbn [take drop List.filter].
      rewrite bool_decide_eq_true_2 by apply list_elem_of_here. cbn [negb].
      inversion Hnd as [|? ? Hx Hnd']; subst.
      rewrite <- (IH n Hnd'). apply filter_ext_in. intros y Hy.
      f_equal. apply bool_decide_ext. rewrite elem_of_cons.
      split; [|tauto]. intros [->|Hin]; [contradiction | exact Hin].
Qed.

Section AutoHideTheorem.
Context {H : Type} `{HostAPI H}.
Implicit Types (w : World H).

(** X5.  [autoHideSummarizedMessages] never throws.  Of the visible
    messages that have a summary it hides the oldest and leaves exactly
    the last [keep_recent_count] visible (all of them when there are no
    more than that); a message is only ever hidden, nothing else of it
    changes, and messages without a summary are not touched. *)
Theorem autoHideSummarizedMessages_keeps_recent w :
  let shown := indicesFrom 0 (fun m => hasSummary m && negb (is_system m)) (chat w) in
  let n := Z.to_nat (Z.of_nat (length shown) - keep_recent_count (settings w)) in
  exists w',
    autoHideSummarizedMessages w = (Ok tt, w')
    /\ settings w' = settings w /\ memoryCache w' = memoryCache w
    /\ host w' = host w /\ toasts w' = toasts w
    /\ length (chat w') = length (chat w)
    /\ indicesFrom 0 (fun m => hasSummary m && negb (is_system m)) (chat w')
       = drop n shown
    /\ (forall i m, chat w !! i = Some m ->
          exists m', chat w' !! i = Some m'
            /\ name m' = name m /\ mes m' = mes m /\ is_user m' = is_user m
            /\ extra m' = extra m
            /\ (is_system m = true -> is_system m' = true)
            /\ (hasSummary m = false -> m' = m)).
Proof.
  intros shown n.
  destruct (autoHideSummarizedMessages_chat w) as (c' & Hrun & Hlen & Hlook).
  fold shown in Hlook. fold n in Hlook.
  exists (setChat c' w). split; [exact Hrun|].
  cbn [settings memoryCache host toasts chat setChat].
  split; [reflexivity|]. split; [reflexivity|]. split; [reflexivity|].
  split; [reflexivity|]. split; [exact Hlen|].
  split.
  - rewrite (indicesFrom_hidden (take n shown) (chat w) c' 0 Hlen).
    + apply filter_not_in_take. apply indicesFrom_NoDup.
    + intros k. rewrite Hlook. rewrite Z.add_0_l. reflexivity.
  - intros i m Hm. rewrite Hlook, Hm. cbn [fmap option_fmap option_map].
    eexists. split; [reflexivity|].
    destruct (bool_decide_reflect (elem_of (Z.of_nat i) (take n shown))) as [Hin|Hnin].
    + cbn [setSystem name mes is_user extra is_system].
      repeat split; try reflexivity.
      intros Hsum. exfalso.
      apply elem_of_take in Hin as (k & Hk & _).
      apply list_elem_of_lookup_2, list_elem_of_In in Hk.
      apply indicesFrom_In in Hk as (_ & m0 & Hm0 & Hp).
      rewrite Z.sub_0_r, Nat2Z.id in Hm0.
      assert (m0 = m) by congruence. subst m0.
      rewrite Hsum in Hp. discriminate.
    + repeat split; auto.
Qed.
End AutoHideTheorem.

(** Four summarized messages of which the last two are kept visible. *)
Example autoHideSummarizedMessages_four :
  let c := replicate 4 (summarized "We walked for days until we saw the sea."
                          "They reach a sea.") in
  exists w',
    autoHideSummarizedMessages
      (mkWorld c 4096
         (mkSettings "profile-1" 60 "all" "" "" "" None false true 2 false "metadata" false 5)
         [] [] [] None 0 true [] [] (mkScripted [] 0))
    = (Ok tt, w')
    /\ List.map is_system (chat w') = [true; true; false; false].
Proof. eexists. split; vm_compute; reflexivity. Qed.

(** ** Summarizing one message: the successful case *)

Section StoreFacts.
Context {H : Type} `{HostAPI H}.
Implicit Types (w : World H).

(** The entry [storeMemory] appends. *)
Lemma storeMemory_entry (summary type : string) (mesId : Z) (title : string) w :
  let m := mkMemory (if JS.truthy type then type else "custom") (Some mesId) summary []
             (dateNow (host w)) in
  exists w',
    storeMemory summary type mesId title w = (Ok m, w')
    /\ storeFrame w w'
    /\ memoryCache w' = memoryCache w ++ [m].
Proof.
  intros m.
  destruct (storeMemory_spec summary type mesId title w)
    as (m0 & w' & Hst & Hf & Hcache & _).
  assert (Hm : m0 = m).
  { unfold storeMemory in Hst. revert Hst. rewrite bind_get. monad.
    destruct (_ || _).
    - destruct (storeToLorebook _ _ _ _) as [[[]|e] wx]; intros Hst;
        inversion Hst; reflexivity.
    - intros Hst. inversion Hst. reflexivity. }
  subst m0. exists w'. auto.
Qed.

(** X6.  [storeMemory] never throws, whatever the lorebook does: it
    appends exactly one entry to the memory cache, stamped with the
    current time and without keywords, and returns it; the entries
    already cached, the chat and the settings stay as they are. *)
Theorem storeMemory_appends_one (summary type : string) (mesId : Z) (title : string) w :
  exists m w',
    storeMemory summary type mesId title w = (Ok m, w')
    /\ memoryCache w' = memoryCache w ++ [m]
    /\ mem_summary m = summary
    /\ mem_type m = (if JS.truthy type then type else "custom")
    /\ mem_mesId m = Some mesId
    /\ mem_keywords m = []
    /\ mem_timestamp m = dateNow (host w)
    /\ chat w' = chat w /\ settings w' = settings w
    /\ timelineData w' = timelineData w.
Proof.
  destruct (storeMemory_entry summary type mesId title w)
    as (w' & Hst & (Hc & Hs & _ & _ & Ht & _) & Hcache).
  eexists. exists w'. split; [exact Hst|]. split; [exact Hcache|].
  cbn [mem_summary mem_type mem_mesId mem_keywords mem_timestamp]. auto 10.
Qed.
End StoreFacts.

(** With the lorebook as storage and a host that has no lorebook to write
    to, the entry reaches the cache all the same. *)
Example storeMemory_without_lorebook :
  exists w',
    storeMemory "Gate reached." "message" 0 "Message 0 Summary"
      (mkWorld greeting 4096
         (mkSettings "profile-1" 60 "all" "" "" "" None false false 5 false "lorebook" false 5)
         [] [] [] None 0 true [] [] (mkScripted [] 42))
    = (Ok (mkMemory "message" (Some 0) "Gate reached." [] 42), w')
    /\ memoryCache w' = [mkMemory "message" (Some 0) "Gate reached." [] 42].
Proof. eexists. split; vm_compute; reflexivity. Qed.

Section SummarizeMessageSuccess.
Context {H : Type} `{HostAPI H}.
Implicit Types (w : World H).

(** What a summarized message keeps. *)
Lemma setSummary_fields (s : string) (now : Z) (m : Message) :
  name (setSummary s now m) = name m /\ mes (setSummary s now m) = mes m
  /\ is_system (setSummary s now m) = is_system m
  /\ is_user (setSummary s now m) = is_user m
  /\ tr_summary (extraOf (setSummary s now m)) = Some s
  /\ tr_summarized_at (extraOf (setSummary s now m)) = Some now
  /\ tr_scene_end (extraOf (setSummary s now m)) = tr_scene_end (extraOf m)
  /\ tr_scene_summary (extraOf (setSummary s now m)) = tr_scene_summary (extraOf m)
  /\ tr_scene_start (extraOf (setSummary s now m)) = tr_scene_start (extraOf m).
Proof. repeat split. Qed.

(** With a profile selected, a model that answers and a chat that can be
    saved, [summarizeMessage] writes the summary on the message, stores
    one memory and, if asked to, hides the oldest summarized messages. *)
Lemma summarizeMessage_effect (mesId : Z) (message : Message) w :
  0 <= mesId ->
  chat w !! Z.to_nat mesId = Some message ->
  JS.truthy (summarization_profile (settings w)) = true ->
  modelAnswers ->
  chatSaves ->
  exists s now stamp w',
    summarizeMessage mesId w = (Ok s, w')
    /\ JS.truthy s = true
    /\ settings w' = settings w /\ profiles w' = profiles w
    /\ maxContext w' = maxContext w /\ timelineData w' = timelineData w
    /\ memoryCache w' = memoryCache w ++ [mkMemory "message" (Some mesId) s [] stamp]
    /\ length (chat w') = length (chat w)
    /\ (forall i m, chat w !! i = Some m ->
          exists m', chat w' !! i = Some m'
            /\ name m' = name m /\ mes m' = mes m /\ is_user m' = is_user m
            /\ (is_system m = true -> is_system m' = true)
            /\ (auto_hide_summarized (settings w) = false ->
                is_system m' = is_system m)
            /\ tr_scene_end (extraOf m') = tr_scene_end (extraOf m)
            /\ tr_scene_summary (extraOf m') = tr_scene_summary (extraOf m)
            /\ tr_scene_start (extraOf m') = tr_scene_start (extraOf m)
            /\ (i = Z.to_nat mesId ->
                tr_summary (extraOf m') = Some s
                /\ tr_summarized_at (extraOf m') = Some now)
            /\ (i <> Z.to_nat mesId -> extra m' = extra m)).
Proof.
  intros Hpos Hmsg Hprof Hmodel Hsave.
  assert (Hlt : mesId < Z.of_nat (length (chat w))).
  { apply lookup_lt_Some in Hmsg. lia. }
  assert (Hchat : chat w <> []).
  { intros Hnil. rewrite Hnil in Hmsg. discriminate. }
  unfold summarizeMessage. rewrite bind_get.
  replace ((mesId <? 0) || (mesId >=? Z.of_nat (length (chat w)))) with false
    by (symmetry; apply orb_false_iff; split; lia).
  rewrite Hmsg.
  match goal with
  | |- context [notify ?t ?m] =>
      destruct (notify_spec t m w) as (w1 & Hn & Hf1 & _)
  end.
  rewrite (bind_Ok _ _ _ _ _ Hn).
  destruct (generateText_success (formatMessage message)
              (systemPromptOf (summary_prompt (settings w))) w1)
    as (s & w2 & Hg & Hs & Hf2); try assumption.
  { destruct Hf1 as (Hc & _). rewrite Hc. exact Hchat. }
  { destruct Hf1 as (_ & Hse & _). rewrite Hse. exact Hprof. }
  rewrite (bind_Ok _ _ _ _ _ Hg). rewrite Hs.
  pose proof (gatewayFrame_trans _ _ _ Hf1 Hf2) as (Hc2 & Hse2 & Hp2 & Hm2 & Hmc2 & Htl2 & _).
  rewrite ?bind_assoc. erewrite bind_Ok by reflexivity.
  set (now := dateNow (host w2)).
  set (w3 := setChat (alter (setSummary s now) (Z.to_nat mesId) (chat w2)) w2).
  destruct (saveChat_ok w3 Hsave) as (w4 & Hsv & Hf4 & _).
  rewrite ?bind_assoc, (bind_Ok _ _ _ _ _ Hsv).
  match goal with
  | |- context [storeMemory ?a ?b ?c ?d] =>
      destruct (storeMemory_entry a b c d w4) as (w5 & Hst & Hf5 & Hcache)
  end.
  rewrite ?bind_assoc, (bind_Ok _ _ _ _ _ Hst).
  rewrite ?bind_assoc, bind_get.
  destruct Hf4 as (Hc4 & Hse4 & Hp4 & Hm4 & Hmc4 & Htl4 & _).
  destruct Hf5 as (Hc5 & Hse5 & Hp5 & Hm5 & Htl5 & _).
  assert (Hc3 : chat w3 = alter (setSummary s now) (Z.to_nat mesId) (chat w))
    by (unfold w3; cbn [chat setChat]; rewrite Hc2; reflexivity).
  assert (Hse3 : settings w3 = settings w) by (unfold w3; exact Hse2).
  assert (Hp3 : profiles w3 = profiles w) by (unfold w3; exact Hp2).
  assert (Hm3 : maxContext w3 = maxContext w) by (unfold w3; exact Hm2).
  assert (Htl3 : timelineData w3 = timelineData w) by (unfold w3; exact Htl2).
  assert (Hhide : exists w6,
             (if auto_hide_summarized (settings w5)
              then autoHideSummarizedMessages else ret tt) w5 = (Ok tt, w6)
             /\ settings w6 = settings w5 /\ profiles w6 = profiles w5
             /\ maxContext w6 = maxContext w5 /\ timelineData w6 = timelineData w5
             /\ memoryCache w6 = memoryCache w5
             /\ length (chat w6) = length (chat w5)
             /\ (forall i m, chat w5 !! i = Some m ->
                   exists m', chat w6 !! i = Some m'
                     /\ name m' = name m /\ mes m' = mes m /\ is_user m' = is_user m
                     /\ extra m' = extra m
                     /\ (is_system m = true -> is_system m' = true)
                     /\ (auto_hide_summarized (settings w5) = false -> m' = m))).
  { destruct (auto_hide_summarized (settings w5)) eqn:Hauto.
    - destruct (autoHideSummarizedMessages_chat w5) as (c' & Hrun & Hlen & Hlook).
      exists (setChat c' w5). split; [exact Hrun|].
      cbn [settings profiles maxContext timelineData memoryCache chat setChat].
      repeat (split; [reflexivity|]). split; [exact Hlen|].
      intros i m Hm. rewrite Hlook, Hm. cbn [fmap option_fmap option_map].
      eexists. split; [reflexivity|].
      destruct (bool_decide _); cbn [setSystem name mes is_user extra is_system];
        repeat split; auto; discriminate.
    - exists w5. split; [reflexivity|]. repeat (split; [reflexivity|]).
      intros i m Hm. exists m. repeat split; auto. }
  destruct Hhide as (w6 & Hh & Hse6 & Hp6 & Hm6 & Htl6 & Hmc6 & Hlen6 & Hlook6).
  cbv beta. rewrite ?bind_assoc, (bind_Ok _ _ _ _ _ Hh).
  match goal with
  | |- context [notify ?t ?msg] =>
      destruct (notify_spec t msg w6) as (w7 & Hn7 & Hf7 & _)
  end.
  rewrite ?bind_assoc, (bind_Ok _ _ _ _ _ Hn7).
  destruct Hf7 as (Hc7 & Hse7 & Hp7 & Hm7 & Hmc7 & Htl7 & _).
  exists s, now, (dateNow (host w4)). eexists. split; [reflexivity|].
  split; [exact Hs|].
  split; [congruence|]. split; [congruence|]. split; [congruence|].
  split; [congruence|].
  split.
  { rewrite Hmc7, Hmc6, Hcache, Hmc4. unfold w3. cbn [memoryCache setChat].
    rewrite Hmc2. reflexivity. }
  split.
  { rewrite Hc7, Hlen6, Hc5, Hc4, Hc3. apply length_alter. }
  intros i m Hm.
  assert (Hi5 : chat w5 !! i
                = Some (if decide (i = Z.to_nat mesId) then setSummary s now m else m)).
  { rewrite Hc5, Hc4, Hc3.
    destruct (decide (i = Z.to_nat mesId)) as [->|Hne].
    - rewrite list_lookup_alter_eq, Hm. reflexivity.
    - rewrite list_lookup_alter_ne by congruence. exact Hm. }
  destruct (Hlook6 i _ Hi5) as (m' & Hm' & Hname & Hmes & Huser & Hextra & Hsys & Hoff).
  exists m'. split; [rewrite Hc7; exact Hm'|].
  assert (Hauto : auto_hide_summarized (settings w5) = auto_hide_summarized (settings w))
    by congruence.
  rewrite Hauto in Hoff.
  unfold extraOf. rewrite Hextra. fold (extraOf m).
  destruct (decide (i = Z.to_nat mesId)) as [->|Hne].
  - destruct (setSummary_fields s now m)
      as (Hn1 & Hn2 & Hn3 & Hn4 & Hn5 & Hn6 & Hn7' & Hn8 & Hn9).
    fold (extraOf (setSummary s now m)).
    rewrite Hname, Hmes, Huser.
    split; [exact Hn1|]. split; [exact Hn2|]. split; [exact Hn4|].
    split; [intros Hy; apply Hsys; rewrite Hn3; exact Hy|].
    split; [intros Hy; rewrite (Hoff Hy); exact Hn3|].
    split; [exact Hn7'|]. split; [exact Hn8|]. split; [exact Hn9|].
    split; [intros _; split; [exact Hn5 | exact Hn6] | intros Hc; contradiction].
  - rewrite Hname, Hmes, Huser.
    split; [reflexivity|]. split; [reflexivity|]. split; [reflexivity|].
    split; [exact Hsys|].
    split; [intros Hy; rewrite (Hoff Hy); reflexivity|].
    split; [reflexivity|]. split; [reflexivity|]. split; [reflexivity|].
    split; [intros Hc; contradiction | intros _; reflexivity].
Qed.
End SummarizeMessageSuccess.

Section SummarizeMessageTheorem.
Context {H : Type} `{HostAPI H}.
Implicit Types (w : World H).

Lemma message_eq (m m' : Message) :
  name m' = name m -> mes m' = mes m -> is_system m' = is_system m ->
  is_user m' = is_user m -> extra m' = extra m -> m' = m.
Proof. destruct m, m'. simpl. intros. subst. reflexivity. Qed.

(** X7.  With a valid index, a profile selected, a model that answers
    and a chat that can be saved, [summarizeMessage] returns a non-empty
    summary which [getMessageSummary] then reads back from the message;
    one memory of type "message" with that summary is appended to the
    cache; every other message keeps its metadata and is at most hidden,
    and is left exactly as it was when auto-hiding is off. *)
Theorem summarizeMessage_writes_summary (mesId : Z) (message : Message) w :
  0 <= mesId ->
  chat w !! Z.to_nat mesId = Some message ->
  JS.truthy (summarization_profile (settings w)) = true ->
  modelAnswers ->
  chatSaves ->
  exists s stamp w',
    summarizeMessage mesId w = (Ok s, w')
    /\ JS.truthy s = true
    /\ getMessageSummary mesId w' = (Ok (Some s), w')
    /\ memoryCache w' = memoryCache w ++ [mkMemory "message" (Some mesId) s [] stamp]
    /\ settings w' = settings w
    /\ length (chat w') = length (chat w)
    /\ (forall i m, chat w !! i = Some m -> i <> Z.to_nat mesId ->
          exists m', chat w' !! i = Some m'
            /\ name m' = name m /\ mes m' = mes m /\ is_user m' = is_user m
            /\ extra m' = extra m
            /\ (is_system m = true -> is_system m' = true)
            /\ (auto_hide_summarized (settings w) = false -> m' = m)).
Proof.
  intros Hpos Hmsg Hprof Hmodel Hsave.
  destruct (summarizeMessage_effect mesId message w Hpos Hmsg Hprof Hmodel Hsave)
    as (s & now & stamp & w' & Hrun & Hs & Hse & _ & _ & _ & Hcache & Hlen & Hlook).
  exists s, stamp, w'. split; [exact Hrun|]. split; [exact Hs|].
  split.
  { destruct (Hlook _ _ Hmsg)
      as (m' & Hm' & _ & _ & _ & _ & _ & _ & _ & _ & Hat & _).
    destruct (Hat eq_refl) as [Hsum _].
    unfold getMessageSummary, gets, elementAt.
    replace (mesId <? 0) with false by (symmetry; apply Z.ltb_ge; lia).
    rewrite Hm'. unfold hasSummary. rewrite Hsum. cbn [truthyStr]. rewrite Hs.
    reflexivity. }
  split; [exact Hcache|]. split; [exact Hse|]. split; [exact Hlen|].
  intros i m Hm Hne.
  destruct (Hlook _ _ Hm)
    as (m' & Hm' & Hname & Hmes & Huser & Hsys & Hoff & _ & _ & _ & _ & Hextra).
  exists m'. split; [exact Hm'|].
  split; [exact Hname|]. split; [exact Hmes|]. split; [exact Huser|].
  split; [exact (Hextra Hne)|]. split; [exact Hsys|].
  intros Hauto. apply message_eq; auto.
Qed.
End SummarizeMessageTheorem.

(** [summarizeMessage_writes_summary] on the first message of [greeting]
    with a model that always answers. *)
Lemma summarizeMessage_writes_summary_witness :
  exists s w',
    summarizeMessage 0 (world (mkReliable 7) "profile-1" greeting [] []) = (Ok s, w')
    /\ getMessageSummary 0 w' = (Ok (Some s), w')
    /\ chat w' !! 1%nat = Some (plain "Bob" "Well met." false).
Proof.
  destruct (summarizeMessage_writes_summary 0 (plain "Ann" "Hello there, traveller." true)
              (world (mkReliable 7) "profile-1" greeting [] []))
    as (s & stamp & w' & Hrun & _ & Hread & _ & _ & _ & Hothers).
  - lia.
  - reflexivity.
  - reflexivity.
  - exact reliable_modelAnswers.
  - exact reliable_chatSaves.
  - exists s, w'. split; [exact Hrun|]. split; [exact Hread|].
    destruct (Hothers 1%nat (plain "Bob" "Well met." false))
      as (m' & Hm' & _ & _ & _ & _ & _ & Hsame).
    + reflexivity.
    + discriminate.
    + rewrite Hm'. f_equal. apply Hsame. reflexivity.
Defined.

(** ** Summarizing every message with a model that answers *)

Lemma indicesFrom_complete (p : Message -> bool) (c : list Message) (i : Z)
    (k : nat) (m : Message) :
  c !! k = Some m -> p m = true -> In (i + Z.of_nat k) (indicesFrom i p c).
Proof.
  revert i k. induction c as [|x c IH]; intros i k Hk Hp; [discriminate|].
  cbn [indicesFrom]. destruct k as [|k].
  - simpl in Hk. injection Hk as ->. rewrite Hp, Z.add_0_r. left. reflexivity.
  - simpl in Hk. replace (i + Z.of_nat (S k)) with (i + 1 + Z.of_nat k) by lia.
    destruct (p x); [right|]; apply IH; assumption.
Qed.

Section SummarizeAllFacts.
Context {H : Type} `{HostAPI H}.
Implicit Types (w : World H).

Lemma summarizeAll_loop_success (L : list Z) (n : Z) w :
  (forall j, In j L -> 0 <= j < Z.of_nat (length (chat w))) ->
  JS.truthy (summarization_profile (settings w)) = true ->
  modelAnswers ->
  chatSaves ->
  exists w',
    foldM L n
      (fun summarized mesId =>
         tryCatch (summarizeMessage mesId ;;; ret (summarized + 1))
                  (fun _ => ret summarized)) w
    = (Ok (n + Z.of_nat (length L)), w')
    /\ settings w' = settings w
    /\ length (memoryCache w') = (length (memoryCache w) + length L)%nat
    /\ summarizedOver L (chat w) (chat w').
Proof.
  revert n w. induction L as [|j L IH]; intros n w Hvalid Hprof Hmodel Hsave.
  - exists w. cbn [foldM]. split; [unfold ret; do 2 f_equal; simpl; lia|].
    split; [reflexivity|]. split; [simpl; lia|].
    split; [reflexivity|]. intros i m Hm. exists m. repeat split; auto.
  - cbn [foldM].
    assert (Hj : 0 <= j < Z.of_nat (length (chat w))) by (apply Hvalid; left; reflexivity).
    destruct (lookup_lt_is_Some_2 (chat w) (Z.to_nat j) ltac:(lia)) as [message Hmsg].
    destruct (summarizeMessage_effect j message w ltac:(lia) Hmsg Hprof Hmodel Hsave)
      as (s & now & stamp & w1 & Hrun & Hs & Hse & _ & _ & _ & Hcache & Hlen & Hlook).
    assert (Hstep : tryCatch (summarizeMessage j ;;; ret (n + 1))
                      (fun _ => ret n) w = (Ok (n + 1), w1)).
    { apply tryCatch_Ok. rewrite (bind_Ok _ _ _ _ _ Hrun). reflexivity. }
    rewrite (bind_Ok _ _ _ _ _ Hstep).
    destruct (IH (n + 1) w1) as (w' & Hloop & Hse' & Hcache' & Hlen' & Hlook');
      try assumption.
    { intros k Hk. rewrite Hlen. apply Hvalid. right. exact Hk. }
    { rewrite Hse. exact Hprof. }
    exists w'. split; [rewrite Hloop; do 2 f_equal; simpl length; lia|].
    split; [congruence|].
    split; [rewrite Hcache', Hcache, length_app; simpl; lia|].
    split; [lia|].
    intros i m Hm.
    destruct (Hlook i m Hm)
      as (m1 & Hm1 & Hname1 & Hmes1 & Huser1 & Hsys1 & _ & _ & _ & _ & Hat1 & Hextra1).
    destruct (Hlook' i m1 Hm1)
      as (m' & Hm' & Hname & Hmes & Huser & Hsys & Hkeep & Hin & Hout).
    exists m'. split; [exact Hm'|].
    split; [congruence|]. split; [congruence|]. split; [congruence|].
    split; [auto|].
    assert (Hsum1 : hasSummary m = true \/ i = Z.to_nat j -> hasSummary m1 = true).
    { intros [Hsum|Heq].
      - destruct (decide (i = Z.to_nat j)) as [Hij|Hij].
        + destruct (Hat1 Hij) as [Ht _]. unfold hasSummary. rewrite Ht. exact Hs.
        + unfold hasSummary, extraOf. rewrite (Hextra1 Hij). exact Hsum.
      - destruct (Hat1 Heq) as [Ht _]. unfold hasSummary. rewrite Ht. exact Hs. }
    split; [intros Hsum; apply Hkeep, Hsum1; left; exact Hsum|].
    split.
    + intros [Heq|HinL].
      * apply Hkeep, Hsum1. right. lia.
      * apply Hin. exact HinL.
    + intros Hnot.
      rewrite Hout by (intros Hc; apply Hnot; right; exact Hc).
      apply Hextra1. intros Heq. apply Hnot. left. lia.
Qed.

(** X8.  With a profile selected, a model that answers and a chat that
    can be saved, [summarizeAllMessages] returns the number of visible
    messages that had no summary, stores one memory for each of them,
    and afterwards every message that was visible has a summary; hidden
    messages and the summaries already there are left as they were.
    When there was nothing to summarize no generation is attempted. *)
Theorem summarizeAllMessages_summarizes_all w :
  JS.truthy (summarization_profile (settings w)) = true ->
  modelAnswers ->
  chatSaves ->
  let todo := List.filter (fun m => negb (is_system m) && negb (hasSummary m)) (chat w) in
  exists w',
    summarizeAllMessages w = (Ok (Z.of_nat (length todo)), w')
    /\ length (chat w') = length (chat w)
    /\ length (memoryCache w') = (length (memoryCache w) + length todo)%nat
    /\ (forall i m, chat w !! i = Some m ->
          exists m', chat w' !! i = Some m'
            /\ name m' = name m /\ mes m' = mes m
            /\ (is_system m = false -> hasSummary m' = true)
            /\ (is_system m = true -> m' = m)
            /\ (hasSummary m = true -> extra m' = extra m))
    /\ (todo = [] -> chat w' = chat w /\ genTrace w' = genTrace w).
Proof.
  intros Hprof Hmodel Hsave todo.
  unfold summarizeAllMessages. rewrite bind_get.
  set (p := fun m => negb (is_system m) && negb (hasSummary m)).
  set (L := indicesFrom 0 p (chat w)).
  assert (HlenL : length L = length todo) by apply indicesFrom_length.
  destruct (length L =? 0)%nat eqn:Hzero.
  - apply Nat.eqb_eq in Hzero.
    assert (Htodo : todo = []) by (apply length_zero_iff_nil; lia).
    destruct (notify_spec "info" "All messages already summarized" w)
      as (w1 & Hn & (Hc & _ & _ & _ & Hmc & _) & Htr & _).
    rewrite (bind_Ok _ _ _ _ _ Hn). exists w1.
    split; [rewrite Htodo; reflexivity|].
    split; [congruence|]. split; [rewrite Hmc, Htodo; simpl; lia|].
    split; [|intros _; split; assumption].
    intros i m Hm. exists m. rewrite Hc. split; [exact Hm|].
    split; [reflexivity|]. split; [reflexivity|].
    split; [|auto].
    intros Hvis. destruct (hasSummary m) eqn:Hsum; [reflexivity|]. exfalso.
    assert (Hin : In m todo).
    { apply filter_In. split.
      - apply list_elem_of_In. eapply list_elem_of_lookup_2. exact Hm.
      - rewrite Hvis, Hsum. reflexivity. }
    rewrite Htodo in Hin. exact Hin.
  - match goal with
    | |- context [notify ?t ?msg] =>
        destruct (notify_spec t msg w) as (w1 & Hn & (Hc1 & Hse1 & _ & _ & Hmc1 & _) & _)
    end.
    rewrite (bind_Ok _ _ _ _ _ Hn).
    destruct (summarizeAll_loop_success L 0 w1)
      as (w2 & Hloop & Hse2 & Hcache2 & Hlen2 & Hlook2); try assumption.
    { intros j Hj. apply indicesFrom_bounds in Hj. rewrite Hc1. lia. }
    { rewrite Hse1. exact Hprof. }
    rewrite (bind_Ok _ _ _ _ _ Hloop).
    match goal with
    | |- context [notify ?t ?msg] =>
        destruct (notify_spec t msg w2) as (w3 & Hn3 & (Hc3 & _ & _ & _ & Hmc3 & _) & _)
    end.
    rewrite (bind_Ok _ _ _ _ _ Hn3). exists w3.
    split; [unfold ret; rewrite HlenL; reflexivity|].
    split; [congruence|].
    split; [rewrite Hmc3, Hcache2, Hmc1, HlenL; reflexivity|].
    split.
    + intros i m Hm. rewrite <- Hc1 in Hm.
      destruct (Hlook2 i m Hm)
        as (m' & Hm' & Hname & Hmes & Huser & Hsys & Hkeep & Hin & Hout).
      rewrite Hc1 in Hm.
      exists m'. split; [rewrite Hc3; exact Hm'|].
      split; [exact Hname|]. split; [exact Hmes|].
      assert (Hnot : p m = false -> ~ In (Z.of_nat i) L).
      { intros Hp HinL. apply indicesFrom_In in HinL as (_ & m0 & Hm0 & Hp0).
        rewrite Z.sub_0_r, Nat2Z.id in Hm0. congruence. }
      split.
      * intros Hvis. destruct (hasSummary m) eqn:Hsum; [apply Hkeep; reflexivity|].
        apply Hin.
        pose proof (indicesFrom_complete p (chat w) 0 i m Hm) as Hcomp.
        rewrite Z.add_0_l in Hcomp. apply Hcomp. unfold p. rewrite Hvis, Hsum. reflexivity.
      * split.
        -- intros Hhid. apply message_eq; auto.
           ++ rewrite (Hsys Hhid). symmetry. exact Hhid.
           ++ apply Hout, Hnot. unfold p. rewrite Hhid. reflexivity.
        -- intros Hsum. apply Hout, Hnot. unfold p. rewrite Hsum.
           apply andb_false_r.
    + intros Htodo. rewrite Htodo in HlenL. simpl in HlenL.
      rewrite HlenL in Hzero. discriminate.
Qed.
End SummarizeAllFacts.

(** [summarizeAllMessages_summarizes_all] on [greeting]: both messages
    are summarized. *)
Lemma summarizeAllMessages_summarizes_all_witness :
  exists w',
    summarizeAllMessages (world (mkReliable 7) "profile-1" greeting [] []) = (Ok 2, w')
    /\ length (memoryCache w') = 2%nat
    /\ forall i m', chat w' !! i = Some m' -> hasSummary m' = true.
Proof.
  destruct (summarizeAllMessages_summarizes_all
              (world (mkReliable 7) "profile-1" greeting [] []))
    as (w' & Hrun & Hlen & Hcache & Hlook & _).
  - reflexivity.
  - exact reliable_modelAnswers.
  - exact reliable_chatSaves.
  - exists w'. split; [exact Hrun|]. split; [exact Hcache|].
    intros i m' Hm'.
    assert (Hi : (i < 2)%nat).
    { apply lookup_lt_Some in Hm'. rewrite Hlen in Hm'. exact Hm'. }
    destruct i as [|[|i]]; [| |lia].
    + destruct (Hlook 0%nat (plain "Ann" "Hello there, traveller." true) eq_refl)
        as (m1 & Hm1 & _ & _ & Hvis & _).
      assert (m1 = m') by congruence. subst m1. apply Hvis. reflexivity.
    + destruct (Hlook 1%nat (plain "Bob" "Well met." false) eq_refl)
        as (m1 & Hm1 & _ & _ & Hvis & _).
      assert (m1 = m') by congruence. subst m1. apply Hvis. reflexivity.
Defined.

(** ** Summarizing a scene: every outcome *)

Section SceneOutcomes.
Context {H : Type} `{HostAPI H}.
Implicit Types (w : World H).

(** [summarizeInChunks] touches the gateway only; it throws only as
    [generateText] does. *)
Lemma summarizeInChunks_frame (messages : list string) (maxTokens : Z) w :
  exists r w',
    summarizeInChunks messages maxTokens w = (r, w') /\ gatewayFrame w w'
    /\ (forall e, r = Throw e -> e = notAFunction "trim").
Proof.
  unfold summarizeInChunks, summarizeChunks.
  destruct (summarizeChunksFrom_trace (splitIntoChunks messages maxTokens) 0
              (Z.of_nat (length (splitIntoChunks messages maxTokens))) [] w)
    as (results & r1 & w1 & Hloop & Hf1 & _ & Hcases).
  destruct Hcases as [(texts & _ & _ & ->)|(texts & _ & _ & ->)].
  2:{ rewrite (bind_Throw _ _ _ _ _ Hloop). eexists. exists w1.
      split; [reflexivity|]. split; [exact Hf1|].
      intros e He. injection He as <-. reflexivity. }
  rewrite (bind_Ok _ _ _ _ _ Hloop). cbv beta.
  destruct (1 <? length _)%nat.
  - rewrite bind_get.
    match goal with
    | |- context [notify ?t ?m] =>
        destruct (notify_spec t m w1) as (w2 & Hn & Hf2 & _)
    end.
    rewrite (bind_Ok _ _ _ _ _ Hn).
    match goal with
    | |- context [generateText ?c ?p] =>
        destruct (generateText_spec c p w2) as (w3 & Hg & Hf3 & _);
          pose proof (generated_Throw c p w2) as Hthrow
    end.
    eexists. exists w3. split; [exact Hg|].
    split; [exact (gatewayFrame_trans _ _ _ Hf1 (gatewayFrame_trans _ _ _ Hf2 Hf3))|].
    intros e He. apply (Hthrow e He).
  - eexists. exists w1. split; [reflexivity|]. split; [exact Hf1|]. discriminate.
Qed.

(** Saving the chat returns or throws; either way only the host moves. *)
Lemma saveChat_frame w :
  exists r w',
    hostTry "saveChat" saveChat w = (r, w')
    /\ gatewayFrame w w'
    /\ (r = Ok tt \/ r = Throw (Error "saveChat")).
Proof.
  unfold hostTry, hostCall. monad.
  destruct (saveChat (host w)) as [[[]|] h]; eexists; eexists;
    (split; [reflexivity|]); (split; [repeat split|]); auto.
Qed.

(** The text of a scene, by chunks or in one request: only the gateway
    is touched, and the only exception is that of [generateText]. *)
Lemma sceneText_frame (messages : list string) (content : string) (big : bool) w :
  exists r w',
    (if big then
       notify "info" "Scene is large, summarizing in chunks..." ;;;
       summarizeInChunks messages (maxContext w - 500)
     else
       notify "info" ("Summarizing scene ("
                      +:+ showZ (Z.of_nat (length messages)) +:+ " messages)...") ;;;
       generateText content (systemPromptOf (scene_summary_prompt (settings w)))) w
    = (r, w')
    /\ gatewayFrame w w'
    /\ (forall e, r = Throw e -> e = notAFunction "trim").
Proof.
  destruct big.
  - destruct (notify_spec "info" "Scene is large, summarizing in chunks..." w)
      as (w1 & Hn & Hf1 & _).
    destruct (summarizeInChunks_frame messages (maxContext w - 500) w1)
      as (r & w2 & Hrun & Hf2 & Hthrow).
    exists r, w2. rewrite (bind_Ok _ _ _ _ _ Hn).
    split; [exact Hrun|].
    split; [exact (gatewayFrame_trans _ _ _ Hf1 Hf2) | exact Hthrow].
  - match goal with
    | |- context [notify ?t ?m] =>
        destruct (notify_spec t m w) as (w1 & Hn & Hf1 & _)
    end.
    match goal with
    | |- context [generateText ?c ?p] =>
        destruct (generateText_spec c p w1) as (w2 & Hrun & Hf2 & _);
          pose proof (generated_Throw c p w1) as Hthrow
    end.
    eexists. exists w2. rewrite (bind_Ok _ _ _ _ _ Hn).
    split; [exact Hrun|].
    split; [exact (gatewayFrame_trans _ _ _ Hf1 Hf2)|].
    intros e He. apply (Hthrow e He).
Qed.

(** The five ways in which [summarizeScene] ends.  It throws for a range
    that is not valid or has no visible message, changing nothing; it
    returns [''] when no text was generated, the chat being as before; it
    marks the scene when a text was generated, and then either stores one
    memory and returns the summary or throws because the chat could not be
    saved; it throws the [TypeError] of [generateText], the chat being as
    before. *)
Lemma summarizeScene_outcome (startId endId : Z) w :
  let valid := 0 <= startId <= endId /\ endId < Z.of_nat (length (chat w)) in
  exists r w',
    summarizeScene startId endId w = (r, w')
    /\ settings w' = settings w /\ profiles w' = profiles w
    /\ maxContext w' = maxContext w /\ timelineData w' = timelineData w
    /\ ((r = Throw (Error "Invalid message range") /\ w' = w /\ ~ valid)
        \/ (r = Throw (Error "No visible messages in range") /\ w' = w /\ valid
            /\ sceneMessages (chat w) startId endId = [])
        \/ (r = Ok "" /\ chat w' = chat w /\ memoryCache w' = memoryCache w /\ valid
            /\ sceneMessages (chat w) startId endId <> [])
        \/ (exists s now,
              JS.truthy s = true /\ valid
              /\ sceneMessages (chat w) startId endId <> []
              /\ chat w' = sceneMarked (hide_summarized_scenes (settings w)) s
                             startId endId now (chat w)
              /\ ((r = Ok s
                   /\ exists m, memoryCache w' = memoryCache w ++ [m]
                                /\ mem_summary m = s)
                  \/ (r = Throw (Error "saveChat")
                      /\ memoryCache w' = memoryCache w)))
        \/ (r = Throw (notAFunction "trim") /\ chat w' = chat w
            /\ memoryCache w' = memoryCache w /\ valid
            /\ sceneMessages (chat w) startId endId <> [])).
Proof.
  intros valid. unfold summarizeScene. rewrite bind_get.
  destruct ((startId <? 0) || (endId >=? Z.of_nat (length (chat w)))
            || (startId >? endId)) eqn:Hrange.
  { eexists. exists w. split; [reflexivity|]. repeat (split; [reflexivity|]).
    left. split; [reflexivity|]. split; [reflexivity|].
    unfold valid. intros Hv.
    apply orb_true_iff in Hrange as [Hrange|Hrange]; [|lia].
    apply orb_true_iff in Hrange as [Hrange|Hrange]; lia. }
  apply orb_false_iff in Hrange as [Hrange Hord].
  apply orb_false_iff in Hrange as [Hlo Hhi].
  assert (Hvalid : valid) by (unfold valid; lia).
  destruct (length (sceneMessages (chat w) startId endId) =? 0)%nat eqn:Hvis.
  { eexists. exists w. split; [reflexivity|]. repeat (split; [reflexivity|]).
    right. left. split; [reflexivity|]. split; [reflexivity|].
    split; [exact Hvalid|]. apply length_zero_iff_nil, Nat.eqb_eq. exact Hvis. }
  assert (Hnonempty : sceneMessages (chat w) startId endId <> []).
  { intros Hnil. rewrite Hnil in Hvis. discriminate. }
  cbv zeta.
  destruct (sceneText_frame (sceneMessages (chat w) startId endId)
              (JS.join (nl +:+ nl) (sceneMessages (chat w) startId endId))
              (getTokenCountAsync
                 (JS.join (nl +:+ nl) (sceneMessages (chat w) startId endId))
               >? maxContext w - 500) w)
    as ([s|e] & w2 & Hrun & Hf2 & Hthrow).
  2:{ rewrite (bind_Throw _ _ _ _ _ Hrun).
      destruct Hf2 as (Hc2 & Hse2 & Hp2 & Hm2 & Hmc2 & Htl2 & _).
      rewrite (Hthrow e eq_refl).
      eexists. exists w2. split; [reflexivity|].
      repeat (split; [assumption|]).
      right. right. right. right. auto. }
  rewrite (bind_Ok _ _ _ _ _ Hrun).
  destruct Hf2 as (Hc2 & Hse2 & Hp2 & Hm2 & Hmc2 & Htl2 & _).
  destruct (JS.truthy s) eqn:Hs.
  2:{ eexists. exists w2. split; [reflexivity|].
      repeat (split; [assumption|]).
      right. right. left.
      assert (Hempty : s = "").
      { unfold JS.truthy in Hs. apply negb_false_iff, String.eqb_eq in Hs. exact Hs. }
      rewrite Hempty. auto. }
  rewrite ?bind_assoc. erewrite bind_Ok by reflexivity.
  rewrite ?bind_assoc, bind_get.
  set (w3 := setChat _ w2).
  set (w4 := if hide_summarized_scenes (settings w3)
             then setChat (hideRange startId endId (chat w3)) w3 else w3).
  assert (Hhide : (if hide_summarized_scenes (settings w3)
                   then modify (fun w0 => setChat (hideRange startId endId (chat w0)) w0)
                   else ret tt) w3 = (Ok tt, w4)).
  { unfold w4. destruct (hide_summarized_scenes (settings w3)); reflexivity. }
  rewrite ?bind_assoc, (bind_Ok _ _ _ _ _ Hhide).
  assert (Hse3 : settings w3 = settings w) by (unfold w3; simpl; exact Hse2).
  assert (Hw4 : chat w4 = sceneMarked (hide_summarized_scenes (settings w)) s
                  startId endId (dateNow (host w2)) (chat w)
                /\ settings w4 = settings w /\ profiles w4 = profiles w
                /\ maxContext w4 = maxContext w /\ timelineData w4 = timelineData w
                /\ memoryCache w4 = memoryCache w).
  { unfold w4, sceneMarked. rewrite Hse3.
    destruct (hide_summarized_scenes (settings w)); unfold w3; simpl;
      rewrite Hc2; repeat split; assumption. }
  destruct Hw4 as (Hc4 & Hse4 & Hp4 & Hm4 & Htl4 & Hmc4).
  destruct (saveChat_frame w4) as (r5 & w5 & Hsv & Hf5 & Hr5).
  destruct Hf5 as (Hc5 & Hse5 & Hp5 & Hm5 & Hmc5 & Htl5 & _).
  rewrite ?bind_assoc.
  destruct Hr5 as [-> | ->].
  2:{ rewrite (bind_Throw _ _ _ _ _ Hsv). eexists. exists w5.
      split; [reflexivity|].
      split; [congruence|]. split; [congruence|]. split; [congruence|].
      split; [congruence|].
      right. right. right. left. exists s, (dateNow (host w2)).
      split; [exact Hs|]. split; [exact Hvalid|]. split; [exact Hnonempty|].
      split; [congruence|]. right. split; [reflexivity | congruence]. }
  rewrite ?bind_assoc, (bind_Ok _ _ _ _ _ Hsv).
  match goal with
  | |- context [storeMemory ?a ?b ?c ?d] =>
      destruct (storeMemory_spec a b c d w5) as (m & w6 & Hst & Hf6 & Hcache & Hsum)
  end.
  rewrite ?bind_assoc, (bind_Ok _ _ _ _ _ Hst).
  match goal with
  | |- context [notify ?t ?msg] =>
      destruct (notify_spec t msg w6) as (w7 & Hn7 & Hf7 & _)
  end.
  rewrite (bind_Ok _ _ _ _ _ Hn7).
  destruct Hf6 as (Hc6 & Hse6 & Hp6 & Hm6 & Htl6 & _).
  destruct Hf7 as (Hc7 & Hse7 & Hp7 & Hm7 & Hmc7 & Htl7 & _).
  eexists. exists w7. split; [reflexivity|].
  split; [congruence|]. split; [congruence|]. split; [congruence|].
  split; [congruence|].
  right. right. right. left. exists s, (dateNow (host w2)).
  split; [exact Hs|]. split; [exact Hvalid|]. split; [exact Hnonempty|].
  split; [congruence|]. left. split; [reflexivity|].
  exists m. split; [congruence | exact Hsum].
Qed.

(** Marking a scene keeps the text, the author and the message summary
    of every message, hides at most, and removes no scene end. *)
Lemma sceneMarked_kept (hide : bool) (s : string) (a b now : Z)
    (c : list Message) (i : nat) (m : Message) :
  0 <= b ->
  c !! i = Some m ->
  exists m', sceneMarked hide s a b now c !! i = Some m' /\ sceneKept b i m m'.
Proof.
  intros Hb Hm. rewrite sceneMarked_lookup, Hm. cbn [fmap option_fmap option_map].
  eexists. split; [reflexivity|]. unfold sceneKept.
  destruct (decide (Z.to_nat b = i)) as [Heq|Hne];
    destruct (hide && (a <=? Z.of_nat i) && (Z.of_nat i <? b));
    cbn [setSystem setSceneEnd name mes is_user is_system extra extraOf
         tr_summary hasSceneEnd tr_scene_end truthyBool];
    repeat split; auto; intros; try reflexivity; try lia.
Qed.

Lemma sceneKept_refl (b : Z) (i : nat) (m : Message) : sceneKept b i m m.
Proof. unfold sceneKept. repeat split; auto. Qed.

(** The same, for a whole run of [summarizeScene]. *)
Lemma summarizeScene_kept (startId endId : Z) w :
  exists r w',
    summarizeScene startId endId w = (r, w')
    /\ settings w' = settings w
    /\ length (chat w') = length (chat w)
    /\ forall i m, chat w !! i = Some m ->
         exists m', chat w' !! i = Some m' /\ sceneKept endId i m m'.
Proof.
  destruct (summarizeScene_outcome startId endId w)
    as (r & w' & Hrun & Hse & _ & _ & _ & Hcases).
  exists r, w'. split; [exact Hrun|]. split; [exact Hse|].
  assert (Hsame : chat w' = chat w ->
            length (chat w') = length (chat w)
            /\ forall i m, chat w !! i = Some m ->
                 exists m', chat w' !! i = Some m' /\ sceneKept endId i m m').
  { intros Hc. rewrite Hc. split; [reflexivity|]. intros i m Hm. exists m.
    split; [exact Hm | apply sceneKept_refl]. }
  destruct Hcases as [(_ & -> & _)|[(_ & -> & _)|[(_ & Hc & _)
                     |[(s & now & _ & Hv & _ & Hc & _)|(_ & Hc & _)]]]]; auto.
  rewrite Hc. split; [apply sceneMarked_length|]. intros i m Hm.
  apply sceneMarked_kept; [lia | exact Hm].
Qed.
End SceneOutcomes.

Section SceneTheorems.
Context {H : Type} `{HostAPI H}.
Implicit Types (w : World H).

(** X9.  [summarizeScene] throws four errors only.  A range that does
    not lie inside the chat, or is empty, gives "Invalid message range";
    a valid range without a visible message gives "No visible messages in
    range"; in both cases nothing is changed.  The [TypeError] of
    [generateText] passes through, raised before anything is written: the
    chat and the memory cache are as before.  Any other exception comes
    from saving the chat, and then the end message is already marked as
    a scene end although no memory has been stored. *)
Theorem summarizeScene_errors (startId endId : Z) w :
  let valid := 0 <= startId <= endId /\ endId < Z.of_nat (length (chat w)) in
  (~ valid ->
   summarizeScene startId endId w = (Throw (Error "Invalid message range"), w))
  /\ (valid -> sceneMessages (chat w) startId endId = [] ->
      summarizeScene startId endId w = (Throw (Error "No visible messages in range"), w))
  /\ (forall e w', summarizeScene startId endId w = (Throw e, w') ->
        (e = Error "Invalid message range" /\ ~ valid /\ w' = w)
        \/ (e = Error "No visible messages in range" /\ valid /\ w' = w)
        \/ (e = Error "saveChat" /\ valid
            /\ isSceneEnd endId w' = (Ok true, w')
            /\ memoryCache w' = memoryCache w)
        \/ (e = notAFunction "trim" /\ valid
            /\ sceneMessages (chat w) startId endId <> []
            /\ chat w' = chat w /\ memoryCache w' = memoryCache w)).
Proof.
  intros valid.
  destruct (summarizeScene_outcome startId endId w)
    as (r & w1 & Hrun & _ & _ & _ & _ & Hcases).
  fold valid in Hcases.
  split; [|split].
  - intros Hinv.
    destruct Hcases as [(-> & -> & _)|[(_ & _ & Hv & _)|[(_ & _ & _ & Hv & _)
                       |[(s & now & _ & Hv & _)|(_ & _ & _ & Hv & _)]]]];
      [exact Hrun | | | |]; contradiction.
  - intros Hv Hnone.
    destruct Hcases as [(_ & _ & Hinv)|[(-> & -> & _)|[(_ & _ & _ & _ & Hne)
                       |[(s & now & _ & _ & Hne & _)|(_ & _ & _ & _ & Hne)]]]];
      [contradiction | exact Hrun | contradiction | contradiction | contradiction].
  - intros e w' Hthrow. rewrite Hrun in Hthrow. injection Hthrow as -> ->.
    destruct Hcases as [(Hr & -> & Hinv)|[(Hr & -> & Hv & _)|[(Hr & _)
                       |[(s & now & Hs & Hv & _ & Hc & [(Hr & _)|(Hr & Hmc)])
                        |(Hr & Hc & Hmc & Hv & Hne)]]]];
      try discriminate.
    + left. injection Hr as ->. auto.
    + right. left. injection Hr as ->. auto.
    + right. right. left. injection Hr as ->.
      split; [reflexivity|]. split; [exact Hv|]. split; [|exact Hmc].
      destruct Hv as [Hv1 Hv2].
      destruct (lookup_lt_is_Some_2 (chat w) (Z.to_nat endId) ltac:(lia)) as [m Hm].
      unfold isSceneEnd, gets, elementAt.
      replace (endId <? 0) with false by (symmetry; apply Z.ltb_ge; lia).
      rewrite Hc, sceneMarked_lookup, Hm. cbn [fmap option_fmap option_map].
      rewrite decide_True by reflexivity.
      destruct (_ && _); reflexivity.
    + right. right. right. injection Hr as ->. auto.
Qed.

Lemma generateText_cannot (content systemPrompt : string) w :
  cannotGenerate w ->
  exists w', generateText content systemPrompt w = (Ok "", w') /\ gatewayFrame w w'.
Proof.
  intros Hcannot. apply generateText_empty. left.
  destruct Hcannot as [Hprof|Hthrows].
  - right. left. exact Hprof.
  - right. right. unfold requestOf. apply Hthrows.
Qed.

Lemma cannotGenerate_frame w w' :
  gatewayFrame w w' -> cannotGenerate w -> cannotGenerate w'.
Proof.
  intros (_ & Hse & _) [Hprof|Hthrows]; [left; congruence | right; exact Hthrows].
Qed.

Lemma summarizeChunksFrom_cannot (cs : list string) (i total : Z)
    (chunkSummaries : list string) w :
  cannotGenerate w ->
  exists w',
    summarizeChunksFrom i total cs chunkSummaries w = (Ok chunkSummaries, w')
    /\ gatewayFrame w w'.
Proof.
  revert i chunkSummaries w. induction cs as [|chunk cs IH]; intros i acc w Hcannot.
  - exists w. split; [reflexivity | apply gatewayFrame_refl].
  - cbn [summarizeChunksFrom]. rewrite bind_get.
    match goal with
    | |- context [notify ?t ?m] =>
        destruct (notify_spec t m w) as (w1 & Hn & Hf1 & _)
    end.
    rewrite (bind_Ok _ _ _ _ _ Hn).
    destruct (generateText_cannot chunk
                (systemPromptOf (scene_summary_prompt (settings w))) w1
                (cannotGenerate_frame _ _ Hf1 Hcannot)) as (w2 & Hg & Hf2).
    rewrite (bind_Ok _ _ _ _ _ Hg). cbn [JS.truthy String.eqb negb].
    pose proof (gatewayFrame_trans _ _ _ Hf1 Hf2) as Hf12.
    destruct (IH (i + 1) acc w2 (cannotGenerate_frame _ _ Hf12 Hcannot))
      as (w3 & Hloop & Hf3).
    exists w3. split; [exact Hloop | exact (gatewayFrame_trans _ _ _ Hf12 Hf3)].
Qed.

Lemma sceneText_cannot (messages : list string) (content : string) (big : bool) w :
  cannotGenerate w ->
  exists w',
    (if big then
       notify "info" "Scene is large, summarizing in chunks..." ;;;
       summarizeInChunks messages (maxContext w - 500)
     else
       notify "info" ("Summarizing scene ("
                      +:+ showZ (Z.of_nat (length messages)) +:+ " messages)...") ;;;
       generateText content (systemPromptOf (scene_summary_prompt (settings w)))) w
    = (Ok "", w')
    /\ gatewayFrame w w'.
Proof.
  intros Hcannot. destruct big.
  - destruct (notify_spec "info" "Scene is large, summarizing in chunks..." w)
      as (w1 & Hn & Hf1 & _).
    rewrite (bind_Ok _ _ _ _ _ Hn).
    unfold summarizeInChunks, summarizeChunks.
    destruct (summarizeChunksFrom_cannot (splitIntoChunks messages (maxContext w - 500)) 0
                (Z.of_nat (length (splitIntoChunks messages (maxContext w - 500)))) [] w1
                (cannotGenerate_frame _ _ Hf1 Hcannot)) as (w2 & Hloop & Hf2).
    rewrite (bind_Ok _ _ _ _ _ Hloop). cbn.
    exists w2. split; [reflexivity | exact (gatewayFrame_trans _ _ _ Hf1 Hf2)].
  - match goal with
    | |- context [notify ?t ?m] =>
        destruct (notify_spec t m w) as (w1 & Hn & Hf1 & _)
    end.
    rewrite (bind_Ok _ _ _ _ _ Hn).
    match goal with
    | |- context [generateText ?c ?p] =>
        destruct (generateText_cannot c p w1 (cannotGenerate_frame _ _ Hf1 Hcannot))
          as (w2 & Hg & Hf2)
    end.
    exists w2. split; [exact Hg | exact (gatewayFrame_trans _ _ _ Hf1 Hf2)].
Qed.

(** When nothing can be generated, [summarizeScene] on a valid range
    with a visible message returns [''] and touches the gateway only. *)
Lemma summarizeScene_cannot (startId endId : Z) w :
  0 <= startId <= endId ->
  endId < Z.of_nat (length (chat w)) ->
  sceneMessages (chat w) startId endId <> [] ->
  cannotGenerate w ->
  exists w', summarizeScene startId endId w = (Ok "", w') /\ gatewayFrame w w'.
Proof.
  intros Hrange Hend Hvisible Hcannot.
  unfold summarizeScene. rewrite bind_get.
  replace ((startId <? 0) || (endId >=? Z.of_nat (length (chat w)))
           || (startId >? endId)) with false
    by (symmetry; rewrite !orb_false_iff; repeat split; lia).
  destruct (length (sceneMessages (chat w) startId endId) =? 0)%nat eqn:Hlen.
  { apply Nat.eqb_eq, length_zero_iff_nil in Hlen. contradiction. }
  cbv zeta.
  destruct (sceneText_cannot (sceneMessages (chat w) startId endId)
              (JS.join (nl +:+ nl) (sceneMessages (chat w) startId endId))
              (getTokenCountAsync
                 (JS.join (nl +:+ nl) (sceneMessages (chat w) startId endId))
               >? maxContext w - 500) w Hcannot)
    as (w2 & Hrun & Hf2).
  rewrite (bind_Ok _ _ _ _ _ Hrun). cbn [JS.truthy String.eqb negb].
  exists w2. split; [reflexivity | exact Hf2].
Qed.

(** X10.  When no profile is selected or the model rejects every request,
    [summarizeScene] on a valid range with a visible message returns
    [''] without throwing: the chat is as before, so no message becomes a
    scene end and nothing is hidden, and no memory is stored. *)
Theorem summarizeScene_failure_leaves_chat (startId endId : Z) w :
  0 <= startId <= endId ->
  endId < Z.of_nat (length (chat w)) ->
  sceneMessages (chat w) startId endId <> [] ->
  cannotGenerate w ->
  exists w',
    summarizeScene startId endId w = (Ok "", w')
    /\ chat w' = chat w
    /\ memoryCache w' = memoryCache w
    /\ settings w' = settings w.
Proof.
  intros Hrange Hend Hvisible Hcannot.
  destruct (summarizeScene_cannot startId endId w Hrange Hend Hvisible Hcannot)
    as (w' & Hrun & Hc & Hse & _ & _ & Hmc & _).
  exists w'. auto.
Qed.

(** X11.  With a valid range that has a visible message, a profile
    selected, a model that answers and a chat that can be saved,
    [summarizeScene] returns a non-empty summary; the end message then
    reads as a scene end with that summary and the start of the range,
    [findLastSceneEnd] finds it, one memory of type "scene" is stored,
    and every other message is untouched except that the messages of the
    range before the end are hidden when [hide_summarized_scenes] is on. *)
Theorem summarizeScene_marks_scene (startId endId : Z) w :
  0 <= startId <= endId ->
  endId < Z.of_nat (length (chat w)) ->
  sceneMessages (chat w) startId endId <> [] ->
  JS.truthy (summarization_profile (settings w)) = true ->
  modelAnswers ->
  chatSaves ->
  exists s w',
    summarizeScene startId endId w = (Ok s, w')
    /\ JS.truthy s = true
    /\ isSceneEnd endId w' = (Ok true, w')
    /\ getSceneSummary endId w' = (Ok (Some s), w')
    /\ findLastSceneEnd (endId + 1) w' = (Ok endId, w')
    /\ (exists m', chat w' !! Z.to_nat endId = Some m'
                   /\ tr_scene_start (extraOf m') = Some startId)
    /\ (forall i m, chat w !! i = Some m -> i <> Z.to_nat endId ->
          chat w' !! i
          = Some (if hide_summarized_scenes (settings w)
                     && (startId <=? Z.of_nat i) && (Z.of_nat i <? endId)
                  then setSystem m else m))
    /\ (exists mem, memoryCache w' = memoryCache w ++ [mem]
                    /\ mem_summary mem = s /\ mem_type mem = "scene"
                    /\ mem_mesId mem = Some endId).
Proof.
  intros Hrange Hend Hvisible Hprof Hmodel Hsave.
  destruct (summarizeScene_success startId endId w Hrange Hend Hvisible Hprof Hmodel Hsave)
    as (s & now & mem & w' & Hrun & Hs & Hc & _ & _ & _ & Hcache & Hsum & Hty & Hid).
  destruct (lookup_lt_is_Some_2 (chat w) (Z.to_nat endId) ltac:(lia)) as [m0 Hm0].
  assert (Hend' : exists m', chat w' !! Z.to_nat endId = Some m'
                    /\ hasSceneEnd m' = true
                    /\ tr_scene_summary (extraOf m') = Some s
                    /\ tr_scene_start (extraOf m') = Some startId).
  { rewrite Hc, sceneMarked_lookup, Hm0. cbn [fmap option_fmap option_map].
    rewrite decide_True by reflexivity.
    eexists. split; [reflexivity|]. destruct (_ && _); repeat split. }
  destruct Hend' as (m' & Hm' & Hse & Hss & Hst).
  exists s, w'. split; [exact Hrun|]. split; [exact Hs|].
  split.
  { unfold isSceneEnd, gets, elementAt.
    replace (endId <? 0) with false by (symmetry; apply Z.ltb_ge; lia).
    rewrite Hm', Hse. reflexivity. }
  split.
  { unfold getSceneSummary, gets, elementAt.
    replace (endId <? 0) with false by (symmetry; apply Z.ltb_ge; lia).
    rewrite Hm'. unfold hasSceneSummary. rewrite Hss. cbn [truthyStr]. rewrite Hs.
    reflexivity. }
  split.
  { unfold findLastSceneEnd, gets.
    replace (Z.to_nat (endId + 1)) with (S (Z.to_nat endId)) by lia.
    cbn [lastSceneEndBelow]. rewrite Hm', Hse. do 2 f_equal. lia. }
  split; [exists m'; auto|].
  split.
  { intros i m Hm Hne. rewrite Hc, sceneMarked_lookup, Hm.
    cbn [fmap option_fmap option_map]. rewrite decide_False by congruence.
    reflexivity. }
  exists mem. auto.
Qed.
End SceneTheorems.

(** [summarizeScene_errors] on [greeting]: an empty range is refused and
    nothing else is thrown for it. *)
Lemma summarizeScene_errors_witness :
  summarizeScene 1 0 noProfileWorld
  = (Throw (Error "Invalid message range"), noProfileWorld)
  /\ forall e w', summarizeScene 1 0 noProfileWorld = (Throw e, w') ->
       e = Error "Invalid message range".
Proof.
  destruct (summarizeScene_errors 1 0 noProfileWorld) as (Hinv & _ & Honly).
  split.
  - apply Hinv. simpl. lia.
  - intros e w' Hthrow.
    destruct (Honly e w' Hthrow) as [(He & _)|[(_ & Hv & _)|[(_ & Hv & _)|(_ & Hv & _)]]];
      [exact He | simpl in Hv; lia | simpl in Hv; lia | simpl in Hv; lia].
Defined.

(** [summarizeScene_failure_leaves_chat] without a profile. *)
Lemma summarizeScene_failure_leaves_chat_witness :
  exists w', summarizeScene 0 1 noProfileWorld = (Ok "", w') /\ chat w' = greeting.
Proof.
  destruct (summarizeScene_failure_leaves_chat 0 1 noProfileWorld)
    as (w' & Hrun & Hc & _).
  - lia.
  - simpl. lia.
  - discriminate.
  - left. reflexivity.
  - exists w'. split; [exact Hrun | exact Hc].
Defined.

(** [summarizeScene_marks_scene] on [greeting] with a model that answers. *)
Lemma summarizeScene_marks_scene_witness :
  exists s w',
    summarizeScene 0 1 (world (mkReliable 7) "profile-1" greeting [] []) = (Ok s, w')
    /\ isSceneEnd 1 w' = (Ok true, w')
    /\ getSceneSummary 1 w' = (Ok (Some s), w')
    /\ chat w' !! 0%nat = Some (plain "Ann" "Hello there, traveller." true).
Proof.
  destruct (summarizeScene_marks_scene 0 1 (world (mkReliable 7) "profile-1" greeting [] []))
    as (s & w' & Hrun & _ & Hend & Hsum & _ & _ & Hothers & _).
  - lia.
  - simpl. lia.
  - discriminate.
  - reflexivity.
  - exact reliable_modelAnswers.
  - exact reliable_chatSaves.
  - exists s, w'. split; [exact Hrun|]. split; [exact Hend|]. split; [exact Hsum|].
    rewrite (Hothers 0%nat (plain "Ann" "Hello there, traveller." true) eq_refl)
      by discriminate.
    reflexivity.
Defined.

Section SummarizeMessageErrors.
Context {H : Type} `{HostAPI H}.
Implicit Types (w : World H).

(** The ways in which [summarizeMessage] ends: it throws for an index
    outside the chat, changing nothing; it returns [''] when no text was
    generated, the chat and the cache being as before; otherwise the
    summary is written on the message, and then either the chat cannot be
    saved, which is thrown, or the run goes on and returns the summary;
    or it throws the [TypeError] of [generateText], the chat and the cache
    being as before. *)
Lemma summarizeMessage_outcome (mesId : Z) w :
  let valid := 0 <= mesId < Z.of_nat (length (chat w)) in
  exists r w',
    summarizeMessage mesId w = (r, w')
    /\ ((r = Throw (Error "Invalid message ID") /\ w' = w /\ ~ valid)
        \/ (r = Ok "" /\ valid /\ chat w' = chat w /\ memoryCache w' = memoryCache w)
        \/ (exists s now,
              JS.truthy s = true /\ valid
              /\ ((r = Throw (Error "saveChat")
                   /\ chat w' = alter (setSummary s now) (Z.to_nat mesId) (chat w)
                   /\ memoryCache w' = memoryCache w)
                  \/ r = Ok s))
        \/ (r = Throw (notAFunction "trim") /\ valid
            /\ chat w' = chat w /\ memoryCache w' = memoryCache w)).
Proof.
  intros valid. unfold summarizeMessage. rewrite bind_get.
  destruct ((mesId <? 0) || (mesId >=? Z.of_nat (length (chat w)))) eqn:Hrange.
  { eexists. exists w. split; [reflexivity|]. left.
    split; [reflexivity|]. split; [reflexivity|].
    unfold valid. apply orb_true_iff in Hrange. lia. }
  apply orb_false_iff in Hrange as [Hlo Hhi].
  assert (Hvalid : valid) by (unfold valid; lia).
  destruct (lookup_lt_is_Some_2 (chat w) (Z.to_nat mesId) ltac:(lia)) as [message Hmsg].
  rewrite Hmsg.
  match goal with
  | |- context [notify ?t ?m] =>
      destruct (notify_spec t m w) as (w1 & Hn & Hf1 & _)
  end.
  rewrite (bind_Ok _ _ _ _ _ Hn).
  destruct (generateText_spec (formatMessage message)
              (systemPromptOf (summary_prompt (settings w))) w1)
    as (w2 & Hg & Hf2 & _).
  pose proof (gatewayFrame_trans _ _ _ Hf1 Hf2) as (Hc2 & Hse2 & _ & _ & Hmc2 & _).
  destruct (generated w1 _ _) as [s|e] eqn:Hgen.
  2:{ rewrite (bind_Throw _ _ _ _ _ Hg).
      destruct (generated_Throw _ _ _ _ Hgen) as [-> _].
      eexists. exists w2. split; [reflexivity|]. right. right. right. auto. }
  rewrite (bind_Ok _ _ _ _ _ Hg).
  destruct (JS.truthy s) eqn:Hs.
  2:{ eexists. exists w2. split; [reflexivity|]. right. left.
      assert (Hempty : s = "").
      { unfold JS.truthy in Hs. apply negb_false_iff, String.eqb_eq in Hs. exact Hs. }
      rewrite Hempty. auto. }
  rewrite ?bind_assoc. erewrite bind_Ok by reflexivity.
  set (now := dateNow (host w2)).
  set (w3 := setChat (alter (setSummary s now) (Z.to_nat mesId) (chat w2)) w2).
  destruct (saveChat_frame w3) as (r4 & w4 & Hsv & (Hc4 & _ & _ & _ & Hmc4 & _) & Hr4).
  rewrite ?bind_assoc.
  destruct Hr4 as [-> | ->].
  2:{ rewrite (bind_Throw _ _ _ _ _ Hsv). eexists. exists w4.
      split; [reflexivity|]. right. right. left. exists s, now.
      split; [exact Hs|]. split; [exact Hvalid|]. left.
      split; [reflexivity|].
      split; [rewrite Hc4; unfold w3; cbn [chat setChat]; rewrite Hc2; reflexivity|].
      rewrite Hmc4. unfold w3. cbn [memoryCache setChat]. exact Hmc2. }
  rewrite (bind_Ok _ _ _ _ _ Hsv).
  match goal with
  | |- context [storeMemory ?a ?b ?c ?d] =>
      destruct (storeMemory_spec a b c d w4) as (m & w5 & Hst & _)
  end.
  rewrite ?bind_assoc, (bind_Ok _ _ _ _ _ Hst).
  rewrite ?bind_assoc, bind_get. cbv beta.
  assert (Hhide : exists w6,
             (if auto_hide_summarized (settings w5)
              then autoHideSummarizedMessages else ret tt) w5 = (Ok tt, w6)).
  { destruct (auto_hide_summarized (settings w5)).
    - destruct (autoHideSummarizedMessages_chat w5) as (c' & Hrun & _).
      eexists. exact Hrun.
    - exists w5. reflexivity. }
  destruct Hhide as (w6 & Hh).
  rewrite ?bind_assoc, (bind_Ok _ _ _ _ _ Hh).
  match goal with
  | |- context [notify ?t ?msg] =>
      destruct (notify_spec t msg w6) as (w7 & Hn7 & _)
  end.
  rewrite ?bind_assoc, (bind_Ok _ _ _ _ _ Hn7).
  eexists. exists w7. split; [reflexivity|]. right. right. left. exists s, now.
  split; [exact Hs|]. split; [exact Hvalid|]. right. reflexivity.
Qed.

(** X12.  [summarizeMessage] throws three errors only.  An index outside
    the chat gives "Invalid message ID" and nothing is changed.  The
    [TypeError] of [generateText] passes through, raised before anything
    is written: the chat and the memory cache are as before.  Any other
    exception comes from saving the chat: the summary is then already
    written on the message, where [getMessageSummary] reads it, but no
    memory has been stored. *)
Theorem summarizeMessage_errors (mesId : Z) w :
  let valid := 0 <= mesId < Z.of_nat (length (chat w)) in
  (~ valid -> summarizeMessage mesId w = (Throw (Error "Invalid message ID"), w))
  /\ (forall e w', summarizeMessage mesId w = (Throw e, w') ->
        (e = Error "Invalid message ID" /\ ~ valid /\ w' = w)
        \/ (e = notAFunction "trim" /\ valid
            /\ chat w' = chat w /\ memoryCache w' = memoryCache w)
        \/ (e = Error "saveChat" /\ valid
            /\ memoryCache w' = memoryCache w
            /\ exists s, JS.truthy s = true
                         /\ getMessageSummary mesId w' = (Ok (Some s), w'))).
Proof.
  intros valid.
  destruct (summarizeMessage_outcome mesId w) as (r & w1 & Hrun & Hcases).
  fold valid in Hcases. split.
  - intros Hinv.
    destruct Hcases as [(-> & -> & _)|[(_ & Hv & _)|[(s & now & _ & Hv & _)
                       |(_ & Hv & _)]]];
      [exact Hrun | contradiction | contradiction | contradiction].
  - intros e w' Hthrow. rewrite Hrun in Hthrow. injection Hthrow as -> ->.
    destruct Hcases as [(Hr & -> & Hinv)|[(Hr & _)
                       |[(s & now & Hs & Hv & [(Hr & Hc & Hmc)|Hr])
                        |(Hr & Hv & Hc & Hmc)]]];
      try discriminate.
    + left. injection Hr as ->. auto.
    + right. right. injection Hr as ->. split; [reflexivity|]. split; [exact Hv|].
      split; [exact Hmc|]. exists s. split; [exact Hs|].
      destruct Hv as [Hv1 Hv2].
      destruct (lookup_lt_is_Some_2 (chat w) (Z.to_nat mesId) ltac:(lia)) as [m Hm].
      unfold getMessageSummary, gets, elementAt.
      replace (mesId <? 0) with false by (symmetry; apply Z.ltb_ge; lia).
      rewrite Hc, list_lookup_alter_eq, Hm. cbn [fmap option_fmap option_map].
      unfold hasSummary. cbn [setSummary extraOf extra tr_summary truthyStr].
      rewrite Hs. reflexivity.
    + right. left. injection Hr as ->. auto.
Qed.
End SummarizeMessageErrors.

(** [summarizeMessage_errors] on [greeting]: an index beyond the chat is
    refused, and nothing else is thrown for it. *)
Lemma summarizeMessage_errors_witness :
  summarizeMessage 2 noProfileWorld = (Throw (Error "Invalid message ID"), noProfileWorld)
  /\ forall e w', summarizeMessage 2 noProfileWorld = (Throw e, w') ->
       e = Error "Invalid message ID".
Proof.
  destruct (summarizeMessage_errors 2 noProfileWorld) as (Hinv & Honly).
  split.
  - apply Hinv. simpl. lia.
  - intros e w' Hthrow.
    destruct (Honly e w' Hthrow) as [(He & _)|[(_ & Hv & _)|(_ & Hv & _)]];
      [exact He | simpl in Hv; lia | simpl in Hv; lia].
Defined.

(** The [TypeError] on [emptyContentWorld]: no summary is written. *)
Example summarizeMessage_type_error :
  exists w',
    summarizeMessage 1 emptyContentWorld
    = (Throw (Error "result.trim is not a function"), w')
    /\ chat w' = greeting /\ memoryCache w' = [].
Proof. eexists. split; [vm_compute; reflexivity|]. split; reflexivity. Qed.

(** ** Auto-filling chapters: the loop always ends *)

Lemma findSceneEndIn_bounds (c : list Message) (lo hi j : Z) :
  findSceneEndIn c lo hi = Some j -> lo <= j <= hi.
Proof.
  unfold findSceneEndIn. intros Hhead.
  assert (Hin : In j (List.filter (fun j => (lo <=? j) && (j <=? hi))
                        (indicesFrom 0 hasSceneEnd c))).
  { destruct (List.filter _ _) as [|x l]; [discriminate|].
    simpl in Hhead. injection Hhead as ->. left. reflexivity. }
  apply filter_In in Hin as [_ Hj]. apply andb_true_iff in Hj. lia.
Qed.

Lemma last_indicesFrom_bounds (p : Message -> bool) (c : list Message) :
  -1 <= List.last (indicesFrom 0 p c) (-1) < Z.of_nat (length c).
Proof.
  destruct (indicesFrom 0 p c) as [|x l] eqn:Hl.
  - simpl. lia.
  - assert (Hin : In (List.last (x :: l) (-1)) (indicesFrom 0 p c)).
    { rewrite Hl. destruct (exists_last (l:=x :: l)) as (l' & y & Hy); [discriminate|].
      rewrite Hy, last_last. apply in_or_app. right. left. reflexivity. }
    apply indicesFrom_bounds in Hin. lia.
Qed.

Lemma fillKept_refl (m : Message) : fillKept m m.
Proof. unfold fillKept. repeat split; auto. Qed.

Lemma fillKept_trans (m1 m2 m3 : Message) :
  fillKept m1 m2 -> fillKept m2 m3 -> fillKept m1 m3.
Proof.
  unfold fillKept. intros (A1 & A2 & A3 & A4 & A5 & A6) (B1 & B2 & B3 & B4 & B5 & B6).
  repeat split; try congruence; auto.
Qed.

Lemma sceneKept_fillKept (b : Z) (i : nat) (m m' : Message) :
  sceneKept b i m m' -> fillKept m m'.
Proof. unfold sceneKept, fillKept. intuition. Qed.

Section AutoFillTermination.
Context {H : Type} `{HostAPI H}.
Implicit Types (w : World H).

(** One attempt of the loop: the block is summarized or the attempt
    fails; the chat keeps its length either way. *)
Lemma autoFill_attempt (startId endId : Z) w :
  exists ok w',
    tryCatch (summarizeScene startId endId ;;; ret true) (fun _ => ret false) w
    = (Ok ok, w')
    /\ settings w' = settings w
    /\ length (chat w') = length (chat w)
    /\ forall i m, chat w !! i = Some m ->
         exists m', chat w' !! i = Some m' /\ fillKept m m'.
Proof.
  destruct (summarizeScene_kept startId endId w) as (r & w' & Hrun & Hse & Hlen & Hlook).
  assert (Hkept : forall i m, chat w !! i = Some m ->
            exists m', chat w' !! i = Some m' /\ fillKept m m').
  { intros i m Hm. destruct (Hlook i m Hm) as (m' & Hm' & Hk).
    exists m'. split; [exact Hm' | exact (sceneKept_fillKept _ _ _ _ Hk)]. }
  destruct r as [s|e].
  - exists true, w'. split; [|auto].
    apply tryCatch_Ok. rewrite (bind_Ok _ _ _ _ _ Hrun). reflexivity.
  - exists false, w'. split; [|auto].
    erewrite tryCatch_Throw; [reflexivity|].
    rewrite (bind_Throw _ _ _ _ _ Hrun). reflexivity.
Qed.

(** With one unit of fuel for every message left, the loop returns; it
    creates at most one chapter for every [interval] messages left. *)
Lemma autoFillLoop_terminates (fuel : nat) (interval currentBlockStart created : Z) w :
  1 <= interval ->
  0 <= currentBlockStart <= Z.of_nat (length (chat w)) ->
  Z.of_nat (length (chat w)) - currentBlockStart < Z.of_nat fuel ->
  exists n w',
    autoFillLoop fuel interval currentBlockStart created w = (Ok (Some n), w')
    /\ created <= n
    /\ (n - created) * interval <= Z.of_nat (length (chat w)) - currentBlockStart
    /\ settings w' = settings w
    /\ length (chat w') = length (chat w)
    /\ forall i m, chat w !! i = Some m ->
         exists m', chat w' !! i = Some m' /\ fillKept m m'.
Proof.
  intros Hint. revert currentBlockStart created w.
  induction fuel as [|fuel IH]; intros cbs created w Hcbs Hfuel; [lia|].
  assert (Hstop : exists n w',
            (Ok (Some created), w) = (Ok (Some n), w')
            /\ created <= n
            /\ (n - created) * interval <= Z.of_nat (length (chat w)) - cbs
            /\ settings w' = settings w
            /\ length (chat w') = length (chat w)
            /\ forall i m, chat w !! i = Some m ->
                 exists m', chat w' !! i = Some m' /\ fillKept m m').
  { exists created, w. split; [reflexivity|]. split; [lia|]. split; [lia|].
    split; [reflexivity|]. split; [reflexivity|].
    intros i m Hm. exists m. split; [exact Hm | apply fillKept_refl]. }
  cbn [autoFillLoop]. rewrite bind_get.
  destruct (Z.ltb_spec cbs (Z.of_nat (length (chat w)))) as [Hlt|Hge]; [|exact Hstop].
  destruct (cbs + interval - 1 >=? Z.of_nat (length (chat w))) eqn:Hend; [exact Hstop|].
  assert (Hend' : cbs + interval - 1 < Z.of_nat (length (chat w))) by lia.
  destruct (findSceneEndIn (chat w) cbs (cbs + interval - 1)) as [j|] eqn:Hfind.
  - apply findSceneEndIn_bounds in Hfind.
    destruct (IH (j + 1) created w ltac:(lia) ltac:(lia))
      as (n & w' & Hrun & Hn & Hbound & Hrest).
    exists n, w'. split; [exact Hrun|]. split; [exact Hn|]. split; [lia | exact Hrest].
  - destruct (autoFill_attempt cbs (cbs + interval - 1) w)
      as (ok & w1 & Hstep & Hse1 & Hlen1 & Hlook1).
    rewrite (bind_Ok _ _ _ _ _ Hstep).
    destruct ok.
    + destruct (IH (cbs + interval - 1 + 1) (created + 1) w1)
        as (n & w' & Hrun & Hn & Hbound & Hse & Hlen & Hlook).
      { rewrite Hlen1. lia. }
      { rewrite Hlen1. lia. }
      exists n, w'. split; [exact Hrun|]. split; [lia|].
      split; [rewrite Hlen1 in Hbound; nia|].
      split; [congruence|]. split; [congruence|].
      intros i m Hm. destruct (Hlook1 i m Hm) as (m1 & Hm1 & Hk1).
      destruct (Hlook i m1 Hm1) as (m' & Hm' & Hk).
      exists m'. split; [exact Hm' | exact (fillKept_trans _ _ _ Hk1 Hk)].
    + destruct (IH (cbs + 1) created w1)
        as (n & w' & Hrun & Hn & Hbound & Hse & Hlen & Hlook).
      { rewrite Hlen1. lia. }
      { rewrite Hlen1. lia. }
      exists n, w'. split; [exact Hrun|]. split; [lia|].
      split; [rewrite Hlen1 in Hbound; lia|].
      split; [congruence|]. split; [congruence|].
      intros i m Hm. destruct (Hlook1 i m Hm) as (m1 & Hm1 & Hk1).
      destruct (Hlook i m1 Hm1) as (m' & Hm' & Hk).
      exists m'. split; [exact Hm' | exact (fillKept_trans _ _ _ Hk1 Hk)].
Qed.

(** For an interval of 5 or more [autoFillChapters] always returns. *)
Lemma autoFillChapters_returns (interval : Z) w :
  5 <= interval ->
  exists n w',
    autoFillChapters interval w = (Ok (Some n), w')
    /\ 0 <= n
    /\ n * interval <= Z.of_nat (length (chat w))
    /\ settings w' = settings w
    /\ length (chat w') = length (chat w)
    /\ forall i m, chat w !! i = Some m ->
         exists m', chat w' !! i = Some m' /\ fillKept m m'.
Proof.
  intros Hint. unfold autoFillChapters.
  replace (interval <? 5) with false by (symmetry; apply Z.ltb_ge; lia).
  rewrite bind_get.
  match goal with
  | |- context [notify ?t ?m] =>
      destruct (notify_spec t m w) as (w0 & Hn0 & (Hc0 & Hse0 & _) & _)
  end.
  rewrite (bind_Ok _ _ _ _ _ Hn0).
  pose proof (last_indicesFrom_bounds hasSceneEnd (chat w)) as Hlast.
  destruct (autoFillLoop_terminates (S (length (chat w))) interval
              (List.last (indicesFrom 0 hasSceneEnd (chat w)) (-1) + 1) 0 w0)
    as (n & w1 & Hloop & Hn & Hbound & Hse1 & Hlen1 & Hlook1).
  { lia. }
  { rewrite Hc0. lia. }
  { rewrite Hc0. lia. }
  rewrite (bind_Ok _ _ _ _ _ Hloop).
  assert (Hnote : exists w2,
             (if 0 <? n
              then notify "success" ("Created " +:+ showZ n +:+ " missing chapters")
              else notify "info" "No missing chapters found to fill") w1 = (Ok tt, w2)
             /\ chat w2 = chat w1 /\ settings w2 = settings w1).
  { destruct (0 <? n);
      match goal with
      | |- context [notify ?t ?m] =>
          destruct (notify_spec t m w1) as (w2 & Hn2 & (Hc2 & Hse2 & _) & _)
      end; exists w2; auto. }
  destruct Hnote as (w2 & Hn2 & Hc2 & Hse2).
  rewrite (bind_Ok _ _ _ _ _ Hn2).
  exists n, w2. split; [reflexivity|]. split; [lia|].
  split; [rewrite Hc0 in Hbound; nia|].
  split; [congruence|]. split; [congruence|].
  intros i m Hm. rewrite <- Hc0 in Hm.
  destruct (Hlook1 i m Hm) as (m' & Hm' & Hk).
  exists m'. rewrite Hc2. split; [exact Hm' | exact Hk].
Qed.

(** X13.  For an interval of 5 or more [autoFillChapters] always returns:
    it never throws, whatever the model and the host do, and its loop
    ends within one turn per message.  The number it returns is at most
    the number of whole blocks of [interval] messages in the chat; no
    message is added, removed or rewritten, message summaries are kept,
    and messages are at most hidden or made scene ends. *)
Theorem autoFillChapters_terminates (interval : Z) w :
  5 <= interval ->
  exists n w',
    autoFillChapters interval w = (Ok (Some n), w')
    /\ 0 <= n
    /\ n * interval <= Z.of_nat (length (chat w))
    /\ settings w' = settings w
    /\ length (chat w') = length (chat w)
    /\ forall i m, chat w !! i = Some m ->
         exists m', chat w' !! i = Some m'
           /\ name m' = name m /\ mes m' = mes m /\ is_user m' = is_user m
           /\ (is_system m = true -> is_system m' = true)
           /\ tr_summary (extraOf m') = tr_summary (extraOf m)
           /\ (hasSceneEnd m = true -> hasSceneEnd m' = true).
Proof.
  intros Hint.
  destruct (autoFillChapters_returns interval w Hint)
    as (n & w' & Hrun & Hn & Hbound & Hse & Hlen & Hlook).
  exists n, w'. repeat (split; [assumption|]). exact Hlook.
Qed.

Lemma sceneMessages_visible (c : list Message) (a b : Z) :
  Forall (fun m => is_system m = false) c ->
  0 <= a <= b -> b < Z.of_nat (length c) ->
  sceneMessages c a b <> [].
Proof.
  intros Hvis Hab Hb. unfold sceneMessages.
  destruct (lookup_lt_is_Some_2 c (Z.to_nat a) ltac:(lia)) as [m Hm].
  assert (Hdrop : exists l, drop (Z.to_nat a) c = m :: l).
  { destruct (drop (Z.to_nat a) c) as [|x l] eqn:Hd.
    - pose proof (lookup_drop c (Z.to_nat a) 0) as Hl. rewrite Hd in Hl.
      rewrite Nat.add_0_r, Hm in Hl. discriminate.
    - pose proof (lookup_drop c (Z.to_nat a) 0) as Hl. rewrite Hd in Hl.
      rewrite Nat.add_0_r, Hm in Hl. simpl in Hl. injection Hl as ->.
      exists l. reflexivity. }
  destruct Hdrop as [l ->].
  replace (Z.to_nat (b - a + 1)) with (S (Z.to_nat (b - a))) by lia.
  cbn [take List.filter].
  assert (Hm' : is_system m = false).
  { apply (proj1 (List.Forall_forall _ _) Hvis).
    apply list_elem_of_In. eapply list_elem_of_lookup_2. exact Hm. }
  rewrite Hm'. discriminate.
Qed.

(** When nothing can be generated and every message is visible and no
    scene has been ended, every full block counts as a chapter. *)
Lemma autoFillLoop_cannot (fuel : nat) (interval currentBlockStart created : Z) w :
  1 <= interval ->
  0 <= currentBlockStart <= Z.of_nat (length (chat w)) ->
  Z.of_nat (length (chat w)) - currentBlockStart < Z.of_nat fuel ->
  cannotGenerate w ->
  Forall (fun m => is_system m = false) (chat w) ->
  Forall (fun m => hasSceneEnd m = false) (chat w) ->
  exists w',
    autoFillLoop fuel interval currentBlockStart created w
    = (Ok (Some (created
                 + (Z.of_nat (length (chat w)) - currentBlockStart) / interval)), w')
    /\ gatewayFrame w w'.
Proof.
  intros Hint. revert currentBlockStart created w.
  induction fuel as [|fuel IH]; intros cbs created w Hcbs Hfuel Hcannot Hvis Hnone;
    [lia|].
  assert (Hstop : Z.of_nat (length (chat w)) - cbs < interval ->
            exists w',
              (Ok (Some created), w)
              = (Ok (Some (created + (Z.of_nat (length (chat w)) - cbs) / interval)), w')
              /\ gatewayFrame w w').
  { intros Hsmall. exists w. rewrite Z.div_small by lia. rewrite Z.add_0_r.
    split; [reflexivity | apply gatewayFrame_refl]. }
  cbn [autoFillLoop]. rewrite bind_get.
  destruct (Z.ltb_spec cbs (Z.of_nat (length (chat w)))) as [Hlt|Hge];
    [|apply Hstop; lia].
  destruct (cbs + interval - 1 >=? Z.of_nat (length (chat w))) eqn:Hend;
    [apply Hstop; lia|].
  assert (Hend' : cbs + interval - 1 < Z.of_nat (length (chat w))) by lia.
  rewrite findSceneEndIn_none.
  2:{ intros i m Hm _. apply (proj1 (List.Forall_forall _ _) Hnone).
      apply list_elem_of_In. eapply list_elem_of_lookup_2. exact Hm. }
  destruct (summarizeScene_cannot cbs (cbs + interval - 1) w)
    as (w1 & Hrun & Hf1); try assumption; try lia.
  { apply sceneMessages_visible; [exact Hvis | lia | lia]. }
  erewrite bind_Ok.
  2:{ apply tryCatch_Ok. erewrite bind_Ok by exact Hrun. reflexivity. }
  cbv iota.
  pose proof Hf1 as (Hc1 & _).
  destruct (IH (cbs + interval - 1 + 1) (created + 1) w1) as (w' & Hloop & Hf).
  { rewrite Hc1. lia. }
  { rewrite Hc1. lia. }
  { exact (cannotGenerate_frame _ _ Hf1 Hcannot). }
  { rewrite Hc1. exact Hvis. }
  { rewrite Hc1. exact Hnone. }
  exists w'. split; [|exact (gatewayFrame_trans _ _ _ Hf1 Hf)].
  rewrite Hloop, Hc1. do 3 f_equal.
  replace (Z.of_nat (length (chat w)) - cbs)
    with (Z.of_nat (length (chat w)) - (cbs + interval - 1 + 1) + 1 * interval) by lia.
  rewrite Z.div_add by lia. lia.
Qed.

(** X14.  [autoFillChapters] counts the blocks it went through, not the
    chapters that exist afterwards: when no profile is selected or the
    model rejects every request, on a chat of visible messages without
    scene ends, it returns the number of whole blocks of [interval]
    messages although the chat is unchanged and no memory was stored. *)
Theorem autoFillChapters_counts_attempts (interval : Z) w :
  5 <= interval ->
  cannotGenerate w ->
  Forall (fun m => is_system m = false) (chat w) ->
  Forall (fun m => hasSceneEnd m = false) (chat w) ->
  exists w',
    autoFillChapters interval w
    = (Ok (Some (Z.of_nat (length (chat w)) / interval)), w')
    /\ chat w' = chat w
    /\ memoryCache w' = memoryCache w.
Proof.
  intros Hint Hcannot Hvis Hnone. unfold autoFillChapters.
  replace (interval <? 5) with false by (symmetry; apply Z.ltb_ge; lia).
  rewrite bind_get.
  match goal with
  | |- context [notify ?t ?m] =>
      destruct (notify_spec t m w) as (w0 & Hn0 & Hf0 & _)
  end.
  rewrite (bind_Ok _ _ _ _ _ Hn0).
  rewrite (indicesFrom_none _ _ _ Hnone). cbn [List.last].
  change (-1 + 1) with 0.
  pose proof Hf0 as (Hc0 & _).
  destruct (autoFillLoop_cannot (S (length (chat w))) interval 0 0 w0)
    as (w1 & Hloop & Hf1).
  { lia. }
  { rewrite Hc0. lia. }
  { rewrite Hc0. lia. }
  { exact (cannotGenerate_frame _ _ Hf0 Hcannot). }
  { rewrite Hc0. exact Hvis. }
  { rewrite Hc0. exact Hnone. }
  rewrite (bind_Ok _ _ _ _ _ Hloop). rewrite Hc0, Z.sub_0_r, Z.add_0_l.
  set (n := Z.of_nat (length (chat w)) / interval).
  assert (Hnote : exists w2,
             (if 0 <? n
              then notify "success" ("Created " +:+ showZ n +:+ " missing chapters")
              else notify "info" "No missing chapters found to fill") w1 = (Ok tt, w2)
             /\ gatewayFrame w1 w2).
  { destruct (0 <? n);
      match goal with
      | |- context [notify ?t ?m] =>
          destruct (notify_spec t m w1) as (w2 & Hn2 & Hf2 & _)
      end; exists w2; auto. }
  destruct Hnote as (w2 & Hn2 & Hf2).
  rewrite (bind_Ok _ _ _ _ _ Hn2).
  exists w2. split; [reflexivity|].
  pose proof (gatewayFrame_trans _ _ _ Hf0 (gatewayFrame_trans _ _ _ Hf1 Hf2))
    as (Hc & _ & _ & _ & Hmc & _).
  auto.
Qed.
End AutoFillTermination.

(** [autoFillChapters_terminates] on [world45] with blocks of 20. *)
Lemma autoFillChapters_terminates_witness :
  exists n w',
    autoFillChapters 20 world45 = (Ok (Some n), w')
    /\ n * 20 <= 45
    /\ length (chat w') = 45%nat.
Proof.
  destruct (autoFillChapters_terminates 20 world45)
    as (n & w' & Hrun & _ & Hbound & _ & Hlen & _).
  - lia.
  - exists n, w'. split; [exact Hrun|]. split; [exact Hbound | exact Hlen].
Defined.

(** [autoFillChapters_counts_attempts] on 45 messages without a profile:
    two chapters are reported and none exists. *)
Lemma autoFillChapters_counts_attempts_witness :
  exists w',
    autoFillChapters 20 (world (mkScripted [] 0) "" chat45 [] []) = (Ok (Some 2), w')
    /\ chat w' = chat45
    /\ memoryCache w' = [].
Proof.
  destruct (autoFillChapters_counts_attempts 20 (world (mkScripted [] 0) "" chat45 [] []))
    as (w' & Hrun & Hc & Hmc).
  - lia.
  - left. reflexivity.
  - apply Forall_replicate. reflexivity.
  - apply Forall_replicate. reflexivity.
  - exists w'. split; [exact Hrun|]. split; [exact Hc | exact Hmc].
Defined.

(** ** The slash commands *)

Section CommandFacts.
Context {H : Type} `{HostAPI H}.
Implicit Types (w : World H).

Lemma generationFails_cannot w (content systemPrompt : string) :
  cannotGenerate w -> generationFails w content systemPrompt.
Proof.
  intros [Hprof|Hthrows].
  - right. left. exact Hprof.
  - right. right. unfold requestOf. apply Hthrows.
Qed.

(** X15.  The command [/tr-summarize] never throws: for every argument
    and state it answers with a text.  Without a number it asks for one;
    for an index outside the chat it answers "Error: Invalid message ID"
    and changes nothing.  For an index of the chat there are four
    answers: "Failed to generate summary" when no text was generated, the
    chat being as before; "Error: result.trim is not a function" when
    [generateText] threw its [TypeError], the chat being as before;
    "Error: " and the reason when the chat could not be saved, the summary
    being on the message already; or the summary.  When nothing can be
    generated the answer is the first; with a model that answers and a
    chat that can be saved it is the summary, which is then the summary
    of the message. *)
Theorem trSummarize_answers (mesId : Z) w :
  (forall arg, exists answer w', trSummarize arg w = (Ok answer, w'))
  /\ (0 <= mesId < Z.of_nat (length (chat w)) ->
      exists answer w',
        trSummarize (Some mesId) w = (Ok answer, w')
        /\ ((answer = "Failed to generate summary"
             /\ chat w' = chat w /\ memoryCache w' = memoryCache w)
            \/ (answer = "Error: result.trim is not a function"
                /\ chat w' = chat w /\ memoryCache w' = memoryCache w)
            \/ (exists reason s,
                  answer = "Error: " +:+ reason /\ JS.truthy s = true
                  /\ getMessageSummary mesId w' = (Ok (Some s), w')
                  /\ memoryCache w' = memoryCache w)
            \/ (JS.truthy answer = true
                /\ summarizeMessage mesId w = (Ok answer, w'))))
  /\ trSummarize None w = (Ok "Error: Please provide a valid message ID", w)
  /\ (mesId < 0 \/ Z.of_nat (length (chat w)) <= mesId ->
      trSummarize (Some mesId) w = (Ok "Error: Invalid message ID", w))
  /\ (0 <= mesId < Z.of_nat (length (chat w)) -> cannotGenerate w ->
      exists w',
        trSummarize (Some mesId) w = (Ok "Failed to generate summary", w')
        /\ chat w' = chat w /\ memoryCache w' = memoryCache w)
  /\ (0 <= mesId < Z.of_nat (length (chat w)) ->
      JS.truthy (summarization_profile (settings w)) = true ->
      modelAnswers -> chatSaves ->
      exists s w',
        trSummarize (Some mesId) w = (Ok s, w')
        /\ JS.truthy s = true
        /\ getMessageSummary mesId w' = (Ok (Some s), w')).
Proof.
  assert (Hall : forall id,
            exists answer w',
              trSummarize (Some id) w = (Ok answer, w')
              /\ (0 <= id < Z.of_nat (length (chat w)) ->
                  (answer = "Failed to generate summary"
                   /\ chat w' = chat w /\ memoryCache w' = memoryCache w)
                  \/ (answer = "Error: result.trim is not a function"
                      /\ chat w' = chat w /\ memoryCache w' = memoryCache w)
                  \/ (exists reason s,
                        answer = "Error: " +:+ reason /\ JS.truthy s = true
                        /\ getMessageSummary id w' = (Ok (Some s), w')
                        /\ memoryCache w' = memoryCache w)
                  \/ (JS.truthy answer = true
                      /\ summarizeMessage id w = (Ok answer, w')))).
  { intros id.
    destruct (summarizeMessage_outcome id w) as (r & w1 & Hrun & Hcases).
    unfold trSummarize.
    destruct Hcases as [(-> & -> & Hinv)|[(-> & Hv & Hc & Hmc)
                       |[(s & now & Hs & Hv & [(-> & Hc & Hmc)| ->])
                        |(-> & Hv & Hc & Hmc)]]].
    - eexists. exists w. split.
      + unfold tryCatch. rewrite (bind_Throw _ _ _ _ _ Hrun). reflexivity.
      + intros Hin. contradiction.
    - eexists. exists w1. split.
      + apply tryCatch_Ok. rewrite (bind_Ok _ _ _ _ _ Hrun). reflexivity.
      + intros _. left. auto.
    - eexists. exists w1. split.
      + unfold tryCatch. rewrite (bind_Throw _ _ _ _ _ Hrun). reflexivity.
      + intros _. right. right. left. exists "saveChat", s.
        split; [reflexivity|]. split; [exact Hs|]. split; [|exact Hmc].
        destruct Hv as [Hv1 Hv2].
        destruct (lookup_lt_is_Some_2 (chat w) (Z.to_nat id) ltac:(lia)) as [m Hm].
        unfold getMessageSummary, gets, elementAt.
        replace (id <? 0) with false by (symmetry; apply Z.ltb_ge; lia).
        rewrite Hc, list_lookup_alter_eq, Hm. cbn [fmap option_fmap option_map].
        unfold hasSummary. cbn [setSummary extraOf extra tr_summary truthyStr].
        rewrite Hs. reflexivity.
    - exists s, w1. split.
      + apply tryCatch_Ok. rewrite (bind_Ok _ _ _ _ _ Hrun). rewrite Hs. reflexivity.
      + intros _. right. right. right. auto.
    - eexists. exists w1. split.
      + unfold tryCatch. rewrite (bind_Throw _ _ _ _ _ Hrun). reflexivity.
      + intros _. right. left. auto. }
  split.
  { intros [id|].
    - destruct (Hall id) as (answer & w' & Hrun & _). exists answer, w'. exact Hrun.
    - eexists. exists w. reflexivity. }
  split.
  { intros Hin. destruct (Hall mesId) as (answer & w' & Hrun & Hcases).
    exists answer, w'. split; [exact Hrun | exact (Hcases Hin)]. }
  split; [reflexivity|]. split; [|split].
  - intros Hout. unfold trSummarize, tryCatch, summarizeMessage.
    rewrite bind_assoc, bind_get.
    replace ((mesId <? 0) || (mesId >=? Z.of_nat (length (chat w)))) with true
      by (symmetry; apply orb_true_iff; lia).
    reflexivity.
  - intros Hin Hcannot.
    destruct (lookup_lt_is_Some_2 (chat w) (Z.to_nat mesId) ltac:(lia)) as [message Hm].
    destruct (summarizeMessage_empty_frame w mesId message ltac:(lia) Hm)
      as (w' & Hrun & (Hc & _ & _ & _ & Hmc & _)).
    { left. apply generationFails_cannot. exact Hcannot. }
    exists w'. split; [|auto].
    unfold trSummarize. apply tryCatch_Ok.
    rewrite (bind_Ok _ _ _ _ _ Hrun). reflexivity.
  - intros Hin Hprof Hmodel Hsave.
    destruct (lookup_lt_is_Some_2 (chat w) (Z.to_nat mesId) ltac:(lia)) as [message Hm].
    destruct (summarizeMessage_effect mesId message w ltac:(lia) Hm Hprof Hmodel Hsave)
      as (s & now & stamp & w' & Hrun & Hs & _ & _ & _ & _ & _ & _ & Hlook).
    exists s, w'. split; [|split; [exact Hs|]].
    + unfold trSummarize. apply tryCatch_Ok.
      rewrite (bind_Ok _ _ _ _ _ Hrun). rewrite Hs. reflexivity.
    + destruct (Hlook _ _ Hm)
        as (m' & Hm' & _ & _ & _ & _ & _ & _ & _ & _ & Hat & _).
      destruct (Hat eq_refl) as [Hsum _].
      unfold getMessageSummary, gets, elementAt.
      replace (mesId <? 0) with false by (symmetry; apply Z.ltb_ge; lia).
      rewrite Hm'. unfold hasSummary. rewrite Hsum. cbn [truthyStr]. rewrite Hs.
      reflexivity.
Qed.

(** X16.  The command [/tr-scene-end n] summarizes from the message after
    the last scene end before [n] up to [n]: with a model that answers,
    message [n] becomes a scene end whose recorded start is that message,
    the previous scene end is still one, and no message of the new scene
    before [n] ends a scene. *)
Theorem trSceneEnd_starts_after_last_scene (mesId : Z) w :
  let startId := lastSceneEndBelow (chat w) (Z.to_nat mesId) + 1 in
  0 <= mesId < Z.of_nat (length (chat w)) ->
  sceneMessages (chat w) startId mesId <> [] ->
  JS.truthy (summarization_profile (settings w)) = true ->
  modelAnswers ->
  chatSaves ->
  exists s w',
    trSceneEnd (Some mesId) w = (Ok s, w')
    /\ JS.truthy s = true
    /\ 0 <= startId <= mesId
    /\ (exists m', chat w' !! Z.to_nat mesId = Some m'
                   /\ hasSceneEnd m' = true
                   /\ tr_scene_summary (extraOf m') = Some s
                   /\ tr_scene_start (extraOf m') = Some startId)
    /\ (startId = 0 \/ isSceneEnd (startId - 1) w' = (Ok true, w'))
    /\ (forall j, startId <= j < mesId -> isSceneEnd j w' = (Ok false, w')).
Proof.
  intros startId Hin Hvisible Hprof Hmodel Hsave.
  destruct (lastSceneEndBelow_spec (chat w) (Z.to_nat mesId)) as [Hr Habove].
  cbv zeta in Hr, Habove.
  assert (Hstart : 0 <= startId <= mesId).
  { unfold startId. destruct Hr as [->|(Hr & _)]; lia. }
  destruct (summarizeScene_success startId mesId w Hstart ltac:(lia) Hvisible
              Hprof Hmodel Hsave)
    as (s & now & mem & w' & Hrun & Hs & Hc & _).
  assert (Hother : forall j m, 0 <= j -> j <> mesId ->
            chat w !! Z.to_nat j = Some m ->
            isSceneEnd j w' = (Ok (hasSceneEnd m), w')).
  { intros j m Hj Hne Hm. unfold isSceneEnd, gets, elementAt.
    replace (j <? 0) with false by (symmetry; apply Z.ltb_ge; lia).
    rewrite Hc, sceneMarked_lookup, Hm. cbn [fmap option_fmap option_map].
    rewrite decide_False by lia.
    destruct (_ && _); reflexivity. }
  exists s, w'. split.
  { unfold trSceneEnd. apply tryCatch_Ok. unfold findLastSceneEnd.
    erewrite bind_Ok by reflexivity. fold startId.
    rewrite (bind_Ok _ _ _ _ _ Hrun). rewrite Hs. reflexivity. }
  split; [exact Hs|]. split; [exact Hstart|].
  split.
  { destruct (lookup_lt_is_Some_2 (chat w) (Z.to_nat mesId) ltac:(lia)) as [m0 Hm0].
    rewrite Hc, sceneMarked_lookup, Hm0. cbn [fmap option_fmap option_map].
    rewrite decide_True by reflexivity.
    eexists. split; [reflexivity|]. destruct (_ && _); repeat split. }
  split.
  { destruct Hr as [Hr|(Hr & m & Hm & Hend)].
    - left. unfold startId. lia.
    - right. unfold startId.
      replace (lastSceneEndBelow (chat w) (Z.to_nat mesId) + 1 - 1)
        with (lastSceneEndBelow (chat w) (Z.to_nat mesId)) by lia.
      rewrite (Hother _ m) by (try lia; exact Hm). rewrite Hend. reflexivity. }
  intros j Hj.
  destruct (lookup_lt_is_Some_2 (chat w) (Z.to_nat j) ltac:(lia)) as [m Hm].
  rewrite (Hother j m) by (try lia; exact Hm).
  rewrite (Habove (Z.to_nat j) m); [reflexivity | unfold startId in Hj; lia | lia | exact Hm].
Qed.

(** X17.  The command [/tr-autofill] always answers with a text and never
    throws.  Without a number or below 5 it answers with the usage
    message and changes nothing, so the exception of [autoFillChapters]
    is never met through the command; from 5 on it reports a number of
    chapters that fits into the chat. *)
Theorem trAutofill_answers (interval : option Z) w :
  (match interval with Some i => i < 5 | None => True end ->
   trAutofill interval w
   = (Ok (Some "Error: Please provide a valid interval (minimum 5 messages). Example: /tr-autofill 20"),
      w))
  /\ (forall i, interval = Some i -> 5 <= i ->
        exists n w',
          trAutofill interval w
          = (Ok (Some ("Auto-fill complete: Created " +:+ showZ n +:+ " chapters.")), w')
          /\ 0 <= n /\ n * i <= Z.of_nat (length (chat w))
          /\ length (chat w') = length (chat w)).
Proof.
  split.
  - destruct interval as [i|]; [|reflexivity].
    intros Hsmall. unfold trAutofill.
    replace (i <? 5) with true by (symmetry; apply Z.ltb_lt; lia). reflexivity.
  - intros i -> Hint.
    destruct (autoFillChapters_returns i w Hint)
      as (n & w' & Hrun & Hn & Hbound & _ & Hlen & _).
    exists n, w'. split; [|auto].
    unfold trAutofill.
    replace (i <? 5) with false by (symmetry; apply Z.ltb_ge; lia).
    apply tryCatch_Ok. rewrite (bind_Ok _ _ _ _ _ Hrun). reflexivity.
Qed.
End CommandFacts.

(** [trSummarize_answers] on [greeting]. *)
Lemma trSummarize_answers_witness :
  trSummarize (Some 7) noProfileWorld = (Ok "Error: Invalid message ID", noProfileWorld)
  /\ (exists w', trSummarize (Some 1) noProfileWorld
                 = (Ok "Failed to generate summary", w'))
  /\ (exists s w', trSummarize (Some 1) (world (mkReliable 7) "profile-1" greeting [] [])
                   = (Ok s, w')
                   /\ getMessageSummary 1 w' = (Ok (Some s), w')).
Proof.
  split; [|split].
  - apply (trSummarize_answers 7 noProfileWorld). simpl. lia.
  - destruct (trSummarize_answers 1 noProfileWorld) as (_ & _ & _ & _ & Hfail & _).
    destruct Hfail as (w' & Hrun & _); [simpl; lia | left; reflexivity |].
    exists w'. exact Hrun.
  - destruct (trSummarize_answers 1 (world (mkReliable 7) "profile-1" greeting [] []))
      as (_ & _ & _ & _ & _ & Hok).
    destruct Hok as (s & w' & Hrun & _ & Hread);
      [simpl; lia | reflexivity | exact reliable_modelAnswers
       | exact reliable_chatSaves |].
    exists s, w'. split; [exact Hrun | exact Hread].
Defined.

(** [trSceneEnd_starts_after_last_scene] on [clearedChat], whose first
    message ends a scene: the scene that ends at message 2 starts at 1. *)
Lemma trSceneEnd_starts_after_last_scene_witness :
  exists s w',
    trSceneEnd (Some 2) (world (mkReliable 7) "profile-1" clearedChat [] []) = (Ok s, w')
    /\ (exists m', chat w' !! 2%nat = Some m'
                   /\ tr_scene_start (extraOf m') = Some 1)
    /\ isSceneEnd 0 w' = (Ok true, w')
    /\ isSceneEnd 1 w' = (Ok false, w').
Proof.
  destruct (trSceneEnd_starts_after_last_scene 2
              (world (mkReliable 7) "profile-1" clearedChat [] []))
    as (s & w' & Hrun & _ & _ & (m' & Hm' & _ & _ & Hst) & Hprev & Hin).
  - simpl. lia.
  - discriminate.
  - reflexivity.
  - exact reliable_modelAnswers.
  - exact reliable_chatSaves.
  - exists s, w'. split; [exact Hrun|].
    split; [exists m'; split; [exact Hm' | exact Hst]|].
    split.
    + destruct Hprev as [Hzero|Hprev]; [discriminate Hzero | exact Hprev].
    + apply Hin. simpl. lia.
Defined.

(** [trAutofill_answers] for an interval of 3 and for one of 20. *)
Lemma trAutofill_answers_witness :
  trAutofill (Some 3) world45
  = (Ok (Some "Error: Please provide a valid interval (minimum 5 messages). Example: /tr-autofill 20"),
     world45)
  /\ exists n w',
       trAutofill (Some 20) world45
       = (Ok (Some ("Auto-fill complete: Created " +:+ showZ n +:+ " chapters.")), w')
       /\ n * 20 <= 45.
Proof.
  split.
  - apply (trAutofill_answers (Some 3) world45). simpl. lia.
  - destruct (trAutofill_answers (Some 20) world45) as (_ & Hbig).
    destruct (Hbig 20 eq_refl ltac:(lia)) as (n & w' & Hrun & _ & Hbound & _).
    exists n, w'. split; [exact Hrun | exact Hbound].
Defined.

(** The command on an answer object with an empty [content]: the
    [TypeError] of [generateText] becomes the answer. *)
Example trSummarize_type_error :
  exists w',
    trSummarize (Some 0) emptyContentWorld
    = (Ok "Error: result.trim is not a function", w')
    /\ chat w' = greeting.
Proof. eexists. split; [vm_compute; reflexivity | reflexivity]. Qed.

(** ** Token accounting: the breakdown and the two modes *)

Section TokenModes.
Context {H : Type} `{HostAPI H}.
Implicit Types (w : World H).

Lemma effectiveTotal_off (c : list Message) :
  effectiveTotal (H:=H) false c = originalTotal (H:=H) c.
Proof.
  unfold effectiveTotal, originalTotal, effectiveTokens.
  induction (counted c) as [|m l IH]; [reflexivity|].
  cbn [List.map fold_right]. rewrite IH, andb_false_r. reflexivity.
Qed.

Lemma fold_addItem_count (replace : bool) (c : list Message) (i : Z) (t : Totals) :
  totalSummarized (fold_left (addItem replace) (breakdownFrom i c) t)
  = totalSummarized t
    + (if replace then Z.of_nat (length (List.filter hasSummary (counted c))) else 0).
Proof.
  revert i t. induction c as [|msg c IH]; intros i t.
  - simpl. destruct replace; simpl; lia.
  - unfold counted in *. cbn [breakdownFrom List.filter].
    destruct (is_system msg); cbn [negb]; [apply IH|].
    cbn [fold_left List.filter]. rewrite IH. unfold addItem. cbn [item_hasSummary].
    destruct (hasSummary msg), replace; cbn [andb totalSummarized length]; lia.
Qed.

Lemma fold_savings (c : list Message) (i a : Z) :
  fold_left (fun acc item => acc + item_savings item) (breakdownFrom i c) a
  = a + (originalTotal (H:=H) c - effectiveTotal (H:=H) true c).
Proof.
  revert i a. induction c as [|msg c IH]; intros i a.
  - unfold originalTotal, effectiveTotal. simpl. lia.
  - unfold originalTotal, effectiveTotal, effectiveTokens, counted in *.
    cbn [breakdownFrom List.filter].
    destruct (is_system msg); cbn [negb]; [apply IH|].
    cbn [fold_left List.map fold_right item_savings]. rewrite IH.
    rewrite andb_true_r. destruct (hasSummary msg); lia.
Qed.

Lemma filter_hasSummary_breakdown (c : list Message) (i : Z) :
  length (List.filter item_hasSummary (breakdownFrom i c))
  = length (List.filter hasSummary (counted c)).
Proof.
  revert i. induction c as [|msg c IH]; intros i; [reflexivity|].
  unfold counted in *. cbn [breakdownFrom List.filter].
  destruct (is_system msg); cbn [negb]; [apply IH|].
  cbn [List.filter item_hasSummary].
  destruct (hasSummary msg); cbn [length]; rewrite IH; reflexivity.
Qed.

(** The fields of the result in terms of the chat. *)
Lemma totalSavings_fields (replace : bool) (c : list Message) :
  let sv := totalSavings replace (breakdownFrom 0 c) in
  original sv = originalTotal (H:=H) c
  /\ current sv = effectiveTotal (H:=H) replace c
  /\ saved sv = originalTotal (H:=H) c - effectiveTotal (H:=H) replace c
  /\ summarizedCount sv
     = (if replace then Z.of_nat (length (List.filter hasSummary (counted c))) else 0)
  /\ potentialSaved sv = originalTotal (H:=H) c - effectiveTotal (H:=H) true c
  /\ totalSummaries sv = Z.of_nat (length (List.filter hasSummary (counted c))).
Proof.
  intros sv. unfold sv, totalSavings.
  cbn [original current saved summarizedCount potentialSaved totalSummaries].
  destruct (fold_addItem replace c 0 (mkTotals 0 0 0)) as [Ho He].
  cbn [totalOriginal totalWithSummaries] in Ho, He.
  rewrite Ho, He, fold_addItem_count, fold_savings, filter_hasSummary_breakdown.
  cbn [totalSummarized]. repeat split; lia.
Qed.

(** X18.  The accounting has two modes.  The potential saving and the
    number of summaries do not depend on the mode: they are what
    replacing every summarized visible message would save, and the
    number of visible messages with a summary.  With replacement on, the
    actual saving equals the potential one and every summary counts as
    used; with replacement off nothing is saved, the current total is the
    original one and no summary counts as used. *)
Theorem getTotalSavings_two_modes w :
  exists sv,
    getTotalSavings w = (Ok sv, w)
    /\ potentialSaved sv
       = originalTotal (H:=H) (chat w) - effectiveTotal (H:=H) true (chat w)
    /\ totalSummaries sv = Z.of_nat (length (List.filter hasSummary (counted (chat w))))
    /\ (replace_with_summary (settings w) = true ->
        saved sv = potentialSaved sv /\ summarizedCount sv = totalSummaries sv)
    /\ (replace_with_summary (settings w) = false ->
        saved sv = 0 /\ current sv = original sv /\ summarizedCount sv = 0).
Proof.
  exists (totalSavings (replace_with_summary (settings w)) (breakdownFrom 0 (chat w))).
  split; [reflexivity|].
  destruct (totalSavings_fields (replace_with_summary (settings w)) (chat w))
    as (Ho & Hc & Hs & Hn & Hp & Ht).
  split; [exact Hp|]. split; [exact Ht|].
  split; intros Hmode; rewrite Hmode in *.
  - split; congruence.
  - rewrite effectiveTotal_off in *. repeat split; lia.
Qed.

Lemma breakdownFrom_ids (c : list Message) (i : Z) :
  List.map item_mesId (breakdownFrom i c)
  = indicesFrom i (fun m => negb (is_system m)) c.
Proof.
  revert i. induction c as [|msg c IH]; intros i; [reflexivity|].
  cbn [breakdownFrom indicesFrom].
  destruct (is_system msg); cbn [negb List.map item_mesId]; rewrite IH; reflexivity.
Qed.

Lemma breakdownFrom_items (c : list Message) (i : Z) (item : BreakdownItem) :
  In item (breakdownFrom i c) ->
  exists m,
    c !! Z.to_nat (item_mesId item - i) = Some m /\ i <= item_mesId item
    /\ is_system m = false
    /\ item_name item = name m /\ item_isUser item = is_user m
    /\ item_tokens item = getTokenCountAsync (mes m)
    /\ item_hasSummary item = hasSummary m
    /\ item_summaryTokens item
       = (if hasSummary m then getTokenCountAsync (default "" (tr_summary (extraOf m)))
          else 0)
    /\ item_savings item
       = (if hasSummary m then item_tokens item - item_summaryTokens item else 0).
Proof.
  revert i. induction c as [|msg c IH]; intros i Hin; [destruct Hin|].
  cbn [breakdownFrom] in Hin.
  assert (Hrest : In item (breakdownFrom (i + 1) c) ->
            exists m,
              (msg :: c) !! Z.to_nat (item_mesId item - i) = Some m
              /\ i <= item_mesId item
              /\ is_system m = false
              /\ item_name item = name m /\ item_isUser item = is_user m
              /\ item_tokens item = getTokenCountAsync (mes m)
              /\ item_hasSummary item = hasSummary m
              /\ item_summaryTokens item
                 = (if hasSummary m
                    then getTokenCountAsync (default "" (tr_summary (extraOf m)))
                    else 0)
              /\ item_savings item
                 = (if hasSummary m then item_tokens item - item_summaryTokens item
                    else 0)).
  { intros Hin'. destruct (IH (i + 1) Hin') as (m & Hm & Hle & Hrest).
    exists m. split; [|split; [lia | exact Hrest]].
    replace (Z.to_nat (item_mesId item - i))
      with (S (Z.to_nat (item_mesId item - (i + 1)))) by lia.
    exact Hm. }
  destruct (is_system msg) eqn:Hsys; [exact (Hrest Hin)|].
  destruct Hin as [<-|Hin]; [|exact (Hrest Hin)].
  exists msg. cbn [item_mesId item_name item_isUser item_tokens item_hasSummary
                   item_summaryTokens item_savings].
  rewrite Z.sub_diag. split; [reflexivity|]. split; [lia|]. split; [exact Hsys|].
  repeat split; destruct (hasSummary msg); reflexivity.
Qed.

(** X19.  [getTokenBreakdown] returns one item per visible message, in
    chat order; each item carries the index of its message in the chat,
    the author, the token count of the body and, where the message has a
    summary, the token count of the summary and their difference as
    saving; an item without summary saves nothing. *)
Theorem getTokenBreakdown_items w :
  exists items,
    getTokenBreakdown w = (Ok items, w)
    /\ List.map item_mesId items
       = indicesFrom 0 (fun m => negb (is_system m)) (chat w)
    /\ Forall (fun item =>
                 exists m,
                   elementAt (chat w) (item_mesId item) = Some m
                   /\ is_system m = false
                   /\ item_name item = name m /\ item_isUser item = is_user m
                   /\ item_tokens item = getTokenCountAsync (mes m)
                   /\ item_hasSummary item = hasSummary m
                   /\ item_savings item
                      = (if hasSummary m
                         then getTokenCountAsync (mes m)
                              - getTokenCountAsync
                                  (default "" (tr_summary (extraOf m)))
                         else 0))
         items.
Proof.
  exists (breakdownFrom 0 (chat w)). split; [reflexivity|].
  split; [apply breakdownFrom_ids|].
  apply List.Forall_forall. intros item Hin.
  destruct (breakdownFrom_items _ _ _ Hin)
    as (m & Hm & Hle & Hsys & Hname & Huser & Htok & Hhas & Hsum & Hsav).
  exists m. rewrite Z.sub_0_r in Hm. unfold elementAt.
  replace (item_mesId item <? 0) with false by (symmetry; apply Z.ltb_ge; lia).
  split; [exact Hm|]. split; [exact Hsys|]. split; [exact Hname|].
  split; [exact Huser|]. split; [exact Htok|]. split; [exact Hhas|].
  rewrite Hsav, Htok, Hsum. destruct (hasSummary m); reflexivity.
Qed.

Lemma replacementsFrom_ids (c : list Message) (i : Z) :
  List.map rep_mesId (replacementsFrom i c)
  = indicesFrom i (fun m => hasSummary m && negb (is_system m)) c.
Proof.
  revert i. induction c as [|msg c IH]; intros i; [reflexivity|].
  cbn [replacementsFrom indicesFrom].
  destruct (hasSummary msg && negb (is_system msg)); cbn [List.map rep_mesId];
    rewrite IH; reflexivity.
Qed.

Lemma replacementsFrom_length (c : list Message) (i : Z) :
  length (replacementsFrom i c) = length (List.filter hasSummary (counted c)).
Proof.
  revert i. induction c as [|msg c IH]; intros i; [reflexivity|].
  unfold counted in *. cbn [replacementsFrom List.filter].
  destruct (is_system msg); cbn [negb].
  - rewrite andb_false_r. apply IH.
  - rewrite andb_true_r. cbn [List.filter].
    destruct (hasSummary msg); cbn [length]; rewrite IH; reflexivity.
Qed.

Lemma replacementsFrom_items (c : list Message) (i : Z) (r : Replacement) :
  In r (replacementsFrom i c) ->
  exists m,
    c !! Z.to_nat (rep_mesId r - i) = Some m /\ i <= rep_mesId r
    /\ is_system m = false /\ hasSummary m = true
    /\ tr_summary (extraOf m) = Some (rep_summary r)
    /\ rep_originalLength r = Z.of_nat (String.length (mes m))
    /\ rep_summaryLength r = Z.of_nat (String.length (rep_summary r)).
Proof.
  revert i. induction c as [|msg c IH]; intros i Hin; [destruct Hin|].
  cbn [replacementsFrom] in Hin.
  assert (Hrest : In r (replacementsFrom (i + 1) c) ->
            exists m,
              (msg :: c) !! Z.to_nat (rep_mesId r - i) = Some m /\ i <= rep_mesId r
              /\ is_system m = false /\ hasSummary m = true
              /\ tr_summary (extraOf m) = Some (rep_summary r)
              /\ rep_originalLength r = Z.of_nat (String.length (mes m))
              /\ rep_summaryLength r = Z.of_nat (String.length (rep_summary r))).
  { intros Hin'. destruct (IH (i + 1) Hin') as (m & Hm & Hle & Hrest).
    exists m. split; [|split; [lia | exact Hrest]].
    replace (Z.to_nat (rep_mesId r - i))
      with (S (Z.to_nat (rep_mesId r - (i + 1)))) by lia.
    exact Hm. }
  destruct (hasSummary msg && negb (is_system msg)) eqn:Hp; [|exact (Hrest Hin)].
  destruct Hin as [<-|Hin]; [|exact (Hrest Hin)].
  apply andb_true_iff in Hp as [Hsum Hvis]. apply negb_true_iff in Hvis.
  exists msg. cbn [rep_mesId rep_summary rep_originalLength rep_summaryLength].
  rewrite Z.sub_diag. split; [reflexivity|]. split; [lia|].
  split; [exact Hvis|]. split; [exact Hsum|].
  unfold hasSummary in Hsum.
  destruct (tr_summary (extraOf msg)) as [s|]; [|discriminate].
  repeat split.
Qed.

(** X20.  [getMessagesForReplacement] lists, in chat order, the visible
    messages that have a summary, each with its index in the chat and
    the summary [getMessageSummary] reads for it; the list is as long as
    the [summarizedCount] of [getTotalSavings], and empty when summaries
    do not replace bodies. *)
Theorem getMessagesForReplacement_agrees w :
  exists reps sv,
    getMessagesForReplacement w = (Ok reps, w)
    /\ getTotalSavings w = (Ok sv, w)
    /\ Z.of_nat (length reps) = summarizedCount sv
    /\ List.map rep_mesId reps
       = (if replace_with_summary (settings w)
          then indicesFrom 0 (fun m => hasSummary m && negb (is_system m)) (chat w)
          else [])
    /\ Forall (fun r =>
                 getMessageSummary (rep_mesId r) w = (Ok (Some (rep_summary r)), w)
                 /\ rep_summaryLength r = Z.of_nat (String.length (rep_summary r)))
         reps.
Proof.
  unfold getMessagesForReplacement, gets.
  eexists. exists (totalSavings (replace_with_summary (settings w))
                     (breakdownFrom 0 (chat w))).
  split; [reflexivity|]. split; [reflexivity|].
  destruct (totalSavings_fields (replace_with_summary (settings w)) (chat w))
    as (_ & _ & _ & Hn & _).
  rewrite Hn.
  destruct (replace_with_summary (settings w)); cbn [negb].
  - split; [rewrite replacementsFrom_length; reflexivity|].
    split; [apply replacementsFrom_ids|].
    apply List.Forall_forall. intros r Hin.
    destruct (replacementsFrom_items _ _ _ Hin)
      as (m & Hm & Hle & _ & Hsum & Htext & _ & Hlen).
    rewrite Z.sub_0_r in Hm. split; [|exact Hlen].
    unfold getMessageSummary, gets, elementAt.
    replace (rep_mesId r <? 0) with false by (symmetry; apply Z.ltb_ge; lia).
    rewrite Hm, Hsum, Htext. reflexivity.
  - split; [reflexivity|]. split; [reflexivity | constructor].
Qed.

(** X21.  [estimateSavings] answers 0 for an index outside the chat and
    for a hidden message.  For a visible message it estimates the
    summary at a quarter of the body, rounded up; with token counts that
    are not negative the estimated saving is not negative and at most
    three quarters of the body. *)
Theorem estimateSavings_bounds (mesId : Z) w :
  (forall s : string, 0 <= getTokenCountAsync (H:=H) s) ->
  exists r,
    estimateSavings mesId w = (Ok r, w)
    /\ match r with
       | None =>
           elementAt (chat w) mesId = None
           \/ exists m, elementAt (chat w) mesId = Some m /\ is_system m = true
       | Some e =>
           exists m,
             elementAt (chat w) mesId = Some m /\ is_system m = false
             /\ est_original e = getTokenCountAsync (mes m)
             /\ est_original e <= 4 * est_estimated e < est_original e + 4
             /\ est_savings e = est_original e - est_estimated e
             /\ 0 <= est_savings e
             /\ 4 * est_savings e <= 3 * est_original e
       end.
Proof.
  intros Hcount. unfold estimateSavings, gets.
  destruct (elementAt (chat w) mesId) as [m|] eqn:Hm.
  2:{ exists None. split; [reflexivity | left; reflexivity]. }
  destruct (is_system m) eqn:Hsys.
  { exists None. split; [reflexivity|]. right. exists m. auto. }
  eexists. split; [reflexivity|]. exists m.
  cbn [est_original est_estimated est_savings].
  specialize (Hcount (mes m)).
  set (n := getTokenCountAsync (mes m)) in *.
  assert (Hceil : Qceiling (inject_Z n * (1 # 4)) = - ((- n) / 4)).
  { unfold Qceiling, Qfloor, Qopp, Qmult, inject_Z. simpl.
    rewrite Z.mul_1_r. reflexivity. }
  rewrite Hceil.
  pose proof (Z_div_mod_eq_full (- n) 4) as Hdiv.
  pose proof (Z.mod_pos_bound (- n) 4 ltac:(lia)) as Hmod.
  repeat split; try reflexivity; try assumption; lia.
Qed.
End TokenModes.

(** [estimateSavings_bounds] on the first message of [greeting], of 23
    tokens: the summary is estimated at 6 tokens. *)
Lemma estimateSavings_bounds_witness :
  (forall s : string, 0 <= getTokenCountAsync (H:=Scripted) s)
  /\ estimateSavings 0 noProfileWorld = (Ok (Some (mkEstimate 23 6 17)), noProfileWorld)
  /\ estimateSavings 2 noProfileWorld = (Ok None, noProfileWorld).
Proof.
  assert (Hcount : forall s : string, 0 <= getTokenCountAsync (H:=Scripted) s)
    by (intros s; simpl; lia).
  split; [exact Hcount|].
  destruct (estimateSavings_bounds 0 noProfileWorld Hcount) as (r & Hrun & _).
  destruct (estimateSavings_bounds 2 noProfileWorld Hcount) as (r2 & Hrun2 & _).
  split.
  - rewrite Hrun. vm_compute in Hrun. injection Hrun as <-. reflexivity.
  - rewrite Hrun2. vm_compute in Hrun2. injection Hrun2 as <-. reflexivity.
Defined.

(** [getTotalSavings_two_modes] on [mixedChat] with replacement on. *)
Lemma getTotalSavings_two_modes_witness :
  exists sv,
    getTotalSavings (replacingWorld mixedChat) = (Ok sv, replacingWorld mixedChat)
    /\ saved sv = potentialSaved sv
    /\ summarizedCount sv = totalSummaries sv.
Proof.
  destruct (getTotalSavings_two_modes (replacingWorld mixedChat))
    as (sv & Hrun & _ & _ & Hon & _).
  exists sv. split; [exact Hrun|]. apply Hon. reflexivity.
Defined.

(** ** Clearing summaries twice, and the accounting afterwards *)

Lemma clearMessage_fixed (m : Message) :
  hasSummary m = false -> hasSceneSummary m = false -> clearMessage m = (m, 0).
Proof.
  intros Hs Hss. pose proof (clearMessage_count m) as Hcount.
  pose proof (clearMessage_effect m) as Heff. cbv zeta in Heff.
  destruct Heff as (_ & _ & _ & _ & _ & _ & _ & _ & _ & Hsame & _).
  rewrite Hs, Hss in Hcount.
  destruct (clearMessage m) as [m' n]. simpl in *.
  rewrite (Hsame Hs Hss). f_equal. lia.
Qed.

Lemma clearMessage_cleared (m : Message) :
  hasSummary (fst (clearMessage m)) = false
  /\ hasSceneSummary (fst (clearMessage m)) = false.
Proof.
  pose proof (clearMessage_effect m) as Heff. cbv zeta in Heff.
  destruct Heff as (_ & _ & _ & _ & Hs & Hss & _). auto.
Qed.

Lemma filter_none {A} (p : A -> bool) (l : list A) :
  (forall x, In x l -> p x = false) -> List.filter p l = [].
Proof.
  induction l as [|x l IH]; intros Hall; [reflexivity|].
  cbn [List.filter]. rewrite (Hall x) by (left; reflexivity).
  apply IH. intros y Hy. apply Hall. right. exact Hy.
Qed.

Section ClearTwice.
Context {H : Type} `{HostAPI H}.
Implicit Types (w : World H).

(** Whatever [clearAllSummaries] returns, the chat it leaves is the chat
    with every message cleared. *)
Lemma clearAllSummaries_chat w :
  chat (snd (clearAllSummaries w)) = List.map (fun m => fst (clearMessage m)) (chat w)
  /\ settings (snd (clearAllSummaries w)) = settings w.
Proof.
  unfold clearAllSummaries. rewrite bind_get.
  erewrite bind_Ok by reflexivity.
  set (w1 := setChat _ w).
  assert (Hc1 : chat w1 = List.map (fun m => fst (clearMessage m)) (chat w)).
  { unfold w1. cbn [chat setChat]. rewrite List.map_map. reflexivity. }
  assert (Hs1 : settings w1 = settings w) by reflexivity.
  destruct (0 <? _).
  - destruct (saveChat_frame w1) as (r & w2 & Hsv & (Hc2 & Hs2 & _) & [-> | ->]).
    + rewrite ?bind_assoc, (bind_Ok _ _ _ _ _ Hsv).
      match goal with
      | |- context [notify ?t ?m] =>
          destruct (notify_spec t m w2) as (w3 & Hn & (Hc3 & Hs3 & _) & _)
      end.
      rewrite (bind_Ok _ _ _ _ _ Hn). cbn [snd ret]. split; congruence.
    + rewrite ?bind_assoc, (bind_Throw _ _ _ _ _ Hsv). cbn [snd]. split; congruence.
  - match goal with
    | |- context [notify ?t ?m] =>
        destruct (notify_spec t m w1) as (w3 & Hn & (Hc3 & Hs3 & _) & _)
    end.
    rewrite ?bind_assoc, (bind_Ok _ _ _ _ _ Hn). cbn [snd ret]. split; congruence.
Qed.

(** On a chat without summaries [clearAllSummaries] returns 0, leaves the
    chat as it is and does not save it. *)
Lemma clearAllSummaries_nothing w :
  Forall (fun m => hasSummary m = false /\ hasSceneSummary m = false) (chat w) ->
  exists w', clearAllSummaries w = (Ok 0, w')
             /\ chat w' = chat w /\ host w' = host w /\ settings w' = settings w
             /\ memoryCache w' = memoryCache w.
Proof.
  intros Hnone.
  assert (Hmap : List.map clearMessage (chat w) = List.map (fun m => (m, 0)) (chat w)).
  { apply map_ext_in. intros m Hin.
    destruct (proj1 (List.Forall_forall _ _) Hnone m Hin) as [Hs Hss].
    apply clearMessage_fixed; assumption. }
  unfold clearAllSummaries. rewrite bind_get. rewrite Hmap.
  rewrite !List.map_map. cbn [fst snd]. rewrite List.map_id.
  assert (Hzero : forall l : list Message,
            fold_left Z.add (List.map (fun _ : Message => 0) l) 0 = 0).
  { intros l. induction l as [|m l IH]; [reflexivity | exact IH]. }
  rewrite Hzero. cbn [Z.ltb Z.compare].
  erewrite bind_Ok by reflexivity. rewrite setChat_same.
  destruct (notify_spec "info" "No summaries to clear" w)
    as (w1 & Hn & (Hc & Hs & _ & _ & Hmc & _) & _ & Hh & _).
  rewrite ?bind_assoc, (bind_Ok _ _ _ _ _ Hn).
  exists w1. split; [reflexivity|]. auto.
Qed.

(** X22.  Clearing is idempotent.  Whatever the first run of
    [clearAllSummaries] did, also when it threw because the chat could
    not be saved, a second run finds nothing to clear: it returns 0,
    leaves the chat as the first run left it and does not ask the host to
    save. *)
Theorem clearAllSummaries_twice w :
  let w1 := snd (clearAllSummaries w) in
  exists w2,
    clearAllSummaries w1 = (Ok 0, w2)
    /\ chat w2 = chat w1
    /\ host w2 = host w1
    /\ Forall (fun m => hasSummary m = false /\ hasSceneSummary m = false) (chat w2).
Proof.
  intros w1.
  assert (Hclean : Forall (fun m => hasSummary m = false /\ hasSceneSummary m = false)
                     (chat w1)).
  { unfold w1. rewrite (proj1 (clearAllSummaries_chat w)).
    apply List.Forall_forall. intros m Hin.
    apply in_map_iff in Hin as (m0 & <- & _). apply clearMessage_cleared. }
  destruct (clearAllSummaries_nothing w1 Hclean) as (w2 & Hrun & Hc & Hh & _).
  exists w2. split; [exact Hrun|]. split; [exact Hc|]. split; [exact Hh|].
  rewrite Hc. exact Hclean.
Qed.

Lemma counted_cleared (c : list Message) :
  counted (List.map (fun m => fst (clearMessage m)) c)
  = List.map (fun m => fst (clearMessage m)) (counted c).
Proof.
  unfold counted. induction c as [|m c IH]; [reflexivity|].
  cbn [List.map List.filter].
  pose proof (clearMessage_effect m) as Heff. cbv zeta in Heff.
  destruct Heff as (_ & _ & Hsys & _). rewrite Hsys.
  destruct (is_system m); cbn [negb List.map]; rewrite IH; reflexivity.
Qed.

(** X23.  After [clearAllSummaries] the accounting shows no saving at
    all, in either mode: no summary is left among the visible messages,
    nothing is saved or could be saved, and the original total is that of
    the chat before clearing. *)
Theorem clearAllSummaries_then_no_savings w :
  let w1 := snd (clearAllSummaries w) in
  exists sv,
    getTotalSavings w1 = (Ok sv, w1)
    /\ original sv = originalTotal (H:=H) (chat w)
    /\ current sv = original sv
    /\ saved sv = 0 /\ potentialSaved sv = 0
    /\ totalSummaries sv = 0 /\ summarizedCount sv = 0.
Proof.
  intros w1.
  exists (totalSavings (replace_with_summary (settings w1)) (breakdownFrom 0 (chat w1))).
  split; [reflexivity|].
  destruct (totalSavings_fields (replace_with_summary (settings w1)) (chat w1))
    as (Ho & Hc & Hs & Hn & Hp & Ht).
  assert (Hchat : chat w1 = List.map (fun m => fst (clearMessage m)) (chat w))
    by apply clearAllSummaries_chat.
  assert (Horig : originalTotal (H:=H) (chat w1) = originalTotal (H:=H) (chat w)).
  { unfold originalTotal. rewrite Hchat, counted_cleared, List.map_map.
    f_equal. apply map_ext. intros m.
    pose proof (clearMessage_effect m) as Heff. cbv zeta in Heff.
    destruct Heff as (_ & Hmes & _). rewrite Hmes. reflexivity. }
  assert (Heff : forall r, effectiveTotal (H:=H) r (chat w1)
                           = originalTotal (H:=H) (chat w1)).
  { intros r. unfold effectiveTotal, originalTotal. f_equal.
    apply map_ext_in. intros m Hin. unfold effectiveTokens.
    assert (Hm : hasSummary m = false).
    { unfold counted in Hin. apply filter_In in Hin as [Hin _].
      rewrite Hchat in Hin. apply in_map_iff in Hin as (m0 & <- & _).
      apply clearMessage_cleared. }
    rewrite Hm. reflexivity. }
  assert (Hnone : List.filter hasSummary (counted (chat w1)) = []).
  { apply filter_none. intros m Hin.
    unfold counted in Hin. apply filter_In in Hin as [Hin _].
    rewrite Hchat in Hin. apply in_map_iff in Hin as (m0 & <- & _).
    apply clearMessage_cleared. }
  rewrite Hnone in Hn, Ht. rewrite !Heff in Hc, Hs, Hp.
  assert (Hcount : summarizedCount
                     (totalSavings (replace_with_summary (settings w1))
                        (breakdownFrom 0 (chat w1))) = 0)
    by (destruct (replace_with_summary (settings w1)); exact Hn).
  simpl length in Ht.
  split; [lia|]. split; [lia|]. split; [lia|]. split; [lia|].
  split; [exact Ht | exact Hcount].
Qed.
End ClearTwice.

(** On [clearedChat]: two summaries are cleared, then none. *)
Example clearAllSummaries_twice_example :
  exists w1 w2,
    clearAllSummaries clearedWorld = (Ok 2, w1)
    /\ clearAllSummaries w1 = (Ok 0, w2)
    /\ chat w2 = chat w1.
Proof. do 2 eexists. split; [|split]; vm_compute; reflexivity. Qed.

(** ** The timeline: what is saved is what is loaded *)

Section TimelineMore.
Context {H : Type} `{HostAPI H}.
Implicit Types (w : World H).

Lemma loadTimelineData_saved w :
  tr_timeline w = Some (timelineData w) ->
  loadTimelineData w = (Ok (timelineData w), w).
Proof.
  intros Hsaved. unfold loadTimelineData.
  erewrite bind_Ok by reflexivity. rewrite Hsaved.
  unfold gets. destruct w. reflexivity.
Qed.

(** X24.  The timeline survives a reload: after [addChapter], and after
    an [updateChapter] or a [removeChapter] with a valid number,
    [loadTimelineData] returns the timeline just as the operation left
    it and changes nothing.  On a chat that has no saved timeline it
    empties the timeline. *)
Theorem timeline_saved_is_loaded w :
  (forall s a b,
     exists n w1,
       addChapter s a b w = (Ok n, w1)
       /\ loadTimelineData w1 = (Ok (timelineData w ++ [mkChapter s a b]), w1))
  /\ (forall n s, 1 <= n <= Z.of_nat (length (timelineData w)) ->
        exists w1,
          updateChapter n s w = (Ok true, w1)
          /\ loadTimelineData w1 = (Ok (timelineData w1), w1)
          /\ getChapterCount w1 = (Ok (Z.of_nat (length (timelineData w))), w1))
  /\ (forall n, 1 <= n <= Z.of_nat (length (timelineData w)) ->
        exists c w1,
          removeChapter n w = (Ok (Some c), w1)
          /\ loadTimelineData w1 = (Ok (timelineData w1), w1)
          /\ getChapterCount w1 = (Ok (Z.of_nat (length (timelineData w)) - 1), w1))
  /\ (tr_timeline w = None ->
        exists w1,
          loadTimelineData w = (Ok [], w1)
          /\ getChapterCount w1 = (Ok 0, w1)
          /\ forall n, getChapter n w1 = (Ok None, w1)).
Proof.
  split; [|split; [|split]].
  - intros s a b. eexists. eexists. split; [reflexivity|].
    apply loadTimelineData_saved. reflexivity.
  - intros n s Hn. unfold updateChapter. rewrite bind_get.
    rewrite inRange_false by exact Hn.
    eexists. split; [reflexivity|].
    split; [apply loadTimelineData_saved; reflexivity|].
    unfold getChapterCount, gets. cbn. rewrite length_alter. reflexivity.
  - intros n Hn. unfold removeChapter. rewrite bind_get.
    rewrite inRange_false by exact Hn.
    destruct (lookup_lt_is_Some_2 (timelineData w) (Z.to_nat (n - 1)) ltac:(lia))
      as [c Hc].
    exists c. eexists. split; [cbn; rewrite Hc; reflexivity|].
    split; [apply loadTimelineData_saved; reflexivity|].
    unfold getChapterCount, gets. cbn.
    rewrite length_delete by (exists c; exact Hc). do 2 f_equal. lia.
  - intros Hnone. unfold loadTimelineData.
    erewrite bind_Ok by reflexivity. rewrite Hnone.
    eexists. split; [reflexivity|]. split; [reflexivity|].
    intros n. unfold getChapter. rewrite bind_get. cbn [timelineData setTimelineData length].
    destruct ((n <? 1) || (n >? Z.of_nat 0)) eqn:Hr; [reflexivity|].
    apply orb_false_iff in Hr as [Hr1 Hr2].
    apply Z.ltb_ge in Hr1. rewrite Z.gtb_ltb in Hr2. apply Z.ltb_ge in Hr2.
    simpl in Hr2. lia.
Qed.

Lemma concat_cons_prefix (sep x : string) (l : list string) :
  exists tail, JS.join sep (x :: l) = x +:+ tail.
Proof.
  unfold JS.join. destruct l as [|y l].
  - exists "". cbn [String.concat]. clear. induction x as [|c x IH]; [reflexivity|].
    rewrite append_cons, <- IH. reflexivity.
  - exists (sep +:+ String.concat sep (y :: l)). reflexivity.
Qed.

(** X25.  The text injected for the timeline is empty exactly when there
    is no chapter; otherwise it begins with the line of chapter 1, which
    names the messages the chapter covers. *)
Theorem getTimelineForInjection_empty_iff w :
  exists text,
    getTimelineForInjection w = (Ok text, w)
    /\ (text = "" <-> timelineData w = [])
    /\ (forall c rest, timelineData w = c :: rest ->
          exists tail,
            text = "Chapter 1 (Messages " +:+ showZ (startMsgId c) +:+ "-"
                   +:+ showZ (endMsgId c) +:+ "): " +:+ summary c +:+ tail).
Proof.
  unfold getTimelineForInjection, gets. eexists. split; [reflexivity|].
  destruct (timelineData w) as [|c rest] eqn:Htl.
  - split; [split; reflexivity|]. intros c rest Hc. discriminate.
  - cbn [length Nat.eqb imap].
    destruct (concat_cons_prefix (nl +:+ nl) (chapterLine 0 c)
                (imap (fun n => chapterLine (S n)) rest)) as [tail Htail].
    assert (Hline : chapterLine 0 c +:+ tail
                    = "Chapter 1 (Messages " +:+ showZ (startMsgId c) +:+ "-"
                      +:+ showZ (endMsgId c) +:+ "): " +:+ summary c +:+ tail).
    { unfold chapterLine. change (showZ (Z.of_nat 0 + 1)) with "1".
      rewrite !append_assoc. reflexivity. }
    split.
    + split; [|discriminate]. intros Hempty. exfalso.
      unfold compose in Hempty. rewrite Htail, Hline in Hempty. discriminate Hempty.
    + intros c0 rest0 Hc0. injection Hc0 as <- <-. exists tail.
      unfold compose. rewrite Htail. exact Hline.
Qed.
End TimelineMore.

(** [timeline_saved_is_loaded] on [threeChapters], whose timeline has not
    been saved yet: removing the second chapter saves the rest. *)
Lemma timeline_saved_is_loaded_witness :
  (exists w1, loadTimelineData threeChapters = (Ok [], w1))
  /\ exists c w1,
       removeChapter 2 threeChapters = (Ok (Some c), w1)
       /\ loadTimelineData w1
          = (Ok [mkChapter "Arrival" 0 19; mkChapter "Departure" 40 59], w1).
Proof.
  destruct (timeline_saved_is_loaded threeChapters) as (_ & _ & Hremove & Hfresh).
  split.
  - destruct (Hfresh eq_refl) as (w1 & Hload & _). exists w1. exact Hload.
  - destruct (Hremove 2) as (c & w1 & Hrun & Hload & _); [simpl; lia|].
    exists c, w1. split; [exact Hrun|]. rewrite Hload. f_equal.
    vm_compute in Hrun. injection Hrun as _ <-. reflexivity.
Defined.

(** The text for [threeChapters]. *)
Example getTimelineForInjection_threeChapters :
  getTimelineForInjection threeChapters
  = (Ok ("Chapter 1 (Messages 0-19): Arrival" +:+ nl +:+ nl
         +:+ "Chapter 2 (Messages 20-39): The feast" +:+ nl +:+ nl
         +:+ "Chapter 3 (Messages 40-59): Departure"), threeChapters).
Proof. vm_compute. reflexivity. Qed.

(** ** The scene timeline of the memory cache *)

Lemma sortInsert_ext {A} (c1 c2 : A -> A -> Q) (x : A) (l : list A) :
  (forall y, In y l -> Qle_bool (c1 x y) 0 = Qle_bool (c2 x y) 0) ->
  sortInsert c1 x l = sortInsert c2 x l.
Proof.
  induction l as [|y l IH]; intros Hext; [reflexivity|].
  cbn [sortInsert]. rewrite (Hext y) by (left; reflexivity).
  destruct (Qle_bool (c2 x y) 0); [reflexivity|].
  f_equal. apply IH. intros z Hz. apply Hext. right. exact Hz.
Qed.

Lemma sortBy_ext {A} (c1 : A -> A -> Q) (f : A -> Q) (l : list A) :
  (forall x y, In x l -> In y l ->
     Qle_bool (c1 x y) 0 = Qle_bool (f y - f x)%Q 0) ->
  sortBy c1 l = sortBy (fun a b => (f b - f a)%Q) l.
Proof.
  induction l as [|x l IH]; intros Hext; [reflexivity|].
  cbn [sortBy]. rewrite IH by (intros; apply Hext; right; assumption).
  apply sortInsert_ext. intros y Hy. apply Hext; [left; reflexivity|].
  right. exact (Permutation_in _ (sortBy_perm f l) Hy).
Qed.

Lemma StronglySorted_impl {A} (R R' : A -> A -> Prop) (l : list A) :
  (forall a b, R a b -> R' a b) -> StronglySorted R l -> StronglySorted R' l.
Proof.
  intros Himpl Hsorted. induction Hsorted as [|a l Hl IH Ha]; constructor; [exact IH|].
  eapply Forall_impl; [exact Ha|]. intros b. apply Himpl.
Qed.

Section MemoryTimeline.
Context {H : Type} `{HostAPI H}.
Implicit Types (w : World H).

(** X26.  When every scene entry of the cache knows its message,
    [getTimeline] returns the summaries of the scene entries, each once,
    ordered by the index of the message that ends the scene, whatever
    the order in which the scenes were summarized; entries of other
    types are left out. *)
Theorem getTimeline_in_chat_order w :
  (forall m, In m (memoryCache w) -> mem_type m = "scene" -> mem_mesId m <> None) ->
  exists scenes,
    getTimeline w = (Ok (List.map mem_summary scenes), w)
    /\ Permutation scenes
         (List.filter (fun m => (mem_type m =? "scene")%string) (memoryCache w))
    /\ StronglySorted
         (fun a b => default 0 (mem_mesId a) <= default 0 (mem_mesId b)) scenes.
Proof.
  intros Hids. unfold getTimeline, gets.
  set (scenes := List.filter (fun m => (mem_type m =? "scene")%string) (memoryCache w)).
  set (f := fun m : Memory => Qopp (inject_Z (default 0 (mem_mesId m)))).
  assert (Hext : sortBy byMesId scenes = sortBy (fun a b => (f b - f a)%Q) scenes).
  { apply sortBy_ext. intros x y Hx Hy.
    assert (Hsome : forall m, In m scenes -> exists i, mem_mesId m = Some i).
    { intros m Hm. unfold scenes in Hm. apply filter_In in Hm as [Hin Hty].
      apply String.eqb_eq in Hty.
      destruct (mem_mesId m) as [i|] eqn:Hi; [exists i; reflexivity|].
      exfalso. exact (Hids m Hin Hty Hi). }
    destruct (Hsome x Hx) as [i Hi]. destruct (Hsome y Hy) as [j Hj].
    unfold byMesId, f. rewrite Hi, Hj. cbn [default].
    apply eq_true_iff_eq. rewrite !Qle_bool_iff.
    unfold Qle, Qminus, Qplus, Qopp, inject_Z. simpl. lia. }
  exists (sortBy byMesId scenes). split; [reflexivity|].
  rewrite Hext. split; [apply sortBy_perm|].
  apply (StronglySorted_impl (before f)); [|apply sortBy_sorted].
  intros a b Hab. unfold before, f in Hab.
  unfold Qle in Hab. simpl in Hab. lia.
Qed.
End MemoryTimeline.

(** [getTimeline_in_chat_order] on a cache where the later scene was
    stored first and a message summary lies in between. *)
Lemma getTimeline_in_chat_order_witness :
  let w := world (mkScripted [] 0) "p" []
             [villageMemory; mkMemory "message" (Some 3) "A note." [] 5000;
              dragonMemory] [] in
  exists scenes,
    getTimeline w = (Ok (List.map mem_summary scenes), w)
    /\ length scenes = 2%nat
    /\ StronglySorted
         (fun a b => default 0 (mem_mesId a) <= default 0 (mem_mesId b)) scenes.
Proof.
  intros w.
  destruct (getTimeline_in_chat_order w) as (scenes & Hrun & Hperm & Hsorted).
  - intros m [<-|[<-|[<-|[]]]] Hty; simpl; discriminate.
  - exists scenes. split; [exact Hrun|]. split; [|exact Hsorted].
    rewrite (Permutation_length Hperm). reflexivity.
Defined.

(** The same cache, computed. *)
Example getTimeline_example :
  fst (getTimeline (world (mkScripted [] 0) "p" []
                      [villageMemory; mkMemory "message" (Some 3) "A note." [] 5000;
                       dragonMemory] []))
  = Ok ["The dragon sleeps."; "A village near the castle."].
Proof. vm_compute. reflexivity. Qed.
(** ** Retrieval with a query written by the model *)

Section RetrievalLLM.
Context {H : Type} `{HostAPI H}.
Implicit Types (w : World H).

(** Retrieval without query generation: the supplied query or the last
    visible user message, ranked against the cache; the state is not
    touched. *)
Lemma retrieveRelevantMemories_plain w (queryText : option string) :
  enable_llm_retrieval (settings w) = false ->
  retrieveRelevantMemories queryText w
  = (Ok (match effectiveQuery queryText (chat w) with
         | Some q =>
             if JS.truthy q
             then rankMemories (memoryCache w) q (dateNow (host w))
                    (max_retrieved_memories (settings w))
             else []
         | None => []
         end), w).
Proof.
  intros Hllm. unfold retrieveRelevantMemories, effectiveQuery.
  rewrite bind_get, Hllm. cbn [andb].
  erewrite bind_Ok by reflexivity. cbv zeta.
  destruct queryText as [q|]; cbn [truthyStr].
  - destruct (JS.truthy q) eqn:Hq.
    + cbn [truthyStr]. rewrite Hq. cbn [negb]. reflexivity.
    + destruct (lastUserMessage (chat w)) as [text|]; cbn [truthyStr].
      * destruct (JS.truthy text); reflexivity.
      * rewrite Hq. reflexivity.
  - destruct (lastUserMessage (chat w)) as [text|]; cbn [truthyStr].
    + destruct (JS.truthy text); reflexivity.
    + reflexivity.
Qed.

(** X27.  With query generation by the model enabled, the model is never
    asked: [generateRetrievalQuery] names a service that its module does
    not import, so the request fails before it is sent, and the failure
    is caught.  When a query is supplied, or when the setting
    [retrieval_query_prompt] is set, retrieval returns exactly what it
    returns with query generation disabled (the supplied query or else
    the body of the last visible user message is ranked) and the state is
    as before: no request, no toast, no write.  When no query is supplied
    and the setting is missing, as in the default settings, retrieval
    throws a [TypeError] and changes nothing. *)
Theorem retrieveRelevantMemories_with_model_query w (queryText : option string) :
  enable_llm_retrieval (settings w) = true ->
  (truthyStr queryText = true \/ retrieval_query_prompt (settings w) <> None ->
   retrieveRelevantMemories queryText w
   = (fst (retrieveRelevantMemories queryText (withoutLlmRetrieval w)), w))
  /\ (truthyStr queryText = false ->
      retrieval_query_prompt (settings w) = None ->
      retrieveRelevantMemories queryText w
      = (Throw (Error "Cannot read properties of undefined (reading 'replace')"), w)).
Proof.
  intros Hllm. split.
  - intros Hcase.
    rewrite (retrieveRelevantMemories_plain (withoutLlmRetrieval w) queryText eq_refl).
    cbn [fst withoutLlmRetrieval chat memoryCache host settings
         max_retrieved_memories].
    unfold retrieveRelevantMemories, effectiveQuery. rewrite bind_get, Hllm.
    destruct (truthyStr queryText) eqn:Hq.
    + cbn [andb negb]. erewrite bind_Ok by reflexivity. cbv zeta. rewrite Hq.
      destruct queryText as [q|]; [|discriminate]. cbn [truthyStr] in Hq.
      cbn [truthyStr]. rewrite Hq. cbn [negb]. reflexivity.
    + destruct Hcase as [Hyes|Hprompt]; [discriminate|].
      destruct (retrieval_query_prompt (settings w)) as [template|] eqn:Htemplate;
        [|contradiction].
      cbn [andb negb].
      unfold generateRetrievalQuery. rewrite ?bind_assoc, bind_get.
      rewrite Htemplate. unfold tryCatch, throw. monad.
      cbn [truthyStr]. rewrite Hq.
      destruct (lastUserMessage (chat w)) as [text|]; cbn [truthyStr].
      * destruct (JS.truthy text); reflexivity.
      * rewrite Hq. reflexivity.
  - intros Hnone Hprompt.
    unfold retrieveRelevantMemories. rewrite bind_get.
    rewrite Hllm, Hnone. cbn [andb negb].
    unfold generateRetrievalQuery. rewrite ?bind_assoc, bind_get.
    rewrite Hprompt. reflexivity.
Qed.
End RetrievalLLM.

(** [retrieveRelevantMemories_with_model_query] on a state whose model
    would answer "  dragon ": with the template set the last user message
    is the query, as without query generation, its word "the" matching
    both entries, and the model has not been asked; without the template
    retrieval throws. *)
Lemma retrieveRelevantMemories_with_model_query_witness :
  retrieveRelevantMemories None (llmWorld (Some "Write a search query for: {{content}}"))
  = (Ok [villageMemory; dragonMemory],
     llmWorld (Some "Write a search query for: {{content}}"))
  /\ retrieveRelevantMemories None (llmWorld None)
     = (Throw (Error "Cannot read properties of undefined (reading 'replace')"),
        llmWorld None).
Proof.
  split.
  - destruct (retrieveRelevantMemories_with_model_query
                (llmWorld (Some "Write a search query for: {{content}}")) None)
      as (Hsame & _); [reflexivity|].
    rewrite Hsame; [reflexivity | right; discriminate].
  - destruct (retrieveRelevantMemories_with_model_query (llmWorld None) None)
      as (_ & Hthrow); [reflexivity|].
    apply Hthrow; reflexivity.
Defined.

(** ** Editing a summary by hand *)

Section EditFacts.
Context {H : Type} `{HostAPI H}.
Implicit Types (w : World H).

(** X28.  [editSummary] with a text [s] for a message of the chat, the
    chat being saved, makes [s] the summary that [getMessageSummary]
    reads, or no summary at all if [s] is empty, in which case the
    field stays on the message as an empty text; the body, the
    visibility and the scene fields of the message, the other messages
    and the memory cache, which keeps the entry of the earlier summary,
    are unchanged.  A cancelled popup changes nothing. *)
Theorem editSummary_then_read (mesId : Z) (s : string) (m : Message) w :
  0 <= mesId ->
  chat w !! Z.to_nat mesId = Some m ->
  fst (saveChat (host w)) = Some tt ->
  editSummary mesId None w = (Ok tt, w)
  /\ exists w',
       editSummary mesId (Some s) w = (Ok tt, w')
       /\ getMessageSummary mesId w' = (Ok (if JS.truthy s then Some s else None), w')
       /\ isMessageSummarized mesId w' = (Ok (JS.truthy s), w')
       /\ (exists m', chat w' !! Z.to_nat mesId = Some m'
             /\ tr_summary (extraOf m') = Some s
             /\ mes m' = mes m /\ is_system m' = is_system m
             /\ tr_scene_end (extraOf m') = tr_scene_end (extraOf m)
             /\ tr_scene_summary (extraOf m') = tr_scene_summary (extraOf m))
       /\ (forall i, i <> Z.to_nat mesId -> chat w' !! i = chat w !! i)
       /\ memoryCache w' = memoryCache w.
Proof.
  intros Hpos Hm Hsave. split; [reflexivity|].
  unfold editSummary. rewrite bind_get. unfold elementAt.
  replace (mesId <? 0) with false by (symmetry; apply Z.ltb_ge; lia).
  rewrite Hm. erewrite bind_Ok by reflexivity.
  set (w1 := setChat _ w).
  assert (Hsv : exists w2, hostTry "saveChat" saveChat w1 = (Ok tt, w2)
                           /\ gatewayFrame w1 w2).
  { unfold hostTry, hostCall. monad.
    change (host w1) with (host w).
    destruct (saveChat (host w)) as [[[]|] h]; simpl in Hsave; [|discriminate].
    eexists. split; [reflexivity|]. repeat split. }
  destruct Hsv as (w2 & Hsv & (Hc2 & _ & _ & _ & Hmc2 & _)).
  rewrite (bind_Ok _ _ _ _ _ Hsv).
  destruct (notify_spec "success" "Summary updated" w2)
    as (w3 & Hn & (Hc3 & _ & _ & _ & Hmc3 & _) & _).
  exists w3. split; [exact Hn|].
  assert (Hchat : chat w3 = alter (setSummary s (dateNow (host w))) (Z.to_nat mesId)
                              (chat w)) by (rewrite Hc3, Hc2; reflexivity).
  assert (Hat : chat w3 !! Z.to_nat mesId = Some (setSummary s (dateNow (host w)) m)).
  { rewrite Hchat, list_lookup_alter_eq, Hm. reflexivity. }
  split.
  { unfold getMessageSummary, gets, elementAt.
    replace (mesId <? 0) with false by (symmetry; apply Z.ltb_ge; lia).
    rewrite Hat. unfold hasSummary. cbn [setSummary extraOf extra tr_summary truthyStr].
    reflexivity. }
  split.
  { unfold isMessageSummarized, gets, elementAt.
    replace (mesId <? 0) with false by (symmetry; apply Z.ltb_ge; lia).
    rewrite Hat. reflexivity. }
  split; [eexists; split; [exact Hat|]; repeat split|].
  split; [|rewrite Hmc3, Hmc2; reflexivity].
  intros i Hne. rewrite Hchat. apply list_lookup_alter_ne. congruence.
Qed.
End EditFacts.

(** [editSummary_then_read] on the second message of [greeting], for a
    text and for the empty text. *)
Lemma editSummary_then_read_witness :
  (exists w', editSummary 1 (Some "Bob greets.") noProfileWorld = (Ok tt, w')
              /\ getMessageSummary 1 w' = (Ok (Some "Bob greets."), w'))
  /\ (exists w', editSummary 1 (Some "") noProfileWorld = (Ok tt, w')
                 /\ getMessageSummary 1 w' = (Ok None, w')
                 /\ exists m', chat w' !! 1%nat = Some m'
                               /\ tr_summary (extraOf m') = Some "").
Proof.
  split.
  - destruct (editSummary_then_read 1 "Bob greets." (plain "Bob" "Well met." false)
                noProfileWorld) as (_ & w' & Hrun & Hread & _);
      [lia | reflexivity | reflexivity |].
    exists w'. split; [exact Hrun | exact Hread].
  - destruct (editSummary_then_read 1 "" (plain "Bob" "Well met." false)
                noProfileWorld) as (_ & w' & Hrun & Hread & _ & (m' & Hm' & Hsum & _) & _);
      [lia | reflexivity | reflexivity |].
    exists w'. split; [exact Hrun|]. split; [exact Hread|].
    exists m'. split; [exact Hm' | exact Hsum].
Defined.
